(* ===== verification/_CoqProject ===== *)
-Q . S2P
Prelude.v
Cid.v
Slice.v
Counting.v
SliceRef.v
SliceBuffer.v
Mpscq.v
ListEntry.v
RefCounted.v
Atomic.v
HostPort.v
SockAddr.v
Status.v
Property.v
OS.v
SocketSetting.v
WinSocketSetting.v
Resolve.v
Endpoint.v
Epoll.v
Connection.v
WinConnection.v
Time.v
Sync.v
Monitor.v
CString.v
Color.v
TestUtil.v
Multimap.v
Thread.v
ThreadRun.v
WinUtils.v
Log.v
PollingThread.v
Iocp.v
Ledger.v
Options.v
TcpListener.v
TcpConnector.v
WinTcpConnector.v
WinTcpListener.v
Timer.v
SlotTable.v
Container.v
Surface.v
ContainerSafety.v
ContainerThreads.v
WinContainer.v
ContainerLife.v
ConnectionRace.v
Races.v
TestServer.v
TestClient.v
Echo.v
EchoClient.v
EchoStats.v
EchoMain.v
