(* ===== verification/Prelude.v ===== *)
(** * raptor-lite: a verification library

    raptor-lite is a C++ library for TCP servers and clients.  This library models
    it, function by function, as Rocq definitions that run, and proves what makes it
    correct and where it is not.  Both ports are modelled, Linux (src/linux) and Windows
    (src/windows); see "Not modelled" for the rest.

    ** The program

    A user creates an [Acceptor] and a [Connector] (src/surface), which own a listener
    and a connector (src/linux/tcp_listener.cc, tcp_connector.cc): each runs a polling
    thread (epoll_thread.cc) on an epoll instance (epoll.cc), prepares sockets
    (socket_setting.cc, socket_util.cc, resolve_address.cc), and gives the user's handler
    an [Endpoint] for every connected descriptor.  The user attaches endpoints to a
    [Container] (container_impl.cc): it puts a [Connection] (connection.cc) in a slot,
    names it by a connection id (cid.h), and registers it with its two polling threads.
    Their events make the connection read the socket into a slice buffer
    (slice_buffer.cc), cut packets from it and hand them to the container, which queues
    them (mpscq.cc) for the message threads (thread.cc) that call the user's handlers.  A
    timer thread (timer.cc) makes heartbeats, and each round of the receiving thread
    checks the deadlines.  On Windows all polling threads of a process share one
    completion port and its workers (iocp.cc, iocp_thread.cc), reads and writes are
    overlapped, and accepts and connects are started ahead.  Slices, shared pointers, intrusive lists, properties, the log
    and its helpers (src/utils, include/raptor-lite) carry all this.

    ** The files

    Utilities:
    - Prelude.v: this text; machine integers (wrap-around written out), bytes, the
      outcomes of a call ([Ret], [Undef] for undefined behaviour, [Abort] for a failed
      assertion, [NoFuel]), the state monad [M] with its [wp], association lists.
    - Cid.v: src/common/cid.h.
    - Slice.v, SliceBuffer.v: slice.cc, slice_buffer.cc; the buffer is proved
      against the interface [SliceOps]/[SliceLaws], which [Slice] implements.
    - Counting.v, SliceRef.v, RefCounted.v: reference counts of slices and of
      ref_counted.h, ref_counted_ptr.h.  Atomic.v: atomic.h, and a reference count that
      threads share.
    - Mpscq.v: mpscq.cc, run alone and in any interleaving of its atomic accesses.
    - ListEntry.v: list_entry.cc on a heap.  Property.v: property.h.  Status.v:
      status.cc and event.h.  Time.v, Thread.v, Sync.v: time.cc, thread.cc, sync.cc and
      cpu.cc.  ThreadRun.v: the owner of a thread object and the new thread, interleaved
      over the mutex and condition variable of sync.h.  Monitor.v: the classes of sync.h,
      for any threads and any state they share.  CString.v, Color.v, Log.v: string.cc,
      color.cc, log.cc and init.cc.  WinUtils.v: what time.cc, sync.cc, cpu.cc, thread.cc
      and color.cc do on Windows.
      Multimap.v: the [std::multimap] the slots and the timer use.
    - TestUtil.v: the test framework, testutil.h and testutil.cc.
    Network:
    - HostPort.v, SockAddr.v, Resolve.v: host_port.cc, socket_util.cc,
      resolve_address.cc.
    - OS.v: the process.  A [Kernel] is any function that answers system calls; the
      state records calls and answers, and [errno].  [LibC] has the library functions
      that only compute.  [fd_spec], [resources] and the files' [quiet] database say
      which descriptors a computation opens and closes.  [InProcess] is the interface of
      a state that has such a process in it.
    - SocketSetting.v, Options.v: socket_setting.cc and the user's socket options.
    - Endpoint.v: endpoint_impl.cc.  Epoll.v, PollingThread.v: epoll.cc,
      epoll_thread.cc and service.h.  Connection.v: connection.cc.
    - Ledger.v: the accounting logic of the components that own descriptors.
    - TcpListener.v, TcpConnector.v: tcp_listener.cc, tcp_connector.cc.  They are proved
      for any handler that meets [HandlerLaws] or [ConnectorLaws], on any state that is
      [InProcess].
    - WinSocketSetting.v, WinConnection.v, Iocp.v, WinTcpConnector.v, WinTcpListener.v:
      the files of src/windows (Iocp.v: iocp.cc and iocp_thread.cc).  A connection is
      proved for any [ConnectionPoller]; that of Iocp.v is one.
    Container:
    - Timer.v: timer.cc.  SlotTable.v: the slots, records and free list of a container,
      with the class of maps they refine.  Container.v: container_impl.cc and the
      endpoint methods that go through it, on a [world] of endpoints, connections,
      slots, the queue and the process.  WinContainer.v: the same on Windows, with the
      workers that call it.  Surface.v: src/surface.
    - ContainerSafety.v: the invariant [inv_with P] of that world, where [P] says which
      endpoints own a descriptor, and that every method keeps [winv], its instance for
      methods that run alone.  ContainerThreads.v: the methods as sections under the lock,
      interleaved, and the invariant for a weaker [P].  ContainerLife.v: from construction
      to destruction.  ConnectionRace.v: the statements of two methods of one connection.
      Races.v: what else two threads can do to one another.
    Programs on the library:
    - Echo.v: the protocol and the server of example/echo_server.cc, in a connection and
      in a container.  EchoClient.v: the client of example/echo_client.cc, its handlers,
      worker and queue.  EchoStats.v: the loop of its main and the statistics it prints.
    - TestServer.v: example/tcp_server_test.cc, whole, on the models of the listener, the
      container and the resolver in one process.  TestClient.v: example/tcp_client_test.cc,
      whole, its main thread interleaved with the connector's.
    - EchoMain.v: how both echo programs start and stop, on the definitions of TestServer.v
      for a program that has a container ([HasContainer]).

    ** What is proved

    - The data path.  The packets delivered are those of the byte stream, whatever the
      segmentation into reads and events (recv_frames_stream); sending loses,
      repeats and reorders nothing (send_conserves_bytes); the slice buffer is a
      byte queue (slice_buffer_refines_queue) and slices concatenate and compare by their
      bytes; the parser returns exactly when the handler does not wait for more than it
      is shown (parsing_protocol_ends); the message queue is a FIFO under any interleaving
      (mpscq_interleaved_fifo, mpscq_quiescent_pop).
    - The container.  The slot table is a bounded map (slot_table_refines_map); any
      sequence of operations is defined and leaks no descriptor (container_safe) and keeps
      every id and deadline in the range of its type, and what is queued for endpoints that
      exist (container_typed); so are the calls of any threads, interleaved between the
      sections they hold the lock for, defined and without leak
      (container_interleaved_safe; the lemma enter_alone checks that a call nobody
      interrupts is the method); the timeout check ends and expires exactly what is due (timeout_check_exact); from
      Init to DestroyContainer everything is closed once (container_life); a
      connection closes and reports once (connection_closes_once).
    - Resources.  Listener, connector, polling threads and socket preparation close
      what they open, on every failing path (listener_life_closes_all,
      connector_life_closes_all, polling_thread_life, prepare_socket_no_leak), the first
      two while descriptor 0 is taken and the user's handler closes nothing: without that
      they do not (accepted_zero_leaks, closing_handler_closes_twice);
      reference counts are exact (slice_refs_exact, ref_counted_ptr_exact), also when
      threads share them (ref_count_interleaved); intrusive
      lists are lists (list_entry_refines_list); log messages are consumed in order and
      freed once, the filtered ones never (log_ledger); a new thread and its owner meet
      without deadlock and free what they share once (thread_handshake), if the
      constructor's last read comes in time (constructor_reads_freed_block).  What threads
      do under an AutoMutex is atomic, whatever the interleaving, and blocks for ever only
      when all wait (automutex_serial); it keeps what whole sections keep (sections_keep).
    - Values.  Ids, host:port strings, addresses and properties round-trip; log lines
      are written whole (log_line_complete); timed waits have an exact deadline
      (condvar_deadline); the timer thread calls OnTimer once for each due
      timer, in order (timer_fires_once); the options of
      a container are read as given within 32 bits (container_sizes_read).
    - The programs.  The test server closes what it opens, but the descriptors its full
      container refuses (server_descriptors).  So does the test client, at any time the
      connector's thread runs (test_client_safe), had it the lock it waits with
      (wait_without_lock); it can wait for a signal that was given before
      (deserted_forever).  The echo programs start the library with the options they name
      (echo_server_options, echo_client_options); the client hands each connection to its
      container (client_OnConnect_attaches), and aborts when a message comes after its
      worker was joined (client_exit_aborts), and reports for ever at the end of its input
      (main_loop_endless).  Echo client and server understand each other (echo_exchange), on
      any segmentation of the stream (echo_server_event); the client keeps one shared
      object per open connection and frees it once, but a response on a connection that is
      not open crashes it (client_objects_exact); it makes as many
      requests as it should, but never ends when that is 0 (client_conversation); the
      server trusts the length a peer announces, which can make it spin or read out of
      bounds (echo_header_not_checked).  Tests run in order up to the first that fails
      (run_all_tests).
    - Windows.  Overlapped sending loses nothing and keeps one write in flight
      (win_send_conserves); receiving frames the stream as on Linux (win_recv_frames);
      the shared adaptor closes its port and joins its threads once, whatever
      objects use it (iocp_ledger).  But: failed operations look like completed ones, so
      that reset connections stay, for any number of rounds (win_failed_operation_ignored), and failed connects are
      announced (win_failed_connect_reported); a connection is freed when it is closed,
      although its read is still to complete (win_close_dangles); no timeout is ever checked
      (win_no_timeout_check); the first polling thread's end stops them all
      (win_first_stops_all); a receive event can leave no read pending (win_recv_deaf); a
      message over 65535 bytes is never sent (win_large_message_stuck); shutting down the
      listener is undefined (win_listener_shutdown_undefined), and the connector
      after a refused connect (win_connect_failure_dangles).  A thread's handles are closed
      once (win_thread_handles) and a coloured line restores the console's attribute
      (win_color_line); the clock is exact until 2038 (win_clock_exact, win_clock_2038); a
      timed wait answers the reverse of what it does on Linux (win_condvar_reversed).
    - Where the Linux and the common code go wrong.  A stale endpoint sends to a new peer;
      a late handler deletes a new connection; a wake-up can be lost; a handler that needs
      a longer header makes the parser spin; an immediate connect is dropped and its error
      code lost; two closes of a connection that overlap can close a stranger's socket
      (shutdown_overlap); an acceptor whose Init fails leaks; descriptor 0 leaks; ToString
      reads past a slice; an idle timer spins or overflows; a failed resolution can report
      success.

    ** How the model stands to the code

    A method is a computation on the state its object keeps, in the order of its
    statements, with its guards and early returns.  Bit widths are written out where the
    code stores or casts; undefined operations ([nullptr], out of range, signed
    overflow) are [Undef], failed assertions [Abort].  Shared objects (endpoints,
    connections, list nodes, slice blocks) live in finite maps by address, so aliasing is
    kept.  A [shared_ptr] that goes away runs the destructor when it was the last.

    Loops have fuel only where the source's bound is not structural, and theorems show
    that the fuel given is enough: the parser gets the length of the buffer (each round
    but the spinning one removes a byte), sending one more than the bytes queued, the
    timeout loop the number of records, the log's clean-up one more than the messages.
    Receiving and connecting loop as long as the kernel keeps filling the buffer or
    interrupting: [short_within] and [connect_fuel] bound how often it does that in a
    row.  The Windows listener's [Shutdown] takes the number of its pops, which
    never end: any number beyond the length of the list meets the undefined one.

    On Windows a socket or handle that is invalid and a call that answers FALSE or NULL
    have a negative result, so that the process's last error is recorded as [errno] is.
    Threads are created and joined by the calls of Thread.v.

    Parameters: the kernel, getaddrinfo, strerror, inet_ntop and inet_pton, FormatMessage,
    GetAcceptExSockaddrs, malloc, localtime and strftime, when a vector moves to grow, and
    the user's handlers.  Hypotheses on them state documented
    behaviour only, each met by a concrete instance in a witness: recv and send return
    what they were asked at most ([KernelIO]), new threads have a name
    ([KernelThreads]), epoll_create returns a descriptor or -1
    ([KernelEpoll]), sockets are not descriptor 0 while standard input is open
    ([KernelSockets]); a packet-length handler answers within 1024 bytes
    ([header_fits]) and does not change its mind ([prefix_stable]); the clock is in its
    range ([KernelClock]) and rand() in its own ([RandLaws]).

    ** Not modelled

    - On Windows: the kernel's writes to the buffer of an accept; memory that is leaked
      and not freed twice; the variants of log.cc and of raptor_asprintf, which make the
      text of a line by other calls.
    - Mutexes: a method runs alone, as automutex_serial of Monitor.v lets what one mutex
      guards, except in Mpscq.v, RefCounted.v, Atomic.v, Log.v, ThreadRun.v,
      ContainerThreads.v, ConnectionRace.v, Races.v and TestClient.v, where the atomic
      steps of several threads interleave.  In ContainerThreads.v a step is a section
      under the container's lock or a method of a connection.  Memory orders: atomic
      accesses are sequentially consistent.
    - The effects of logging on stderr, outside Log.v: a call of the log changes
      nothing the other components read, and the texts made only to be logged are not
      evaluated.  A failed assertion's message is not kept.
    - Exceptions of allocation ([std::bad_alloc]); memory does not run out, except
      where the code tests for it.
    - The user's handlers beyond their results.  How a stream writes a number
      (example/echo_client.cc).
    - Files without behaviour of their own: the macros, the abstract interfaces of
      include/raptor-lite/impl, and the headers that include those of a platform. *)

From stdpp Require Export base tactics option list gmap relations strings.
From Stdlib Require Export ZArith Lia.
From Stdlib Require Export Strings.Byte.
From Stdlib Require Numbers.DecimalString.


(** ** Bytes and memory cells *)

Abbreviation byte := Byte.byte.

#[export] Instance byte_eq_dec : EqDecision byte := Byte.byte_eq_dec.

(** One byte of allocated memory: [None] is an indeterminate value (memory that
    was allocated and not written yet). *)
Abbreviation cell := (option byte).

(** ** Machine integers *)

Declare Scope raptor_scope.
Delimit Scope raptor_scope with raptor.

Definition wrap (w z : Z) : Z := (z mod 2 ^ w)%Z.
Definition u8 (z : Z) : Z := wrap 8 z.
Definition u16 (z : Z) : Z := wrap 16 z.
Definition u32 (z : Z) : Z := wrap 32 z.
Definition u64 (z : Z) : Z := wrap 64 z.
Definition swrap (w z : Z) : Z := (wrap w (z + 2 ^ (w - 1)) - 2 ^ (w - 1))%Z.
Definition i32 (z : Z) : Z := swrap 32 z.
Definition i64 (z : Z) : Z := swrap 64 z.

Lemma wrap_range w z : (0 <= w)%Z -> (0 <= wrap w z < 2 ^ w)%Z.
Proof. intros Hw. apply Z.mod_pos_bound. lia. Qed.

Lemma wrap_small w z : (0 <= z < 2 ^ w)%Z -> wrap w z = z.
Proof. apply Z.mod_small. Qed.

Lemma swrap_small w z :
  (0 < w)%Z -> (- 2 ^ (w - 1) <= z < 2 ^ (w - 1))%Z -> swrap w z = z.
Proof.
  intros Hw Hz. unfold swrap. rewrite wrap_small; [lia|].
  replace (2 ^ w)%Z with (2 * 2 ^ (w - 1))%Z; [lia|].
  rewrite <- Z.pow_succ_r by lia. f_equal. lia.
Qed.

Definition is_u16 (z : Z) : Prop := (0 <= z < 2 ^ 16)%Z.
Definition is_u32 (z : Z) : Prop := (0 <= z < 2 ^ 32)%Z.
Definition is_u64 (z : Z) : Prop := (0 <= z < 2 ^ 64)%Z.
Definition is_i64 (z : Z) : Prop := (- 2 ^ 63 <= z < 2 ^ 63)%Z.

Lemma i64_range z : is_i64 (i64 z).
Proof. unfold is_i64, i64, swrap. pose proof (wrap_range 64 (z + 2 ^ (64 - 1))). lia. Qed.

(** Shifting left and or-ing a value that fits below the shift adds it. *)
Lemma lor_shiftl_add k a b :
  (0 <= k)%Z -> (0 <= b < 2 ^ k)%Z -> Z.lor (Z.shiftl a k) b = (a * 2 ^ k + b)%Z.
Proof.
  intros Hk Hb. rewrite <- Z.shiftl_mul_pow2 by done.
  assert (Z.land (Z.shiftl a k) b = 0%Z) as Hl.
  { apply Z.bits_inj'. intros i Hi. rewrite Z.land_spec, Z.shiftl_spec, Z.bits_0 by done.
    destruct (Z.ltb_spec i k).
    - by rewrite Z.testbit_neg_r by lia.
    - rewrite <- (Z.mod_small b (2 ^ k)), Z.mod_pow2_bits_high by lia.
      apply andb_false_r. }
  rewrite Z.add_nocarry_lxor by done. by rewrite Z.lxor_lor.
Qed.

(** ** Lists *)

Lemma take_drop_commute' {A} (n m : nat) (l : list A) :
  m <= n -> take (n - m) (drop m l) = drop m (take n l).
Proof.
  intros H. rewrite take_drop_commute. do 2 f_equal. lia.
Qed.

(** Overwriting [length d] elements at [pos] of the window [off, off + len). *)
Lemma overwrite_in_window {A} (off len pos : nat) (d m : list A) :
  off + len <= length m -> pos + length d <= len ->
  take len (drop off (take (off + pos) m ++ d ++ drop (off + pos + length d) m)) =
  take pos (take len (drop off m)) ++ d ++ drop (pos + length d) (take len (drop off m)).
Proof.
  intros Hm Hd.
  rewrite drop_app_le by (rewrite length_take; lia).
  rewrite <- take_drop_commute.
  rewrite take_app_ge by (rewrite length_take, length_drop; lia).
  rewrite length_take, length_drop, Nat.min_l by lia.
  rewrite take_app_ge by lia.
  rewrite take_take, (Nat.min_l pos len) by lia. do 2 f_equal.
  rewrite <- take_drop_commute', drop_drop by lia. f_equal; [lia|f_equal; lia].
Qed.

(** Changing one summand. *)
Lemma sum_list_with_insert {A} (f : A -> nat) (l : list A) i x y :
  l !! i = Some x -> sum_list_with f (<[i := y]> l) + f x = sum_list_with f l + f y.
Proof.
  revert i. induction l as [|z l IH]; intros [|i] Hi; try done.
  - injection Hi as ->. change (f y + sum_list_with f l + f x = f x + sum_list_with f l + f y). lia.
  - specialize (IH i Hi). change (f z + sum_list_with f (<[i := y]> l) + f x = f z + sum_list_with f l + f y). lia.
Qed.

Lemma sum_list_with_lookup {A} (f : A -> nat) (l : list A) i x : l !! i = Some x -> f x <= sum_list_with f l.
Proof.
  revert i. induction l as [|z l IH]; intros [|i] Hi; try done.
  - injection Hi as ->. cbn. lia.
  - specialize (IH i Hi). cbn. lia.
Qed.

(** ** Outcomes: a call returns, runs into undefined behaviour, or aborts

    [NoFuel] is no outcome of a call: a loop that was given too few steps. *)

Inductive outcome (A : Type) : Type :=
  | Ret (a : A)
  | Undef
  | Abort
  | NoFuel.
Arguments Ret {A} _.
Arguments Undef {A}.
Arguments Abort {A}.
Arguments NoFuel {A}.

(** Stateful code with mutable state [S]. *)
Definition M (S A : Type) : Type := S -> outcome (A * S).

#[export] Instance M_ret {S} : MRet (M S) := fun A a s => Ret (a, s).
#[export] Instance M_bind {S} : MBind (M S) := fun A B f m s =>
  match m s with
  | Ret (a, s') => f a s'
  | Undef => Undef
  | Abort => Abort
  | NoFuel => NoFuel
  end.

Section Monad.
Context {S : Type}.

Definition gets {A} (f : S -> A) : M S A := fun s => Ret (f s, s).
Definition modify (f : S -> S) : M S unit := fun s => Ret (tt, f s).
Definition undef {A} : M S A := fun _ => Undef.
Definition abort {A} : M S A := fun _ => Abort.
Definition no_fuel {A} : M S A := fun _ => NoFuel.
Definition of_option {A} (o : option A) : M S A :=
  match o with Some a => mret a | None => undef end.
Definition raptor_assert (b : bool) : M S unit :=
  if b then mret tt else abort.
Definition when (b : bool) (m : M S unit) : M S unit :=
  if b then m else mret tt.

(** Weakest precondition: [m] returns from [s], with a result and a state in [Q]. *)
Definition wp {A} (m : M S A) (s : S) (Q : A -> S -> Prop) : Prop :=
  match m s with Ret (a, s') => Q a s' | _ => False end.

Lemma wp_ret {A} (a : A) s Q : Q a s -> wp (mret a) s Q.
Proof. done. Qed.

Lemma wp_bind {A B} (f : A -> M S B) m s Q :
  wp m s (fun a s' => wp (f a) s' Q) -> wp (m ≫= f) s Q.
Proof. unfold wp, mbind, M_bind. destruct (m s) as [[a s']| | |]; done. Qed.

Lemma wp_mono {A} (m : M S A) s (Q Q' : A -> S -> Prop) :
  wp m s Q -> (forall a s', Q a s' -> Q' a s') -> wp m s Q'.
Proof. unfold wp. destruct (m s) as [[a s']| | |]; auto. Qed.

Lemma wp_gets {A} (f : S -> A) s Q : Q (f s) s -> wp (gets f) s Q.
Proof. done. Qed.

Lemma wp_modify f s (Q : unit -> S -> Prop) : Q tt (f s) -> wp (modify f) s Q.
Proof. done. Qed.

Lemma wp_of_option {A} (o : option A) s Q :
  (exists a, o = Some a /\ Q a s) -> wp (of_option o) s Q.
Proof. intros (a & -> & HQ). done. Qed.

Lemma wp_when b m s (Q : unit -> S -> Prop) :
  (b = true -> wp m s Q) -> (b = false -> Q tt s) -> wp (when b m) s Q.
Proof. destruct b; cbn; intros H1 H2; [by apply H1|]. by apply H2. Qed.

Lemma wp_assert b s (Q : unit -> S -> Prop) :
  b = true -> Q tt s -> wp (raptor_assert b) s Q.
Proof. by intros -> ?. Qed.

Lemma wp_Ret {A} (m : M S A) s a s' (Q : A -> S -> Prop) :
  m s = Ret (a, s') -> wp m s Q -> Q a s'.
Proof. unfold wp. by intros ->. Qed.
End Monad.

(** Runs [m] on a part of a bigger state. *)
Definition zoom {S T A} (get : S -> T) (set : T -> S -> S) (m : M T A) : M S A :=
  fun s => match m (get s) with
           | Ret (a, t) => Ret (a, set t s)
           | Undef => Undef
           | Abort => Abort
           | NoFuel => NoFuel
           end.

Lemma wp_zoom {S T A} (get : S -> T) set (m : M T A) s (Q : A -> S -> Prop) :
  wp m (get s) (fun a t => Q a (set t s)) -> wp (zoom get set m) s Q.
Proof. unfold wp, zoom. destruct (m (get s)) as [[a t]| | |]; done. Qed.

(** ** Character strings *)

Definition str (s : String.string) : list byte := String.list_byte_of_string s.
#[global] Arguments str !s /.

(** What [%d] and [%u] print. *)
Definition dec (z : Z) : list byte := str (DecimalString.NilZero.string_of_int (Z.to_int z)).

(** ** Bytes as numbers *)

Definition byte_val (b : byte) : Z := Z.of_N (Byte.to_N b).
Definition byte_of (z : Z) : byte := default x00 (Byte.of_N (Z.to_N (z mod 256))).

Lemma byte_val_range b : (0 <= byte_val b < 256)%Z.
Proof. unfold byte_val. pose proof (Byte.to_N_bounded b). lia. Qed.

Lemma byte_of_val b : byte_of (byte_val b) = b.
Proof.
  unfold byte_of. pose proof (byte_val_range b). rewrite Z.mod_small by lia.
  unfold byte_val. by rewrite N2Z.id, Byte.of_to_N.
Qed.

Lemma byte_val_of z : byte_val (byte_of z) = (z mod 256)%Z.
Proof.
  unfold byte_of, byte_val. pose proof (Z.mod_pos_bound z 256 ltac:(lia)) as Hr.
  destruct (Byte.of_N (Z.to_N (z mod 256))) as [b|] eqn:E; cbn.
  - apply Byte.to_of_N in E. rewrite E. lia.
  - apply Byte.of_N_None_iff in E. lia.
Qed.

Lemma byte_val_inj b c : byte_val b = byte_val c -> b = c.
Proof. intros E. by rewrite <- (byte_of_val b), E, byte_of_val. Qed.

(** ** Tables of allocated objects: association lists keyed by the address *)

Definition assoc_find {A} (ptr : Z) (l : list (Z * A)) : option A :=
  '(_, x) ← list_find (fun x => x.1 = ptr) l; Some x.2.

Definition assoc_remove {A} (ptr : Z) (l : list (Z * A)) : list (Z * A) :=
  filter (fun x => x.1 <> ptr) l.

Lemma assoc_find_lookup {A} (l : list (Z * A)) i x :
  NoDup (fst <$> l) -> l !! i = Some x -> assoc_find x.1 l = Some x.2.
Proof.
  intros Hnd Hi. unfold assoc_find.
  destruct (list_find_elem_of (fun y => y.1 = x.1) l x) as ([j y] & Hf);
    [by eapply list_elem_of_lookup_2|done|].
  rewrite Hf. cbn. apply list_find_Some in Hf as (Hj & E & _).
  assert (i = j) as ->.
  { eapply NoDup_lookup; [exact Hnd| |]; rewrite list_lookup_fmap.
    - by rewrite Hi.
    - rewrite Hj. cbn. by rewrite E. }
  congruence.
Qed.

(** A new address at the end keeps the addresses distinct. *)
Lemma NoDup_new_ptr {A} (l : list (Z * A)) (next : Z) (x : A) :
  NoDup (fst <$> l) -> Forall (fun y => (y.1 < next)%Z) l -> NoDup (fst <$> (l ++ [(next, x)])).
Proof.
  intros Hnd Hlt. rewrite fmap_app. apply NoDup_app. split_and!; [done| |apply NoDup_singleton]. cbn.
  intros y Hy ->%list_elem_of_singleton. apply list_elem_of_fmap in Hy as ([z a] & E & Hin). cbn in E. subst.
  rewrite Forall_forall in Hlt. specialize (Hlt _ Hin). cbn in Hlt. lia.
Qed.

Lemma assoc_remove_fmap {A B} (f : A -> B) (l : list (Z * A)) i ptr x :
  NoDup (fst <$> l) -> l !! i = Some (ptr, x) ->
  (fun y => f y.2) <$> l ≡ₚ f x :: ((fun y => f y.2) <$> assoc_remove ptr l).
Proof.
  intros Hnd Hi. apply list_elem_of_split_length in Hi as (l1 & l2 & -> & _).
  rewrite fmap_app in Hnd. apply NoDup_app in Hnd as (_ & H1 & H2). cbn in H1, H2.
  apply NoDup_cons in H2 as [H2 _].
  assert (forall l' : list (Z * A), ptr ∉ fst <$> l' -> assoc_remove ptr l' = l') as Hid.
  { intros l' Hn. unfold assoc_remove. induction l' as [|[q z] l' IH]; [done|]. cbn in Hn.
    apply not_elem_of_cons in Hn as [Hq Hn]. rewrite filter_cons_True by (cbn; congruence). by rewrite IH. }
  unfold assoc_remove in *. rewrite filter_app, filter_cons_False by (cbn; congruence).
  rewrite (Hid l2) by done. rewrite (Hid l1).
  - rewrite !fmap_app. cbn. by rewrite Permutation_middle.
  - intros Hin. apply (H1 _ Hin). by left.
Qed.

Lemma assoc_remove_wf {A} (P : Z * A -> Prop) (l : list (Z * A)) ptr :
  NoDup (fst <$> l) -> Forall P l ->
  NoDup (fst <$> assoc_remove ptr l) /\ Forall P (assoc_remove ptr l).
Proof.
  intros Hnd HP. split.
  2:{ apply Forall_forall. intros x [_ Hx]%list_elem_of_filter. rewrite Forall_forall in HP. by apply HP. }
  eapply sublist_NoDup; [exact Hnd|]. apply fmap_sublist, sublist_filter.
Qed.
