(* ===== verification/Cid.v ===== *)
(** * Connection identifiers (src/common/cid.h)

    A [ConnectionId] is a [uint64_t] that packs a 16-bit magic number, the 16-bit
    listening port and a 32-bit user id (the container's slot index). *)

From S2P Require Import Prelude.

Local Open Scope Z_scope.

Definition InvalidConnectionId : Z := u64 (Z.lnot 0).

Definition BuildConnectionId (magic listen_port uid : Z) : Z :=
  let n := Z.lor (u32 (Z.shiftl (u32 magic) 16)) (u32 listen_port) in
  let r := Z.lor (u64 (Z.shiftl (u64 n) 32)) (u64 uid) in
  r.

Definition VerifyConnectionId (cid magic : Z) : bool :=
  if cid =? InvalidConnectionId then false
  else
    let n := u32 (Z.shiftr cid 32) in
    let r := u16 (Z.shiftr n 16) in
    magic =? r.

Definition GetMagicNumber (cid : Z) : Z :=
  let n := u32 (Z.shiftr cid 32) in
  u16 (Z.shiftr n 16).

Definition GetListenPort (cid : Z) : Z :=
  let n := u32 (Z.shiftr cid 32) in
  u16 (Z.land n 0xffff).

Definition GetUserId (cid : Z) : Z :=
  u32 (Z.land cid 0xffffffff).

(** ** The arithmetic value of the packed fields *)

Lemma land_ones16 z : Z.land z 0xffff = z mod 2 ^ 16.
Proof. change 0xffff with (Z.ones 16). apply Z.land_ones. lia. Qed.

Lemma land_ones32 z : Z.land z 0xffffffff = z mod 2 ^ 32.
Proof. change 0xffffffff with (Z.ones 32). apply Z.land_ones. lia. Qed.

Lemma BuildConnectionId_value magic port uid :
  is_u16 magic -> is_u16 port -> is_u32 uid ->
  BuildConnectionId magic port uid = magic * 2 ^ 48 + port * 2 ^ 32 + uid.
Proof.
  unfold BuildConnectionId, is_u16, is_u32, u32, u64. intros Hm Hp Hu.
  rewrite (wrap_small 32 magic), (wrap_small 32 port), (wrap_small 64 uid) by lia.
  rewrite (wrap_small 32 (Z.shiftl magic 16)) by (rewrite Z.shiftl_mul_pow2 by lia; lia).
  rewrite (lor_shiftl_add 16) by lia.
  rewrite (wrap_small 64 (_ + port)) by lia.
  rewrite wrap_small by (rewrite Z.shiftl_mul_pow2 by lia; lia).
  rewrite lor_shiftl_add by lia. lia.
Qed.

Lemma BuildConnectionId_u64 magic port uid :
  is_u16 magic -> is_u16 port -> is_u32 uid -> is_u64 (BuildConnectionId magic port uid).
Proof.
  intros. rewrite BuildConnectionId_value by done. unfold is_u16, is_u32, is_u64 in *. lia.
Qed.

(** The fields of an identifier are its base-2^16 digits. *)
Lemma Get_fields_value cid :
  is_u64 cid ->
  GetMagicNumber cid = cid / 2 ^ 48 /\
  GetListenPort cid = (cid / 2 ^ 32) mod 2 ^ 16 /\
  GetUserId cid = cid mod 2 ^ 32.
Proof.
  unfold is_u64, GetMagicNumber, GetListenPort, GetUserId, u16, u32, wrap. intros Hc.
  rewrite land_ones16, land_ones32, !Z.shiftr_div_pow2 by lia.
  assert (0 <= cid / 2 ^ 32 < 2 ^ 32) by (split; [apply Z.div_pos|apply Z.div_lt_upper_bound]; lia).
  rewrite (Z.mod_small (cid / 2 ^ 32)) by lia.
  rewrite Z.div_div by lia. change (2 ^ 32 * 2 ^ 16) with (2 ^ 48).
  assert (0 <= cid / 2 ^ 48 < 2 ^ 16) by (split; [apply Z.div_pos|apply Z.div_lt_upper_bound]; lia).
  rewrite (Z.mod_small (cid / 2 ^ 48)) by lia.
  rewrite !Zmod_mod. done.
Qed.

Lemma GetUserId_Build magic port uid :
  is_u16 magic -> is_u16 port -> is_u32 uid -> GetUserId (BuildConnectionId magic port uid) = uid.
Proof.
  intros Hm Hp Hu. destruct (Get_fields_value _ (BuildConnectionId_u64 _ _ _ Hm Hp Hu)) as (_ & _ & ->).
  rewrite BuildConnectionId_value by done. unfold is_u16, is_u32 in *. Z.div_mod_to_equations. lia.
Qed.

(** Packing the fields of a connection id and reading them back gives the fields;
    and every 64-bit identifier is the packing of its fields, so two identifiers
    are equal exactly when their magic number, port and slot index are. *)
Theorem cid_roundtrip (magic port uid cid : Z) :
  is_u16 magic -> is_u16 port -> is_u32 uid -> is_u64 cid ->
  GetMagicNumber (BuildConnectionId magic port uid) = magic /\
  GetListenPort (BuildConnectionId magic port uid) = port /\
  GetUserId (BuildConnectionId magic port uid) = uid /\
  BuildConnectionId (GetMagicNumber cid) (GetListenPort cid) (GetUserId cid) = cid.
Proof.
  intros Hm Hp Hu Hc.
  pose proof (BuildConnectionId_u64 _ _ _ Hm Hp Hu) as Hb.
  destruct (Get_fields_value _ Hb) as (-> & -> & ->).
  destruct (Get_fields_value _ Hc) as (Em & Ep & Eu).
  rewrite BuildConnectionId_value by done.
  assert (cid = cid / 2 ^ 48 * 2 ^ 48 + (cid / 2 ^ 32) mod 2 ^ 16 * 2 ^ 32 + cid mod 2 ^ 32).
  { change (2 ^ 48) with (2 ^ 32 * 2 ^ 16). rewrite <- Z.div_div by lia.
    pose proof (Z.div_mod cid (2 ^ 32)). pose proof (Z.div_mod (cid / 2 ^ 32) (2 ^ 16)). lia. }
  unfold is_u16, is_u32, is_u64 in *.
  rewrite BuildConnectionId_value; unfold is_u16, is_u32.
  - rewrite Em, Ep, Eu. repeat split; [| | |lia]; clear H Em Ep Eu Hc Hb;
      Z.div_mod_to_equations; lia.
  - rewrite Em. split; [apply Z.div_pos|apply Z.div_lt_upper_bound]; lia.
  - rewrite Ep. apply Z.mod_pos_bound. lia.
  - rewrite Eu. apply Z.mod_pos_bound. lia.
Qed.

Lemma cid_roundtrip_witness :
  GetMagicNumber (BuildConnectionId 24000 50051 255) = 24000 /\
  GetListenPort (BuildConnectionId 24000 50051 255) = 50051 /\
  GetUserId (BuildConnectionId 24000 50051 255) = 255 /\
  BuildConnectionId (GetMagicNumber 77) (GetListenPort 77) (GetUserId 77) = 77.
Proof. apply (cid_roundtrip 24000 50051 255 77); vm_compute; split; congruence. Defined.

Lemma VerifyConnectionId_spec cid magic :
  VerifyConnectionId cid magic = true <->
  cid <> InvalidConnectionId /\ magic = GetMagicNumber cid.
Proof.
  unfold VerifyConnectionId, GetMagicNumber. destruct (Z.eqb_spec cid InvalidConnectionId).
  - split; [done|]. by intros [? ?].
  - rewrite Z.eqb_eq. tauto.
Qed.

(** A packed identifier is the invalid one only when all its fields are all ones. *)
Lemma BuildConnectionId_valid magic port uid :
  is_u16 magic -> is_u16 port -> is_u32 uid -> uid <> 2 ^ 32 - 1 ->
  BuildConnectionId magic port uid <> InvalidConnectionId.
Proof.
  intros Hm Hp Hu Hne. rewrite BuildConnectionId_value by done.
  change InvalidConnectionId with (2 ^ 64 - 1). unfold is_u16, is_u32 in *. lia.
Qed.
