(* ===== verification/Slice.v ===== *)
(** * Slices (include/raptor-lite/utils/slice.h, src/utils/slice.cc)

    A [Slice] is a length and a pointer to bytes, or up to 23 bytes stored inline.
    This file models the representation: which bytes a slice shows, and how the
    operations change them.  The class [SliceOps] is the interface the rest of the
    library uses, [SliceLaws] its contract; the instances at the end of the first
    part discharge it.  The reference counts of the shared blocks are in SliceRef.v. *)

From S2P Require Import Prelude.

(** ** The contract of a byte slice *)

Class SliceOps (S : Type) : Type := {
  sl_size : S -> nat;
  sl_bytes : S -> list cell;
  sl_nil : S;
  sl_make : nat -> S;
  sl_write : nat -> list cell -> S -> option S;
  sl_pop_front : nat -> S -> S;
  sl_pop_back : nat -> S -> S;
}.

(** [sl_wf] is the representation invariant; [sl_make n] shows [n] bytes of any
    value, [sl_write] is a [memcpy] to an offset of the slice's buffer. *)
Class SliceLaws (S : Type) `{SliceOps S} : Type := {
  sl_wf : S -> Prop;
  sl_size_bytes s : sl_wf s -> length (sl_bytes s) = sl_size s;
  sl_nil_wf : sl_wf sl_nil;
  sl_nil_bytes : sl_bytes sl_nil = [];
  sl_make_wf n : sl_wf (sl_make n);
  sl_make_size n : sl_size (sl_make n) = n;
  sl_write_spec pos d s :
    sl_wf s -> pos + length d <= sl_size s ->
    exists s', sl_write pos d s = Some s' /\ sl_wf s' /\ sl_size s' = sl_size s /\
      sl_bytes s' = take pos (sl_bytes s) ++ d ++ drop (pos + length d) (sl_bytes s);
  sl_pop_front_wf n s : sl_wf s -> sl_wf (sl_pop_front n s);
  sl_pop_front_bytes n s : sl_wf s -> sl_bytes (sl_pop_front n s) = drop n (sl_bytes s);
  sl_pop_back_wf n s : sl_wf s -> sl_wf (sl_pop_back n s);
  sl_pop_back_bytes n s :
    sl_wf s -> sl_bytes (sl_pop_back n s) = take (sl_size s - n) (sl_bytes s);
}.

(** ** The representation *)

Definition SLICE_INLINED_SIZE : nat := 23.

(** [_refs] tells the two members of the union [_data] apart: a null [_refs] means
    the inlined one.  A pointer into a block is the block's bytes and an offset. *)
Inductive Slice : Type :=
  | Refcounted (length : nat) (block : list cell) (offset : nat)
  | Inlined (length : nat) (bytes : list cell).

(** The length of the inlined member is a [uint8_t]. *)
Definition uint8 (n : nat) : nat := n mod 256.
Definition uint8_sub (a b : nat) : nat := (a + 256 - uint8 b) mod 256.

#[global] Arguments uint8 : simpl never.
#[global] Arguments uint8_sub : simpl never.

Definition Slice_default : Slice := Inlined 0 (replicate SLICE_INLINED_SIZE (Some x00)).

(** [Slice(const char *ptr, size_t len)] where [data] are the [len] bytes at [ptr]. *)
Definition Slice_ctor (data : list cell) : Slice :=
  let len := length data in
  if len =? 0 then Slice_default
  else if len <=? SLICE_INLINED_SIZE then
    Inlined (uint8 len) (data ++ replicate (SLICE_INLINED_SIZE - len) None)
  else
    Refcounted len data 0.

Definition Slice_size (s : Slice) : nat :=
  match s with
  | Refcounted length _ _ => length
  | Inlined length _ => length
  end.

(** The storage from [begin()] on, up to the end of the block or of the object. *)
Definition Slice_begin (s : Slice) : list cell :=
  match s with
  | Refcounted _ block offset => drop offset block
  | Inlined _ bytes => bytes
  end.

(** The bytes of [begin(), end()). *)
Definition Slice_bytes (s : Slice) : list cell := take (Slice_size s) (Slice_begin s).

Definition Slice_Empty (s : Slice) : bool := Slice_size s =? 0.

(** [memcmp] of two byte ranges of the same size. *)
Definition memcmp_eq (a b : list cell) : bool := bool_decide (a = b).

Definition Slice_Compare (s : Slice) (str : list byte) : bool :=
  if (length str =? 0) && Slice_Empty s then true
  else if negb (length str =? Slice_size s) then false
  else memcmp_eq (Slice_bytes s) (Some <$> str).

Definition Slice_eq (self s : Slice) : bool :=
  if Slice_Empty s && Slice_Empty self then true
  else if negb (Slice_size s =? Slice_size self) then false
  else memcmp_eq (Slice_bytes self) (Slice_bytes s).

Definition Slice_PopBack (remove_size : nat) (s : Slice) : Slice :=
  if remove_size =? 0 then s
  else
    let remove_size := if Slice_size s <? remove_size then Slice_size s else remove_size in
    match s with
    | Refcounted len block offset => Refcounted (len - remove_size) block offset
    | Inlined len bytes => Inlined (uint8_sub len remove_size) bytes
    end.

Definition Slice_PopFront (remove_size : nat) (s : Slice) : Slice :=
  if remove_size =? 0 then s
  else
    let remove_size := if Slice_size s <? remove_size then Slice_size s else remove_size in
    match s with
    | Refcounted len block offset =>
        Refcounted (len - remove_size) block (offset + remove_size)
    | Inlined len bytes =>
        let len := uint8_sub len remove_size in
        (* memmove(bytes, bytes + remove_size, len) *)
        Inlined len (take len (drop remove_size bytes) ++ drop len bytes)
    end.

Definition Slice_ToString (s : Slice) : list cell := Slice_bytes s.

(** [memcpy(s.Buffer() + pos, d, length d)]; [None] when it leaves the storage. *)
Definition cells_write (pos : nat) (d m : list cell) : option (list cell) :=
  if pos + length d <=? length m
  then Some (take pos m ++ d ++ drop (pos + length d) m)
  else None.

Definition Slice_write (pos : nat) (d : list cell) (s : Slice) : option Slice :=
  match s with
  | Refcounted len block offset =>
      (fun b => Refcounted len b offset) <$> cells_write (offset + pos) d block
  | Inlined len bytes => Inlined len <$> cells_write pos d bytes
  end.

(** The bytes of a fresh block are indeterminate; the inlined ones are those the
    default constructor zeroed. *)
Definition MakeSliceByLength (len : nat) : Slice :=
  if len <=? SLICE_INLINED_SIZE
  then Inlined (uint8 len) (replicate SLICE_INLINED_SIZE (Some x00))
  else Refcounted len (replicate len None) 0.

(** [sizeof(SliceRefCount)]: one 32-bit atomic. *)
Definition sizeof_SliceRefCount : nat := 4.
Definition MakeSliceByDefaultSize : Slice := MakeSliceByLength (4096 - sizeof_SliceRefCount).

Definition Slice_add (s1 s2 : Slice) : option Slice :=
  if Slice_Empty s1 && Slice_Empty s2 then Some Slice_default
  else
    let len := Slice_size s1 + Slice_size s2 in
    let s := MakeSliceByLength len in
    s ← (if negb (Slice_Empty s1) then Slice_write 0 (Slice_bytes s1) s else Some s);
    let buff := if negb (Slice_Empty s1) then Slice_size s1 else 0 in
    if negb (Slice_Empty s2) then Slice_write buff (Slice_bytes s2) s else Some s.

#[export] Instance Slice_ops : SliceOps Slice := {
  sl_size := Slice_size;
  sl_bytes := Slice_bytes;
  sl_nil := Slice_default;
  sl_make := MakeSliceByLength;
  sl_write := Slice_write;
  sl_pop_front := Slice_PopFront;
  sl_pop_back := Slice_PopBack;
}.

(** ** The representation keeps its invariant *)

Definition Slice_wf (s : Slice) : Prop :=
  match s with
  | Refcounted len block offset => offset + len <= length block
  | Inlined len bytes => len <= SLICE_INLINED_SIZE /\ length bytes = SLICE_INLINED_SIZE
  end.

Ltac slice_cases s :=
  destruct s as [len block offset|len bytes];
  unfold Slice_bytes, Slice_wf, SLICE_INLINED_SIZE in *; cbn in *.

Lemma uint8_small n : n < 256 -> uint8 n = n.
Proof. apply Nat.mod_small. Qed.

Lemma uint8_sub_exact a b : b <= a -> a < 256 -> uint8_sub a b = a - b.
Proof.
  intros Hb Ha. unfold uint8_sub. rewrite uint8_small by lia.
  replace (a + 256 - b) with (a - b + 1 * 256) by lia.
  rewrite Nat.Div0.mod_add. apply Nat.mod_small. lia.
Qed.

Lemma cells_write_Some pos d m :
  pos + length d <= length m ->
  cells_write pos d m = Some (take pos m ++ d ++ drop (pos + length d) m).
Proof. intros H. unfold cells_write. by rewrite (proj2 (Nat.leb_le _ _) H). Qed.

Lemma Slice_length_bytes s : Slice_wf s -> length (Slice_bytes s) = Slice_size s.
Proof. slice_cases s; rewrite length_take, ?length_drop; lia. Qed.

Lemma Slice_default_wf : Slice_wf Slice_default.
Proof. split; [cbn; lia|done]. Qed.

Lemma MakeSliceByLength_wf n : Slice_wf (MakeSliceByLength n).
Proof.
  unfold MakeSliceByLength. destruct (Nat.leb_spec n SLICE_INLINED_SIZE) as [Hn|Hn].
  - unfold SLICE_INLINED_SIZE in *. split; [|done]. rewrite uint8_small by lia. done.
  - cbn. by rewrite length_replicate.
Qed.

Lemma MakeSliceByLength_size n : Slice_size (MakeSliceByLength n) = n.
Proof.
  unfold MakeSliceByLength. destruct (Nat.leb_spec n SLICE_INLINED_SIZE) as [Hn|Hn]; [|done].
  unfold SLICE_INLINED_SIZE in *. apply uint8_small. lia.
Qed.

Lemma Slice_write_spec pos d s :
  Slice_wf s -> pos + length d <= Slice_size s ->
  exists s', Slice_write pos d s = Some s' /\ Slice_wf s' /\ Slice_size s' = Slice_size s /\
    Slice_bytes s' = take pos (Slice_bytes s) ++ d ++ drop (pos + length d) (Slice_bytes s).
Proof.
  slice_cases s; intros Hwf Hpos.
  - rewrite cells_write_Some by lia. cbn. eexists. split; [done|]. cbn.
    split; [rewrite !length_app, length_take, length_drop; lia|]. split; [done|].
    by apply overwrite_in_window.
  - rewrite cells_write_Some by lia. cbn. eexists. split; [done|]. cbn.
    split; [rewrite !length_app, length_take, length_drop; lia|]. split; [done|].
    rewrite <- (drop_0 (take pos bytes ++ _)), <- (drop_0 bytes).
    apply (overwrite_in_window 0 len pos d bytes); lia.
Qed.

Lemma Slice_PopFront_wf n s : Slice_wf s -> Slice_wf (Slice_PopFront n s).
Proof.
  unfold Slice_PopFront. destruct (Nat.eqb_spec n 0) as [|Hn]; [done|].
  destruct (Nat.ltb_spec (Slice_size s) n) as [Hlt|Hge]; slice_cases s; intros Hwf; try lia.
  - rewrite uint8_sub_exact, length_app, length_take, length_drop, length_drop by lia. lia.
  - rewrite uint8_sub_exact, length_app, length_take, length_drop, length_drop by lia. lia.
Qed.

Lemma Slice_PopFront_bytes n s :
  Slice_wf s -> Slice_bytes (Slice_PopFront n s) = drop n (Slice_bytes s).
Proof.
  unfold Slice_PopFront. destruct (Nat.eqb_spec n 0) as [->|Hn]; [by rewrite drop_0|].
  destruct (Nat.ltb_spec (Slice_size s) n) as [Hlt|Hge]; slice_cases s; intros Hwf.
  - rewrite Nat.sub_diag, take_0, drop_ge; [done|]. rewrite length_take. lia.
  - rewrite uint8_sub_exact, Nat.sub_diag, take_0 by lia.
    rewrite drop_ge; [done|]. rewrite length_take. lia.
  - by rewrite <- take_drop_commute', drop_drop by lia.
  - rewrite uint8_sub_exact by lia.
    rewrite take_app_le by (rewrite length_take, length_drop; lia).
    rewrite take_take, Nat.min_id. by rewrite take_drop_commute' by lia.
Qed.

Lemma Slice_PopBack_wf n s : Slice_wf s -> Slice_wf (Slice_PopBack n s).
Proof.
  unfold Slice_PopBack. destruct (Nat.eqb_spec n 0) as [|Hn]; [done|].
  destruct (Nat.ltb_spec (Slice_size s) n) as [Hlt|Hge]; slice_cases s; intros Hwf; try lia;
    rewrite uint8_sub_exact by lia; lia.
Qed.

Lemma Slice_PopBack_bytes n s :
  Slice_wf s -> Slice_bytes (Slice_PopBack n s) = take (Slice_size s - n) (Slice_bytes s).
Proof.
  unfold Slice_PopBack. destruct (Nat.eqb_spec n 0) as [->|Hn].
  { intros Hwf. rewrite Nat.sub_0_r, <- Slice_length_bytes by done. by rewrite firstn_all. }
  destruct (Nat.ltb_spec (Slice_size s) n) as [Hlt|Hge]; slice_cases s; intros Hwf;
    rewrite ?uint8_sub_exact by lia; rewrite take_take; f_equal; lia.
Qed.

#[export] Instance Slice_laws : SliceLaws Slice := {
  sl_wf := Slice_wf;
  sl_size_bytes := Slice_length_bytes;
  sl_nil_wf := Slice_default_wf;
  sl_nil_bytes := eq_refl;
  sl_make_wf := MakeSliceByLength_wf;
  sl_make_size := MakeSliceByLength_size;
  sl_write_spec := Slice_write_spec;
  sl_pop_front_wf := Slice_PopFront_wf;
  sl_pop_front_bytes := Slice_PopFront_bytes;
  sl_pop_back_wf := Slice_PopBack_wf;
  sl_pop_back_bytes := Slice_PopBack_bytes;
}.

(** ** Values: construction, concatenation and comparison *)

Lemma Slice_ctor_spec d : Slice_wf (Slice_ctor d) /\ Slice_bytes (Slice_ctor d) = d.
Proof.
  unfold Slice_ctor. destruct (Nat.eqb_spec (length d) 0) as [E|E].
  { apply nil_length_inv in E as ->. split; [apply Slice_default_wf|done]. }
  destruct (Nat.leb_spec (length d) SLICE_INLINED_SIZE) as [Hn|Hn];
    unfold Slice_bytes, Slice_wf, SLICE_INLINED_SIZE in *; cbn.
  - rewrite uint8_small, length_app, length_replicate by lia.
    split_and!; [lia|lia|]. by rewrite take_app_length.
  - split; [lia|]. by rewrite drop_0, firstn_all.
Qed.

Lemma Slice_ctor_wf d : Slice_wf (Slice_ctor d).
Proof. apply Slice_ctor_spec. Qed.

Lemma Slice_ctor_bytes d : Slice_bytes (Slice_ctor d) = d.
Proof. apply Slice_ctor_spec. Qed.

Lemma Slice_Empty_bytes s : Slice_wf s -> Slice_Empty s = true <-> Slice_bytes s = [].
Proof.
  intros Hwf. unfold Slice_Empty. rewrite Nat.eqb_eq, <- Slice_length_bytes by done.
  split; [apply nil_length_inv|by intros ->].
Qed.

(** A write of a whole non-empty buffer, or none, leaves those bytes. *)
Lemma Slice_write_opt pos d s :
  Slice_wf s -> pos + length d <= Slice_size s ->
  exists s', (if negb (length d =? 0) then Slice_write pos d s else Some s) = Some s' /\
    Slice_wf s' /\ Slice_size s' = Slice_size s /\
    Slice_bytes s' = take pos (Slice_bytes s) ++ d ++ drop (pos + length d) (Slice_bytes s).
Proof.
  intros Hwf Hd. destruct (Nat.eqb_spec (length d) 0) as [E|E]; cbn.
  - exists s. apply nil_length_inv in E as ->. cbn. by rewrite Nat.add_0_r, take_drop.
  - by apply Slice_write_spec.
Qed.

Lemma Slice_add_spec (s1 s2 : Slice) :
  Slice_wf s1 -> Slice_wf s2 ->
  exists s, Slice_add s1 s2 = Some s /\ Slice_wf s /\
    Slice_bytes s = Slice_bytes s1 ++ Slice_bytes s2.
Proof.
  intros H1 H2. unfold Slice_add.
  destruct (Slice_Empty s1 && Slice_Empty s2) eqn:E.
  { apply andb_prop in E as [E1 E2].
    apply Slice_Empty_bytes in E1, E2; [|done..]. rewrite E1, E2.
    exists Slice_default. split; [done|]. split; [apply Slice_default_wf|done]. }
  unfold Slice_Empty. rewrite <- !Slice_length_bytes by done.
  set (d1 := Slice_bytes s1). set (d2 := Slice_bytes s2).
  destruct (Slice_write_opt 0 d1 (MakeSliceByLength (length d1 + length d2)))
    as (t & -> & Hwt & Hst & Hbt).
  { apply MakeSliceByLength_wf. }
  { rewrite MakeSliceByLength_size. lia. }
  rewrite MakeSliceByLength_size in Hst. cbn [mbind option_bind].
  replace (if negb (length d1 =? 0) then length d1 else 0) with (length d1)
    by (destruct (length d1); done).
  destruct (Slice_write_opt (length d1) d2 t) as (u & -> & Hwu & Hsu & Hbu);
    [done|lia|].
  exists u. do 2 (split; [done|]). rewrite Hbu, Hbt, take_0, app_nil_l, take_app_length.
  rewrite (drop_ge (d1 ++ _)); [by rewrite app_nil_r|].
  rewrite length_app, length_drop, Slice_length_bytes, MakeSliceByLength_size
    by apply MakeSliceByLength_wf. lia.
Qed.

(** The sum of two well-formed slices stays inside the storage of the new slice
    and shows the bytes of the first followed by those of the second, whichever
    representation (inlined or shared block) each of the three has. *)
Theorem slice_add_concat (s1 s2 : Slice) :
  Slice_wf s1 -> Slice_wf s2 ->
  exists s, Slice_add s1 s2 = Some s /\ Slice_wf s /\
    Slice_bytes s = Slice_bytes s1 ++ Slice_bytes s2.
Proof. apply Slice_add_spec. Qed.

Definition bytes_of (n : nat) : list cell := replicate n (Some x61).

Lemma slice_add_concat_witness :
  exists s, Slice_add (Slice_ctor (bytes_of 20)) (Slice_ctor (bytes_of 30)) = Some s /\
    Slice_wf s /\ Slice_bytes s = Slice_bytes (Slice_ctor (bytes_of 20)) ++ Slice_bytes (Slice_ctor (bytes_of 30)).
Proof. apply slice_add_concat; vm_compute; repeat split; lia. Defined.

(** Two slices compare equal exactly when they show the same bytes, and a slice
    compares equal to a string exactly when it shows that string; neither
    depends on the representation or on what earlier [PopFront]/[PopBack] cut off. *)
Theorem slice_eq_iff_bytes (a b : Slice) (str : list byte) :
  Slice_wf a -> Slice_wf b ->
  (Slice_eq a b = true <-> Slice_bytes a = Slice_bytes b) /\
  (Slice_Compare a str = true <-> Slice_bytes a = Some <$> str).
Proof.
  intros Ha Hb. split.
  - unfold Slice_eq, memcmp_eq.
    destruct (Slice_Empty b && Slice_Empty a) eqn:E.
    { apply andb_prop in E as [E1 E2]. apply Slice_Empty_bytes in E1, E2; [|done..].
      by rewrite E1, E2. }
    destruct (Nat.eqb_spec (Slice_size b) (Slice_size a)) as [En|En]; cbn.
    { by rewrite bool_decide_eq_true. }
    split; [done|]. intros Hab. exfalso. apply En.
    by rewrite <- !Slice_length_bytes, Hab by done.
  - unfold Slice_Compare, memcmp_eq.
    destruct ((length str =? 0) && Slice_Empty a) eqn:E.
    { apply andb_prop in E as [E1 E2]. apply Slice_Empty_bytes in E2; [|done].
      apply Nat.eqb_eq, nil_length_inv in E1. by rewrite E1, E2. }
    destruct (Nat.eqb_spec (length str) (Slice_size a)) as [En|En]; cbn.
    { by rewrite bool_decide_eq_true. }
    split; [done|]. intros Hab. exfalso. apply En.
    by rewrite <- Slice_length_bytes, Hab, length_fmap by done.
Qed.

Lemma slice_eq_iff_bytes_witness :
  (Slice_eq (Slice_PopFront 7 (Slice_ctor (bytes_of 30))) (Slice_ctor (bytes_of 23)) = true <->
     Slice_bytes (Slice_PopFront 7 (Slice_ctor (bytes_of 30))) = Slice_bytes (Slice_ctor (bytes_of 23))) /\
  (Slice_Compare (Slice_PopFront 7 (Slice_ctor (bytes_of 30))) [x61] = true <->
     Slice_bytes (Slice_PopFront 7 (Slice_ctor (bytes_of 30))) = Some <$> [x61]).
Proof. apply slice_eq_iff_bytes; vm_compute; repeat split; lia. Defined.
