(* ===== verification/Counting.v ===== *)
(** * Counting the references variables hold

    The reference counts of slice blocks (SliceRef.v) and of shared objects
    (RefCounted.v) are kept by different code; what makes either exact is the same:
    a store of variables, each pointing to at most one counted object, and a map
    from the live objects to their counts. *)

From S2P Require Import Prelude.

Definition points (r : option nat) (l : nat) : nat := if decide (r = Some l) then 1 else 0.

(** The heap holds exactly the objects [f] counts, with those counts. *)
Definition counts_are (f : nat -> nat) (c : gmap nat Z) : Prop :=
  forall l, c !! l = if decide (f l = 0) then None else Some (Z.of_nat (f l)).

Lemma points_None l : points None l = 0.
Proof. done. Qed.

Lemma points_Some l l' : points (Some l) l' = if decide (l = l') then 1 else 0.
Proof. unfold points. repeat case_decide; congruence. Qed.

Lemma counts_are_ext f g c : (forall l, f l = g l) -> counts_are f c -> counts_are g c.
Proof. intros E H l. rewrite <- E. apply H. Qed.

Lemma counts_are_lookup f c l : counts_are f c -> 0 < f l -> c !! l = Some (Z.of_nat (f l)).
Proof. intros Hc Hl. by rewrite Hc, decide_False by lia. Qed.

Lemma counts_are_fresh f c l : counts_are f c -> c !! l = None -> f l = 0.
Proof. intros Hc Hl. rewrite Hc in Hl. by case_decide. Qed.

Lemma counts_incr f c l :
  counts_are f c ->
  counts_are (fun k => points (Some l) k + f k) (<[l := Z.of_nat (f l) + 1]> c)%Z.
Proof.
  intros Hc k. rewrite points_Some. destruct (decide (l = k)) as [->|Hk].
  - rewrite lookup_insert_eq, decide_False by lia. f_equal. lia.
  - rewrite lookup_insert_ne by done. apply Hc.
Qed.

Lemma counts_new f c l :
  counts_are f c -> c !! l = None ->
  counts_are (fun k => points (Some l) k + f k) (<[l := 1%Z]> c).
Proof.
  intros Hc Hl. pose proof (counts_incr f c l Hc) as H.
  by rewrite (counts_are_fresh f c l Hc Hl) in H.
Qed.

Lemma counts_decr f c l :
  counts_are f c -> 0 < f l ->
  counts_are (fun k => f k - points (Some l) k)
    (if (Z.of_nat (f l) =? 1)%Z then delete l c else <[l := (Z.of_nat (f l) - 1)%Z]> c).
Proof.
  intros Hc Hl k. rewrite points_Some.
  destruct (Z.eqb_spec (Z.of_nat (f l)) 1) as [H1|H1]; destruct (decide (l = k)) as [->|Hk].
  - by rewrite lookup_delete_eq, decide_True by lia.
  - rewrite lookup_delete_ne, Nat.sub_0_r by done. apply Hc.
  - rewrite lookup_insert_eq, decide_False by lia. f_equal. lia.
  - rewrite lookup_insert_ne, Nat.sub_0_r by done. apply Hc.
Qed.

Section Refs.
Context {V : Type} (target : V -> option nat).
Implicit Types (vars : gmap nat V) (x l : nat) (s : V).

(** How many variables point to [l]. *)
Definition refs_to (l : nat) (vars : gmap nat V) : nat :=
  size (filter (fun kv => target kv.2 = Some l) vars).

Lemma refs_to_insert l x s vars :
  vars !! x = None -> refs_to l (<[x := s]> vars) = points (target s) l + refs_to l vars.
Proof.
  intros Hx. unfold refs_to, points. destruct (decide (target s = Some l)) as [Hs|Hs].
  - rewrite map_filter_insert_True by done.
    rewrite map_size_insert_None; [done|]. apply map_lookup_filter_None. by left.
  - by rewrite map_filter_insert_not' by (by rewrite ?Hx).
Qed.

Lemma refs_to_delete l x s vars :
  vars !! x = Some s -> refs_to l vars = points (target s) l + refs_to l (delete x vars).
Proof.
  intros Hx. rewrite <- (insert_id vars x s) at 1 by done.
  rewrite <- insert_delete_eq. apply refs_to_insert. apply lookup_delete_eq.
Qed.

Lemma refs_to_replace l x s s' vars :
  vars !! x = Some s ->
  refs_to l (<[x := s']> vars) + points (target s) l = points (target s') l + refs_to l vars.
Proof.
  intros Hx. rewrite <- insert_delete_eq, refs_to_insert by apply lookup_delete_eq.
  rewrite (refs_to_delete l x s vars) by done. lia.
Qed.

Lemma refs_to_two l x y s o vars :
  x <> y -> vars !! x = Some s -> vars !! y = Some o ->
  points (target s) l + points (target o) l <= refs_to l vars.
Proof.
  intros Hxy Hx Hy. rewrite (refs_to_delete l x s) by done.
  rewrite (refs_to_delete l y o (delete x _)) by by rewrite lookup_delete_ne. lia.
Qed.

Lemma refs_to_pos l x s vars :
  vars !! x = Some s -> target s = Some l -> 0 < refs_to l vars.
Proof.
  intros Hx Hs. rewrite (refs_to_delete l x s) by done.
  unfold points. rewrite decide_True by done. lia.
Qed.

Lemma refs_to_le l vars : refs_to l vars <= size vars.
Proof.
  unfold refs_to. rewrite <- !size_dom. apply subseteq_size.
  intros x Hx. apply elem_of_dom in Hx as [s Hs]. apply map_lookup_filter_Some in Hs as [Hs _].
  by apply elem_of_dom.
Qed.

Lemma refs_to_empty l : refs_to l ∅ = 0.
Proof. done. Qed.
End Refs.

(** Sizes of the sets of live variables. *)
Lemma size_remove_le (vars : gset nat) x : size (vars ∖ {[x]}) <= size vars.
Proof. apply subseteq_size. set_solver. Qed.

Lemma size_add_le (vars : gset nat) x : size ({[x]} ∪ vars) <= S (size vars).
Proof. rewrite size_union_alt, size_singleton. pose proof (size_remove_le vars x). lia. Qed.
