(* ===== verification/SliceRef.v ===== *)
(** * The reference counts of shared slice blocks (src/utils/slice.cc, lines 25-152)

    The store holds the live [Slice] variables and the reference count of every
    allocated block.  A block that was freed is absent: touching its count is
    undefined behaviour.  The theorem is that no sequence of constructions, copies,
    moves, assignments and destructions touches a freed block or leaks one. *)

From S2P Require Import Prelude.
From S2P Require Import Counting.

(** The members of a [Slice] the copies transfer: [_refs] and [_data]. *)
Record slice_obj : Type := {
  so_refs : option nat;
  so_length : nat;
  so_offset : nat;
}.

Record ref_store : Type := {
  rs_counts : gmap nat Z;
  rs_vars : gmap nat slice_obj;
}.

Definition set_count (l : nat) (n : Z) (h : ref_store) : ref_store :=
  {| rs_counts := <[l := n]> (rs_counts h); rs_vars := rs_vars h |}.
Definition free_block (l : nat) (h : ref_store) : ref_store :=
  {| rs_counts := delete l (rs_counts h); rs_vars := rs_vars h |}.
Definition set_var (x : nat) (s : slice_obj) (h : ref_store) : ref_store :=
  {| rs_counts := rs_counts h; rs_vars := <[x := s]> (rs_vars h) |}.
Definition drop_var (x : nat) (h : ref_store) : ref_store :=
  {| rs_counts := rs_counts h; rs_vars := delete x (rs_vars h) |}.

Definition read_var (x : nat) : M ref_store slice_obj :=
  o ← gets (fun h => rs_vars h !! x); of_option o.

(** A constructor runs on storage that holds no object yet. *)
Definition raw_storage (x : nat) : M ref_store unit :=
  o ← gets (fun h => rs_vars h !! x);
  match o with None => mret tt | Some _ => undef end.

(** [malloc] and the constructor of [SliceRefCount]: the count starts at 1. *)
Definition SliceRefCount_new : M ref_store nat :=
  l ← gets (fun h => fresh (dom (rs_counts h)));
  _ ← modify (set_count l 1%Z);
  mret l.

Definition SliceRefCount_AddRef (l : nat) : M ref_store unit :=
  o ← gets (fun h => rs_counts h !! l);
  n ← of_option o;
  modify (set_count l (i32 (n + 1))).

(** [FetchSub] returns the old value. *)
Definition SliceRefCount_DecRef (l : nat) : M ref_store unit :=
  o ← gets (fun h => rs_counts h !! l);
  n ← of_option o;
  _ ← modify (set_count l (i32 (n - 1)));
  when (n =? 1)%Z (modify (free_block l)).

Definition if_refs (r : option nat) (m : nat -> M ref_store unit) : M ref_store unit :=
  match r with Some l => m l | None => mret tt end.

(** [Slice x(ptr, len)]: only the length decides which member is used. *)
Definition Slice_new (x len : nat) : M ref_store unit :=
  _ ← raw_storage x;
  if len <=? 23 then
    modify (set_var x {| so_refs := None; so_length := len; so_offset := 0 |})
  else
    l ← SliceRefCount_new;
    modify (set_var x {| so_refs := Some l; so_length := len; so_offset := 0 |}).

Definition Slice_dtor (x : nat) : M ref_store unit :=
  s ← read_var x;
  _ ← if_refs (so_refs s) SliceRefCount_DecRef;
  modify (drop_var x).

Definition Slice_copy_ctor (x oth : nat) : M ref_store unit :=
  _ ← raw_storage x;
  o ← read_var oth;
  _ ← if_refs (so_refs o) SliceRefCount_AddRef;
  modify (set_var x o).

Definition Slice_copy_assign (x oth : nat) : M ref_store unit :=
  s ← read_var x;
  o ← read_var oth;
  when (negb (x =? oth))
    (_ ← if_refs (so_refs s) SliceRefCount_DecRef;
     _ ← if_refs (so_refs o) SliceRefCount_AddRef;
     modify (set_var x o)).

(** Moving a pointer or a union of integers copies it: [oth] keeps its members. *)
Definition Slice_move_ctor (x oth : nat) : M ref_store unit :=
  _ ← raw_storage x;
  o ← read_var oth;
  _ ← if_refs (so_refs o) SliceRefCount_AddRef;
  modify (set_var x o).

Definition Slice_move_assign (x oth : nat) : M ref_store unit :=
  s ← read_var x;
  o ← read_var oth;
  when (negb (x =? oth))
    (_ ← if_refs (so_refs o) SliceRefCount_AddRef;
     _ ← if_refs (so_refs s) SliceRefCount_DecRef;
     modify (set_var x o)).

Inductive slice_op : Type :=
  | OpNew (x len : nat)
  | OpDtor (x : nat)
  | OpCopyCtor (x oth : nat)
  | OpCopyAssign (x oth : nat)
  | OpMoveCtor (x oth : nat)
  | OpMoveAssign (x oth : nat).

Definition run_op (o : slice_op) : M ref_store unit :=
  match o with
  | OpNew x len => Slice_new x len
  | OpDtor x => Slice_dtor x
  | OpCopyCtor x y => Slice_copy_ctor x y
  | OpCopyAssign x y => Slice_copy_assign x y
  | OpMoveCtor x y => Slice_move_ctor x y
  | OpMoveAssign x y => Slice_move_assign x y
  end.

(** The program is well formed when each variable is constructed once before its
    uses and destroyed once after them: the discipline the language enforces. *)
Definition op_ok (o : slice_op) (vars : gset nat) : bool :=
  match o with
  | OpNew x _ => bool_decide (x ∉ vars)
  | OpDtor x => bool_decide (x ∈ vars)
  | OpCopyCtor x y | OpMoveCtor x y => bool_decide ((x ∉ vars) /\ (y ∈ vars))
  | OpCopyAssign x y | OpMoveAssign x y => bool_decide ((x ∈ vars) /\ (y ∈ vars))
  end.

Definition op_vars (o : slice_op) (vars : gset nat) : gset nat :=
  match o with
  | OpNew x _ | OpCopyCtor x _ | OpMoveCtor x _ => {[x]} ∪ vars
  | OpDtor x => vars ∖ {[x]}
  | _ => vars
  end.

Fixpoint ops_ok (os : list slice_op) (vars : gset nat) : bool :=
  match os with
  | [] => true
  | o :: os => op_ok o vars && ops_ok os (op_vars o vars)
  end.

Fixpoint run_ops (os : list slice_op) : M ref_store unit :=
  match os with
  | [] => mret tt
  | o :: os => _ ← run_op o; run_ops os
  end.

Definition empty_store : ref_store := {| rs_counts := ∅; rs_vars := ∅ |}.

(** ** The counts are those of the variables *)

Abbreviation var_refs := (refs_to so_refs).

Definition ref_inv (h : ref_store) : Prop :=
  counts_are (fun l => var_refs l (rs_vars h)) (rs_counts h).

(** ** The effect of the count operations *)

Lemma AddRef_opt f r h :
  (forall l, (Z.of_nat (f l) < 2 ^ 31 - 1)%Z) ->
  counts_are f (rs_counts h) -> (forall l, r = Some l -> 0 < f l) ->
  wp (if_refs r SliceRefCount_AddRef) h (fun _ h' =>
    counts_are (fun l => points r l + f l) (rs_counts h') /\ rs_vars h' = rs_vars h).
Proof.
  intros Hb Hc Hr. destruct r as [l|]; [|by split]. specialize (Hr l eq_refl). specialize (Hb l).
  apply wp_bind, wp_gets, wp_bind, wp_of_option. exists (Z.of_nat (f l)).
  split; [by apply counts_are_lookup|]. apply wp_modify. split; [|done].
  unfold i32. rewrite swrap_small by lia. by apply counts_incr.
Qed.

Lemma DecRef_opt f r h :
  counts_are f (rs_counts h) -> (forall l, (Z.of_nat (f l) <= 2 ^ 31 - 1)%Z) ->
  (forall l, r = Some l -> 0 < f l) ->
  wp (if_refs r SliceRefCount_DecRef) h (fun _ h' =>
    counts_are (fun l => f l - points r l) (rs_counts h') /\ rs_vars h' = rs_vars h).
Proof.
  intros Hc Hb Hr. destruct r as [l|].
  2:{ split; [|done]. apply (counts_are_ext f); [|done]. intros. rewrite points_None. lia. }
  specialize (Hr l eq_refl). specialize (Hb l). pose proof (counts_decr f _ l Hc Hr) as Hd.
  apply wp_bind, wp_gets, wp_bind, wp_of_option. exists (Z.of_nat (f l)).
  split; [by apply counts_are_lookup|]. unfold i32. rewrite swrap_small by lia.
  apply wp_bind, wp_modify, wp_when; intros Hn; rewrite Hn in Hd; [apply wp_modify|];
    (split; [|done]); [|done].
  cbn. by rewrite delete_insert_eq.
Qed.

(** ** Every operation keeps the counts exact *)

Definition small_store (h : ref_store) : Prop :=
  (Z.of_nat (size (rs_vars h)) < 2 ^ 31 - 1)%Z.

Lemma small_store_refs h : small_store h ->
  forall l, (Z.of_nat (var_refs l (rs_vars h)) < 2 ^ 31 - 1)%Z.
Proof. intros Hh l. pose proof (refs_to_le so_refs l (rs_vars h)). unfold small_store in Hh. lia. Qed.

Lemma wp_read_var x h Q :
  x ∈ dom (rs_vars h) -> (forall s, rs_vars h !! x = Some s -> Q s h) -> wp (read_var x) h Q.
Proof.
  intros Hx HQ. apply elem_of_dom in Hx as [s Hs].
  apply wp_bind, wp_gets, wp_of_option. eauto.
Qed.

Lemma wp_raw_storage x h (Q : unit -> ref_store -> Prop) :
  x ∉ dom (rs_vars h) -> (rs_vars h !! x = None -> Q tt h) -> wp (raw_storage x) h Q.
Proof.
  intros Hx HQ. apply not_elem_of_dom in Hx. apply wp_bind, wp_gets. rewrite Hx. by apply wp_ret, HQ.
Qed.

(** The postcondition of an operation on a store that had the variables [vars]. *)
Definition op_post (o : slice_op) (h h' : ref_store) : Prop :=
  ref_inv h' /\ dom (rs_vars h') = op_vars o (dom (rs_vars h)).

Lemma Slice_new_inv x len h :
  ref_inv h -> x ∉ dom (rs_vars h) ->
  wp (Slice_new x len) h (fun _ h' => op_post (OpNew x len) h h').
Proof.
  intros Hi Hx. apply wp_bind, wp_raw_storage; [done|]. intros HxN.
  destruct (len <=? 23).
  - apply wp_modify. split; [|cbn; apply dom_insert_L]. intros l. cbn.
    rewrite refs_to_insert by done. apply Hi.
  - apply wp_bind, wp_bind, wp_gets, wp_bind, wp_modify, wp_ret, wp_modify.
    split; [|cbn; apply dom_insert_L]. intros l. cbn. set (k := fresh _).
    rewrite refs_to_insert by done. cbn [so_refs]. rewrite points_Some.
    pose proof (is_fresh (dom (rs_counts h))) as Hk. fold k in Hk.
    apply not_elem_of_dom in Hk. rewrite Hi in Hk. cbn in Hk.
    destruct (decide (k = l)) as [<-|Hkl].
    + rewrite lookup_insert_eq. case_decide; [|done]. by replace (var_refs k _) with 0.
    + rewrite lookup_insert_ne by done. apply Hi.
Qed.

Lemma Slice_dtor_inv x h :
  ref_inv h -> small_store h -> x ∈ dom (rs_vars h) ->
  wp (Slice_dtor x) h (fun _ h' => op_post (OpDtor x) h h').
Proof.
  intros Hi Hh Hx. pose proof (small_store_refs h Hh) as Hb.
  apply wp_bind, wp_read_var; [done|]. intros s Hs.
  apply wp_bind. eapply wp_mono.
  - apply (DecRef_opt _ _ _ Hi); [intros l; specialize (Hb l); lia|].
    intros. by eapply refs_to_pos.
  - intros _ h' [Hc Hv]. apply wp_modify. split.
    + intros l. cbn. rewrite Hv, Hc, (refs_to_delete so_refs l x s) by done.
      by rewrite Nat.add_comm, Nat.add_sub.
    + cbn. rewrite Hv. apply dom_delete_L.
Qed.

(** Copy and move construction run the same operations. *)
Lemma copy_ctor_inv x y h :
  ref_inv h -> small_store h -> x ∉ dom (rs_vars h) -> y ∈ dom (rs_vars h) ->
  wp (Slice_copy_ctor x y) h (fun _ h' => op_post (OpCopyCtor x y) h h').
Proof.
  intros Hi Hh Hx Hy. apply wp_bind, wp_raw_storage; [done|]. intros HxN.
  apply wp_bind, wp_read_var; [done|]. intros o Ho.
  apply wp_bind. eapply wp_mono.
  - apply (AddRef_opt _ _ _ (small_store_refs h Hh) Hi). intros. by eapply refs_to_pos.
  - intros _ h' [Hc Hv]. apply wp_modify. split.
    + intros l. cbn. rewrite Hv, Hc, refs_to_insert by done. done.
    + cbn. rewrite Hv. apply dom_insert_L.
Qed.

(** The end of an assignment: the counts moved one reference, the variable follows. *)
Lemma assign_commit x s o h h' :
  rs_vars h !! x = Some s -> rs_vars h' = rs_vars h ->
  counts_are (fun l => points (so_refs o) l + var_refs l (rs_vars h) - points (so_refs s) l)
    (rs_counts h') ->
  ref_inv (set_var x o h') /\ dom (rs_vars (set_var x o h')) = dom (rs_vars h).
Proof.
  intros Hs Hv Hc. split.
  - intros l. cbn. rewrite Hc, Hv. pose proof (refs_to_replace so_refs l x s o _ Hs) as E.
    replace (points (so_refs o) l + _ - _) with (var_refs l (<[x:=o]> (rs_vars h))) by lia. done.
  - cbn. rewrite Hv. apply dom_insert_lookup_L. eauto.
Qed.

Lemma copy_assign_inv x y h :
  ref_inv h -> small_store h -> x ∈ dom (rs_vars h) -> y ∈ dom (rs_vars h) ->
  wp (Slice_copy_assign x y) h (fun _ h' => op_post (OpCopyAssign x y) h h').
Proof.
  intros Hi Hh Hx Hy. pose proof (small_store_refs h Hh) as Hb.
  apply wp_bind, wp_read_var; [done|]. intros s Hs.
  apply wp_bind, wp_read_var; [done|]. intros o Ho.
  apply wp_when; intros Hxy; [|done].
  apply negb_true_iff, Nat.eqb_neq in Hxy.
  (* [oth] itself still counts for its block after the release of the old one *)
  assert (forall l, points (so_refs s) l + points (so_refs o) l <= var_refs l (rs_vars h)) as Hge
    by (intros l; by apply (refs_to_two so_refs l x y)).
  apply wp_bind. eapply wp_mono.
  { apply (DecRef_opt _ _ _ Hi); [intros l; specialize (Hb l); lia|].
    intros. by apply (refs_to_pos so_refs _ x s). }
  intros _ h' [Hc Hv]. apply wp_bind. eapply wp_mono.
  { apply (AddRef_opt (fun l => var_refs l (rs_vars h) - points (so_refs s) l)); [|exact Hc|].
    - intros l. specialize (Hb l). cbn. lia.
    - intros l Hl. specialize (Hge l). unfold points in *.
      rewrite Hl, (decide_True (P := Some l = Some l)) in Hge by done. lia. }
  intros _ h'' [Hc' Hv']. apply wp_modify. apply (assign_commit x s o h h''); [done|congruence|].
  eapply counts_are_ext, Hc'. intros l. specialize (Hge l). cbn. lia.
Qed.

Lemma move_assign_inv x y h :
  ref_inv h -> small_store h -> x ∈ dom (rs_vars h) -> y ∈ dom (rs_vars h) ->
  wp (Slice_move_assign x y) h (fun _ h' => op_post (OpMoveAssign x y) h h').
Proof.
  intros Hi Hh Hx Hy. pose proof (small_store_refs h Hh) as Hb.
  apply wp_bind, wp_read_var; [done|]. intros s Hs.
  apply wp_bind, wp_read_var; [done|]. intros o Ho.
  apply wp_when; intros Hxy; [|done].
  apply wp_bind. eapply wp_mono.
  { apply (AddRef_opt _ _ _ Hb Hi). intros. by apply (refs_to_pos so_refs _ y o). }
  intros _ h' [Hc Hv]. apply wp_bind. eapply wp_mono.
  { apply (DecRef_opt _ _ _ Hc).
    - intros l. specialize (Hb l). unfold points. case_decide; lia.
    - intros l Hl. pose proof (refs_to_pos so_refs l x s _ Hs Hl). lia. }
  intros _ h'' [Hc' Hv']. apply wp_modify. apply (assign_commit x s o h h''); [done|congruence|done].
Qed.

Lemma run_op_inv o h :
  ref_inv h -> small_store h -> op_ok o (dom (rs_vars h)) = true ->
  wp (run_op o) h (fun _ h' => op_post o h h').
Proof.
  intros Hi Hh Hok. destruct o; cbn in Hok; apply bool_decide_eq_true in Hok; destruct_and?.
  - by apply Slice_new_inv.
  - by apply Slice_dtor_inv.
  - by apply copy_ctor_inv.
  - by apply copy_assign_inv.
  - by apply copy_ctor_inv.
  - by apply move_assign_inv.
Qed.

Lemma op_vars_size o vars : size (op_vars o vars) <= S (size vars).
Proof.
  pose proof (size_remove_le vars). pose proof (size_add_le vars).
  destruct o; cbn; auto.
Qed.

Lemma run_ops_inv os h :
  ref_inv h -> ops_ok os (dom (rs_vars h)) = true ->
  (Z.of_nat (size (rs_vars h) + length os) < 2 ^ 31 - 1)%Z ->
  wp (run_ops os) h (fun _ h' => ref_inv h').
Proof.
  revert h. induction os as [|o os IH]; intros h Hi Hok Hn; cbn in *; [done|].
  apply andb_prop in Hok as [Ho Hos]. apply wp_bind. eapply wp_mono.
  { apply run_op_inv; [done|unfold small_store; lia|done]. }
  intros _ h' [Hi' Hv]. apply IH; [done|by rewrite Hv|].
  pose proof (op_vars_size o (dom (rs_vars h))) as Hs. rewrite <- Hv, !size_dom in Hs. lia.
Qed.

Lemma empty_store_inv : ref_inv empty_store.
Proof. intros l. done. Qed.

(** C30. Any sequence of fewer than 2^31 - 1 constructions, copies, moves, assignments and
    destructions of slices runs without touching a freed block, and at its end the
    heap holds exactly the blocks some live slice refers to, each with a count equal
    to the number of those slices: nothing is freed early, twice or never. *)
Theorem slice_refs_exact (os : list slice_op) :
  ops_ok os ∅ = true -> (Z.of_nat (length os) < 2 ^ 31 - 1)%Z ->
  exists h, run_ops os empty_store = Ret (tt, h) /\
    forall l, rs_counts h !! l =
      if decide (var_refs l (rs_vars h) = 0) then None else Some (Z.of_nat (var_refs l (rs_vars h))).
Proof.
  intros Hok Hn.
  pose proof (run_ops_inv os empty_store empty_store_inv Hok) as H. unfold wp in H.
  destruct (run_ops os empty_store) as [[[] h]| | |]; [|by destruct H..].
  exists h. split; [done|]. by apply H.
Qed.

Definition share_ops : list slice_op :=
  [OpNew 0 40; OpCopyCtor 1 0; OpNew 2 50; OpCopyAssign 2 1; OpMoveAssign 0 2; OpDtor 0; OpDtor 1].

Lemma slice_refs_exact_witness :
  exists h, run_ops share_ops empty_store = Ret (tt, h) /\
    forall l, rs_counts h !! l =
      if decide (var_refs l (rs_vars h) = 0) then None else Some (Z.of_nat (var_refs l (rs_vars h))).
Proof. apply slice_refs_exact; vm_compute; reflexivity. Defined.
