(* ===== verification/SliceBuffer.v ===== *)
(** * Slice buffers (include/raptor-lite/utils/slice_buffer.h, src/utils/slice_buffer.cc)

    A [SliceBuffer] is a vector of slices and the cached sum of their sizes.  The
    receive and send paths of a connection use it as a queue of bytes: this file
    proves that it is one, over any slice type that keeps the contract
    [SliceLaws].  [_length] is a [size_t]; the sum of the sizes of the slices a
    process can hold stays below 2^64, so it is a natural number here. *)

From S2P Require Import Prelude.
From S2P Require Import Slice.

Record SliceBuffer (S : Type) : Type := {
  sb_vs : list S;
  sb_length : nat;
}.
Arguments sb_vs {S} _.
Arguments sb_length {S} _.
Arguments Build_SliceBuffer {S} _ _.

Section Operations.
Context {S : Type} `{SliceOps S}.

Definition SliceBuffer_new : SliceBuffer S := {| sb_vs := []; sb_length := 0 |}.

Definition SliceCount (b : SliceBuffer S) : nat := length (sb_vs b).
Definition GetBufferLength (b : SliceBuffer S) : nat := sb_length b.
Definition SliceBuffer_Empty (b : SliceBuffer S) : bool :=
  match sb_vs b with [] => true | _ => false end.

Definition AddSlice (s : S) (b : SliceBuffer S) : SliceBuffer S :=
  {| sb_vs := sb_vs b ++ [s]; sb_length := sb_length b + sl_size s |}.

(** The loop of [Merge]: [pos] is how far [buf] has moved. *)
Fixpoint Merge_loop (vs : list S) (pos : nat) (ret : S) : option S :=
  match vs with
  | [] => Some ret
  | it :: vs =>
      let blk_size := sl_size it in
      if 0 <? blk_size then
        ret ← sl_write pos (sl_bytes it) ret;
        Merge_loop vs (pos + blk_size) ret
      else Merge_loop vs pos ret
  end.

Definition Merge (b : SliceBuffer S) : option S :=
  match sb_vs b with
  | [] => Some sl_nil
  | [s] => Some s
  | _ => Merge_loop (sb_vs b) 0 (sl_make (GetBufferLength b))
  end.

Fixpoint CopyToBuffer_loop (vs : list S) (left pos : nat) (buffer : S) : outcome (S * nat) :=
  match vs with
  | [] => Ret (buffer, pos)
  | it :: vs =>
      if left =? 0 then Ret (buffer, pos)
      else
        let len := Nat.min left (sl_size it) in
        match sl_write pos (take len (sl_bytes it)) buffer with
        | Some buffer => CopyToBuffer_loop vs (left - len) (pos + len) buffer
        | None => Undef
        end
  end.

Definition CopyToBuffer (buffer : S) (length : nat) (b : SliceBuffer S) : outcome (S * nat) :=
  if length <=? GetBufferLength b
  then CopyToBuffer_loop (sb_vs b) length 0 buffer
  else Abort.

Definition GetHeader (len : nat) (b : SliceBuffer S) : outcome S :=
  if (len =? 0) || (GetBufferLength b <? len) then Ret sl_nil
  else
    match CopyToBuffer (sl_make len) len b with
    | Ret (s, _) => Ret s
    | Undef => Undef
    | Abort => Abort
    | NoFuel => NoFuel
    end.

(** [MoveHeader] calls itself on the buffer it erased the first slice of: the
    vector, a prefix shorter at each call, is the measure. *)
Fixpoint MoveHeader_rec (vs : list S) (_length len : nat) : outcome (bool * SliceBuffer S) :=
  if _length <? len then Ret (false, {| sb_vs := vs; sb_length := _length |})
  else if len =? 0 then Ret (true, {| sb_vs := vs; sb_length := _length |})
  else
    match vs with
    | [] => Undef
    | it :: rest =>
        let left := sl_size it in
        if len <? left then
          Ret (true, {| sb_vs := sl_pop_front len it :: rest; sb_length := _length - len |})
        else if left =? len then
          Ret (true, {| sb_vs := rest; sb_length := _length - len |})
        else MoveHeader_rec rest (_length - left) (len - left)
    end.

Definition MoveHeader (len : nat) (b : SliceBuffer S) : outcome (bool * SliceBuffer S) :=
  MoveHeader_rec (sb_vs b) (sb_length b) len.

Definition ClearBuffer (b : SliceBuffer S) : SliceBuffer S :=
  {| sb_vs := []; sb_length := 0 |}.

Definition SliceBuffer_Front (b : SliceBuffer S) : outcome S :=
  match sb_vs b with s :: _ => Ret s | [] => Abort end.

Definition SliceBuffer_Back (b : SliceBuffer S) : outcome S :=
  match last (sb_vs b) with Some s => Ret s | None => Abort end.

Definition SliceBuffer_PopFront (b : SliceBuffer S) : SliceBuffer S :=
  match sb_vs b with
  | [] => b
  | it :: rest => {| sb_vs := rest; sb_length := sb_length b - sl_size it |}
  end.

Definition SliceBuffer_PopBack (b : SliceBuffer S) : SliceBuffer S :=
  match last (sb_vs b) with
  | None => b
  | Some it => {| sb_vs := removelast (sb_vs b); sb_length := sb_length b - sl_size it |}
  end.

(** The callback threads the state [A] it captured. *)
Fixpoint ForEachSlice_from {A} (callback : S -> A -> bool * A) (vs : list S) (a : A) : A :=
  match vs with
  | [] => a
  | s :: vs =>
      let '(go, a) := callback s a in
      if go then ForEachSlice_from callback vs a else a
  end.

Definition ForEachSlice {A} (callback : S -> A -> bool * A) (b : SliceBuffer S) (a : A) : A :=
  ForEachSlice_from callback (sb_vs b) a.

(** [operator[]] of the vector: undefined out of range. *)
Definition SliceBuffer_At (n : nat) (b : SliceBuffer S) : outcome S :=
  match sb_vs b !! n with Some s => Ret s | None => Undef end.
End Operations.

(** ** The bytes of a buffer *)

Section Laws.
Context {S : Type} `{SliceLaws S}.

Definition vs_bytes (vs : list S) : list cell := mjoin (sl_bytes <$> vs).
#[local] Arguments vs_bytes : simpl never.
Definition sb_bytes (b : SliceBuffer S) : list cell := vs_bytes (sb_vs b).

Definition sb_wf (b : SliceBuffer S) : Prop :=
  Forall sl_wf (sb_vs b) /\ sb_length b = length (sb_bytes b).

Lemma vs_bytes_cons s vs : vs_bytes (s :: vs) = sl_bytes s ++ vs_bytes vs.
Proof. done. Qed.

Lemma vs_bytes_app vs vs' : vs_bytes (vs ++ vs') = vs_bytes vs ++ vs_bytes vs'.
Proof. unfold vs_bytes. by rewrite fmap_app, join_app. Qed.

Lemma vs_bytes_one s : vs_bytes [s] = sl_bytes s.
Proof. apply app_nil_r. Qed.

Lemma sl_nonempty s : sl_wf s -> 0 < sl_size s -> sl_bytes s <> [].
Proof. intros Hs Hn E. rewrite <- sl_size_bytes, E in Hn by done. cbn in Hn. lia. Qed.

Lemma SliceBuffer_new_wf : sb_wf SliceBuffer_new.
Proof. by split. Qed.

Lemma AddSlice_wf s b : sl_wf s -> sb_wf b -> sb_wf (AddSlice s b).
Proof.
  intros Hs [Hb Hl]. split; cbn.
  - apply Forall_app_2; [done|]. by apply Forall_singleton.
  - unfold sb_bytes. cbn. rewrite vs_bytes_app, vs_bytes_one, length_app, sl_size_bytes by done.
    by rewrite Hl.
Qed.

Lemma AddSlice_bytes s b : sb_bytes (AddSlice s b) = sb_bytes b ++ sl_bytes s.
Proof. unfold sb_bytes. cbn. by rewrite vs_bytes_app, vs_bytes_one. Qed.

(** A slice being filled: the first [pos] bytes of [dst] are [w], and it is that
    of a buffer of [n] bytes. *)
Definition filled (n : nat) (w : list cell) (dst : S) : Prop :=
  sl_wf dst /\ sl_size dst = n /\ take (length w) (sl_bytes dst) = w.

Lemma filled_make n : filled n [] (sl_make n).
Proof. split; [apply sl_make_wf|]. split; [apply sl_make_size|done]. Qed.

Lemma filled_write n w d dst :
  filled n w dst -> length w + length d <= n ->
  exists dst', sl_write (length w) d dst = Some dst' /\ filled n (w ++ d) dst'.
Proof.
  intros (Hwf & Hn & Hw) Hd.
  destruct (sl_write_spec (length w) d dst Hwf) as (dst' & E & Hwf' & Hn' & Hb); [lia|].
  exists dst'. split; [done|]. split; [done|]. split; [lia|].
  rewrite Hb, Hw, app_assoc. apply take_app_length.
Qed.

Lemma filled_all n w dst : filled n w dst -> length w = n -> sl_wf dst /\ sl_bytes dst = w.
Proof.
  intros (Hwf & Hn & Hw) E. split; [done|].
  rewrite take_ge in Hw; [done|]. rewrite sl_size_bytes by done. lia.
Qed.

Lemma Merge_loop_spec vs : forall n w dst,
  Forall sl_wf vs -> filled n w dst -> length w + length (vs_bytes vs) <= n ->
  exists dst', Merge_loop vs (length w) dst = Some dst' /\ filled n (w ++ vs_bytes vs) dst'.
Proof.
  induction vs as [|s vs IH]; intros n w dst Hvs Hf Hn; cbn [Merge_loop].
  { exists dst. by rewrite app_nil_r. }
  apply Forall_cons in Hvs as [Hs Hvs]. rewrite vs_bytes_cons, length_app in *.
  destruct (Nat.ltb_spec 0 (sl_size s)) as [Hz|Hz].
  - destruct (filled_write n w (sl_bytes s) dst) as (dst1 & -> & Hf1); [done|lia|].
    cbn. rewrite <- sl_size_bytes, <- length_app by done.
    destruct (IH n (w ++ sl_bytes s) dst1) as (dst2 & E & Hf2); [done..|rewrite length_app; lia|].
    exists dst2. by rewrite E, app_assoc.
  - assert (sl_bytes s = []) as -> by (apply nil_length_inv; rewrite sl_size_bytes by done; lia).
    apply IH; [done..|cbn in Hn; lia].
Qed.

Lemma Merge_spec b :
  sb_wf b -> exists s, Merge b = Some s /\ sl_wf s /\ sl_bytes s = sb_bytes b.
Proof.
  intros [Hvs Hl]. unfold Merge, GetBufferLength, sb_bytes in *.
  destruct (sb_vs b) as [|s [|s' vs]] eqn:E.
  - exists sl_nil. split; [done|]. split; [apply sl_nil_wf|apply sl_nil_bytes].
  - exists s. split; [done|]. rewrite Forall_singleton in Hvs. split; [done|].
    by rewrite vs_bytes_one.
  - destruct (Merge_loop_spec (s :: s' :: vs) (sb_length b) [] (sl_make (sb_length b)))
      as (r & Er & Hr); [done|apply filled_make|cbn; lia|].
    exists r. split; [done|]. eapply filled_all; [done|]. by rewrite Hl.
Qed.

Lemma CopyToBuffer_loop_spec vs : forall n left w dst,
  Forall sl_wf vs -> filled n w dst -> length w + left <= n -> left <= length (vs_bytes vs) ->
  exists dst', CopyToBuffer_loop vs left (length w) dst = Ret (dst', length w + left) /\
    filled n (w ++ take left (vs_bytes vs)) dst'.
Proof.
  induction vs as [|s vs IH]; intros n left w dst Hvs Hf Hn Hleft; cbn [CopyToBuffer_loop].
  { change (vs_bytes []) with (@nil cell) in *. cbn in Hleft. replace left with 0 by lia.
    exists dst. by rewrite Nat.add_0_r, app_nil_r. }
  destruct (Nat.eqb_spec left 0) as [->|Hz].
  { exists dst. by rewrite Nat.add_0_r, take_0, app_nil_r. }
  apply Forall_cons in Hvs as [Hs Hvs]. rewrite vs_bytes_cons, length_app, sl_size_bytes in * by done.
  set (len := left `min` sl_size s).
  assert (length (take len (sl_bytes s)) = len) as Hlen
    by (rewrite length_take, sl_size_bytes by done; unfold len; lia).
  destruct (filled_write n w (take len (sl_bytes s)) dst) as (dst1 & -> & Hf1); [done|lia|].
  destruct (IH n (left - len) (w ++ take len (sl_bytes s)) dst1) as (dst2 & E & Hf2);
    [done..|rewrite length_app; lia|lia|].
  rewrite length_app, Hlen in E. exists dst2. rewrite E. split; [do 2 f_equal; lia|].
  rewrite <- app_assoc in Hf2. unfold len in Hf2.
  rewrite take_app, sl_size_bytes by done.
  replace (take left (sl_bytes s)) with (take (left `min` sl_size s) (sl_bytes s)).
  2:{ rewrite <- take_take, <- sl_size_bytes by done. by rewrite firstn_all. }
  by replace (left - sl_size s) with (left - left `min` sl_size s) by lia.
Qed.

Lemma GetHeader_spec len b :
  sb_wf b ->
  exists s, GetHeader len b = Ret s /\ sl_wf s /\
    sl_bytes s = if len <=? sb_length b then take len (sb_bytes b) else [].
Proof.
  intros [Hvs Hl]. unfold GetHeader, CopyToBuffer, GetBufferLength.
  destruct (Nat.leb_spec len (sb_length b)) as [Hle|Hgt].
  2:{ rewrite (proj2 (Nat.ltb_lt _ _) Hgt), orb_true_r.
      exists sl_nil. split; [done|]. split; [apply sl_nil_wf|apply sl_nil_bytes]. }
  rewrite (proj2 (Nat.ltb_ge _ _) Hle), orb_false_r.
  destruct (Nat.eqb_spec len 0) as [->|Hz].
  { exists sl_nil. split; [done|]. split; [apply sl_nil_wf|]. by rewrite take_0, sl_nil_bytes. }
  destruct (CopyToBuffer_loop_spec (sb_vs b) len len [] (sl_make len)) as (s & E & Hs);
    [done|apply filled_make|done|unfold sb_bytes in Hl; lia|].
  cbn in E. rewrite E. exists s. split; [done|]. eapply filled_all; [done|].
  cbn. rewrite length_take. lia.
Qed.

Lemma MoveHeader_rec_spec vs : forall len,
  Forall sl_wf vs ->
  exists b', MoveHeader_rec vs (length (vs_bytes vs)) len =
      Ret (len <=? length (vs_bytes vs), b') /\
    sb_wf b' /\
    sb_bytes b' = if len <=? length (vs_bytes vs) then drop len (vs_bytes vs) else vs_bytes vs.
Proof.
  induction vs as [|s vs IH]; intros len Hvs; cbn [MoveHeader_rec].
  { destruct len as [|len]; cbn; eexists; (split; [done|]); (split; [by split|done]). }
  set (L := length _). destruct (Nat.ltb_spec L len) as [Hlt|Hge].
  { rewrite (proj2 (Nat.leb_gt _ _) Hlt). eexists. split; [done|]. by split. }
  rewrite (proj2 (Nat.leb_le _ _) Hge).
  destruct (Nat.eqb_spec len 0) as [->|Hz].
  { eexists. split; [done|]. split; [by split|by rewrite drop_0]. }
  apply Forall_cons in Hvs as [Hs Hvs]. subst L. rewrite vs_bytes_cons, length_app, sl_size_bytes in * by done.
  destruct (Nat.ltb_spec len (sl_size s)) as [Hl|Hl];
    [|destruct (Nat.eqb_spec (sl_size s) len) as [He|He]].
  - eexists. split; [done|]. unfold sb_wf, sb_bytes. cbn [sb_vs sb_length].
    rewrite vs_bytes_cons, sl_pop_front_bytes, length_app, length_drop, sl_size_bytes by done.
    split; [split; [|lia]|].
    + apply Forall_cons; split; [by apply sl_pop_front_wf|done].
    + by rewrite drop_app_le by (rewrite sl_size_bytes by done; lia).
  - eexists. split; [done|]. unfold sb_wf, sb_bytes. cbn [sb_vs sb_length].
    split; [split; [done|lia]|].
    by rewrite <- He, <- sl_size_bytes, drop_app_length by done.
  - destruct (IH (len - sl_size s) Hvs) as (b' & E & Hwf & Hb).
    rewrite (proj2 (Nat.leb_le (len - sl_size s) _)) in E, Hb by lia.
    exists b'. replace (sl_size s + length (vs_bytes vs) - sl_size s) with (length (vs_bytes vs)) by lia.
    split; [done|]. split; [done|]. rewrite Hb.
    by rewrite drop_app_ge, sl_size_bytes by (try rewrite sl_size_bytes by done; done || lia).
Qed.

Lemma MoveHeader_spec len b :
  sb_wf b ->
  exists b', MoveHeader len b = Ret (len <=? sb_length b, b') /\ sb_wf b' /\
    sb_bytes b' = if len <=? sb_length b then drop len (sb_bytes b) else sb_bytes b.
Proof.
  intros [Hvs Hl]. unfold MoveHeader. rewrite Hl. by apply MoveHeader_rec_spec.
Qed.

Lemma SliceBuffer_PopFront_spec b s rest :
  sb_wf b -> sb_vs b = s :: rest ->
  sb_wf (SliceBuffer_PopFront b) /\ sb_bytes (SliceBuffer_PopFront b) = drop (sl_size s) (sb_bytes b).
Proof.
  unfold sb_wf, SliceBuffer_PopFront, sb_bytes. intros [Hvs Hl] E. rewrite E in *.
  apply Forall_cons in Hvs as [Hs Hvs]. cbn [sb_vs sb_length].
  rewrite Hl, vs_bytes_cons, length_app, sl_size_bytes by done.
  split; [split; [done|lia]|]. by rewrite <- sl_size_bytes, drop_app_length by done.
Qed.

Lemma SliceBuffer_PopBack_spec b s :
  sb_wf b -> last (sb_vs b) = Some s ->
  sb_wf (SliceBuffer_PopBack b) /\
  sb_bytes (SliceBuffer_PopBack b) = take (sb_length b - sl_size s) (sb_bytes b).
Proof.
  unfold sb_wf, SliceBuffer_PopBack, sb_bytes. intros [Hvs Hl] E. rewrite E.
  apply last_Some in E as [vs E]. rewrite E in *. rewrite removelast_last. cbn [sb_vs sb_length].
  apply Forall_app in Hvs as [Hvs Hs]. rewrite Forall_singleton in Hs.
  rewrite Hl, vs_bytes_app, vs_bytes_one, length_app, sl_size_bytes by done.
  split; [split; [done|lia]|].
  by rewrite Nat.add_sub, take_app_length.
Qed.

(** A loop whose callback never stops it folds over all slices in order. *)
Lemma ForEachSlice_from_all {A} (f : S -> A -> A) vs (a : A) :
  ForEachSlice_from (fun s a => (true, f s a)) vs a = fold_left (fun a s => f s a) vs a.
Proof. revert a. induction vs as [|s vs IH]; intros a; [done|]. cbn. apply IH. Qed.
End Laws.

(** ** The specification: a queue of bytes *)

Section ByteQueue.
Context {S : Type} `{SliceLaws S}.

Inductive buffer_op : Type :=
  | BufAdd (s : S)
  | BufHeader (len : nat)
  | BufMove (len : nat)
  | BufMerge
  | BufLength
  | BufClear.

Inductive buffer_result : Type :=
  | RUnit
  | RBytes (d : list cell)
  | RBool (b : bool)
  | RNat (n : nat).

(** What a byte queue does. *)
Definition queue_step (o : buffer_op) (q : list cell) : buffer_result * list cell :=
  match o with
  | BufAdd s => (RUnit, q ++ sl_bytes s)
  | BufHeader len => (RBytes (if len <=? length q then take len q else []), q)
  | BufMove len => if len <=? length q then (RBool true, drop len q) else (RBool false, q)
  | BufMerge => (RBytes q, q)
  | BufLength => (RNat (length q), q)
  | BufClear => (RUnit, [])
  end.

(** What the buffer does; [None] is undefined behaviour or an assertion failure. *)
Definition buffer_step (o : buffer_op) (b : SliceBuffer S) : option (buffer_result * SliceBuffer S) :=
  match o with
  | BufAdd s => Some (RUnit, AddSlice s b)
  | BufHeader len =>
      match GetHeader len b with Ret s => Some (RBytes (sl_bytes s), b) | _ => None end
  | BufMove len =>
      match MoveHeader len b with Ret (r, b) => Some (RBool r, b) | _ => None end
  | BufMerge => s ← Merge b; Some (RBytes (sl_bytes s), b)
  | BufLength => Some (RNat (GetBufferLength b), b)
  | BufClear => Some (RUnit, ClearBuffer b)
  end.

Definition op_wf (o : buffer_op) : Prop :=
  match o with BufAdd s => sl_wf s | _ => True end.

Fixpoint queue_run (os : list buffer_op) (q : list cell) : list buffer_result :=
  match os with
  | [] => []
  | o :: os => let '(r, q) := queue_step o q in r :: queue_run os q
  end.

Fixpoint buffer_run (os : list buffer_op) (b : SliceBuffer S) : option (list buffer_result) :=
  match os with
  | [] => Some []
  | o :: os =>
      '(r, b) ← buffer_step o b;
      rs ← buffer_run os b;
      Some (r :: rs)
  end.

Lemma buffer_step_refines o b :
  sb_wf b -> op_wf o ->
  exists r b', buffer_step o b = Some (r, b') /\ sb_wf b' /\
    queue_step o (sb_bytes b) = (r, sb_bytes b').
Proof.
  intros Hb Ho. pose proof (proj2 Hb) as Hl. destruct o as [s|len|len| | |]; cbn.
  - eexists _, _. split; [done|]. split; [by apply AddSlice_wf|]. by rewrite AddSlice_bytes.
  - destruct (GetHeader_spec len b Hb) as (s & -> & _ & Hs).
    eexists _, _. split; [done|]. split; [done|]. by rewrite Hs, Hl.
  - destruct (MoveHeader_spec len b Hb) as (b' & -> & Hwf & Hb').
    eexists _, _. split; [done|]. split; [done|]. rewrite Hb', Hl. clear. by destruct (len <=? length (sb_bytes b)).
  - destruct (Merge_spec b Hb) as (s & -> & _ & Hs). cbn.
    eexists _, _. split; [done|]. split; [done|]. by rewrite Hs.
  - eexists _, _. split; [done|]. split; [done|]. unfold GetBufferLength. by rewrite Hl.
  - eexists _, _. split; [done|]. by split.
Qed.

(** C9. A slice buffer is a byte queue: whatever well-formed slices are added and
    whatever headers are read and dropped, in any order, every call returns what
    the queue of the concatenated bytes returns; no call reads or writes out of
    range, reaches the end of the vector or fails the assertion of [CopyToBuffer]. *)
Theorem slice_buffer_refines_queue (os : list buffer_op) (b : SliceBuffer S) :
  sb_wf b -> Forall op_wf os -> buffer_run os b = Some (queue_run os (sb_bytes b)).
Proof.
  intros Hb Hos. revert b Hb. induction Hos as [|o os Ho _ IH]; intros b Hb; cbn; [done|].
  destruct (buffer_step_refines o b Hb Ho) as (r & b' & -> & Hb' & ->). cbn.
  by rewrite IH.
Qed.
End ByteQueue.

Arguments buffer_op : clear implicits.

Definition frame_ops : list (buffer_op Slice) :=
  [BufAdd (Slice_ctor (bytes_of 10)); BufAdd Slice_default; BufAdd (Slice_ctor (bytes_of 30));
   BufHeader 25; BufMove 25; BufMerge; BufMove 100; BufLength].

Lemma slice_buffer_refines_queue_witness :
  buffer_run frame_ops SliceBuffer_new = Some (queue_run frame_ops (sb_bytes (S := Slice) SliceBuffer_new)).
Proof.
  apply slice_buffer_refines_queue; [apply SliceBuffer_new_wf|].
  repeat (apply Forall_cons; split); try exact I; try apply Slice_ctor_wf; try apply Slice_default_wf.
  apply Forall_nil; exact I.
Defined.
