(* ===== verification/Mpscq.v ===== *)
(** * The multi-producer single-consumer queue (include/raptor-lite/utils/mpscq.h,
      src/utils/mpscq.cc)

    Nodes are addresses; a node that is not allocated has no entry in [q_next], and
    touching it is undefined behaviour.  [push] and [PopAndCheckEnd] are the
    functions of the source, run without interruption.  The second part runs their
    atomic accesses one at a time, in any interleaving of any number of producers
    with the consumer: every pushed node is popped at most once, in the order of the
    exchanges on [_newest], and no access touches a node the consumer gave back. *)

From S2P Require Import Prelude.

Record mpscq : Type := {
  q_next : gmap nat (option nat);
  q_newest : nat;
  q_oldest : nat;
}.

Definition stub : nat := 0.

Definition mpscq_new : mpscq :=
  {| q_next := {[stub := None]}; q_newest := stub; q_oldest := stub |}.

(** The destructor's assertions. *)
Definition mpscq_delete : M mpscq unit :=
  p ← gets q_newest;
  _ ← raptor_assert (p =? stub);
  o ← gets q_oldest;
  raptor_assert (o =? stub).

(** ** Atomic accesses *)

Definition load_next (n : nat) : M mpscq (option nat) :=
  o ← gets (fun q => q_next q !! n); of_option o.

Definition store_next (n : nat) (v : option nat) : M mpscq unit :=
  o ← gets (fun q => q_next q !! n);
  _ ← of_option o;
  modify (fun q => {| q_next := <[n := v]> (q_next q); q_newest := q_newest q; q_oldest := q_oldest q |}).

Definition exchange_newest (n : nat) : M mpscq nat :=
  prev ← gets q_newest;
  _ ← modify (fun q => {| q_next := q_next q; q_newest := n; q_oldest := q_oldest q |});
  mret prev.

(** [_oldest] belongs to the consumer. *)
Definition set_oldest (n : nat) : M mpscq unit :=
  modify (fun q => {| q_next := q_next q; q_newest := q_newest q; q_oldest := n |}).

(** ** The functions *)

Definition push (node : nat) : M mpscq bool :=
  _ ← store_next node None;
  prev ← exchange_newest node;
  _ ← store_next prev (Some node);
  mret (prev =? stub).

(** The second half of [PopAndCheckEnd], from "tail is the last one (oldest)" on. *)
Definition PopAndCheckEnd_tail (tail : nat) (obj : option nat) : M mpscq (option nat * bool) :=
  match obj with
  | Some obj => _ ← set_oldest obj; mret (Some tail, false)
  | None =>
      head ← gets q_newest;
      if negb (tail =? head) then mret (None, false)
      else
        _ ← push stub;
        obj ← load_next tail;
        match obj with
        | Some obj => _ ← set_oldest obj; mret (Some tail, false)
        | None => mret (None, false)
        end
  end.

(** The result is the node, or the null pointer, and [*empty]. *)
Definition PopAndCheckEnd : M mpscq (option nat * bool) :=
  tail ← gets q_oldest;
  obj ← load_next tail;
  if tail =? stub then
    match obj with
    | None => mret (None, true)
    | Some obj =>
        _ ← set_oldest obj;
        obj' ← load_next obj;
        PopAndCheckEnd_tail obj obj'
    end
  else PopAndCheckEnd_tail tail obj.

Definition pop : M mpscq (option nat) :=
  '(node, _) ← PopAndCheckEnd; mret node.

(** ** The consumer, one atomic access at a time *)

Inductive cpc : Type :=
  | CIdle
  | CLoad2 (tail : nat)
  | CNewest (tail : nat)
  | CStubInit (tail : nat)
  | CStubXchg (tail : nat)
  | CStubLink (tail prev : nat)
  | CLast (tail : nat).

(** The next program point, and the result when the call returns. *)
Definition consumer_step (pc : cpc) : M mpscq (cpc * option (option nat * bool)) :=
  match pc with
  | CIdle =>
      tail ← gets q_oldest;
      obj ← load_next tail;
      if tail =? stub then
        match obj with
        | None => mret (CIdle, Some (None, true))
        | Some obj => _ ← set_oldest obj; mret (CLoad2 obj, None)
        end
      else
        match obj with
        | Some obj => _ ← set_oldest obj; mret (CIdle, Some (Some tail, false))
        | None => mret (CNewest tail, None)
        end
  | CLoad2 tail =>
      obj ← load_next tail;
      match obj with
      | Some obj => _ ← set_oldest obj; mret (CIdle, Some (Some tail, false))
      | None => mret (CNewest tail, None)
      end
  | CNewest tail =>
      head ← gets q_newest;
      if negb (tail =? head) then mret (CIdle, Some (None, false))
      else mret (CStubInit tail, None)
  | CStubInit tail => _ ← store_next stub None; mret (CStubXchg tail, None)
  | CStubXchg tail => prev ← exchange_newest stub; mret (CStubLink tail prev, None)
  | CStubLink tail prev => _ ← store_next prev (Some stub); mret (CLast tail, None)
  | CLast tail =>
      obj ← load_next tail;
      match obj with
      | Some obj => _ ← set_oldest obj; mret (CIdle, Some (Some tail, false))
      | None => mret (CIdle, Some (None, false))
      end
  end.

(** Steps of the consumer until the call returns. *)
Fixpoint consumer_run (fuel : nat) (pc : cpc) : M mpscq (option nat * bool) :=
  match fuel with
  | 0 => no_fuel
  | S fuel =>
      '(pc, r) ← consumer_step pc;
      match r with
      | Some r => mret r
      | None => consumer_run fuel pc
      end
  end.

(** Seven accesses suffice: the steps are those of the function. *)
Ltac mp_unfold :=
  unfold load_next, store_next, exchange_newest, set_oldest, of_option, undef, gets, modify in *;
  unfold mbind, M_bind, mret, M_ret in *; cbn [q_next q_newest q_oldest] in *.

Lemma consumer_run_S n pc q :
  consumer_run (S n) pc q =
  match consumer_step pc q with
  | Ret ((_, Some r), q') => Ret (r, q')
  | Ret ((pc', None), q') => consumer_run n pc' q'
  | Undef => Undef
  | Abort => Abort
  | NoFuel => NoFuel
  end.
Proof.
  cbn [consumer_run]. unfold mbind, M_bind.
  by destruct (consumer_step pc q) as [[[pc' [r|]] q']| | |].
Qed.

Ltac consumer_step_tac := rewrite consumer_run_S; cbn [consumer_step]; mp_unfold.

Lemma consumer_run_newest k tail q :
  consumer_run (5 + k) (CNewest tail) q = PopAndCheckEnd_tail tail None q.
Proof.
  unfold PopAndCheckEnd_tail, push. cbn [Nat.add].
  consumer_step_tac. destruct (tail =? q_newest q); [|done]. cbn [negb].
  consumer_step_tac. destruct (q_next q !! stub); [|done].
  consumer_step_tac. consumer_step_tac.
  destruct (<[stub:=None]> (q_next q) !! q_newest q); [|done].
  consumer_step_tac. by destruct (_ !! tail) as [[?|]|].
Qed.

Lemma consumer_run_PopAndCheckEnd q : consumer_run 7 CIdle q = PopAndCheckEnd q.
Proof.
  unfold PopAndCheckEnd. consumer_step_tac.
  destruct (q_next q !! q_oldest q) as [[o|]|]; [| |done];
    destruct (q_oldest q =? stub); try done.
  - consumer_step_tac. destruct (q_next q !! o) as [[o'|]|]; [done| |done].
    apply (consumer_run_newest 0).
  - apply (consumer_run_newest 1).
Qed.

(** ** Any interleaving of producers and the consumer *)

(** The producers between two accesses: those that prepared their node, and those
    that exchanged it with [prev] and have not linked it yet.  [c_hist] are the
    nodes in the order of their exchanges, [c_popped] those [pop] returned. *)
Record config : Type := {
  c_q : mpscq;
  c_inits : list nat;
  c_links : list (nat * nat);
  c_pc : cpc;
  c_hist : list nat;
  c_popped : list nat;
}.

Definition config_new : config :=
  {| c_q := mpscq_new; c_inits := []; c_links := []; c_pc := CIdle; c_hist := []; c_popped := [] |}.

Inductive action : Type :=
  | ABegin (node : nat)
  | AXchg (i : nat)
  | ALink (i : nat)
  | APop.

(** The caller allocates a node for [push] and frees the one [pop] returned. *)
Definition allocate (n : nat) (q : mpscq) : mpscq :=
  {| q_next := <[n := None]> (q_next q); q_newest := q_newest q; q_oldest := q_oldest q |}.
Definition deallocate (n : nat) (q : mpscq) : mpscq :=
  {| q_next := delete n (q_next q); q_newest := q_newest q; q_oldest := q_oldest q |}.

Definition with_q {A} (o : outcome (A * mpscq)) (f : A -> mpscq -> config) : outcome config :=
  match o with Ret (a, q) => Ret (f a q) | Undef => Undef | Abort => Abort | NoFuel => NoFuel end.

(** One access by one thread; an action no thread can take changes nothing. *)
Definition act (a : action) (c : config) : outcome config :=
  match a with
  | ABegin n =>
      if decide (q_next (c_q c) !! n = None) then
        with_q (store_next n None (allocate n (c_q c))) (fun _ q =>
          {| c_q := q; c_inits := n :: c_inits c; c_links := c_links c; c_pc := c_pc c;
             c_hist := c_hist c; c_popped := c_popped c |})
      else Ret c
  | AXchg i =>
      match c_inits c !! i with
      | Some n =>
          with_q (exchange_newest n (c_q c)) (fun prev q =>
            {| c_q := q; c_inits := delete i (c_inits c); c_links := (prev, n) :: c_links c;
               c_pc := c_pc c; c_hist := c_hist c ++ [n]; c_popped := c_popped c |})
      | None => Ret c
      end
  | ALink i =>
      match c_links c !! i with
      | Some (prev, n) =>
          with_q (store_next prev (Some n) (c_q c)) (fun _ q =>
            {| c_q := q; c_inits := c_inits c; c_links := delete i (c_links c);
               c_pc := c_pc c; c_hist := c_hist c; c_popped := c_popped c |})
      | None => Ret c
      end
  | APop =>
      with_q (consumer_step (c_pc c) (c_q c)) (fun '(pc, r) q =>
        match r with
        | Some (Some n, _) =>
            {| c_q := deallocate n q; c_inits := c_inits c; c_links := c_links c; c_pc := pc;
               c_hist := c_hist c; c_popped := c_popped c ++ [n] |}
        | _ =>
            {| c_q := q; c_inits := c_inits c; c_links := c_links c; c_pc := pc;
               c_hist := c_hist c; c_popped := c_popped c |}
        end)
  end.

Fixpoint interleave (acts : list action) (c : config) : outcome config :=
  match acts with
  | [] => Ret c
  | a :: acts => match act a c with Ret c => interleave acts c | Undef => Undef | Abort => Abort | NoFuel => NoFuel end
  end.

(** ** The chain from [_oldest] to [_newest] *)

(** Each node of the chain links to the one exchanged after it, or the thread that
    exchanged that one still has to store the link. *)
Fixpoint chain (nx : gmap nat (option nat)) (P : list (nat * nat)) (L : list nat) : Prop :=
  match L with
  | [] => False
  | [x] => nx !! x = Some None /\ x ∉ P.*1
  | a :: (b :: _) as L =>
      ((nx !! a = Some (Some b) /\ a ∉ P.*1) \/ (nx !! a = Some None /\ (a, b) ∈ P)) /\ chain nx P L
  end.

#[global] Instance chain_proper nx : Proper ((≡ₚ) ==> (=) ==> iff) (chain nx).
Proof.
  intros P P' HP L _ <-. induction L as [|a [|b L] IH]; [done| |]; cbn.
  - by rewrite HP.
  - by rewrite IH, !HP.
Qed.

Lemma chain_frame nx P L x v : x ∉ L -> chain nx P L -> chain (<[x := v]> nx) P L.
Proof.
  induction L as [|a [|b L] IH]; [done| |]; intros Hx.
  - cbn. rewrite lookup_insert_ne by set_solver. done.
  - intros [Ha Hr]. split; [|apply IH; [set_solver|done]].
    rewrite lookup_insert_ne by set_solver. done.
Qed.

Lemma chain_delete nx P L x : x ∉ L -> chain nx P L -> chain (delete x nx) P L.
Proof.
  induction L as [|a [|b L] IH]; [done| |]; intros Hx.
  - cbn. rewrite lookup_delete_ne by set_solver. done.
  - intros [Ha Hr]. split; [|apply IH; [set_solver|done]].
    rewrite lookup_delete_ne by set_solver. done.
Qed.

Lemma chain_alloc nx P L a : chain nx P L -> a ∈ L -> is_Some (nx !! a).
Proof.
  induction L as [|x [|y L] IH]; [done| |].
  - intros [Hx _] Ha. apply list_elem_of_singleton in Ha as ->. eauto.
  - intros [Hx Hr] Ha. apply elem_of_cons in Ha as [->|Ha]; [|by apply IH].
    destruct Hx as [[-> _]|[-> _]]; eauto.
Qed.

(** A producer exchanges [n]. *)
Lemma chain_extend nx P L n prev :
  chain nx P L -> NoDup (L ++ [n]) -> last L = Some prev -> nx !! n = Some None -> n ∉ P.*1 ->
  chain nx ((prev, n) :: P) (L ++ [n]).
Proof.
  intros Hc HN Hl Hn HnP. induction L as [|a [|b L] IH]; [done| |].
  - cbn in Hl. simplify_eq. destruct Hc as [Ha HaP]. cbn. split; [right; split; [done|left]|].
    apply NoDup_cons in HN as [HN _]. cbn. set_solver.
  - destruct Hc as [Ha Hr]. cbn [app] in *. apply NoDup_cons in HN as [HaL HN].
    specialize (IH Hr HN Hl). split; [|done].
    assert (prev ∈ b :: L) by (by apply last_Some_elem_of).
    destruct Ha as [[Ha HaP]|[Ha HaP]]; [left|right]; (split; [done|]); cbn; set_solver.
Qed.

(** A thread stores the link it owes. *)
Lemma chain_link nx P L a b :
  chain nx ((a, b) :: P) L -> NoDup L -> NoDup (a :: P.*1) -> a ∈ L ->
  chain (<[a := Some b]> nx) P L.
Proof.
  intros Hc HL HP Ha. apply NoDup_cons in HP as [HaP HP].
  induction L as [|x [|y L] IH]; [done| |].
  - destruct Hc as [_ Hx]. apply list_elem_of_singleton in Ha as ->. cbn in Hx. set_solver.
  - destruct Hc as [Hx Hr]. apply NoDup_cons in HL as [HxL HL].
    destruct (decide (x = a)) as [->|Hxa].
    + split.
      * left. split; [|done]. rewrite lookup_insert_eq. do 2 f_equal.
        destruct Hx as [[_ Hx]|[_ Hx]]; [cbn in Hx; set_solver|].
        apply elem_of_cons in Hx as [Hx|Hx]; [congruence|].
        exfalso. apply HaP. by apply (list_elem_of_fmap_2 fst) in Hx.
      * apply chain_frame; [done|].
        clear -Hr HxL. revert y Hr HxL. induction L as [|z L IH]; intros y Hr HxL.
        -- destruct Hr as [H1 H2]. cbn in *. set_solver.
        -- destruct Hr as [H1 H2]. split; [|apply IH; [done|set_solver]].
           destruct H1 as [[H1 H1']|[H1 H1']]; [left|right]; (split; [done|]); cbn in *; set_solver.
    + assert (a ∈ y :: L) by set_solver. split; [|by apply IH].
      rewrite lookup_insert_ne by done.
      destruct Hx as [[H1 H1']|[H1 H1']]; [left|right]; (split; [done|]); cbn in *; set_solver.
Qed.

(** The consumer moves past the head of the chain when it sees its link. *)
Lemma chain_next nx P a b L :
  chain nx P (a :: L) -> nx !! a = Some (Some b) ->
  exists L', L = b :: L' /\ chain nx P L /\ a ∉ P.*1.
Proof.
  intros Hc Ha. destruct L as [|y L].
  - destruct Hc as [Hc _]. congruence.
  - destruct Hc as [[[Hy Hn]|[Hy _]] Hr]; [|congruence].
    rewrite Ha in Hy. simplify_eq. eauto.
Qed.

#[local] Arguments chain : simpl never.

(** ** The invariant *)

Definition pc_link (pc : cpc) : list (nat * nat) :=
  match pc with CStubLink _ prev => [(prev, stub)] | _ => [] end.

Definition links (c : config) : list (nat * nat) := pc_link (c_pc c) ++ c_links c.

Definition outstanding (L : list nat) : list nat := filter (fun n => n <> stub) L.
#[local] Arguments outstanding : simpl never.

Definition pc_ok (pc : cpc) (nx : gmap nat (option nat)) (L : list nat) : Prop :=
  match pc with
  | CIdle => True
  | CLoad2 t | CNewest t => head L = Some t /\ t <> stub
  | CStubInit t => head L = Some t /\ t <> stub /\ (stub ∉ L)
  | CStubXchg t => head L = Some t /\ t <> stub /\ (stub ∉ L) /\ nx !! stub = Some None
  | CStubLink t _ | CLast t => head L = Some t /\ t <> stub
  end.

Record mp_inv (L : list nat) (c : config) : Prop := {
  inv_chain : chain (q_next (c_q c)) (links c) L;
  inv_nodup : NoDup L;
  inv_head : head L = Some (q_oldest (c_q c));
  inv_last : last L = Some (q_newest (c_q c));
  inv_owed : NoDup (links c).*1;
  inv_owed_in : forall a, a ∈ (links c).*1 -> a ∈ L;
  inv_inits : forall n, n ∈ c_inits c -> q_next (c_q c) !! n = Some None /\ (n ∉ L) /\ n <> stub;
  inv_inits_nodup : NoDup (c_inits c);
  inv_stub : is_Some (q_next (c_q c) !! stub);
  inv_hist : c_hist c = c_popped c ++ outstanding L;
  inv_pc : pc_ok (c_pc c) (q_next (c_q c)) L;
}.

Lemma store_next_spec n v q w :
  q_next q !! n = Some w ->
  store_next n v q =
    Ret (tt, {| q_next := <[n := v]> (q_next q); q_newest := q_newest q; q_oldest := q_oldest q |}).
Proof. intros E. mp_unfold. by rewrite E. Qed.

Lemma config_new_inv : mp_inv [stub] config_new.
Proof.
  split; cbn; try done; try apply NoDup_nil_2; try set_solver.
  - split; [done|apply not_elem_of_nil].
  - apply NoDup_singleton.
Qed.

Lemma outstanding_snoc L n : n <> stub -> outstanding (L ++ [n]) = outstanding L ++ [n].
Proof. intros Hn. unfold outstanding. by rewrite filter_app, (filter_cons_True _ n []). Qed.

Lemma outstanding_stub L : outstanding (L ++ [stub]) = outstanding L.
Proof. unfold outstanding. rewrite filter_app, filter_cons_False by auto. apply app_nil_r. Qed.

Lemma head_snoc {A} (L : list A) x t : head L = Some t -> head (L ++ [x]) = Some t.
Proof. by destruct L. Qed.

Lemma pc_ok_snoc pc nx L n : n <> stub -> pc_ok pc nx L -> pc_ok pc nx (L ++ [n]).
Proof.
  intros Hn. destruct pc; cbn; try done; intros; destruct_and?; split_and?; try done;
    try by apply head_snoc.
  all: rewrite not_elem_of_app, list_elem_of_singleton; naive_solver.
Qed.

Lemma pc_ok_frame pc nx L n v : n <> stub -> pc_ok pc nx L -> pc_ok pc (<[n := v]> nx) L.
Proof. intros Hn. destruct pc; cbn; try done. by rewrite lookup_insert_ne by done. Qed.

(** ** Every access keeps it *)

Lemma begin_inv L c n : mp_inv L c ->
  exists c', act (ABegin n) c = Ret c' /\ mp_inv L c'.
Proof.
  intros I. cbn. destruct (decide _) as [Hn|]; [|eauto].
  rewrite (store_next_spec _ _ _ None) by apply lookup_insert_eq. cbn.
  eexists. split; [done|]. destruct I as [Hc HN Hh Hl HP HPL Hi HiN Hs Hhist Hpc].
  rewrite insert_insert_eq.
  assert (n ∉ L) as HnL by (intros HnL; destruct (chain_alloc _ _ _ _ Hc HnL); congruence).
  assert (n <> stub) as Hns by (intros ->; destruct Hs; congruence).
  assert (n ∉ c_inits c) by (intros H; destruct (Hi _ H); congruence).
  split; cbn; try done.
  - by apply chain_frame.
  - intros m Hm. apply elem_of_cons in Hm as [->|Hm].
    + by rewrite lookup_insert_eq.
    + destruct (Hi _ Hm) as (? & ? & ?). rewrite lookup_insert_ne by congruence. done.
  - by apply NoDup_cons.
  - by rewrite lookup_insert_ne by done.
  - by apply pc_ok_frame.
Qed.

Lemma snoc_nodup (L : list nat) n : NoDup L -> n ∉ L -> NoDup (L ++ [n]).
Proof. intros HL Hn. apply NoDup_app. split; [done|]. split; [set_solver|apply NoDup_singleton]. Qed.

(** The last node of the chain owes no link. *)
Lemma chain_last nx P L x : chain nx P L -> last L = Some x -> x ∉ P.*1.
Proof.
  induction L as [|a [|b L] IH]; [done| |]; intros Hc Hx.
  - cbn in Hx. simplify_eq. apply Hc.
  - by apply IH; [apply Hc|].
Qed.

Lemma owed_extend L c n :
  mp_inv L c -> n ∉ L ->
  NoDup (q_newest (c_q c) :: (links c).*1) /\
  forall a, a ∈ q_newest (c_q c) :: (links c).*1 -> a ∈ L ++ [n].
Proof.
  intros I Hn. split.
  - apply NoDup_cons. split; [eapply chain_last; apply I|apply I].
  - intros a Ha. apply elem_of_app. left. apply elem_of_cons in Ha as [->|Ha].
    + apply last_Some_elem_of, I.
    + by apply I.
Qed.

Lemma xchg_inv L c i : mp_inv L c -> exists L' c', act (AXchg i) c = Ret c' /\ mp_inv L' c'.
Proof.
  intros I. cbn. destruct (c_inits c !! i) as [n|] eqn:Ei; [|eauto].
  assert (n ∈ c_inits c) as Hn by (by eapply list_elem_of_lookup_2).
  destruct (inv_inits _ _ I n Hn) as (Hnx & HnL & Hns).
  destruct (owed_extend L c n I HnL) as [HO HOL].
  pose proof (delete_Permutation _ _ _ Ei) as HPi.
  pose proof (inv_inits_nodup _ _ I) as HiN. rewrite HPi in HiN. apply NoDup_cons in HiN as [Hni HiN].
  exists (L ++ [n]). eexists. split; [done|].
  destruct I as [Hc HN Hh Hl HP HPL Hi _ Hs Hhist Hpc].
  assert (links {| c_q := {| q_next := q_next (c_q c); q_newest := n; q_oldest := q_oldest (c_q c) |};
      c_inits := delete i (c_inits c); c_links := (q_newest (c_q c), n) :: c_links c;
      c_pc := c_pc c; c_hist := c_hist c ++ [n]; c_popped := c_popped c |}
    ≡ₚ (q_newest (c_q c), n) :: links c) as Hlinks
    by (unfold links; cbn; by rewrite Permutation_middle).
  split; cbn; try done.
  - rewrite Hlinks. apply chain_extend; try done; [by apply snoc_nodup|]. auto.
  - by apply snoc_nodup.
  - by apply head_snoc.
  - by rewrite last_snoc.
  - by rewrite Hlinks.
  - intros a. rewrite Hlinks. apply HOL.
  - intros m Hm. destruct (Hi m) as (? & ? & ?); [rewrite HPi; set_solver|].
    split_and!; [done| |done]. set_solver.
  - by rewrite Hhist, outstanding_snoc, app_assoc by done.
  - by apply pc_ok_snoc.
Qed.

Lemma pc_ok_link pc nx L a v : a ∈ L -> pc_ok pc nx L -> pc_ok pc (<[a := v]> nx) L.
Proof.
  intros Ha. destruct pc; cbn; try done. intros; destruct_and?; split_and?; try done.
  by rewrite lookup_insert_ne by (intros ->; done).
Qed.

Lemma link_inv L c i : mp_inv L c -> exists c', act (ALink i) c = Ret c' /\ mp_inv L c'.
Proof.
  intros I. cbn. destruct (c_links c !! i) as [[a b]|] eqn:Ei; [|eauto].
  pose proof (delete_Permutation _ _ _ Ei) as HPi.
  assert (links c ≡ₚ (a, b) :: (pc_link (c_pc c) ++ delete i (c_links c))) as Hlinks
    by (unfold links; rewrite HPi at 1; by rewrite Permutation_middle).
  destruct I as [Hc HN Hh Hl HP HPL Hi HiN Hs Hhist Hpc].
  assert (a ∈ L) as Ha by (apply HPL; rewrite Hlinks; left).
  destruct (chain_alloc _ _ _ _ Hc Ha) as [w Hw].
  rewrite (store_next_spec _ _ _ w) by done. cbn. eexists. split; [done|].
  rewrite Hlinks in Hc, HP. split; cbn; try done.
  - by apply chain_link.
  - unfold links. cbn. by apply NoDup_cons in HP as [_ HP].
  - intros x Hx. apply HPL. rewrite Hlinks. by right.
  - intros m Hm. destruct (Hi m Hm) as (? & ? & ?).
    rewrite lookup_insert_ne by (intros ->; done). done.
  - destruct (decide (a = stub)) as [->|Hne]; [by rewrite lookup_insert_eq|].
    by rewrite lookup_insert_ne.
  - by apply pc_ok_link.
Qed.

Definition with_pc (pc : cpc) (c : config) : config :=
  {| c_q := c_q c; c_inits := c_inits c; c_links := c_links c; c_pc := pc;
     c_hist := c_hist c; c_popped := c_popped c |}.

Lemma pc_change L c pc :
  mp_inv L c -> pc_link pc = pc_link (c_pc c) -> pc_ok pc (q_next (c_q c)) L ->
  mp_inv L (with_pc pc c).
Proof.
  intros [Hc HN Hh Hl HP HPL Hi HiN Hs Hhist _] Hp Hok. unfold links in *. rewrite <- Hp in *.
  by split.
Qed.

Definition popped_config (t o : nat) (c : config) : config :=
  {| c_q := {| q_next := delete t (q_next (c_q c)); q_newest := q_newest (c_q c); q_oldest := o |};
     c_inits := c_inits c; c_links := c_links c; c_pc := CIdle;
     c_hist := c_hist c; c_popped := c_popped c ++ [t] |}.

(** The consumer returns the head of the chain. *)
Lemma pop_return L c t o :
  mp_inv (t :: L) c -> t <> stub -> q_next (c_q c) !! t = Some (Some o) -> pc_link (c_pc c) = [] ->
  mp_inv L (popped_config t o c).
Proof.
  intros [Hc HN Hh Hl HP HPL Hi HiN Hs Hhist _] Ht Ho Hp. unfold links in *. rewrite Hp in *.
  destruct (chain_next _ _ _ _ _ Hc Ho) as (L' & -> & Hc' & HtP).
  apply NoDup_cons in HN as [HtL HN].
  split; cbn; try done.
  - by apply chain_delete.
  - intros a Ha. specialize (HPL a Ha). cbn in HtP, Ha. set_solver.
  - intros m Hm. destruct (Hi m Hm) as (? & ? & ?).
    rewrite lookup_delete_ne by (intros ->; set_solver). set_solver.
  - by rewrite lookup_delete_ne.
  - rewrite Hhist. unfold outstanding. rewrite (filter_cons_True _ t) by done.
    by rewrite <- app_assoc.
Qed.

(** The consumer leaves the stub behind. *)
Lemma pass_stub L c o :
  mp_inv (stub :: L) c -> q_next (c_q c) !! stub = Some (Some o) -> pc_link (c_pc c) = [] ->
  mp_inv L {| c_q := {| q_next := q_next (c_q c); q_newest := q_newest (c_q c); q_oldest := o |};
     c_inits := c_inits c; c_links := c_links c; c_pc := CLoad2 o;
     c_hist := c_hist c; c_popped := c_popped c |}.
Proof.
  intros [Hc HN Hh Hl HP HPL Hi HiN Hs Hhist _] Ho Hp. unfold links in *. rewrite Hp in *.
  destruct (chain_next _ _ _ _ _ Hc Ho) as (L' & -> & Hc' & HtP).
  apply NoDup_cons in HN as [HtL HN].
  split; cbn; try done.
  - intros a Ha. specialize (HPL a Ha). cbn in HtP, Ha. set_solver.
  - intros m Hm. destruct (Hi m Hm) as (? & ? & ?). set_solver.
  - split; [done|]. set_solver.
Qed.

Lemma init_stub L c t :
  mp_inv L c -> c_pc c = CStubInit t ->
  mp_inv L {| c_q := {| q_next := <[stub := None]> (q_next (c_q c));
                        q_newest := q_newest (c_q c); q_oldest := q_oldest (c_q c) |};
     c_inits := c_inits c; c_links := c_links c; c_pc := CStubXchg t;
     c_hist := c_hist c; c_popped := c_popped c |}.
Proof.
  intros [Hc HN Hh Hl HP HPL Hi HiN Hs Hhist Hpc] Hp. unfold links in *. rewrite Hp in *.
  destruct Hpc as (Ht & Hts & HsL). split; cbn; try done.
  - by apply chain_frame.
  - intros m Hm. destruct (Hi m Hm) as (? & ? & ?). by rewrite lookup_insert_ne.
  - by rewrite lookup_insert_eq.
  - by rewrite lookup_insert_eq.
Qed.

Lemma xchg_stub L c t :
  mp_inv L c -> c_pc c = CStubXchg t ->
  mp_inv (L ++ [stub])
    {| c_q := {| q_next := q_next (c_q c); q_newest := stub; q_oldest := q_oldest (c_q c) |};
     c_inits := c_inits c; c_links := c_links c; c_pc := CStubLink t (q_newest (c_q c));
     c_hist := c_hist c; c_popped := c_popped c |}.
Proof.
  intros I Hp. pose proof (inv_pc _ _ I) as Hpc. rewrite Hp in Hpc.
  destruct Hpc as (Ht & Hts & HsL & HsN).
  destruct (owed_extend L c stub I HsL) as [HO HOL].
  destruct I as [Hc HN Hh Hl HP HPL Hi HiN Hs Hhist _]. unfold links in *. rewrite Hp in *.
  cbn in *. split; cbn; try done.
  - apply chain_extend; try done; [by apply snoc_nodup|]. auto.
  - by apply snoc_nodup.
  - by apply head_snoc.
  - by rewrite last_snoc.
  - intros m Hm. destruct (Hi m Hm) as (? & ? & ?). set_solver.
  - by rewrite Hhist, outstanding_stub.
  - by split; [apply head_snoc|].
Qed.

Lemma link_stub L c t prev :
  mp_inv L c -> c_pc c = CStubLink t prev ->
  is_Some (q_next (c_q c) !! prev) /\
  mp_inv L {| c_q := {| q_next := <[prev := Some stub]> (q_next (c_q c));
                        q_newest := q_newest (c_q c); q_oldest := q_oldest (c_q c) |};
     c_inits := c_inits c; c_links := c_links c; c_pc := CLast t;
     c_hist := c_hist c; c_popped := c_popped c |}.
Proof.
  intros [Hc HN Hh Hl HP HPL Hi HiN Hs Hhist Hpc] Hp. unfold links in *. rewrite Hp in *.
  cbn in *. assert (prev ∈ L) as Ha by (apply HPL; left).
  split; [by eapply chain_alloc|]. split; cbn; try done.
  - by apply chain_link.
  - by apply NoDup_cons in HP as [_ HP].
  - intros x Hx. apply HPL. by right.
  - intros m Hm. destruct (Hi m Hm) as (? & ? & ?).
    rewrite lookup_insert_ne by (intros ->; done). done.
  - destruct (decide (prev = stub)) as [->|Hne]; [by rewrite lookup_insert_eq|].
    by rewrite lookup_insert_ne.
Qed.

Lemma chain_head_alloc L c t : mp_inv L c -> head L = Some t ->
  exists o L', L = t :: L' /\ q_next (c_q c) !! t = Some o.
Proof.
  intros I Ht. destruct L as [|x L]; [done|]. cbn in Ht. simplify_eq.
  destruct (chain_alloc _ _ _ t (inv_chain _ _ I)) as [o Ho]; [left|]. eauto.
Qed.

Lemma head_last_single (L : list nat) t : NoDup L -> head L = Some t -> last L = Some t -> L = [t].
Proof.
  intros HN Hh Hl. destruct L as [|x L]; [done|]. cbn in Hh. simplify_eq.
  destruct L as [|y L]; [done|]. apply NoDup_cons in HN as [Hn _].
  exfalso. apply Hn. by apply last_Some_elem_of.
Qed.

(** A call that reaches [t] with its link loaded, or not. *)
Lemma load_spec L c t : mp_inv L c -> head L = Some t ->
  exists o, load_next t (c_q c) = Ret (o, c_q c) /\ q_next (c_q c) !! t = Some o.
Proof.
  intros I Ht. destruct (chain_head_alloc _ _ _ I Ht) as (o & _ & _ & Ho).
  exists o. mp_unfold. by rewrite Ho.
Qed.

Definition step_ok (c : config) : Prop := exists L' c', act APop c = Ret c' /\ mp_inv L' c'.

Lemma return_ok L c t o :
  mp_inv L c -> head L = Some t -> t <> stub -> q_next (c_q c) !! t = Some (Some o) ->
  pc_link (c_pc c) = [] -> exists L', mp_inv L' (popped_config t o c).
Proof.
  intros I Ht Hs Ho Hp. destruct L as [|x L]; [done|]. cbn in Ht. simplify_eq.
  exists L. by apply pop_return.
Qed.

(** From a head node that is not the stub: return it, or look at [_newest]. *)
Lemma node_step_ok L c t :
  mp_inv L c -> head L = Some t -> t <> stub ->
  (c_pc c = CLoad2 t \/ c_pc c = CLast t \/ (c_pc c = CIdle /\ q_oldest (c_q c) = t)) -> step_ok c.
Proof.
  intros I Ht Hs Hpc. destruct (load_spec _ _ _ I Ht) as (o & El & Ho).
  unfold step_ok, act. destruct Hpc as [E|[E|[E Eo]]]; rewrite E; cbn [consumer_step];
    unfold gets, mbind, M_bind in *.
  3: rewrite Eo, (proj2 (Nat.eqb_neq t stub) Hs).
  all: rewrite El; destruct o as [o|].
  1,3,5: destruct (return_ok L c t o I Ht Hs Ho) as [L' I']; [by rewrite E|]; by exists L', (popped_config t o c).
  all: exists L; eexists; (split; [done|]).
  - by apply (pc_change L c (CNewest t)); [|rewrite E|].
  - by apply (pc_change L c CIdle); [|rewrite E|].
  - by apply (pc_change L c (CNewest t)); [|rewrite E|].
Qed.

Lemma idle_step_ok L c : mp_inv L c -> c_pc c = CIdle -> step_ok c.
Proof.
  intros I E. pose proof (inv_head _ _ I) as Ht.
  destruct (decide (q_oldest (c_q c) = stub)) as [Hs|Hs].
  2:{ eapply node_step_ok; eauto. }
  destruct (load_spec _ _ _ I Ht) as (o & El & Ho).
  unfold step_ok, act. rewrite E. cbn [consumer_step]. unfold gets, mbind, M_bind in *.
  rewrite El, Hs. cbn [Nat.eqb stub]. destruct L as [|x L]; [done|]. cbn in Ht. simplify_eq.
  destruct o as [o|].
  - exists L. eexists. split; [done|]. rewrite Hs in I, Ho. apply pass_stub; [done..|by rewrite E].
  - exists (q_oldest (c_q c) :: L). eexists. split; [done|].
    by apply (pc_change _ c CIdle); [|rewrite E|].
Qed.

Lemma pop_inv L c : mp_inv L c -> step_ok c.
Proof.
  intros I. pose proof (inv_pc _ _ I) as Hpc.
  destruct (c_pc c) as [|t|t|t|t|t prev|t] eqn:E; cbn in Hpc.
  - by eapply idle_step_ok.
  - destruct Hpc. by eapply node_step_ok; eauto.
  - destruct Hpc as [Ht Hs]. unfold step_ok, act. rewrite E. cbn [consumer_step].
    mp_unfold. exists L. destruct (Nat.eqb_spec t (q_newest (c_q c))) as [->|Hn]; cbn [negb].
    + eexists. split; [done|]. apply (pc_change L c (CStubInit _)); [done|by rewrite E|].
      cbn. rewrite (head_last_single L (q_newest (c_q c))); [|apply I|done|apply I].
      split_and!; [done..|]. by rewrite list_elem_of_singleton.
    + eexists. split; [done|]. by apply (pc_change L c CIdle); [|rewrite E|].
  - destruct (inv_stub _ _ I) as [w Hw]. unfold step_ok, act. rewrite E. cbn [consumer_step].
    unfold mbind, M_bind. rewrite (store_next_spec _ _ _ w) by done.
    exists L. eexists. split; [done|]. by apply init_stub.
  - exists (L ++ [stub]). unfold act. rewrite E. eexists. split; [done|]. by apply xchg_stub.
  - destruct (link_stub _ _ _ _ I E) as [[w Hw] I'].
    exists L. unfold act. rewrite E. cbn [consumer_step].
    unfold mbind, M_bind. rewrite (store_next_spec _ _ _ w) by done. by eexists.
  - destruct Hpc. by eapply node_step_ok; eauto.
Qed.

Lemma act_inv L c a : mp_inv L c -> exists L' c', act a c = Ret c' /\ mp_inv L' c'.
Proof.
  intros I. destruct a as [n|i|i|].
  - destruct (begin_inv L c n I) as (? & ? & ?). eauto.
  - by eapply xchg_inv.
  - destruct (link_inv L c i I) as (? & ? & ?). eauto.
  - by eapply pop_inv.
Qed.

Lemma interleave_inv acts : forall L c, mp_inv L c ->
  exists L' c', interleave acts c = Ret c' /\ mp_inv L' c'.
Proof.
  induction acts as [|a acts IH]; intros L c I; cbn; [eauto|].
  destruct (act_inv L c a I) as (L' & c' & -> & I'). eauto.
Qed.

(** C3. Whatever the interleaving of the accesses of any number of producers with those
    of the consumer, no access touches a node that is not allocated (the consumer's
    caller frees a node as soon as [pop] returns it, and its address may be pushed
    again), and the nodes [pop] returned are, in order, the first of those the
    producers exchanged into the queue: none lost, duplicated or reordered. *)
Theorem mpscq_interleaved_fifo (acts : list action) :
  exists c rest, interleave acts config_new = Ret c /\ c_hist c = c_popped c ++ rest.
Proof.
  destruct (interleave_inv acts [stub] config_new config_new_inv) as (L & c & E & I).
  exists c, (outstanding L). split; [done|]. apply I.
Qed.

(** ** Calls with no producer between its exchange and its link *)

Lemma quiet_chain nx L a b L' : chain nx [] L -> L = a :: b :: L' -> nx !! a = Some (Some b).
Proof. intros Hc ->. destruct Hc as [[[H _]|[_ H]] _]; [done|by apply not_elem_of_nil in H]. Qed.

Lemma quiet_last nx a : chain nx [] [a] -> nx !! a = Some None.
Proof. by intros [H _]. Qed.

(** The last node comes out by way of the stub. *)
Lemma pop_single q t :
  q_next q !! t = Some None -> q_newest q = t -> t <> stub -> is_Some (q_next q !! stub) ->
  exists q', PopAndCheckEnd_tail t None q = Ret ((Some t, false), q') /\ q_oldest q' = stub.
Proof.
  intros Ht Hn Hs [w Hw]. unfold PopAndCheckEnd_tail. mp_unfold. rewrite Hn, Nat.eqb_refl. cbn [negb].
  unfold push. mp_unfold. rewrite Hw.
  cbn [q_next q_newest q_oldest]. rewrite Hn, lookup_insert_ne, Ht by done. cbn [q_next q_newest q_oldest].
  rewrite lookup_insert_eq. eauto.
Qed.

Lemma pop_quiet L c :
  mp_inv L c -> c_links c = [] -> c_pc c = CIdle ->
  exists q', PopAndCheckEnd (c_q c) =
    Ret (match outstanding L with [] => (None, true) | n :: _ => (Some n, false) end, q').
Proof.
  intros I Hl Hp. destruct I as [Hc HN Hh Hlast _ _ _ _ Hs _ _].
  unfold links in Hc. rewrite Hl, Hp in Hc. cbn in Hc.
  assert (forall t L', NoDup (t :: L') -> t <> stub -> chain (q_next (c_q c)) [] (t :: L') ->
    last (t :: L') = Some (q_newest (c_q c)) -> forall o q1, q_next (c_q c) !! t = Some o ->
    q_next q1 = q_next (c_q c) -> q_newest q1 = q_newest (c_q c) ->
    exists q', PopAndCheckEnd_tail t o q1 = Ret ((Some t, false), q')) as Htail.
  { intros t L' HN' Ht Hc' Hl' o q1 Ho E1 E2. destruct L' as [|b L'].
    - pose proof (quiet_last _ _ Hc') as Hq. rewrite Ho in Hq. simplify_eq.
      cbn in Hl'. simplify_eq.
      destruct (pop_single q1 (q_newest (c_q c))) as (q' & ? & _); rewrite ?E1; eauto.
    - rewrite (quiet_chain _ _ _ _ _ Hc' eq_refl) in Ho. simplify_eq. by eexists. }
  unfold PopAndCheckEnd. destruct L as [|t L]; [done|]. cbn in Hh. simplify_eq.
  destruct (chain_alloc _ _ _ _ Hc (list_elem_of_here _ _)) as [o Ho].
  unfold gets at 1. unfold load_next. mp_unfold. rewrite Ho.
  destruct (Nat.eqb_spec (q_oldest (c_q c)) stub) as [Es|Es].
  - rewrite Es in *. apply NoDup_cons in HN as [HsL HN]. destruct L as [|b L].
    + rewrite (quiet_last _ _ Hc) in Ho. simplify_eq. unfold outstanding.
      rewrite filter_cons_False by auto. by eexists.
    + pose proof (quiet_chain _ _ _ _ _ Hc eq_refl) as Hb. rewrite Ho in Hb. simplify_eq.
      destruct Hc as [_ Hc].
      destruct (chain_alloc _ _ _ b Hc (list_elem_of_here _ _)) as [o Hob]. rewrite Hob.
      destruct (Htail b L) with (o := o) (q1 := {| q_next := q_next (c_q c); q_newest := q_newest (c_q c); q_oldest := b |})
        as [q' E]; try done; [set_solver|].
      rewrite E. unfold outstanding. rewrite filter_cons_False by auto.
      rewrite filter_cons_True by set_solver. by eexists.
  - destruct (Htail _ L HN Es Hc Hlast o (c_q c)) as [q' E]; try done.
    rewrite E. unfold outstanding. rewrite filter_cons_True by done. by eexists.
Qed.

(** With no producer inside [push], a call of [PopAndCheckEnd] returns the node
    exchanged first among those not popped yet, and reports the queue empty exactly
    when there is none; [_newest] and [_oldest] are then back at the stub, as the
    destructor asserts. *)
Theorem mpscq_quiescent_pop (acts : list action) c :
  interleave acts config_new = Ret c -> c_links c = [] -> c_pc c = CIdle ->
  exists rest q', c_hist c = c_popped c ++ rest /\
    PopAndCheckEnd (c_q c) =
      Ret (match rest with [] => (None, true) | n :: _ => (Some n, false) end, q') /\
    (rest = [] -> mpscq_delete (c_q c) = Ret (tt, c_q c)).
Proof.
  intros E Hl Hp.
  destruct (interleave_inv acts [stub] config_new config_new_inv) as (L & c' & E' & I).
  rewrite E in E'. injection E' as <-. destruct (pop_quiet L c I Hl Hp) as [q' Hq].
  exists (outstanding L), q'. split; [apply I|]. split; [done|]. intros HL.
  assert (L = [stub]) as ->.
  { destruct I as [Hc HN _ _ _ _ _ _ _ _ _]. clear -Hc HN HL. unfold outstanding in HL.
    destruct L as [|x L]; [done|].
    destruct (decide (x = stub)) as [->|Hx]; [|by rewrite filter_cons_True in HL].
    rewrite filter_cons_False in HL by auto. destruct L as [|y L]; [done|].
    apply NoDup_cons in HN as [HN _].
    rewrite filter_cons_True in HL by (intros ->; apply HN; left). done. }
  pose proof (inv_head _ _ I) as Hh. pose proof (inv_last _ _ I) as Hn. cbn in Hh, Hn.
  unfold mpscq_delete, raptor_assert. mp_unfold.
  injection Hh as Hh. injection Hn as Hn. rewrite <- Hn, Nat.eqb_refl. by rewrite <- Hh.
Qed.

(** The destructor aborts when a node was exchanged and not popped. *)
Lemma mpscq_delete_aborts (acts : list action) c :
  interleave acts config_new = Ret c -> c_hist c <> c_popped c -> mpscq_delete (c_q c) = Abort.
Proof.
  intros E Hne. destruct (interleave_inv acts [stub] config_new config_new_inv) as (L & c' & E' & I).
  rewrite E in E'. injection E' as <-.
  assert (q_newest (c_q c) <> stub \/ q_oldest (c_q c) <> stub) as Hs.
  { destruct (decide (q_newest (c_q c) = stub)) as [Hn|]; [|by left].
    destruct (decide (q_oldest (c_q c) = stub)) as [Ho|]; [|by right]. destruct Hne.
    pose proof (inv_head _ _ I) as Hh. pose proof (inv_last _ _ I) as Hl. rewrite Ho in Hh. rewrite Hn in Hl.
    rewrite (inv_hist _ _ I), (head_last_single L stub (inv_nodup _ _ I) Hh Hl). cbn. by rewrite app_nil_r. }
  unfold mpscq_delete, raptor_assert. mp_unfold. destruct (Nat.eqb_spec (q_newest (c_q c)) stub) as [Hn|Hn]; [|done].
  destruct (Nat.eqb_spec (q_oldest (c_q c)) stub) as [Ho|Ho]; [|done]. by destruct Hs.
Qed.

(** Two producers race, the second exchanges before the first links. *)
Definition race : list action :=
  [ABegin 1; ABegin 2; AXchg 0; AXchg 0; APop; ALink 0; APop; ALink 0; APop; APop].

Definition config_after (acts : list action) : config :=
  match interleave acts config_new with Ret c => c | _ => config_new end.

Lemma mpscq_quiescent_pop_witness :
  exists rest q', c_hist (config_after race) = c_popped (config_after race) ++ rest /\
    PopAndCheckEnd (c_q (config_after race)) =
      Ret (match rest with [] => (None, true) | n :: _ => (Some n, false) end, q') /\
    (rest = [] -> mpscq_delete (c_q (config_after race)) = Ret (tt, c_q (config_after race))).
Proof. apply (mpscq_quiescent_pop race); vm_compute; reflexivity. Defined.
