(* ===== verification/ListEntry.v ===== *)
(** * Intrusive circular lists (include/raptor-lite/utils/list_entry.h,
      src/utils/list_entry.cc)

    The heap maps each allocated [list_entry] to its [prev] and [next] pointers;
    an access through a pointer that is not allocated (a null one, for instance) is
    undefined behaviour.  The theorems say that the five functions are the list
    operations on the ring that starts at the head entry. *)

From S2P Require Import Prelude.

Record entry_heap : Type := {
  eh_prev : gmap nat nat;
  eh_next : gmap nat nat;
}.

Definition get_prev (e : nat) : M entry_heap nat :=
  v ← gets (fun h => eh_prev h !! e); of_option v.
Definition get_next (e : nat) : M entry_heap nat :=
  v ← gets (fun h => eh_next h !! e); of_option v.
Definition set_prev (e v : nat) : M entry_heap unit :=
  _ ← get_prev e; modify (fun h => {| eh_prev := <[e := v]> (eh_prev h); eh_next := eh_next h |}).
Definition set_next (e v : nat) : M entry_heap unit :=
  _ ← get_next e; modify (fun h => {| eh_prev := eh_prev h; eh_next := <[e := v]> (eh_next h) |}).

Definition RAPTOR_LIST_IS_EMPTY (head : nat) : M entry_heap bool :=
  n ← get_next head; mret (n =? head).

(** [RAPTOR_LIST_ENTRY_INIT]: null pointers, address 0. *)
Definition RAPTOR_LIST_ENTRY_INIT (entry : nat) : M entry_heap unit :=
  _ ← set_next entry 0; set_prev entry 0.

Definition RAPTOR_LIST_INIT (head : nat) : M entry_heap unit :=
  _ ← set_next head head; set_prev head head.

Definition raptor_list_push_front (head new_item : nat) : M entry_heap unit :=
  first ← get_next head;
  _ ← set_next head new_item;
  _ ← set_prev new_item head;
  _ ← set_next new_item first;
  set_prev first new_item.

Definition raptor_list_push_back (head new_item : nat) : M entry_heap unit :=
  last ← get_prev head;
  _ ← set_next last new_item;
  _ ← set_prev new_item last;
  _ ← set_next new_item head;
  set_prev head new_item.

Definition raptor_list_pop_front (head : nat) : M entry_heap (option nat) :=
  e ← RAPTOR_LIST_IS_EMPTY head;
  if (e : bool) then mret None
  else
    removed ← get_next head;
    second ← get_next removed;
    _ ← set_next head second;
    _ ← set_prev second head;
    mret (Some removed).

Definition raptor_list_pop_back (head : nat) : M entry_heap (option nat) :=
  e ← RAPTOR_LIST_IS_EMPTY head;
  if (e : bool) then mret None
  else
    removed ← get_prev head;
    second ← get_prev removed;
    _ ← set_next second head;
    _ ← set_prev head second;
    mret (Some removed).

Definition raptor_list_remove_entry (item : nat) : M entry_heap bool :=
  n ← get_next item;
  if n =? item then mret false
  else
    prior ← get_prev item;
    next ← get_next item;
    _ ← set_next prior next;
    _ ← set_prev next prior;
    mret true.

(** ** Rings *)

Definition linked (h : entry_heap) (a b : nat) : Prop :=
  eh_next h !! a = Some b /\ eh_prev h !! b = Some a.

Fixpoint path (h : entry_heap) (a : nat) (l : list nat) : Prop :=
  match l with
  | [] => True
  | b :: l => linked h a b /\ path h b l
  end.

(** The entries of the list whose head entry is [head], in order. *)
Definition ring (h : entry_heap) (head : nat) (l : list nat) : Prop :=
  path h head (l ++ [head]) /\ NoDup (head :: l).

Definition end_of (a : nat) (l : list nat) : nat := default a (last l).

Lemma end_of_snoc a l x : end_of a (l ++ [x]) = x.
Proof. unfold end_of. by rewrite last_snoc. Qed.

Lemma end_of_cons a b l : end_of a (b :: l) = end_of b l.
Proof. unfold end_of. rewrite last_cons. by destruct (last l). Qed.

Lemma end_of_in a l : end_of a l ∈ a :: l.
Proof.
  unfold end_of. destruct (last l) as [x|] eqn:E; cbn; [|left].
  right. by apply last_Some_elem_of.
Qed.

Lemma path_app h a l1 l2 : path h a (l1 ++ l2) <-> path h a l1 /\ path h (end_of a l1) l2.
Proof.
  revert a. induction l1 as [|b l1 IH]; intros a; [cbn; tauto|].
  rewrite end_of_cons. cbn. rewrite IH. tauto.
Qed.

(** A path reads [next] of all its entries but the last, [prev] of all but the first. *)
Lemma path_frame h h' a l :
  (forall y, y ∈ a :: l -> y <> end_of a l -> eh_next h' !! y = eh_next h !! y) ->
  (forall y, y ∈ l -> eh_prev h' !! y = eh_prev h !! y) ->
  NoDup (a :: l) -> path h a l -> path h' a l.
Proof.
  revert a. induction l as [|b l IH]; intros a Hn Hp HN; [done|].
  apply NoDup_cons in HN as [Ha HN]. intros [[H1 H2] Hr]. rewrite end_of_cons in Hn.
  pose proof (end_of_in b l) as He. split; [split|apply IH].
  - rewrite Hn; [done|left|]. intros ->. done.
  - rewrite Hp; [done|left].
  - intros y Hy. apply Hn. by right.
  - intros y Hy. apply Hp. by right.
  - done.
  - done.
Qed.

(** The same for the part of a ring from an entry round to the head, where the last
    [next] read is that of the entry before the head. *)
Lemma path_round_frame h h' head n r l2 :
  n :: r = l2 ++ [head] -> NoDup (head :: l2) ->
  (forall y, y ∈ l2 -> eh_next h' !! y = eh_next h !! y) ->
  (forall y, y ∈ r -> eh_prev h' !! y = eh_prev h !! y) ->
  path h n r -> path h' n r.
Proof.
  intros E HN Hn Hp. assert (NoDup (n :: r)) as HN'.
  { rewrite E. apply NoDup_cons in HN as [H1 H2]. apply NoDup_app. split; [done|].
    split; [set_solver|apply NoDup_singleton]. }
  apply path_frame; [|done..]. intros y Hy Hne. apply Hn.
  rewrite E in Hy. apply elem_of_app in Hy as [Hy|Hy]; [done|].
  apply list_elem_of_singleton in Hy as ->. exfalso. apply Hne.
  rewrite <- (end_of_cons n), E. by rewrite end_of_snoc.
Qed.

Lemma hd_round (l2 : list nat) head : exists n r, l2 ++ [head] = n :: r.
Proof. destruct l2; cbn; eauto. Qed.

Section Splice.
Variables (h : entry_heap) (head : nat) (l1 l2 : list nat) (n : nat) (r : list nat).
Hypothesis Hround : l2 ++ [head] = n :: r.
Let p := end_of head l1.

Lemma round_not_before : NoDup (head :: l1 ++ l2) -> (n ∉ l1) /\ (n ∉ r) /\ (p ∉ l2).
Proof using Hround.
  intros HN. apply NoDup_cons in HN as [Hh HN]. apply NoDup_app in HN as (H1 & H12 & H2).
  pose proof (end_of_in head l1) as Hp. fold p in Hp. clearbody p.
  split_and!.
  - intros Hn. assert (n ∈ l2 ++ [head]) as Hn' by (rewrite Hround; left). set_solver.
  - assert (NoDup (n :: r)) as HN; [|by apply NoDup_cons in HN as [? _]].
    rewrite <- Hround. apply NoDup_app. split; [done|]. split; [set_solver|apply NoDup_singleton].
  - set_solver.
Qed.

(** Taking [x] out. *)
Lemma ring_unlink x :
  ring h head (l1 ++ x :: l2) ->
  eh_prev h !! x = Some p /\ eh_next h !! x = Some n /\
  ring {| eh_prev := <[n := p]> (eh_prev h); eh_next := <[p := n]> (eh_next h) |} head (l1 ++ l2).
Proof using Hround.
  intros [Hp HN]. rewrite <- app_assoc, path_app in Hp. cbn in Hp. rewrite Hround in Hp.
  destruct Hp as (Hp1 & [Hpx Hxp] & [Hxn Hnx] & Hpr). fold p in Hxp, Hpx.
  split; [done|]. split; [done|].
  assert (NoDup (head :: l1 ++ l2)) as HN'.
  { apply NoDup_cons in HN as [Hh HN]. rewrite <- Permutation_middle in HN.
    apply NoDup_cons in HN as [_ HN]. apply NoDup_cons. set_solver. }
  destruct (round_not_before HN') as (Hn1 & Hnr & Hp2). split; [|done].
  assert (NoDup (head :: l1) /\ NoDup (head :: l2)) as [Ha Hb].
  { apply NoDup_cons in HN' as [Hh HN']. apply NoDup_app in HN' as (? & ? & ?).
    rewrite !NoDup_cons. set_solver. }
  rewrite <- app_assoc, path_app, Hround. cbn [path]. fold p. split; [|split].
  - eapply path_frame, Hp1; [| |done]; intros y Hy; cbn.
    + fold p. intros Hyp. by rewrite lookup_insert_ne.
    + by rewrite lookup_insert_ne by (intros ->; done).
  - split; cbn; apply lookup_insert_eq.
  - eapply path_round_frame, Hpr; [done|done| |]; intros y Hy; cbn;
      by rewrite lookup_insert_ne by (intros ->; done).
Qed.

(** Putting [x] in. *)
Lemma ring_link x hp hn :
  ring h head (l1 ++ l2) -> x ∉ head :: l1 ++ l2 ->
  hp = <[n := x]> (<[x := p]> (eh_prev h)) -> hn = <[x := n]> (<[p := x]> (eh_next h)) ->
  ring {| eh_prev := hp; eh_next := hn |} head (l1 ++ x :: l2).
Proof using Hround.
  intros [Hp HN] Hx -> ->. rewrite <- app_assoc, path_app in Hp. rewrite Hround in Hp.
  destruct Hp as (Hp1 & [Hpn Hnp] & Hpr). destruct (round_not_before HN) as (Hn1 & Hnr & Hp2).
  assert (NoDup (head :: l1) /\ NoDup (head :: l2)) as [Ha Hb].
  { apply NoDup_cons in HN as [Hh HN']. apply NoDup_app in HN' as (? & ? & ?).
    rewrite !NoDup_cons. set_solver. }
  pose proof (end_of_in head l1) as Hpin. fold p in Hpin.
  assert (x <> p) as Hxp by set_solver.
  assert (x <> n) as Hxn.
  { assert (n ∈ l2 ++ [head]) by (rewrite Hround; left). set_solver. }
  assert (forall y, y ∈ r -> y <> x) as Hrx.
  { intros y Hy ->. assert (x ∈ l2 ++ [head]) by (rewrite Hround; by right). set_solver. }
  split.
  2:{ rewrite <- Permutation_middle. apply NoDup_cons in HN as [Hh HN].
      rewrite !NoDup_cons. set_solver. }
  rewrite <- app_assoc, path_app. cbn [app path]. fold p. rewrite Hround. cbn [path]. split; [|split; [|split]].
  - eapply path_frame, Hp1; [| |done]; intros y Hy; cbn.
    + fold p. intros Hyp. rewrite !lookup_insert_ne; [done|by symmetry|set_solver].
    + rewrite !lookup_insert_ne; [done|set_solver|by intros ->].
  - split; cbn; rewrite lookup_insert_ne by done; apply lookup_insert_eq.
  - split; cbn; apply lookup_insert_eq.
  - eapply path_round_frame, Hpr; [done|done| |]; intros y Hy; cbn.
    + rewrite !lookup_insert_ne; [done|by intros ->|set_solver].
    + rewrite !lookup_insert_ne; [done|by intros <-; apply (Hrx x)|by intros ->].
Qed.
End Splice.

(** ** The functions *)

Lemma wp_set_next e v h (Q : unit -> entry_heap -> Prop) :
  is_Some (eh_next h !! e) ->
  Q tt {| eh_prev := eh_prev h; eh_next := <[e := v]> (eh_next h) |} -> wp (set_next e v) h Q.
Proof. intros [w Hw] HQ. apply wp_bind, wp_bind, wp_gets, wp_of_option. eauto. Qed.

Lemma wp_set_prev e v h (Q : unit -> entry_heap -> Prop) :
  is_Some (eh_prev h !! e) ->
  Q tt {| eh_prev := <[e := v]> (eh_prev h); eh_next := eh_next h |} -> wp (set_prev e v) h Q.
Proof. intros [w Hw] HQ. apply wp_bind, wp_bind, wp_gets, wp_of_option. eauto. Qed.

Lemma wp_get_next e v h Q : eh_next h !! e = Some v -> Q v h -> wp (get_next e) h Q.
Proof. intros Hv HQ. apply wp_bind, wp_gets, wp_of_option. eauto. Qed.

Lemma wp_get_prev e v h Q : eh_prev h !! e = Some v -> Q v h -> wp (get_prev e) h Q.
Proof. intros Hv HQ. apply wp_bind, wp_gets, wp_of_option. eauto. Qed.

(** Storage given to the lists stays allocated. *)
Definition allocated (h : entry_heap) (x : nat) : Prop :=
  is_Some (eh_next h !! x) /\ is_Some (eh_prev h !! x).

Definition grows (h h' : entry_heap) : Prop := forall x, allocated h x -> allocated h' x.

Ltac insert_some := repeat (rewrite lookup_insert_is_Some' || (left; done) || right); eauto.

Lemma ring_ends h head l1 l2 n r :
  ring h head (l1 ++ l2) -> l2 ++ [head] = n :: r ->
  eh_next h !! end_of head l1 = Some n /\ eh_prev h !! n = Some (end_of head l1).
Proof. intros [Hp _] E. rewrite <- app_assoc, path_app, E in Hp. apply Hp. Qed.

Lemma push_front_spec h head l x :
  ring h head l -> allocated h x -> x ∉ head :: l ->
  wp (raptor_list_push_front head x) h (fun _ h' => ring h' head (x :: l) /\ grows h h').
Proof.
  intros Hr [Hxn Hxp] Hx. destruct (hd_round l head) as (n & r & E).
  destruct (ring_ends h head [] l n r Hr E) as [Hn Hp]. cbn in Hn, Hp.
  apply wp_bind, (wp_get_next _ n); [done|].
  apply wp_bind, wp_set_next; [eauto|]. apply wp_bind, wp_set_prev; [done|].
  apply wp_bind, wp_set_next; [cbn; insert_some|]. apply wp_set_prev; [cbn; insert_some|].
  split; [by apply (ring_link h head [] l n r E x)|].
  intros y [? ?]. split; cbn; insert_some.
Qed.

Lemma push_back_spec h head l x :
  ring h head l -> allocated h x -> x ∉ head :: l ->
  wp (raptor_list_push_back head x) h (fun _ h' => ring h' head (l ++ [x]) /\ grows h h').
Proof.
  intros Hr [Hxn Hxp] Hx. rewrite <- (app_nil_r l) in Hr, Hx.
  destruct (ring_ends h head l [] head [] Hr eq_refl) as [Hn Hp].
  apply wp_bind, (wp_get_prev _ (end_of head l)); [done|].
  apply wp_bind, wp_set_next; [eauto|]. apply wp_bind, wp_set_prev; [done|].
  apply wp_bind, wp_set_next; [cbn; insert_some|]. apply wp_set_prev; [cbn; insert_some|].
  split; [by apply (ring_link h head l [] head [] eq_refl x)|].
  intros y [? ?]. split; cbn; insert_some.
Qed.

(** The two stores that take an entry out, in either order. *)
Lemma unlink_grows h p n hp hn :
  is_Some (eh_next h !! p) -> is_Some (eh_prev h !! n) ->
  hp = <[n := p]> (eh_prev h) -> hn = <[p := n]> (eh_next h) ->
  grows h {| eh_prev := hp; eh_next := hn |}.
Proof. intros ? ? -> -> y [? ?]. split; cbn; insert_some. Qed.

Lemma is_empty_spec h head l :
  ring h head l ->
  wp (RAPTOR_LIST_IS_EMPTY head) h (fun b h' => h' = h /\ b = bool_decide (l = [])).
Proof.
  intros Hr. destruct (hd_round l head) as (n & r & E).
  destruct (ring_ends h head [] l n r Hr E) as [Hn _].
  apply wp_bind, (wp_get_next _ n); [done|]. apply wp_ret. split; [done|].
  destruct l as [|y l]; cbn in E; simplify_eq; [by rewrite Nat.eqb_refl|].
  destruct Hr as [_ HN]. apply NoDup_cons in HN as [HN _].
  apply Nat.eqb_neq. set_solver.
Qed.

Section Unlink.
Variables (h : entry_heap) (head x : nat) (l1 l2 : list nat) (n : nat) (r : list nat).
Hypothesis Hround : l2 ++ [head] = n :: r.
Hypothesis Hr : ring h head (l1 ++ x :: l2).
Let p := end_of head l1.

Lemma unlink_facts :
  eh_next h !! p = Some x /\ eh_prev h !! n = Some x /\ eh_prev h !! x = Some p /\
  eh_next h !! x = Some n /\
  ring {| eh_prev := <[n := p]> (eh_prev h); eh_next := <[p := n]> (eh_next h) |} head (l1 ++ l2).
Proof using Hround Hr.
  destruct (ring_ends h head l1 (x :: l2) x (n :: r) Hr) as [H1 _]; [by cbn; rewrite Hround|].
  destruct (ring_unlink h head l1 l2 n r Hround x Hr) as (H3 & H4 & H5).
  split_and!; try done.
  destruct Hr as [Hp _]. rewrite <- app_assoc, path_app in Hp. destruct Hp as [_ Hp].
  cbn in Hp. rewrite Hround in Hp. apply Hp.
Qed.
End Unlink.

Lemma pop_front_spec h head l :
  ring h head l ->
  wp (raptor_list_pop_front head) h (fun o h' =>
    o = hd_error l /\ ring h' head (tl l) /\ grows h h').
Proof.
  intros Hr. apply wp_bind. eapply wp_mono; [by apply is_empty_spec|]. intros e h' [-> ->].
  destruct l as [|x l]; cbn; [by split_and!; try intros y|].
  destruct (hd_round l head) as (n & r & E).
  destruct (unlink_facts h head x [] l n r E Hr) as (Hpx & Hnx & Hxp & Hxn & Hr'). cbn in *.
  apply wp_bind, (wp_get_next _ x); [done|]. apply wp_bind, (wp_get_next _ n); [done|].
  apply wp_bind, wp_set_next; [eauto|]. apply wp_bind, wp_set_prev; [cbn; eauto|].
  apply wp_ret. split_and!; [done|done|]. apply (unlink_grows h head n); eauto.
Qed.

Lemma pop_back_spec h head l :
  ring h head l ->
  wp (raptor_list_pop_back head) h (fun o h' =>
    o = last l /\ ring h' head (removelast l) /\ grows h h').
Proof.
  intros Hr. apply wp_bind. eapply wp_mono; [by apply is_empty_spec|]. intros e h' [-> ->].
  destruct (decide (l = [])) as [->|Hl]; [by cbn; split_and!; try intros y|].
  rewrite bool_decide_eq_false_2 by done.
  destruct (exists_last Hl) as (l1 & x & ->).
  destruct (unlink_facts h head x l1 [] head [] eq_refl Hr) as (Hpx & Hnx & Hxp & Hxn & Hr'). cbn in *.
  apply wp_bind, (wp_get_prev _ x); [done|]. apply wp_bind, (wp_get_prev _ (end_of head l1)); [done|].
  apply wp_bind, wp_set_next; [eauto|]. apply wp_bind, wp_set_prev; [cbn; eauto|].
  apply wp_ret. rewrite last_snoc, removelast_last. rewrite app_nil_r in Hr'.
  split_and!; [done|done|]. apply (unlink_grows h (end_of head l1) head); eauto.
Qed.

Lemma remove_entry_spec h head l1 x l2 :
  ring h head (l1 ++ x :: l2) ->
  wp (raptor_list_remove_entry x) h (fun b h' =>
    b = true /\ ring h' head (l1 ++ l2) /\ grows h h').
Proof.
  intros Hr. destruct (hd_round l2 head) as (n & r & E).
  destruct (unlink_facts h head x l1 l2 n r E Hr) as (Hpx & Hnx & Hxp & Hxn & Hr').
  assert (n <> x) as Hne.
  { intros ->. destruct Hr as [_ HN]. rewrite <- Permutation_middle in HN.
    assert (x ∈ l2 ++ [head]) as Hx by (rewrite E; left).
    inversion HN as [|? ? H1 H2]; subst. inversion H2; subst. set_solver. }
  apply wp_bind, (wp_get_next _ n); [done|]. rewrite (proj2 (Nat.eqb_neq n x) Hne).
  apply wp_bind, (wp_get_prev _ (end_of head l1)); [done|]. apply wp_bind, (wp_get_next _ n); [done|].
  apply wp_bind, wp_set_next; [eauto|]. apply wp_bind, wp_set_prev; [cbn; eauto|].
  apply wp_ret. split_and!; [done|done|]. apply (unlink_grows h (end_of head l1) n); eauto.
Qed.

(** ** The list a head entry stands for *)

Inductive list_op : Type :=
  | LPushFront (x : nat)
  | LPushBack (x : nat)
  | LPopFront
  | LPopBack
  | LRemove (x : nat).

Definition list_step (o : list_op) (l : list nat) : option nat * list nat :=
  match o with
  | LPushFront x => (None, x :: l)
  | LPushBack x => (None, l ++ [x])
  | LPopFront => (hd_error l, tl l)
  | LPopBack => (last l, removelast l)
  | LRemove x => (Some x, filter (fun y => y <> x) l)
  end.

Definition entry_step (head : nat) (o : list_op) : M entry_heap (option nat) :=
  match o with
  | LPushFront x => _ ← raptor_list_push_front head x; mret None
  | LPushBack x => _ ← raptor_list_push_back head x; mret None
  | LPopFront => raptor_list_pop_front head
  | LPopBack => raptor_list_pop_back head
  | LRemove x => b ← raptor_list_remove_entry x; mret (if (b : bool) then Some x else None)
  end.

(** An entry pushed is not in the list (nor its head), one removed is. *)
Definition list_op_ok (pool : gset nat) (head : nat) (o : list_op) (l : list nat) : bool :=
  match o with
  | LPushFront x | LPushBack x => bool_decide ((x ∈ pool) /\ (x ∉ head :: l))
  | LRemove x => bool_decide (x ∈ l)
  | _ => true
  end.

Fixpoint list_run (pool : gset nat) (head : nat) (os : list list_op) (l : list nat) : option (list (option nat)) :=
  match os with
  | [] => Some []
  | o :: os =>
      if list_op_ok pool head o l
      then let '(r, l) := list_step o l in rs ← list_run pool head os l; Some (r :: rs)
      else None
  end.

Fixpoint entry_run (head : nat) (os : list list_op) : M entry_heap (list (option nat)) :=
  match os with
  | [] => mret []
  | o :: os => r ← entry_step head o; rs ← entry_run head os; mret (r :: rs)
  end.

Lemma filter_ne_id (x : nat) (l : list nat) : x ∉ l -> filter (fun y => y <> x) l = l.
Proof.
  induction l as [|y l IH]; [done|]. intros Hx. rewrite filter_cons_True by set_solver.
  f_equal. apply IH. set_solver.
Qed.

Lemma filter_remove (x : nat) l1 l2 :
  NoDup (l1 ++ x :: l2) -> filter (fun y => y <> x) (l1 ++ x :: l2) = l1 ++ l2.
Proof.
  intros HN. apply NoDup_app in HN as (H1 & H12 & H2). apply NoDup_cons in H2 as [Hx H2].
  rewrite filter_app, filter_cons_False by auto.
  rewrite !filter_ne_id; [done|done|]. intros Hy. apply (H12 x Hy). left.
Qed.

Lemma entry_step_refines pool head o l h :
  ring h head l -> (forall x, x ∈ pool -> allocated h x) -> list_op_ok pool head o l = true ->
  wp (entry_step head o) h (fun r h' =>
    ring h' head (list_step o l).2 /\ grows h h' /\ r = (list_step o l).1).
Proof.
  intros Hr Hpool Hok. destruct o as [x|x| | |x]; cbn in *.
  1,2: apply bool_decide_eq_true in Hok as [Hx Hxl]; apply wp_bind; eapply wp_mono;
    [first [by apply push_front_spec; auto | by apply push_back_spec; auto]|]; intros _ h' [? ?]; by apply wp_ret.
  - eapply wp_mono; [by apply pop_front_spec|]. naive_solver.
  - eapply wp_mono; [by apply pop_back_spec|]. naive_solver.
  - apply bool_decide_eq_true, list_elem_of_split in Hok as (l1 & l2 & ->).
    apply wp_bind. eapply wp_mono; [by apply remove_entry_spec|]. intros b h' (-> & Hr' & Hg).
    apply wp_ret. rewrite filter_remove; [done|]. destruct Hr as [_ HN]. by apply NoDup_cons in HN as [_ HN].
Qed.

Lemma entry_run_refines pool head os l h rs :
  ring h head l -> (forall x, x ∈ pool -> allocated h x) -> list_run pool head os l = Some rs ->
  wp (entry_run head os) h (fun r h' => r = rs).
Proof.
  revert l h rs. induction os as [|o os IH]; intros l h rs Hr Hpool E; cbn in *.
  { by simplify_eq. }
  destruct (list_op_ok pool head o l) eqn:Hok; [|done].
  apply wp_bind. eapply wp_mono; [by apply (entry_step_refines pool)|].
  intros r h' (Hr' & Hg & ->). destruct (list_step o l) as [r l'] eqn:Es. cbn in *.
  destruct (list_run pool head os l') as [rs'|] eqn:Er; [|done]. cbn in E. simplify_eq.
  apply wp_bind. eapply wp_mono; [apply (IH l' h' rs'); auto|]. by intros ? ? ->.
Qed.

(** C40. The ring that [RAPTOR_LIST_INIT] makes is the empty list, and from there the
    functions are those of a list: every sequence of pushes at either end, pops at
    either end and removals of a member returns what the list returns, and no call
    leaves the allocated entries. *)
Theorem list_entry_refines_list (pool : gset nat) (head : nat) (os : list list_op) h rs :
  allocated h head -> (forall x, x ∈ pool -> allocated h x) ->
  list_run pool head os [] = Some rs ->
  exists h', (_ ← RAPTOR_LIST_INIT head; entry_run head os) h = Ret (rs, h').
Proof.
  intros [Hn Hp] Hpool E.
  assert (wp (_ ← RAPTOR_LIST_INIT head; entry_run head os) h (fun r _ => r = rs)) as H.
  { apply wp_bind, wp_bind, wp_set_next; [done|]. apply wp_set_prev; [done|].
    apply (entry_run_refines pool _ _ []); [|intros x Hx; destruct (Hpool x Hx); split; cbn; insert_some|done].
    split; [|apply NoDup_singleton]. split; [split; cbn; apply lookup_insert_eq|done]. }
  unfold wp in H. destruct ((_ ← RAPTOR_LIST_INIT head; entry_run head os) h) as [[r h']| | |]; [|done..]. subst. eauto.
Qed.

Definition two_entries : entry_heap := {|
  eh_prev := {[1 := 0; 2 := 0; 3 := 0]};
  eh_next := {[1 := 0; 2 := 0; 3 := 0]};
|}.

Lemma list_entry_refines_list_witness :
  exists h', (_ ← RAPTOR_LIST_INIT 1; entry_run 1 [LPushBack 2; LPushFront 3; LRemove 2; LPopBack; LPopFront])
    two_entries = Ret ([None; None; Some 2; Some 3; None], h').
Proof.
  apply (list_entry_refines_list {[2; 3]}).
  - split; vm_compute; eexists; reflexivity.
  - intros x Hx. apply elem_of_union in Hx as [Hx|Hx]; apply elem_of_singleton in Hx as ->;
      split; vm_compute; eexists; reflexivity.
  - vm_compute. reflexivity.
Defined.
