(* ===== verification/RefCounted.v ===== *)
(** * Shared objects (include/raptor-lite/utils/ref_counted.h, ref_counted_ptr.h, atomic.h)

    [RefCountedPtr] variables point to objects that carry their own count, a 64-bit
    [intptr_t].  A deleted object is absent from [rp_counts]: touching it is
    undefined behaviour.  The copy and move operations of the pointer are modelled
    with the order of their increments and decrements. *)

From S2P Require Import Prelude.
From S2P Require Import Counting.

Record ptr_store : Type := {
  rp_counts : gmap nat Z;
  rp_vars : gmap nat (option nat);
}.

Definition set_value (o : nat) (n : Z) (h : ptr_store) : ptr_store :=
  {| rp_counts := <[o := n]> (rp_counts h); rp_vars := rp_vars h |}.
Definition delete_object (o : nat) (h : ptr_store) : ptr_store :=
  {| rp_counts := delete o (rp_counts h); rp_vars := rp_vars h |}.
Definition set_ptr (x : nat) (v : option nat) (h : ptr_store) : ptr_store :=
  {| rp_counts := rp_counts h; rp_vars := <[x := v]> (rp_vars h) |}.
Definition drop_ptr (x : nat) (h : ptr_store) : ptr_store :=
  {| rp_counts := rp_counts h; rp_vars := delete x (rp_vars h) |}.

(** ** [RefCount] *)

Definition load_value (o : nat) : M ptr_store Z :=
  v ← gets (fun h => rp_counts h !! o); of_option v.

Definition RefCount_Ref (o : nat) : M ptr_store unit :=
  v ← load_value o; modify (set_value o (i64 (v + 1))).

(** [FetchSub] returns the value before the subtraction. *)
Definition RefCount_Unref (o : nat) : M ptr_store bool :=
  prior ← load_value o;
  _ ← modify (set_value o (i64 (prior - 1)));
  mret (prior =? 1)%Z.

(** The compare-and-swap loop of [IncrementIfNonzero], run without interference. *)
Definition RefIfNonZero (o : nat) : M ptr_store bool :=
  v ← load_value o;
  if (v =? 0)%Z then mret false
  else _ ← modify (set_value o (i64 (v + 1))); mret true.

(** ** [RefCounted] *)

Definition IncrementRefCount (o : nat) : M ptr_store unit := RefCount_Ref o.

Definition RefCounted_Unref (o : nat) : M ptr_store unit :=
  last ← RefCount_Unref o;
  when last (modify (delete_object o)).

Definition if_ptr (v : option nat) (m : nat -> M ptr_store unit) : M ptr_store unit :=
  match v with Some o => m o | None => mret tt end.

(** ** [RefCountedPtr] *)

Definition read_ptr (x : nat) : M ptr_store (option nat) :=
  v ← gets (fun h => rp_vars h !! x); of_option v.

Definition raw_ptr (x : nat) : M ptr_store unit :=
  v ← gets (fun h => rp_vars h !! x);
  match v with None => mret tt | Some _ => undef end.

Definition Ptr_default (x : nat) : M ptr_store unit :=
  _ ← raw_ptr x; modify (set_ptr x None).

Definition MakeRefCounted (x : nat) : M ptr_store unit :=
  _ ← raw_ptr x;
  o ← gets (fun h => fresh (dom (rp_counts h)));
  _ ← modify (set_value o 1%Z);
  modify (set_ptr x (Some o)).

Definition Ptr_move_ctor (x oth : nat) : M ptr_store unit :=
  _ ← raw_ptr x;
  v ← read_ptr oth;
  _ ← modify (set_ptr x v);
  modify (set_ptr oth None).

Definition Ptr_reset (x : nat) (value : option nat) : M ptr_store unit :=
  v ← read_ptr x;
  _ ← if_ptr v RefCounted_Unref;
  modify (set_ptr x value).

Definition Ptr_move_assign (x oth : nat) : M ptr_store unit :=
  v ← read_ptr oth;
  _ ← Ptr_reset x v;
  modify (set_ptr oth None).

Definition Ptr_copy_ctor (x oth : nat) : M ptr_store unit :=
  _ ← raw_ptr x;
  v ← read_ptr oth;
  _ ← if_ptr v IncrementRefCount;
  modify (set_ptr x v).

Definition Ptr_copy_assign (x oth : nat) : M ptr_store unit :=
  v ← read_ptr oth;
  _ ← if_ptr v IncrementRefCount;
  Ptr_reset x v.

Definition Ptr_dtor (x : nat) : M ptr_store unit :=
  v ← read_ptr x;
  _ ← if_ptr v RefCounted_Unref;
  modify (drop_ptr x).

Definition Ptr_swap (x oth : nat) : M ptr_store unit :=
  v ← read_ptr x;
  w ← read_ptr oth;
  _ ← modify (set_ptr x w);
  modify (set_ptr oth v).

Inductive ptr_op : Type :=
  | PtrNull (x : nat)
  | PtrMake (x : nat)
  | PtrMoveCtor (x oth : nat)
  | PtrMoveAssign (x oth : nat)
  | PtrCopyCtor (x oth : nat)
  | PtrCopyAssign (x oth : nat)
  | PtrReset (x : nat)
  | PtrSwap (x oth : nat)
  | PtrDtor (x : nat).

Definition run_ptr_op (o : ptr_op) : M ptr_store unit :=
  match o with
  | PtrNull x => Ptr_default x
  | PtrMake x => MakeRefCounted x
  | PtrMoveCtor x y => Ptr_move_ctor x y
  | PtrMoveAssign x y => Ptr_move_assign x y
  | PtrCopyCtor x y => Ptr_copy_ctor x y
  | PtrCopyAssign x y => Ptr_copy_assign x y
  | PtrReset x => Ptr_reset x None
  | PtrSwap x y => Ptr_swap x y
  | PtrDtor x => Ptr_dtor x
  end.

(** Each variable is constructed before its uses and destroyed after them. *)
Definition ptr_op_ok (o : ptr_op) (vars : gset nat) : bool :=
  match o with
  | PtrNull x | PtrMake x => bool_decide (x ∉ vars)
  | PtrMoveCtor x y | PtrCopyCtor x y => bool_decide ((x ∉ vars) /\ (y ∈ vars))
  | PtrMoveAssign x y | PtrCopyAssign x y | PtrSwap x y =>
      bool_decide ((x ∈ vars) /\ (y ∈ vars))
  | PtrReset x | PtrDtor x => bool_decide (x ∈ vars)
  end.

Definition ptr_op_vars (o : ptr_op) (vars : gset nat) : gset nat :=
  match o with
  | PtrNull x | PtrMake x | PtrMoveCtor x _ | PtrCopyCtor x _ => {[x]} ∪ vars
  | PtrDtor x => vars ∖ {[x]}
  | _ => vars
  end.

Fixpoint ptr_ops_ok (os : list ptr_op) (vars : gset nat) : bool :=
  match os with
  | [] => true
  | o :: os => ptr_op_ok o vars && ptr_ops_ok os (ptr_op_vars o vars)
  end.

Fixpoint run_ptr_ops (os : list ptr_op) : M ptr_store unit :=
  match os with
  | [] => mret tt
  | o :: os => _ ← run_ptr_op o; run_ptr_ops os
  end.

Definition empty_ptrs : ptr_store := {| rp_counts := ∅; rp_vars := ∅ |}.

(** ** The counts are those of the variables *)

Abbreviation ptr_refs := (refs_to (V := option nat) id).

Definition ptr_inv (h : ptr_store) : Prop :=
  counts_are (fun o => ptr_refs o (rp_vars h)) (rp_counts h).

Definition small_ptrs (h : ptr_store) : Prop := (Z.of_nat (size (rp_vars h)) < 2 ^ 63 - 1)%Z.

Lemma small_ptr_refs h : small_ptrs h -> forall o, (Z.of_nat (ptr_refs o (rp_vars h)) < 2 ^ 63 - 1)%Z.
Proof. intros Hh o. pose proof (refs_to_le (V := option nat) id o (rp_vars h)). unfold small_ptrs in Hh. lia. Qed.

Lemma wp_load_value f o h Q :
  counts_are f (rp_counts h) -> 0 < f o -> Q (Z.of_nat (f o)) h -> wp (load_value o) h Q.
Proof.
  intros Hc Ho HQ. apply wp_bind, wp_gets, wp_of_option. eexists. split; [|done].
  by apply counts_are_lookup.
Qed.

Lemma Increment_spec f v h :
  counts_are f (rp_counts h) -> (forall o, (Z.of_nat (f o) < 2 ^ 63 - 1)%Z) ->
  (forall o, v = Some o -> 0 < f o) ->
  wp (if_ptr v IncrementRefCount) h (fun _ h' =>
    counts_are (fun o => points v o + f o) (rp_counts h') /\ rp_vars h' = rp_vars h).
Proof.
  intros Hc Hb Hv. destruct v as [o|]; [|by split]. specialize (Hv o eq_refl). specialize (Hb o).
  apply wp_bind, (wp_load_value f); [done..|]. apply wp_modify. split; [|done].
  unfold i64. rewrite swrap_small by lia. by apply counts_incr.
Qed.

Lemma Unref_spec f v h :
  counts_are f (rp_counts h) -> (forall o, (Z.of_nat (f o) <= 2 ^ 63 - 1)%Z) ->
  (forall o, v = Some o -> 0 < f o) ->
  wp (if_ptr v RefCounted_Unref) h (fun _ h' =>
    counts_are (fun o => f o - points v o) (rp_counts h') /\ rp_vars h' = rp_vars h).
Proof.
  intros Hc Hb Hv. destruct v as [o|].
  2:{ split; [|done]. apply (counts_are_ext f); [|done]. intros. rewrite points_None. lia. }
  specialize (Hv o eq_refl). specialize (Hb o). pose proof (counts_decr f _ o Hc Hv) as Hd.
  apply wp_bind, wp_bind, (wp_load_value f); [done..|]. unfold i64. rewrite swrap_small by lia.
  apply wp_bind, wp_modify, wp_ret, wp_when; intros Hn; rewrite Hn in Hd; [apply wp_modify|];
    (split; [|done]); [|done].
  cbn. by rewrite delete_insert_eq.
Qed.

Lemma wp_read_ptr x h Q :
  x ∈ dom (rp_vars h) -> (forall v, rp_vars h !! x = Some v -> Q v h) -> wp (read_ptr x) h Q.
Proof.
  intros Hx HQ. apply elem_of_dom in Hx as [v Hv]. apply wp_bind, wp_gets, wp_of_option. eauto.
Qed.

Lemma wp_raw_ptr x h (Q : unit -> ptr_store -> Prop) :
  x ∉ dom (rp_vars h) -> (rp_vars h !! x = None -> Q tt h) -> wp (raw_ptr x) h Q.
Proof.
  intros Hx HQ. apply not_elem_of_dom in Hx. apply wp_bind, wp_gets. rewrite Hx. by apply wp_ret, HQ.
Qed.

(** [reset]: the reference [x] held is given up, and [x] holds [value]. *)
Lemma Ptr_reset_spec f x v value h :
  counts_are f (rp_counts h) -> (forall o, (Z.of_nat (f o) <= 2 ^ 63 - 1)%Z) ->
  rp_vars h !! x = Some v -> (forall o, v = Some o -> 0 < f o) ->
  wp (Ptr_reset x value) h (fun _ h' =>
    counts_are (fun o => f o - points v o) (rp_counts h') /\ rp_vars h' = <[x := value]> (rp_vars h)).
Proof.
  intros Hc Hb Hx Hv. apply wp_bind, wp_bind, wp_gets, wp_of_option. exists v. split; [done|].
  apply wp_bind. eapply wp_mono; [by apply (Unref_spec f)|].
  intros _ h' [Hc' Hv']. apply wp_modify. by rewrite <- Hv'.
Qed.

Definition ptr_post (o : ptr_op) (h h' : ptr_store) : Prop :=
  ptr_inv h' /\ dom (rp_vars h') = ptr_op_vars o (dom (rp_vars h)).

Section Steps.
Variable h : ptr_store.
Hypothesis Hi : ptr_inv h.
Hypothesis Hsmall : small_ptrs h.

Lemma ptr_refs_pos x o : rp_vars h !! x = Some (Some o) -> 0 < ptr_refs o (rp_vars h).
Proof using. intros Hx. by apply (refs_to_pos id o x (Some o)). Qed.

Lemma ptr_bound o : (Z.of_nat (ptr_refs o (rp_vars h)) <= 2 ^ 63 - 1)%Z.
Proof using Hsmall. pose proof (small_ptr_refs h Hsmall o). lia. Qed.

Lemma PtrNull_inv x : x ∉ dom (rp_vars h) ->
  wp (Ptr_default x) h (fun _ h' => ptr_post (PtrNull x) h h').
Proof using Hi Hsmall.
  intros Hx. apply wp_bind, wp_raw_ptr; [done|]. intros HxN. apply wp_modify.
  split; [|cbn; apply dom_insert_L]. apply (counts_are_ext (fun o => ptr_refs o (rp_vars h))); [|done].
  intros o. cbn. by rewrite refs_to_insert.
Qed.

Lemma PtrMake_inv x : x ∉ dom (rp_vars h) ->
  wp (MakeRefCounted x) h (fun _ h' => ptr_post (PtrMake x) h h').
Proof using Hi Hsmall.
  intros Hx. apply wp_bind, wp_raw_ptr; [done|]. intros HxN.
  apply wp_bind, wp_gets, wp_bind, wp_modify, wp_modify. split; [|cbn; apply dom_insert_L].
  eapply counts_are_ext; [|apply (counts_new _ _ _ Hi), not_elem_of_dom, is_fresh].
  intros o. cbn. by rewrite refs_to_insert.
Qed.

Lemma PtrMoveCtor_inv x y : x ∉ dom (rp_vars h) -> y ∈ dom (rp_vars h) ->
  wp (Ptr_move_ctor x y) h (fun _ h' => ptr_post (PtrMoveCtor x y) h h').
Proof using Hi Hsmall.
  intros Hx Hy. apply wp_bind, wp_raw_ptr; [done|]. intros HxN.
  apply wp_bind, wp_read_ptr; [done|]. intros v Hv.
  apply wp_bind, wp_modify, wp_modify. assert (x <> y) by congruence. split.
  - apply (counts_are_ext (fun o => ptr_refs o (rp_vars h))); [|done]. intros o. cbn.
    pose proof (refs_to_insert id o x v _ HxN) as E1.
    assert (<[x:=v]> (rp_vars h) !! y = Some v) as Hy' by by rewrite lookup_insert_ne.
    pose proof (refs_to_replace id o y v None _ Hy') as E2. cbn in *. rewrite points_None in E2. lia.
  - cbn. rewrite dom_insert_L, dom_insert_L. set_solver.
Qed.

Lemma PtrMoveAssign_inv x y : x ∈ dom (rp_vars h) -> y ∈ dom (rp_vars h) ->
  wp (Ptr_move_assign x y) h (fun _ h' => ptr_post (PtrMoveAssign x y) h h').
Proof using Hi Hsmall.
  intros Hx Hy. apply wp_bind, wp_read_ptr; [done|]. intros v Hv.
  apply elem_of_dom in Hx as [w Hw]. apply wp_bind. eapply wp_mono.
  { apply (Ptr_reset_spec _ x w v h Hi ptr_bound Hw). intros o ->. by eapply ptr_refs_pos. }
  intros _ h' [Hc Hvars]. apply wp_modify. split.
  - eapply counts_are_ext, Hc. intros o. cbn. rewrite Hvars.
    pose proof (refs_to_replace id o x w v _ Hw) as E1.
    assert (<[x:=v]> (rp_vars h) !! y = Some v) as Hy'.
    { destruct (decide (x = y)) as [->|]; [apply lookup_insert_eq|by rewrite lookup_insert_ne]. }
    pose proof (refs_to_replace id o y v None _ Hy') as E2. cbn in *. rewrite points_None in E2. lia.
  - cbn. rewrite Hvars, !dom_insert_L. apply elem_of_dom_2 in Hw. set_solver.
Qed.

Lemma PtrCopyCtor_inv x y : x ∉ dom (rp_vars h) -> y ∈ dom (rp_vars h) ->
  wp (Ptr_copy_ctor x y) h (fun _ h' => ptr_post (PtrCopyCtor x y) h h').
Proof using Hi Hsmall.
  intros Hx Hy. apply wp_bind, wp_raw_ptr; [done|]. intros HxN.
  apply wp_bind, wp_read_ptr; [done|]. intros v Hv. apply wp_bind. eapply wp_mono.
  { apply (Increment_spec _ v h Hi (small_ptr_refs h Hsmall)). intros o ->. by eapply ptr_refs_pos. }
  intros _ h' [Hc Hvars]. apply wp_modify. split.
  - eapply counts_are_ext, Hc. intros o. cbn. by rewrite Hvars, refs_to_insert.
  - cbn. rewrite Hvars. apply dom_insert_L.
Qed.

Lemma PtrCopyAssign_inv x y : x ∈ dom (rp_vars h) -> y ∈ dom (rp_vars h) ->
  wp (Ptr_copy_assign x y) h (fun _ h' => ptr_post (PtrCopyAssign x y) h h').
Proof using Hi Hsmall.
  intros Hx Hy. apply wp_bind, wp_read_ptr; [done|]. intros v Hv.
  apply elem_of_dom in Hx as [w Hw]. apply wp_bind. eapply wp_mono.
  { apply (Increment_spec _ v h Hi (small_ptr_refs h Hsmall)). intros o ->. by eapply ptr_refs_pos. }
  intros _ h' [Hc Hvars]. eapply wp_mono.
  { apply (Ptr_reset_spec _ x w v h' Hc); [|by rewrite Hvars|].
    - intros o. pose proof (small_ptr_refs h Hsmall o). unfold points. case_decide; lia.
    - intros o ->. pose proof (ptr_refs_pos _ _ Hw). lia. }
  intros _ h'' [Hc' Hvars']. rewrite Hvars in Hvars'. split.
  - eapply counts_are_ext, Hc'. intros o. cbn. rewrite Hvars'.
    pose proof (refs_to_replace id o x w v _ Hw). cbn in *. lia.
  - rewrite Hvars'. apply dom_insert_lookup_L. eauto.
Qed.

Lemma PtrReset_inv x : x ∈ dom (rp_vars h) ->
  wp (Ptr_reset x None) h (fun _ h' => ptr_post (PtrReset x) h h').
Proof using Hi Hsmall.
  intros Hx. apply elem_of_dom in Hx as [w Hw]. eapply wp_mono.
  { apply (Ptr_reset_spec _ x w None h Hi ptr_bound Hw). intros o ->. by eapply ptr_refs_pos. }
  intros _ h' [Hc Hvars]. split.
  - eapply counts_are_ext, Hc. intros o. cbn. rewrite Hvars.
    pose proof (refs_to_replace id o x w None _ Hw) as E. cbn in *. rewrite points_None in E. lia.
  - rewrite Hvars. apply dom_insert_lookup_L. eauto.
Qed.

Lemma PtrSwap_inv x y : x ∈ dom (rp_vars h) -> y ∈ dom (rp_vars h) ->
  wp (Ptr_swap x y) h (fun _ h' => ptr_post (PtrSwap x y) h h').
Proof using Hi Hsmall.
  intros Hx Hy. apply wp_bind, wp_read_ptr; [done|]. intros v Hv.
  apply wp_bind, wp_read_ptr; [done|]. intros w Hw.
  apply wp_bind, wp_modify, wp_modify. split.
  - apply (counts_are_ext (fun o => ptr_refs o (rp_vars h))); [|done]. intros o. cbn.
    pose proof (refs_to_replace id o x v w _ Hv) as E1.
    assert (<[x:=w]> (rp_vars h) !! y = Some w) as Hy'.
    { destruct (decide (x = y)) as [->|]; [apply lookup_insert_eq|by rewrite lookup_insert_ne]. }
    pose proof (refs_to_replace id o y w v _ Hy') as E2. cbn in *. lia.
  - cbn. rewrite !dom_insert_L. set_solver.
Qed.

Lemma PtrDtor_inv x : x ∈ dom (rp_vars h) ->
  wp (Ptr_dtor x) h (fun _ h' => ptr_post (PtrDtor x) h h').
Proof using Hi Hsmall.
  intros Hx. apply wp_bind, wp_read_ptr; [done|]. intros v Hv. apply wp_bind. eapply wp_mono.
  { apply (Unref_spec _ v h Hi ptr_bound). intros o ->. by eapply ptr_refs_pos. }
  intros _ h' [Hc Hvars]. apply wp_modify. split.
  - eapply counts_are_ext, Hc. intros o. cbn. rewrite Hvars.
    rewrite (refs_to_delete id o x v _ Hv). cbn. lia.
  - cbn. rewrite Hvars. apply dom_delete_L.
Qed.

Lemma run_ptr_op_inv o : ptr_op_ok o (dom (rp_vars h)) = true ->
  wp (run_ptr_op o) h (fun _ h' => ptr_post o h h').
Proof using Hi Hsmall.
  intros Hok. destruct o; cbn [ptr_op_ok run_ptr_op] in *; apply bool_decide_eq_true in Hok; destruct_and?;
    auto using PtrNull_inv, PtrMake_inv, PtrMoveCtor_inv, PtrMoveAssign_inv, PtrCopyCtor_inv,
      PtrCopyAssign_inv, PtrReset_inv, PtrSwap_inv, PtrDtor_inv.
Qed.
End Steps.

Lemma ptr_op_vars_size o vars : size (ptr_op_vars o vars) <= S (size vars).
Proof.
  pose proof (size_remove_le vars). pose proof (size_add_le vars). destruct o; cbn; auto.
Qed.

Lemma run_ptr_ops_inv os h :
  ptr_inv h -> ptr_ops_ok os (dom (rp_vars h)) = true ->
  (Z.of_nat (size (rp_vars h) + length os) < 2 ^ 63 - 1)%Z ->
  wp (run_ptr_ops os) h (fun _ h' => ptr_inv h').
Proof.
  revert h. induction os as [|o os IH]; intros h Hi Hok Hn; cbn in *; [done|].
  apply andb_prop in Hok as [Ho Hos]. apply wp_bind. eapply wp_mono.
  { apply run_ptr_op_inv; [done|unfold small_ptrs; lia|done]. }
  intros _ h' [Hi' Hv]. apply IH; [done|by rewrite Hv|].
  pose proof (ptr_op_vars_size o (dom (rp_vars h))) as Hs. rewrite <- Hv, !size_dom in Hs. lia.
Qed.

(** C33. No sequence of uses of [RefCountedPtr] (construction, copy and move with their
    assignments, self-assignment included, [reset], [swap], destruction) touches a
    deleted object, and the objects alive at its end are exactly those some pointer
    holds, each with the count of those pointers. *)
Theorem ref_counted_ptr_exact (os : list ptr_op) :
  ptr_ops_ok os ∅ = true -> (Z.of_nat (length os) < 2 ^ 63 - 1)%Z ->
  exists h, run_ptr_ops os empty_ptrs = Ret (tt, h) /\
    forall o, rp_counts h !! o =
      if decide (ptr_refs o (rp_vars h) = 0) then None else Some (Z.of_nat (ptr_refs o (rp_vars h))).
Proof.
  intros Hok Hn.
  assert (ptr_inv empty_ptrs) as Hi by (intros l; done).
  pose proof (run_ptr_ops_inv os empty_ptrs Hi Hok) as H. unfold wp in H.
  destruct (run_ptr_ops os empty_ptrs) as [[[] h]| | |]; [|by destruct H..].
  exists h. split; [done|]. by apply H.
Qed.

Definition ptr_uses : list ptr_op :=
  [PtrMake 0; PtrCopyCtor 1 0; PtrMake 2; PtrCopyAssign 2 2; PtrMoveAssign 2 1; PtrMoveAssign 0 0;
   PtrMoveCtor 3 2; PtrReset 3; PtrDtor 0; PtrDtor 1].

Lemma ref_counted_ptr_exact_witness :
  exists h, run_ptr_ops ptr_uses empty_ptrs = Ret (tt, h) /\
    forall o, rp_counts h !! o =
      if decide (ptr_refs o (rp_vars h) = 0) then None else Some (Z.of_nat (ptr_refs o (rp_vars h))).
Proof. apply ref_counted_ptr_exact; vm_compute; reflexivity. Defined.
