(* ===== verification/Atomic.v ===== *)
(** * Atomic integers, and a reference count shared by threads
    (include/raptor-lite/utils/atomic.h, [RefCount] of ref_counted.h)

    An operation of [Atomic<T>] is one step on the integer; a loop is a step per access, so
    that the steps of other threads can come between.  Accesses are sequentially
    consistent. *)

From S2P Require Import Prelude.
From S2P Require Import RefCounted.

Local Open Scope Z_scope.

(** ** [Atomic<T>]

    [wrap_T] brings a result into the range of [T]: the arithmetic of [std::atomic] wraps,
    for signed types too. *)
Section Operations.
Variable wrap_T : Z -> Z.

Definition Load : M Z Z := gets id.
Definition Store (val : Z) : M Z unit := modify (fun _ => val).

Definition Exchange (desired : Z) : M Z Z :=
  v ← gets id; _ ← modify (fun _ => desired); mret v.

(** The answer, and what [*expected] is afterwards.  The weak form may fail though the
    value is the expected one. *)
Definition CompareExchangeWeak (spurious : bool) (expected desired : Z) : M Z (bool * Z) :=
  v ← gets id;
  if (v =? expected) && negb spurious then _ ← modify (fun _ => desired); mret (true, expected)
  else mret (false, v).

Definition CompareExchangeStrong (expected desired : Z) : M Z (bool * Z) :=
  CompareExchangeWeak false expected desired.

Definition FetchAdd (arg : Z) : M Z Z :=
  v ← gets id; _ ← modify (fun v => wrap_T (v + arg)); mret v.
Definition FetchSub (arg : Z) : M Z Z :=
  v ← gets id; _ ← modify (fun v => wrap_T (v - arg)); mret v.

(** [IncrementIfNonzero] is a loop: [None] when it is over, with the answer; else the value
    it will try to increment next. *)
Definition increment_test (count : Z) : bool + Z := if count =? 0 then inl false else inr count.

Definition increment_begin : M Z (bool + Z) := count ← Load; mret (increment_test count).

Definition increment_try (spurious : bool) (count : Z) : M Z (bool + Z) :=
  '(done, count) ← CompareExchangeWeak spurious count (wrap_T (count + 1));
  mret (if (done : bool) then inl true else increment_test count).

(** The loop of a thread that runs alone, with the outcomes of its tries. *)
Fixpoint increment_loop (spurious : list bool) (count : Z) : M Z bool :=
  match spurious with
  | [] => no_fuel
  | b :: spurious =>
      r ← increment_try b count;
      match r with inl answer => mret answer | inr count => increment_loop spurious count end
  end.

Definition IncrementIfNonzero (spurious : list bool) : M Z bool :=
  r ← increment_begin;
  match r with inl answer => mret answer | inr count => increment_loop spurious count end.
End Operations.

(** Alone, the loop ends at its first try that does not fail spuriously, and does what
    [RefIfNonZero] of RefCounted.v does to the count of an object. *)
Lemma IncrementIfNonzero_alone (n : nat) rest (v : Z) :
  IncrementIfNonzero i64 (replicate n true ++ false :: rest) v =
    if v =? 0 then Ret (false, v) else Ret (true, i64 (v + 1)).
Proof.
  unfold IncrementIfNonzero, increment_begin, increment_test, Load, gets, mbind, M_bind, mret, M_ret, id.
  destruct (v =? 0) eqn:E; [done|]. induction n as [|n IH]; cbn.
  - unfold increment_try, CompareExchangeWeak, gets, mbind, M_bind, mret, M_ret, id, modify. by rewrite Z.eqb_refl.
  - unfold increment_try at 1, CompareExchangeWeak, gets, mbind, M_bind, mret, M_ret, id, modify. rewrite andb_false_r.
    unfold increment_test. rewrite E. exact IH.
Qed.

Lemma RefIfNonZero_is_increment o h n rest v :
  rp_counts h !! o = Some v ->
  exists h', RefIfNonZero o h = Ret (negb (v =? 0), h') /\
    IncrementIfNonzero i64 (replicate n true ++ false :: rest) v = Ret (negb (v =? 0), default v (rp_counts h' !! o)).
Proof.
  intros Hv. rewrite IncrementIfNonzero_alone. unfold RefIfNonZero, load_value, gets, mbind, M_bind. rewrite Hv. cbn.
  destruct (v =? 0); cbn; eexists; (split; [done|]); [by rewrite Hv|]. cbn. by rewrite lookup_insert_eq.
Qed.

(** ** A [RefCount] used by threads *)

(** The references a thread owns, and the value it read when it is in the loop of
    [RefIfNonZero]. *)
Record ref_thread : Type := {
  rt_owned : nat;
  rt_loop : option Z;
}.

(** [rc_last]: how often [Unref] answered that it gave up the last reference, on which the
    object is deleted.  [rc_answers]: the answers of [RefIfNonZero], each with that number
    at the time. *)
Record ref_count : Type := {
  rc_value : Z;
  rc_threads : list ref_thread;
  rc_last : nat;
  rc_answers : list (bool * nat);
}.

Inductive ref_choice : Type :=
  | ChRef (i : nat) (n : nat)
  | ChUnref (i : nat)
  | ChGive (i j : nat)
  | ChBegin (i : nat)
  | ChTry (i : nat) (spurious : bool).

Definition on_value {A} (m : M Z A) (c : ref_count) : option (A * Z) :=
  match m (rc_value c) with Ret r => Some r | _ => None end.

Definition with_thread (i : nat) (t : ref_thread) (c : ref_count) : ref_count :=
  {| rc_value := rc_value c; rc_threads := <[i := t]> (rc_threads c); rc_last := rc_last c; rc_answers := rc_answers c |}.
Definition with_value (v : Z) (c : ref_count) : ref_count :=
  {| rc_value := v; rc_threads := rc_threads c; rc_last := rc_last c; rc_answers := rc_answers c |}.
Definition with_last (n : nat) (c : ref_count) : ref_count :=
  {| rc_value := rc_value c; rc_threads := rc_threads c; rc_last := n; rc_answers := rc_answers c |}.
Definition with_answer (b : bool) (c : ref_count) : ref_count :=
  {| rc_value := rc_value c; rc_threads := rc_threads c; rc_last := rc_last c; rc_answers := rc_answers c ++ [(b, rc_last c)] |}.

(** What the loop found. *)
Definition loop_result (i : nat) (t : ref_thread) (r : bool + Z) (c : ref_count) : ref_count :=
  match r with
  | inl b => with_answer b (with_thread i {| rt_owned := (if b then 1 else 0) + rt_owned t; rt_loop := None |} c)
  | inr count => with_thread i {| rt_owned := rt_owned t; rt_loop := Some count |} c
  end.

(** [Ref] and [Unref] are called by a thread that owns a reference; a thread can give one of
    its own to another; [RefIfNonZero] can be called by any. *)
Definition ref_step (ch : ref_choice) (c : ref_count) : option ref_count :=
  match ch with
  | ChRef i n =>
      t ← rc_threads c !! i;
      if (rt_owned t =? 0)%nat || bool_decide (is_Some (rt_loop t)) then None else
      '(_, v) ← on_value (FetchAdd i64 (Z.of_nat n)) c;
      Some (with_thread i {| rt_owned := n + rt_owned t; rt_loop := None |} (with_value v c))
  | ChUnref i =>
      t ← rc_threads c !! i;
      if (rt_owned t =? 0)%nat || bool_decide (is_Some (rt_loop t)) then None else
      '(prior, v) ← on_value (FetchSub i64 1) c;
      let c := with_thread i {| rt_owned := rt_owned t - 1; rt_loop := None |} (with_value v c) in
      Some (if prior =? 1 then with_last (S (rc_last c)) c else c)
  | ChGive i j =>
      t ← rc_threads c !! i;
      u ← rc_threads c !! j;
      if (rt_owned t =? 0)%nat || (i =? j)%nat then None else
      Some (with_thread j {| rt_owned := S (rt_owned u); rt_loop := rt_loop u |}
             (with_thread i {| rt_owned := rt_owned t - 1; rt_loop := rt_loop t |} c))
  | ChBegin i =>
      t ← rc_threads c !! i;
      match rt_loop t with
      | Some _ => None
      | None => '(r, v) ← on_value increment_begin c; Some (loop_result i t r (with_value v c))
      end
  | ChTry i spurious =>
      t ← rc_threads c !! i;
      match rt_loop t with
      | None => None
      | Some count => '(r, v) ← on_value (increment_try i64 spurious count) c; Some (loop_result i t r (with_value v c))
      end
  end.

Fixpoint ref_run (chs : list ref_choice) (c : ref_count) : option ref_count :=
  match chs with
  | [] => Some c
  | ch :: chs => c ← ref_step ch c; ref_run chs c
  end.

(** The count as the object's creator makes it, and [others] threads that own nothing. *)
Definition ref_start (init : nat) (others : nat) : ref_count :=
  {| rc_value := Z.of_nat init; rc_threads := {| rt_owned := init; rt_loop := None |} :: replicate others {| rt_owned := 0; rt_loop := None |};
     rc_last := 0; rc_answers := [] |}.

(** ** The count is exact *)

Definition owned (c : ref_count) : nat := sum_list_with rt_owned (rc_threads c).

(** What a step can add to the references there are. *)
Definition ref_grows (ch : ref_choice) : nat :=
  match ch with ChRef _ n => n | ChTry _ _ => 1 | _ => 0 end.

(** How often the last reference was given up, when [n] are left. *)
Definition last_of (n : nat) : nat := if (n =? 0)%nat then 1 else 0.

Record ref_inv (c : ref_count) : Prop := {
  ri_value : rc_value c = Z.of_nat (owned c);
  ri_last : rc_last c = last_of (owned c);
  ri_loop i t count : rc_threads c !! i = Some t -> rt_loop t = Some count -> count <> 0;
  ri_answers : Forall (fun '(b, n) => n = if (b : bool) then 0%nat else 1%nat) (rc_answers c);
}.

Lemma owned_with_thread i t t' c : rc_threads c !! i = Some t ->
  (owned (with_thread i t' c) + rt_owned t = owned c + rt_owned t')%nat.
Proof. apply sum_list_with_insert. Qed.

Lemma loops_insert i t' c :
  (forall j t count, rc_threads c !! j = Some t -> rt_loop t = Some count -> count <> 0) ->
  (forall count, rt_loop t' = Some count -> count <> 0) ->
  forall j t count, <[i := t']> (rc_threads c) !! j = Some t -> rt_loop t = Some count -> count <> 0.
Proof.
  intros Hc Ht j t count. destruct (decide (i = j)) as [<-|Hne].
  - intros Hj. assert (i < length (<[i := t']> (rc_threads c)))%nat as Hl by (by eapply lookup_lt_Some).
    rewrite length_insert in Hl. rewrite list_lookup_insert_eq in Hj by done. injection Hj as <-. apply Ht.
  - rewrite list_lookup_insert_ne by done. apply Hc.
Qed.

Lemma last_pos n : (0 < n)%nat -> last_of n = 0%nat.
Proof. intros Hn. unfold last_of. by rewrite (proj2 (Nat.eqb_neq _ _)) by lia. Qed.

(** The answer of the loop: no, when the value is 0. *)
Lemma loop_result_inv i t r c :
  rc_threads c !! i = Some t -> rc_last c = last_of (owned c) ->
  (forall j u count, rc_threads c !! j = Some u -> rt_loop u = Some count -> count <> 0) ->
  Forall (fun '(b, n) => n = if (b : bool) then 0%nat else 1%nat) (rc_answers c) ->
  match r with
  | inl true => rc_value c = Z.of_nat (S (owned c)) /\ (0 < owned c)%nat
  | inl false => rc_value c = Z.of_nat (owned c) /\ owned c = 0%nat
  | inr count => rc_value c = Z.of_nat (owned c) /\ count <> 0
  end -> ref_inv (loop_result i t r c).
Proof.
  intros Hi Hl Hloop Ha Hr.
  pose proof (owned_with_thread i t) as Ho.
  destruct r as [[|]|count]; destruct Hr as [Hv Hr]; unfold loop_result.
  - specialize (Ho {| rt_owned := 1 + rt_owned t; rt_loop := None |} c Hi). cbn [rt_owned] in Ho.
    assert (owned (with_thread i {| rt_owned := 1 + rt_owned t; rt_loop := None |} c) = S (owned c)) as E by lia.
    split; [by rewrite <- E in Hv| |by apply loops_insert|].
    + change (rc_last c = last_of (owned (with_thread i {| rt_owned := 1 + rt_owned t; rt_loop := None |} c))).
      rewrite Hl, E, !last_pos by lia. done.
    + apply Forall_app. split; [done|]. apply Forall_singleton. cbn. by rewrite Hl, last_pos.
  - specialize (Ho {| rt_owned := 0 + rt_owned t; rt_loop := None |} c Hi). cbn [rt_owned] in Ho.
    assert (owned (with_thread i {| rt_owned := 0 + rt_owned t; rt_loop := None |} c) = owned c) as E by lia.
    split; [by rewrite <- E in Hv| |by apply loops_insert|].
    + change (rc_last c = last_of (owned (with_thread i {| rt_owned := 0 + rt_owned t; rt_loop := None |} c))). by rewrite E.
    + apply Forall_app. split; [done|]. apply Forall_singleton. cbn. by rewrite Hl, Hr.
  - specialize (Ho {| rt_owned := rt_owned t; rt_loop := Some count |} c Hi). cbn [rt_owned] in Ho.
    assert (owned (with_thread i {| rt_owned := rt_owned t; rt_loop := Some count |} c) = owned c) as E by lia.
    split; [by rewrite <- E in Hv|by rewrite <- E in Hl| |done]. apply loops_insert; [done|]. by intros ? [= <-].
Qed.

Lemma owned_loop_result i t r c : rc_threads c !! i = Some t ->
  owned (loop_result i t r c) = (owned c + match r with inl true => 1 | _ => 0 end)%nat.
Proof.
  intros Hi. destruct r as [[|]|count]; unfold loop_result.
  - pose proof (owned_with_thread i t {| rt_owned := 1 + rt_owned t; rt_loop := None |} c Hi) as Ho. cbn [rt_owned] in Ho.
    unfold with_answer, owned in *. cbn [rc_threads] in *. lia.
  - pose proof (owned_with_thread i t {| rt_owned := 0 + rt_owned t; rt_loop := None |} c Hi) as Ho. cbn [rt_owned] in Ho.
    unfold with_answer, owned in *. cbn [rc_threads] in *. lia.
  - pose proof (owned_with_thread i t {| rt_owned := rt_owned t; rt_loop := Some count |} c Hi) as Ho. cbn [rt_owned] in Ho. lia.
Qed.

Lemma ref_step_inv ch c c' :
  ref_inv c -> (Z.of_nat (owned c + ref_grows ch) < 2 ^ 63) -> ref_step ch c = Some c' ->
  ref_inv c' /\ (owned c' <= owned c + ref_grows ch)%nat.
Proof.
  intros [Hv Hl Hloop Ha] Hb Hs. destruct ch as [i n|i|i j|i|i sp]; cbn [ref_step ref_grows] in *.
  - destruct (rc_threads c !! i) as [t|] eqn:Hi; [|done]. cbn in Hs.
    destruct (Nat.eqb_spec (rt_owned t) 0) as [|Hn]; [done|]. destruct (bool_decide _); [done|]. injection Hs as <-.
    pose proof (sum_list_with_lookup rt_owned _ _ _ Hi) as Hge. fold (owned c) in Hge.
    pose proof (owned_with_thread i t {| rt_owned := n + rt_owned t; rt_loop := None |} c Hi) as Ho. cbn [rt_owned] in Ho.
    set (c' := with_thread i _ (with_value _ c)). assert (owned c' = owned c + n)%nat as E by (cbn in *; unfold c', owned in *; cbn in *; lia).
    split; [|lia]. split; rewrite ?E.
    + cbn. rewrite Hv. unfold i64. rewrite swrap_small by lia. lia.
    + cbn. rewrite Hl, !last_pos by lia. done.
    + by apply loops_insert.
    + done.
  - destruct (rc_threads c !! i) as [t|] eqn:Hi; [|done]. cbn in Hs.
    destruct (Nat.eqb_spec (rt_owned t) 0) as [|Hn]; [done|]. destruct (bool_decide _); [done|]. injection Hs as <-.
    pose proof (sum_list_with_lookup rt_owned _ _ _ Hi) as Hge. fold (owned c) in Hge.
    pose proof (owned_with_thread i t {| rt_owned := rt_owned t - 1; rt_loop := None |} c Hi) as Ho. cbn [rt_owned] in Ho.
    unfold id. rewrite Hv. set (c1 := with_thread i _ (with_value _ c)).
    assert (owned c1 = owned c - 1)%nat as E by (unfold c1, owned in *; cbn in *; lia).
    assert (rc_value c1 = Z.of_nat (owned c - 1)) as Ev by (cbn; unfold i64; rewrite swrap_small by lia; lia).
    assert (forall j u count, rc_threads c1 !! j = Some u -> rt_loop u = Some count -> count <> 0) as Hl1 by (by apply loops_insert).
    destruct (Z.eqb_spec (Z.of_nat (owned c)) 1) as [H1|H1].
    + assert (owned (with_last (S (rc_last c)) c1) = 0)%nat as E0 by (change (owned c1 = 0%nat); lia).
      split; [|lia]. split; rewrite ?E0; [change (rc_value c1 = Z.of_nat 0); rewrite Ev; lia| |done|done].
      change (S (rc_last c) = last_of 0). rewrite Hl, last_pos by lia. done.
    + split; [|lia]. split; rewrite ?E; [done| |done|done]. change (rc_last c = last_of (owned c - 1)).
      rewrite Hl, !last_pos by lia. done.
  - destruct (rc_threads c !! i) as [t|] eqn:Hi; [|done]. cbn in Hs.
    destruct (rc_threads c !! j) as [u|] eqn:Hj; [|done]. cbn in Hs.
    destruct (Nat.eqb_spec (rt_owned t) 0) as [|Hn]; [done|]. destruct (Nat.eqb_spec i j) as [|Hij]; [done|]. injection Hs as <-.
    pose proof (owned_with_thread i t {| rt_owned := rt_owned t - 1; rt_loop := rt_loop t |} c Hi) as Ho. cbn [rt_owned] in Ho.
    set (c1 := with_thread i _ c) in *.
    assert (rc_threads c1 !! j = Some u) as Hj1 by (cbn; by rewrite list_lookup_insert_ne).
    pose proof (owned_with_thread j u {| rt_owned := S (rt_owned u); rt_loop := rt_loop u |} c1 Hj1) as Ho1. cbn [rt_owned] in Ho1.
    set (c2 := with_thread j _ c1) in *. assert (owned c2 = owned c) as E by lia.
    split; [|lia]. split; rewrite ?E; [done|done| |done].
    apply (loops_insert j); [apply (loops_insert i); [done|]|]; cbn; eauto.
  - destruct (rc_threads c !! i) as [t|] eqn:Hi; [|done]. cbn in Hs. destruct (rt_loop t) eqn:Et; [done|]. injection Hs as <-.
    assert (with_value (rc_value c) c = c) as Ec by by destruct c. unfold id. rewrite Ec.
    rewrite owned_loop_result by done. split.
    + apply loop_result_inv; [done..|]. unfold increment_test. rewrite Hv. destruct (Z.eqb_spec (Z.of_nat (owned c)) 0); [split; lia|done].
    + unfold increment_test. destruct (rc_value c =? 0); lia.
  - destruct (rc_threads c !! i) as [t|] eqn:Hi; [|done]. cbn in Hs. destruct (rt_loop t) as [count|] eqn:Et; [|done].
    pose proof (Hloop i t count Hi Et) as Hne.
    unfold on_value, increment_try, CompareExchangeWeak, gets, mbind, M_bind, mret, M_ret, id, modify in Hs.
    destruct (Z.eqb_spec (rc_value c) count) as [Ec|Ec]; [destruct sp|]; cbn [andb negb] in Hs.
    + injection Hs as <-. rewrite owned_loop_result by done.
      assert (with_value (rc_value c) c = c) as -> by by destruct c. split.
      * apply loop_result_inv; [done..|]. unfold increment_test. rewrite (proj2 (Z.eqb_neq _ _)) by congruence. split; [done|congruence].
      * unfold increment_test. destruct (rc_value c =? 0); lia.
    + apply (inj Some) in Hs. subst c'. set (c1 := with_value _ c). rewrite (owned_loop_result i t) by done.
      assert (owned c1 = owned c) as E by done. assert (0 < owned c)%nat as Hpos by lia. split; [|lia].
      apply loop_result_inv; [done..|]. rewrite E. split; [|done]. cbn. unfold i64. rewrite swrap_small by lia. lia.
    + injection Hs as <-. rewrite owned_loop_result by done.
      assert (with_value (rc_value c) c = c) as -> by by destruct c. split.
      * apply loop_result_inv; [done..|]. unfold increment_test. destruct (Z.eqb_spec (rc_value c) 0); [split; lia|done].
      * unfold increment_test. destruct (rc_value c =? 0); lia.
Qed.

Lemma ref_run_inv chs : forall c c',
  ref_inv c -> Z.of_nat (owned c + sum_list_with ref_grows chs) < 2 ^ 63 -> ref_run chs c = Some c' -> ref_inv c'.
Proof.
  induction chs as [|ch chs IH]; intros c c' Hc Hb Hr; [by injection Hr as <-|]. cbn in Hb, Hr.
  destruct (ref_step ch c) as [c1|] eqn:E; [|done]. cbn in Hr.
  destruct (ref_step_inv ch c c1 Hc) as [Hc1 Ho]; [lia|done|]. eapply IH; [done| |done]. lia.
Qed.

(** C35. A reference count is exact under any interleaving.  Threads take references with [Ref]
    and [RefIfNonZero], hand them to one another and give them up with [Unref], the steps of
    the compare-and-swap loops among them and their spurious failures included.  Then the
    value is the number of references owned; [Unref] has answered that it gave up the last
    one exactly once if none is left, and never if there are some; and [RefIfNonZero] has
    answered yes only before that, and no only after it: nobody gets a reference to an
    object that is being deleted.  A try that fails although it was not spurious found a
    value another thread had changed. *)
Theorem ref_count_interleaved (init others : nat) (chs : list ref_choice) (c : ref_count) :
  (0 < init)%nat -> Z.of_nat (init + sum_list_with ref_grows chs) < 2 ^ 63 ->
  ref_run chs (ref_start init others) = Some c ->
  rc_value c = Z.of_nat (owned c) /\
  rc_last c = (if (owned c =? 0)%nat then 1%nat else 0%nat) /\
  Forall (fun '(b, n) => n = if (b : bool) then 0%nat else 1%nat) (rc_answers c) /\
  forall i t count c1, rc_threads c !! i = Some t -> rt_loop t = Some count ->
    ref_step (ChTry i false) c = Some c1 -> rc_answers c1 = rc_answers c ++ [(true, rc_last c)] \/ rc_value c <> count.
Proof.
  intros Hi Hb Hr. assert (owned (ref_start init others) = init) as Ho.
  { unfold owned, ref_start. cbn. assert (sum_list_with rt_owned (replicate others {| rt_owned := 0; rt_loop := None |}) = 0%nat) as E
      by (clear; induction others as [|k IH]; [done|exact IH]). lia. }
  destruct (ref_run_inv chs (ref_start init others) c) as [Hv Hl Hloop Ha]; [|by rewrite Ho|done|].
  { split; rewrite ?Ho; [done|cbn; by rewrite last_pos| |by apply Forall_nil_2].
    intros i t count. cbn. destruct i as [|i]; cbn; [by intros [= <-]|]. intros [-> _]%lookup_replicate. done. }
  split_and!; [done|exact Hl|done|]. intros i t count c1 Ht Hc Hs. cbn [ref_step] in Hs. rewrite Ht in Hs. cbn in Hs. rewrite Hc in Hs.
  unfold on_value, increment_try, CompareExchangeWeak, gets, mbind, M_bind, mret, M_ret, id, modify in Hs.
  destruct (Z.eqb_spec (rc_value c) count) as [Ec|Ec]; [|by right]. left. cbn [andb negb] in Hs. injection Hs as <-. done.
Qed.

(** Thread 1 reads the count, thread 0 takes and hands on a reference, so that the first try
    fails; then all is given up, and a late [RefIfNonZero] is refused. *)
Definition ref_schedule : list ref_choice :=
  [ChBegin 1; ChRef 0 1; ChGive 0 2; ChTry 1 false; ChTry 1 true; ChTry 1 false; ChUnref 0; ChUnref 1; ChUnref 2; ChBegin 0].

Lemma ref_count_interleaved_witness : exists c, ref_run ref_schedule (ref_start 1 2) = Some c /\
  rc_value c = Z.of_nat (owned c) /\
  rc_last c = (if (owned c =? 0)%nat then 1%nat else 0%nat) /\
  Forall (fun '(b, n) => n = if (b : bool) then 0%nat else 1%nat) (rc_answers c) /\
  forall i t count c1, rc_threads c !! i = Some t -> rt_loop t = Some count ->
    ref_step (ChTry i false) c = Some c1 -> rc_answers c1 = rc_answers c ++ [(true, rc_last c)] \/ rc_value c <> count.
Proof.
  assert (exists c, ref_run ref_schedule (ref_start 1 2) = Some c) as [c Hc] by (eexists; vm_compute; reflexivity).
  exists c. split; [exact Hc|]. apply (ref_count_interleaved 1 2 ref_schedule c); [lia|vm_compute; reflexivity|exact Hc].
Defined.
