(* ===== verification/HostPort.v ===== *)
(** * Host and port strings (src/common/host_port.h, src/common/host_port.cc,
      src/utils/string_view.h)

    A [StringView] is the list of the characters it shows (its null view and an empty
    one are the same list: no function of the library tells them apart).  A C string
    is the list of its characters before the terminating NUL. *)

From S2P Require Import Prelude.

Abbreviation ch_colon := x3a.
Abbreviation ch_lbracket := x5b.
Abbreviation ch_rbracket := x5d.

(** ** [StringView] *)

Fixpoint memchr (c : byte) (s : list byte) : option nat :=
  match s with
  | [] => None
  | x :: s => if decide (x = c) then Some 0 else S <$> memchr c s
  end.

Definition StringView_find (c : byte) (pos : nat) (s : list byte) : option nat :=
  if (length s =? 0) || (length s <=? pos) then None
  else (fun i => pos + i) <$> memchr c (drop pos s).

(** For a [start] within the view: beyond its end [_size - start] wraps around. *)
Definition StringView_substr (start size : nat) (s : list byte) : list byte :=
  take (Nat.min size (length s - start)) (drop start s).

(** [operator[]]: one past the end is the terminating NUL of the viewed C string. *)
Definition StringView_at (i : nat) (s : list byte) : byte := nth i s x00.

Definition StringView_empty (s : list byte) : bool := (length s =? 0)%nat.

(** [None]: there is no such character. *)
Definition StringView_front (s : list byte) : option byte := s !! 0%nat.
Definition StringView_back (s : list byte) : option byte :=
  if StringView_empty s then None else s !! (length s - 1)%nat.

(** [None]: the view would leave its characters. *)
Definition StringView_remove_prefix (n : nat) (s : list byte) : option (list byte) :=
  if (n <=? length s)%nat then Some (drop n s) else None.
Definition StringView_remove_suffix (n : nat) (s : list byte) : option (list byte) :=
  if (n <=? length s)%nat then Some (take (length s - n) s) else None.

Definition StringView_clear (_ : list byte) : list byte := [].

(** The conversion to [std::basic_string]. *)
Definition StringView_string (s : list byte) : list byte := s.

(** [strncmp] stops at a NUL; the byte order is that of [unsigned char]. *)
Fixpoint strncmp (n : nat) (a b : list byte) : Z :=
  match n with
  | O => 0
  | S n =>
      let x := hd x00 a in
      let y := hd x00 b in
      if decide (x = y) then (if decide (x = x00) then 0 else strncmp n (tl a) (tl b))
      else Z.of_N (Byte.to_N x) - Z.of_N (Byte.to_N y)
  end%Z.

Definition StringView_eq (lhs rhs : list byte) : bool :=
  (length lhs =? length rhs) && (strncmp (length lhs) lhs rhs =? 0)%Z.

Definition StringViewCompare (lhs rhs : list byte) : Z :=
  let len := Nat.min (length lhs) (length rhs) in
  let ret := strncmp len lhs rhs in
  if negb (ret =? 0)%Z then ret
  else if length lhs =? length rhs then 0%Z
  else if length lhs <? length rhs then (-1)%Z
  else 1%Z.

(** [StringViewToCString]: the copy ends at the first NUL of the view. *)
Fixpoint c_str (s : list byte) : list byte :=
  match s with
  | [] => []
  | x :: s => if decide (x = x00) then [] else x :: c_str s
  end.

(** ** Joining and splitting *)

(** The result of [raptor_asprintf] is the number of characters printed. *)
Definition JoinHostPort (host : list byte) (port : Z) : list byte * Z :=
  let tmp :=
    if negb (bool_decide (StringView_at 0 host = ch_lbracket)) &&
       match memchr ch_colon host with Some _ => true | None => false end
    then str "[" ++ host ++ str "]:" ++ dec port
    else host ++ str ":" ++ dec port in
  (tmp, Z.of_nat (length tmp)).

Record split_result : Type := {
  sp_ret : bool;
  sp_host : list byte;
  sp_port : list byte;
  sp_has_port : bool;
}.

(** [host] and [port] are the values of the views before the call. *)
Definition DoSplitHostPort (name host port : list byte) : split_result :=
  let fail h p hp := {| sp_ret := false; sp_host := h; sp_port := p; sp_has_port := hp |} in
  if bool_decide (StringView_at 0 name = ch_lbracket) then
    match StringView_find ch_rbracket 1 name with
    | None => fail host port false
    | Some rbracket =>
        let bracketed p hp :=
          let host := StringView_substr 1 (rbracket - 1) name in
          match StringView_find ch_colon 0 host with
          | None => fail [] p hp
          | Some _ => {| sp_ret := true; sp_host := host; sp_port := p; sp_has_port := hp |}
          end in
        if rbracket =? length name - 1 then bracketed [] false
        else if bool_decide (StringView_at (rbracket + 1) name = ch_colon) then
          bracketed (StringView_substr (rbracket + 2) (length name - rbracket - 2) name) true
        else fail host port false
    end
  else
    match StringView_find ch_colon 0 name with
    | Some colon =>
        match StringView_find ch_colon (colon + 1) name with
        | None =>
            {| sp_ret := true;
               sp_host := StringView_substr 0 colon name;
               sp_port := StringView_substr (colon + 1) (length name - colon - 1) name;
               sp_has_port := true |}
        | Some _ => {| sp_ret := true; sp_host := name; sp_port := []; sp_has_port := false |}
        end
    | None => {| sp_ret := true; sp_host := name; sp_port := []; sp_has_port := false |}
    end.

(** The overload on views clears them first and returns them whatever the result. *)
Definition SplitHostPort_views (name : list byte) : bool * list byte * list byte :=
  let r := DoSplitHostPort name [] [] in
  (sp_ret r, sp_host r, sp_port r).

(** The overload on C strings: null pointers where nothing was stored. *)
Definition SplitHostPort (name : list byte) : bool * option (list byte) * option (list byte) :=
  let r := DoSplitHostPort name [] [] in
  if sp_ret r
  then (true, Some (c_str (sp_host r)), if sp_has_port r then Some (c_str (sp_port r)) else None)
  else (false, None, None).

(** ** Finding characters *)

Lemma memchr_None c s : memchr c s = None <-> c ∉ s.
Proof.
  induction s as [|x s IH]; cbn; [split; [intros _; apply not_elem_of_nil|done]|].
  rewrite not_elem_of_cons. destruct (decide (x = c)) as [->|Hx]; [naive_solver|].
  rewrite fmap_None, IH. naive_solver.
Qed.

Lemma memchr_first c a b : c ∉ a -> memchr c (a ++ c :: b) = Some (length a).
Proof.
  induction a as [|x a IH]; intros Ha; cbn; [by rewrite decide_True|].
  apply not_elem_of_cons in Ha as [Hx Ha]. rewrite decide_False by done. by rewrite IH.
Qed.

(** *** The contract of [absl::string_view]

    string_view.h promises the semantics of [absl::string_view]; they are those of the
    lists of characters. *)

(** [find] gives the first place from [pos] on. *)
Lemma StringView_find_spec c pos s i :
  StringView_find c pos s = Some i <->
  (pos <= i)%nat /\ s !! i = Some c /\ forall j, (pos <= j < i)%nat -> s !! j <> Some c.
Proof.
  assert (forall l k, memchr c l = Some k <-> l !! k = Some c /\ forall j, (j < k)%nat -> l !! j <> Some c) as Hm.
  { induction l as [|x l IH]; intros k; cbn; [split; [done|by intros [? _]]|].
    destruct (decide (x = c)) as [->|Hne].
    - split.
      + intros [= <-]. split; [done|]. lia.
      + intros [Hk Hj]. destruct k as [|k]; [done|]. by destruct (Hj 0%nat ltac:(lia)).
    - destruct k as [|k]; cbn.
      + split; [by destruct (memchr c l)|intros [[= ->] _]; done].
      + rewrite fmap_Some. split.
        * intros (k' & Hk & [= ->]). apply IH in Hk as [Hk Hj]. split; [done|].
          intros [|j] Hlt; cbn; [congruence|]. apply Hj. lia.
        * intros [Hk Hj]. exists k. split; [|done]. apply IH. split; [done|]. intros j Hlt. apply (Hj (S j)). lia. }
  unfold StringView_find. destruct ((length s =? 0)%nat || (length s <=? pos)%nat) eqn:E.
  - split; [done|]. intros (Hp & Hi & _). apply lookup_lt_Some in Hi. apply orb_true_iff in E as [E|E];
      [apply Nat.eqb_eq in E|apply Nat.leb_le in E]; lia.
  - rewrite fmap_Some. setoid_rewrite Hm. setoid_rewrite lookup_drop. split.
    + intros (k & [Hk Hj] & ->). split; [lia|]. split; [done|]. intros j Hlt.
      replace j with (pos + (j - pos))%nat by lia. apply Hj. lia.
    + intros (Hp & Hi & Hj). exists (i - pos)%nat. replace (pos + (i - pos))%nat with i by lia.
      split; [|done]. split; [done|]. intros j Hlt. apply Hj. lia.
Qed.

Lemma strncmp_eq n : forall a b, (length a = n)%nat -> (length b = n)%nat -> x00 ∉ a -> (strncmp n a b = 0)%Z <-> a = b.
Proof.
  induction n as [|n IH]; intros [|x a] [|y b]; cbn; try done. intros [= Ha] [= Hb] Hn.
  apply not_elem_of_cons in Hn as [Hx Hn]. destruct (decide (x = y)) as [<-|Hne].
  - rewrite decide_False by done. rewrite IH by done. split; [by intros ->|by intros [= ->]].
  - split; [|congruence]. intros Hz. destruct Hne. apply byte_val_inj. unfold byte_val. lia.
Qed.

(** Views without a NUL are equal when their characters are; with one, the comparisons
    stop at it, and different views are equal. *)
Lemma StringView_eq_spec a b : x00 ∉ a -> StringView_eq a b = bool_decide (a = b).
Proof.
  intros Hn. unfold StringView_eq. destruct (Nat.eqb_spec (length a) (length b)) as [Hl|Hl]; cbn.
  - apply Bool.eq_iff_eq_true. rewrite Z.eqb_eq, bool_decide_eq_true. by apply strncmp_eq.
  - rewrite bool_decide_eq_false_2; [done|]. by intros ->.
Qed.

Example StringView_eq_stops_at_nul :
  StringView_eq [x61; x00; x62] [x61; x00; x63] = true /\ StringViewCompare [x61; x00; x62] [x61; x00; x63] = 0%Z.
Proof. split; reflexivity. Qed.

Lemma find_None c pos s : c ∉ drop pos s -> StringView_find c pos s = None.
Proof.
  intros Hc. unfold StringView_find. destruct (_ || _); [done|].
  by rewrite (proj2 (memchr_None c _) Hc).
Qed.

Lemma find_first c a b : c ∉ a -> StringView_find c 0 (a ++ c :: b) = Some (length a).
Proof.
  intros Ha. unfold StringView_find. rewrite drop_0, memchr_first by done.
  rewrite length_app. cbn. destruct (length a); done.
Qed.

Lemma c_str_id s : x00 ∉ s -> c_str s = s.
Proof.
  induction s as [|x s IH]; intros Hs; [done|]. apply not_elem_of_cons in Hs as [Hx Hs].
  cbn. rewrite decide_False by done. by rewrite IH.
Qed.

(** ** What [%d] prints *)

Definition printable_digit (c : byte) : Prop := c <> ch_colon /\ c <> ch_rbracket /\ c <> x00.

Lemma string_of_uint_chars d :
  Forall printable_digit (str (DecimalString.NilEmpty.string_of_uint d)).
Proof. unfold printable_digit. induction d; cbn; constructor; done. Qed.

Lemma str_cons a s : str (String a s) = Ascii.byte_of_ascii a :: str s.
Proof. done. Qed.

Lemma dec_chars z : Forall printable_digit (dec z).
Proof.
  unfold dec, DecimalString.NilZero.string_of_int.
  assert (forall d, Forall printable_digit (str (DecimalString.NilZero.string_of_uint d))) as Hu.
  { intros d. destruct d; try apply string_of_uint_chars. repeat constructor; done. }
  destruct (Z.to_int z); [apply Hu|]. rewrite str_cons. constructor; [done|apply Hu].
Qed.

Lemma dec_no c z : c = ch_colon \/ c = ch_rbracket \/ c = x00 -> c ∉ dec z.
Proof.
  intros Hc Hin. pose proof (proj1 (Forall_forall _ _) (dec_chars z) _ Hin) as (? & ? & ?).
  naive_solver.
Qed.

(** ** The round trip *)

(** What a host name or address literal is to these functions. *)
Definition host_ok (host : list byte) : Prop :=
  (ch_rbracket ∉ host) /\ (x00 ∉ host) /\ StringView_at 0 host <> ch_lbracket.

Lemma substr_prefix (a b : list byte) : StringView_substr 0 (length a) (a ++ b) = a.
Proof.
  unfold StringView_substr. rewrite drop_0, length_app.
  replace (Nat.min (length a) (length a + length b - 0)) with (length a) by lia.
  apply take_app_length.
Qed.

Lemma substr_suffix (a b : list byte) n :
  n = length a -> StringView_substr n (length (a ++ b) - n) (a ++ b) = b.
Proof.
  intros ->. unfold StringView_substr. rewrite length_app, drop_app_length.
  rewrite take_ge; [done|]. lia.
Qed.

Lemma DoSplit_bracketed h p :
  ch_colon ∈ h -> ch_rbracket ∉ h ->
  DoSplitHostPort (str "[" ++ h ++ str "]:" ++ p) [] [] =
    {| sp_ret := true; sp_host := h; sp_port := p; sp_has_port := true |}.
Proof.
  intros Hc Hr. change (str "[") with [ch_lbracket]. change (str "]:") with [ch_rbracket; ch_colon].
  set (name := [ch_lbracket] ++ h ++ [ch_rbracket; ch_colon] ++ p).
  assert (length name = 3 + length h + length p) as Hlen
    by (unfold name; rewrite !length_app; cbn; lia).
  assert (StringView_find ch_rbracket 1 name = Some (S (length h))) as Hfind.
  { unfold StringView_find. rewrite Hlen.
    rewrite (proj2 (Nat.leb_gt _ 1)) by lia. cbn [Nat.eqb Nat.add orb].
    change (drop 1 name) with (h ++ ch_rbracket :: ch_colon :: p). by rewrite memchr_first. }
  unfold DoSplitHostPort. rewrite Hfind, bool_decide_eq_true_2 by done.
  rewrite (proj2 (Nat.eqb_neq (S (length h)) (length name - 1))) by lia.
  assert (StringView_at (S (length h) + 1) name = ch_colon) as ->.
  { unfold StringView_at, name. cbn [app nth Nat.add]. rewrite app_nth2 by lia.
    by replace (length h + 1 - length h) with 1 by lia. }
  rewrite bool_decide_eq_true_2 by done.
  assert (StringView_substr 1 (S (length h) - 1) name = h) as ->.
  { unfold StringView_substr. rewrite Hlen. cbn [Nat.sub Nat.add]. rewrite Nat.sub_0_r.
    change (drop 1 name) with (h ++ ch_rbracket :: ch_colon :: p).
    replace (Nat.min _ _) with (length h) by lia. apply take_app_length. }
  assert (exists i, StringView_find ch_colon 0 h = Some i) as [i ->].
  { apply list_elem_of_split_l in Hc as (a & b & -> & Ha). eexists. by apply find_first. }
  f_equal. replace (length name - S (length h) - 2) with (length name - (S (length h) + 2)) by lia.
  unfold name. replace ([ch_lbracket] ++ h ++ [ch_rbracket; ch_colon] ++ p)
    with (([ch_lbracket] ++ h ++ [ch_rbracket; ch_colon]) ++ p) by (by rewrite <- !app_assoc).
  apply substr_suffix. rewrite !length_app. cbn. lia.
Qed.

Lemma DoSplit_plain h p :
  ch_colon ∉ h -> ch_colon ∉ p -> StringView_at 0 h <> ch_lbracket ->
  DoSplitHostPort (h ++ str ":" ++ p) [] [] =
    {| sp_ret := true; sp_host := h; sp_port := p; sp_has_port := true |}.
Proof.
  intros Hh Hp H0. change (str ":" ++ p) with (ch_colon :: p). unfold DoSplitHostPort.
  rewrite bool_decide_eq_false_2 by (destruct h; done).
  rewrite find_first by done.
  rewrite find_None.
  2:{ rewrite cons_middle, app_assoc, drop_app_ge by (rewrite length_app; cbn; lia).
      rewrite length_app. cbn [length]. rewrite Nat.sub_diag. by rewrite drop_0. }
  f_equal; [apply substr_prefix|].
  rewrite cons_middle, app_assoc.
  replace (length ((h ++ [ch_colon]) ++ p) - length h - 1)
    with (length ((h ++ [ch_colon]) ++ p) - (length h + 1)) by lia.
  apply substr_suffix. by rewrite length_app.
Qed.

Lemma DoSplit_join (host : list byte) (port : Z) :
  host_ok host ->
  DoSplitHostPort (JoinHostPort host port).1 [] [] =
    {| sp_ret := true; sp_host := host; sp_port := dec port; sp_has_port := true |}.
Proof.
  intros (Hr & Hn & H0). unfold JoinHostPort. cbn [fst].
  rewrite bool_decide_eq_false_2 by done. cbn [negb andb].
  destruct (memchr ch_colon host) as [i|] eqn:E.
  - assert (ch_colon ∈ host) as Hc.
    { destruct (decide (ch_colon ∈ host)) as [|Hc]; [done|]. apply memchr_None in Hc. congruence. }
    by rewrite DoSplit_bracketed.
  - apply memchr_None in E. by rewrite DoSplit_plain by auto using dec_no.
Qed.

(** C37. Splitting what [JoinHostPort] printed gives the host and the port back, for host
    names and for address literals with colons, which are put in brackets. *)
Theorem host_port_roundtrip (host : list byte) (port : Z) :
  host_ok host -> SplitHostPort (JoinHostPort host port).1 = (true, Some host, Some (dec port)).
Proof.
  intros Hok. unfold SplitHostPort. rewrite DoSplit_join by done. cbn.
  destruct Hok as (_ & Hn & _). rewrite !c_str_id; auto using dec_no.
Qed.

Lemma host_port_roundtrip_witness :
  SplitHostPort (JoinHostPort (str "fe80::1") 8080).1 = (true, Some (str "fe80::1"), Some (dec 8080)).
Proof.
  apply host_port_roundtrip. split; [|split]; [| |vm_compute; discriminate];
    apply (proj1 (memchr_None _ _)); vm_compute; reflexivity.
Defined.
