(* ===== verification/SockAddr.v ===== *)
(** * Socket addresses (src/common/resolve_address.h, src/common/socket_util.cc)

    A [raptor_resolved_address] is a buffer of 128 bytes and a length; the code reads
    and writes it through the [sockaddr] structures of the x86-64 Linux ABI, whose
    field offsets are written out here.  [inet_ntop] and [inet_pton] belong to the C
    library and are parameters. *)

From S2P Require Import Prelude.
From S2P Require Import HostPort.

Record raptor_resolved_address : Type := {
  ra_addr : list byte;
  ra_len : Z;
}.

Definition ra_wf (a : raptor_resolved_address) : Prop := length (ra_addr a) = 128.

(** [memset(out, 0, sizeof *out)]. *)
Definition ra_zero : raptor_resolved_address := {| ra_addr := replicate 128 x00; ra_len := 0 |}.

Definition AF_UNSPEC : Z := 0.
Definition AF_UNIX : Z := 1.
Definition AF_INET : Z := 2.
Definition AF_INET6 : Z := 10.
Definition sizeof_sockaddr_in : Z := 16.
Definition sizeof_sockaddr_in6 : Z := 28.
Definition INET6_ADDRSTRLEN : nat := 46.

(** ** Fields *)

Definition get_bytes (off n : nat) (m : list byte) : list byte := take n (drop off m).
Definition put_bytes (off : nat) (d m : list byte) : list byte :=
  take off m ++ d ++ drop (off + length d) m.

Definition le16 (z : Z) : list byte := [byte_of z; byte_of (z / 256)].
Definition be16 (z : Z) : list byte := [byte_of (z / 256); byte_of z].
Definition from_le (d : list byte) : Z := foldr (fun b acc => byte_val b + 256 * acc)%Z 0%Z d.
Definition from_be (d : list byte) : Z := from_le (rev d).

(** [sa_family]; the ports of both structures are at offset 2, in network order. *)
Definition sa_family (m : list byte) : Z := from_le (get_bytes 0 2 m).
Definition put_family (f : Z) (m : list byte) : list byte := put_bytes 0 (le16 f) m.
Definition sin_port (m : list byte) : list byte := get_bytes 2 2 m.
Definition put_port (d m : list byte) : list byte := put_bytes 2 d m.
Definition ntohs (d : list byte) : Z := from_be d.
Definition htons (z : Z) : list byte := be16 (u16 z).
Definition sin_addr (m : list byte) : list byte := get_bytes 4 4 m.
Definition sin6_addr (m : list byte) : list byte := get_bytes 8 16 m.
Definition sin6_scope_id (m : list byte) : Z := from_le (get_bytes 24 4 m).

(** ** Mapped addresses *)

Definition kV4MappedPrefix : list byte :=
  [x00; x00; x00; x00; x00; x00; x00; x00; x00; x00; xff; xff].

(** [None] is the result 0; the address is what the call writes when it returns 1 (a
    caller that passes a null pointer drops it). *)
Definition raptor_sockaddr_is_v4mapped (a : raptor_resolved_address) : option raptor_resolved_address :=
  let addr := ra_addr a in
  if (sa_family addr =? AF_INET6)%Z then
    if decide (take 12 (sin6_addr addr) = kV4MappedPrefix) then
      Some {|
        ra_addr :=
          put_port (sin_port addr)
            (put_bytes 4 (take 4 (drop 12 (sin6_addr addr)))
              (put_family AF_INET (ra_addr ra_zero)));
        ra_len := sizeof_sockaddr_in;
      |}
    else None
  else None.

Definition raptor_sockaddr_to_v4mapped (a : raptor_resolved_address) : option raptor_resolved_address :=
  let addr := ra_addr a in
  if (sa_family addr =? AF_INET)%Z then
    Some {|
      ra_addr :=
        put_port (sin_port addr)
          (put_bytes 20 (sin_addr addr)
            (put_bytes 8 kV4MappedPrefix
              (put_family AF_INET6 (ra_addr ra_zero))));
      ra_len := sizeof_sockaddr_in6;
    |}
  else None.

(** The port when the address is a wildcard. *)
Definition raptor_sockaddr_is_wildcard (a : raptor_resolved_address) : option Z :=
  let a := match raptor_sockaddr_is_v4mapped a with Some n => n | None => a end in
  let addr := ra_addr a in
  if (sa_family addr =? AF_INET)%Z then
    if negb (from_le (sin_addr addr) =? 0)%Z then None
    else Some (ntohs (sin_port addr))
  else if (sa_family addr =? AF_INET6)%Z then
    if forallb (fun b => bool_decide (b = x00)) (sin6_addr addr)
    then Some (ntohs (sin_port addr))
    else None
  else None.

(** [None] is the failed assertion. *)
Definition raptor_sockaddr_make_wildcard4 (port : Z) : option raptor_resolved_address :=
  if (0 <=? port)%Z && (port <? 65536)%Z then
    Some {|
      ra_addr := put_port (htons port) (put_family AF_INET (ra_addr ra_zero));
      ra_len := sizeof_sockaddr_in;
    |}
  else None.

Definition raptor_sockaddr_make_wildcard6 (port : Z) : option raptor_resolved_address :=
  if (0 <=? port)%Z && (port <? 65536)%Z then
    Some {|
      ra_addr := put_port (htons port) (put_family AF_INET6 (ra_addr ra_zero));
      ra_len := sizeof_sockaddr_in6;
    |}
  else None.

Definition grpc_sockaddr_make_wildcards (port : Z) :
    option (raptor_resolved_address * raptor_resolved_address) :=
  w4 ← raptor_sockaddr_make_wildcard4 port;
  w6 ← raptor_sockaddr_make_wildcard6 port;
  Some (w4, w6).

(** ** Ports and families *)

Definition raptor_sockaddr_get_family (a : raptor_resolved_address) : Z := sa_family (ra_addr a).

Definition raptor_sockaddr_get_port (a : raptor_resolved_address) : Z :=
  let addr := ra_addr a in
  let family := sa_family addr in
  if (family =? AF_INET)%Z then ntohs (sin_port addr)
  else if (family =? AF_INET6)%Z then ntohs (sin_port addr)
  else if (family =? AF_UNIX)%Z then 1
  else 0.

(** The result and the address after the call, which writes through the pointer. *)
Definition raptor_sockaddr_set_port (a : raptor_resolved_address) (port : Z) :
    Z * raptor_resolved_address :=
  let addr := ra_addr a in
  let family := sa_family addr in
  if negb ((0 <=? port)%Z && (port <? 65536)%Z) then (0%Z, a)
  else if ((family =? AF_INET) || (family =? AF_INET6))%Z then
    (1%Z, {| ra_addr := put_port (htons port) addr; ra_len := ra_len a |})
  else (0%Z, a).

(** ** Text *)

Section Text.
(** [inet_ntop family src]: the printed address, or nothing on failure. *)
Variable inet_ntop : Z -> list byte -> option (list byte).
(** [inet_pton family text]: the parsed address bytes when it returns 1. *)
Variable inet_pton : Z -> list byte -> option (list byte).

(** The address bytes and the scope a socket address names. *)
Definition address_ip (addr : list byte) : option (list byte) :=
  if (sa_family addr =? AF_INET)%Z then Some (sin_addr addr)
  else if (sa_family addr =? AF_INET6)%Z then Some (sin6_addr addr)
  else None.

Definition address_scope (addr : list byte) : Z :=
  if (sa_family addr =? AF_INET6)%Z then sin6_scope_id addr else 0.

Definition normalized (normalize : bool) (a : raptor_resolved_address) : raptor_resolved_address :=
  if normalize
  then match raptor_sockaddr_is_v4mapped a with Some n => n | None => a end
  else a.

(** The text and the result, its length. *)
Definition raptor_sockaddr_to_string (a : raptor_resolved_address) (normalize : bool) : list byte * Z :=
  let addr := ra_addr (normalized normalize a) in
  let port := match address_ip addr with Some _ => ntohs (sin_port addr) | None => 0%Z end in
  match ip ← address_ip addr; inet_ntop (sa_family addr) ip with
  | Some ntop_buf =>
      let scope := address_scope addr in
      if negb (scope =? 0)%Z
      then JoinHostPort (ntop_buf ++ str "%25" ++ dec scope) port
      else JoinHostPort ntop_buf port
  | None =>
      let text := str "(sockaddr family=" ++ dec (sa_family addr) ++ str ")" in
      (text, Z.of_nat (length text))
  end.

Definition raptor_string_to_sockaddr (text : list byte) (port : Z) : option raptor_resolved_address :=
  match inet_pton AF_INET6 text with
  | Some ip =>
      let out := {| ra_addr := put_family AF_INET6 (put_bytes 8 ip (ra_addr ra_zero));
                    ra_len := sizeof_sockaddr_in6 |} in
      Some (raptor_sockaddr_set_port out port).2
  | None =>
      match inet_pton AF_INET text with
      | Some ip =>
          let out := {| ra_addr := put_family AF_INET (put_bytes 4 ip (ra_addr ra_zero));
                        ra_len := sizeof_sockaddr_in |} in
          Some (raptor_sockaddr_set_port out port).2
      | None => None
      end
  end.

(** The characters copied to [dst] (of [size] bytes) and the result. *)
Definition raptor_sockaddr_get_ip (a : raptor_resolved_address) (size : nat) : list byte :=
  let addr := ra_addr (normalized true a) in
  match ip ← address_ip addr; inet_ntop (sa_family addr) ip with
  | Some ntop_buf =>
      let scope := address_scope addr in
      if negb (scope =? 0)%Z then
        let host_with_scope := ntop_buf ++ str "%25" ++ dec scope in
        let ret := length host_with_scope in
        if size <? ret then take size host_with_scope else host_with_scope
      else ntop_buf
  | None => []
  end.
End Text.

(** ** Ports *)

Lemma from_le_pair x y : from_le [x; y] = (byte_val x + 256 * byte_val y)%Z.
Proof. unfold from_le. cbn [foldr]. lia. Qed.

Lemma ntohs_htons p : (0 <= p < 65536)%Z -> ntohs (htons p) = p.
Proof.
  intros Hp. unfold ntohs, htons, be16, from_be, u16. cbn [rev app]. rewrite from_le_pair.
  rewrite wrap_small by lia. rewrite !byte_val_of.
  rewrite (Z.mod_small (p / 256)) by (split; [apply Z.div_pos; lia|apply Z.div_lt_upper_bound; lia]).
  rewrite Z.add_comm. symmetry. apply Z.div_mod. lia.
Qed.

Lemma le16_family f : (0 <= f < 256)%Z -> le16 f = [byte_of f; x00].
Proof.
  intros Hf. unfold le16. do 2 f_equal. rewrite Z.div_small by lia. done.
Qed.

(** The family field determines the first two bytes. *)
Lemma family_bytes x y m f :
  (0 <= f < 256)%Z -> sa_family (x :: y :: m) = f -> x = byte_of f /\ y = x00.
Proof.
  intros Hf. unfold sa_family, get_bytes. cbn [drop take]. rewrite from_le_pair. intros E.
  pose proof (byte_val_range x). pose proof (byte_val_range y).
  assert (byte_val y = 0 /\ byte_val x = f)%Z as [Hy Hx] by lia.
  split; [rewrite <- Hx; by rewrite byte_of_val|].
  apply byte_val_inj. rewrite Hy. done.
Qed.

Lemma sa_family_get m p :
  length (ra_addr m) = 128 ->
  sa_family (put_port (htons p) (ra_addr m)) = sa_family (ra_addr m) /\
  sin_port (put_port (htons p) (ra_addr m)) = htons p.
Proof.
  destruct m as [m l]. cbn. intros Hm. do 4 (destruct m as [|? m]; [done|]). done.
Qed.

(** Setting a port in range on an IPv4 or IPv6 address succeeds, keeps the family and
    is what reading the port returns; out of range nothing changes. *)
Theorem set_port_get_port (a : raptor_resolved_address) (port : Z) :
  ra_wf a ->
  raptor_sockaddr_get_family a = AF_INET \/ raptor_sockaddr_get_family a = AF_INET6 ->
  let '(ok, b) := raptor_sockaddr_set_port a port in
  raptor_sockaddr_get_family b = raptor_sockaddr_get_family a /\
  (if decide (0 <= port < 65536)%Z
   then ok = 1%Z /\ raptor_sockaddr_get_port b = port
   else ok = 0%Z /\ b = a).
Proof.
  intros Hwf Hf. unfold raptor_sockaddr_set_port, raptor_sockaddr_get_family in *.
  assert ((sa_family (ra_addr a) =? AF_INET) || (sa_family (ra_addr a) =? AF_INET6) = true)%Z as Hfam.
  { destruct Hf as [-> | ->]; done. }
  destruct (decide (0 <= port < 65536)%Z) as [Hp|Hp].
  - rewrite (proj2 (Z.leb_le 0 port)), (proj2 (Z.ltb_lt port 65536)), Hfam by lia. cbn [negb andb].
    destruct (sa_family_get a port Hwf) as [E1 E2]. cbn [ra_addr]. rewrite E1.
    split_and!; [done|done|]. unfold raptor_sockaddr_get_port. cbn [ra_addr].
    rewrite E1, E2, ntohs_htons by done. destruct Hf as [-> | ->]; done.
  - replace ((0 <=? port) && (port <? 65536))%Z with false by lia. done.
Qed.

Definition loopback4 (port : Z) : raptor_resolved_address :=
  {| ra_addr := put_bytes 4 [x7f; x00; x00; x01] (put_port (htons port) (put_family AF_INET (replicate 128 x00)));
     ra_len := 16 |}.

Lemma set_port_get_port_witness :
  let '(ok, b) := raptor_sockaddr_set_port (loopback4 80) 8080 in
  raptor_sockaddr_get_family b = raptor_sockaddr_get_family (loopback4 80) /\
  (if decide (0 <= 8080 < 65536)%Z
   then ok = 1%Z /\ raptor_sockaddr_get_port b = 8080%Z
   else ok = 0%Z /\ b = loopback4 80).
Proof. apply (set_port_get_port (loopback4 80) 8080); [reflexivity|left; reflexivity]. Defined.

(** ** Mapped addresses *)

Lemma mapped_form x0 x1 x2 x3 x4 x5 x6 x7 m l :
  sa_family (x0 :: x1 :: x2 :: x3 :: x4 :: x5 :: x6 :: x7 :: m) = AF_INET ->
  raptor_sockaddr_to_v4mapped
    {| ra_addr := x0 :: x1 :: x2 :: x3 :: x4 :: x5 :: x6 :: x7 :: m; ra_len := l |} =
  Some {|
    ra_addr := [x0a; x00; x2; x3; x00; x00; x00; x00] ++ kV4MappedPrefix ++ [x4; x5; x6; x7] ++
      replicate 104 x00;
    ra_len := 28 |}.
Proof.
  intros Hf. unfold raptor_sockaddr_to_v4mapped. cbn [ra_addr]. rewrite Hf. cbn [Z.eqb AF_INET].
  f_equal.
Qed.

(** An IPv4 address mapped into IPv6 is recognised, and unmapping it gives back its
    family, port and address, whatever its padding held: the first eight bytes, over
    zeros, with the length of a [sockaddr_in].  Other families are not mapped. *)
Theorem v4mapped_roundtrip (a : raptor_resolved_address) :
  ra_wf a ->
  if decide (raptor_sockaddr_get_family a = AF_INET) then
    exists b, raptor_sockaddr_to_v4mapped a = Some b /\ ra_wf b /\
      raptor_sockaddr_get_family b = AF_INET6 /\
      raptor_sockaddr_get_port b = raptor_sockaddr_get_port a /\
      raptor_sockaddr_is_v4mapped b =
        Some {| ra_addr := take 8 (ra_addr a) ++ replicate 120 x00; ra_len := sizeof_sockaddr_in |} /\
      raptor_sockaddr_is_wildcard b = raptor_sockaddr_is_wildcard a
  else raptor_sockaddr_to_v4mapped a = None.
Proof.
  intros Hwf. case_decide as Hf; unfold raptor_sockaddr_get_family in Hf.
  2:{ unfold raptor_sockaddr_to_v4mapped. by rewrite (proj2 (Z.eqb_neq _ _) Hf). }
  destruct a as [m l]. unfold ra_wf in Hwf. cbn [ra_addr] in *.
  do 8 (destruct m as [|? m]; [done|]).
  destruct (family_bytes _ _ _ AF_INET ltac:(done) Hf) as [-> ->].
  eexists. split; [by apply mapped_form|].
  split_and!; try reflexivity.
Qed.

Lemma v4mapped_roundtrip_witness :
  if decide (raptor_sockaddr_get_family (loopback4 80) = AF_INET) then
    exists b, raptor_sockaddr_to_v4mapped (loopback4 80) = Some b /\ ra_wf b /\
      raptor_sockaddr_get_family b = AF_INET6 /\
      raptor_sockaddr_get_port b = raptor_sockaddr_get_port (loopback4 80) /\
      raptor_sockaddr_is_v4mapped b =
        Some {| ra_addr := take 8 (ra_addr (loopback4 80)) ++ replicate 120 x00; ra_len := sizeof_sockaddr_in |} /\
      raptor_sockaddr_is_wildcard b = raptor_sockaddr_is_wildcard (loopback4 80)
  else raptor_sockaddr_to_v4mapped (loopback4 80) = None.
Proof. apply (v4mapped_roundtrip (loopback4 80)). reflexivity. Defined.

(** The wildcard addresses are recognised with the port they were made for. *)
Lemma make_wildcards_spec port :
  (0 <= port < 65536)%Z ->
  exists w4 w6, grpc_sockaddr_make_wildcards port = Some (w4, w6) /\
    raptor_sockaddr_is_wildcard w4 = Some port /\ raptor_sockaddr_is_wildcard w6 = Some port.
Proof.
  intros Hp. unfold grpc_sockaddr_make_wildcards, raptor_sockaddr_make_wildcard4, raptor_sockaddr_make_wildcard6.
  rewrite (proj2 (Z.leb_le 0 port)), (proj2 (Z.ltb_lt port 65536)) by lia. cbn [andb].
  eexists _, _. split; [reflexivity|].
  pose proof (ntohs_htons port Hp) as E. unfold ntohs, htons, be16 in E.
  split; unfold raptor_sockaddr_is_wildcard; cbn -[from_be]; f_equal; exact E.
Qed.
