(* ===== verification/Status.v ===== *)
(** * Errors (include/raptor-lite/utils/status.h, src/utils/status.cc,
      include/raptor-lite/impl/event.h)

    A [raptor_error] is a pointer to a [Status], null when there is no error: here an
    option.  The message of a [Status] is a slice, without a terminating NUL; the
    functions that print it with [%s] read past it, which is what [c_string] exposes.
    [strerror] belongs to the C library and is a parameter. *)

From S2P Require Import Prelude.
From S2P Require Import Slice.

Local Open Scope Z_scope.

Record Status : Type := {
  st_error_code : Z;
  st_message : Slice;
}.

Abbreviation raptor_error := (option Status).
Abbreviation RAPTOR_ERROR_NONE := (@None Status).

Definition slice_of (msg : list byte) : Slice := Slice_ctor (Some <$> msg).

Definition Status_default : Status := {| st_error_code := 0; st_message := slice_of [] |}.
Definition Status_msg (msg : list byte) : Status := {| st_error_code := -1; st_message := slice_of msg |}.
Definition Status_code_msg (err_code : Z) (err_msg : list byte) : Status :=
  {| st_error_code := err_code; st_message := slice_of err_msg |}.

Definition IsOK (s : Status) : bool := st_error_code s =? 0.
Definition ErrorCode (s : Status) : Z := st_error_code s.

Definition Status_eq (a b : Status) : bool := ErrorCode a =? ErrorCode b.
Definition Status_ne (a b : Status) : bool := negb (ErrorCode a =? ErrorCode b).

(** What [%s] prints: the bytes up to a NUL.  Reading an indeterminate byte, or past
    the storage, is undefined. *)
Fixpoint c_string (m : list cell) : outcome (list byte) :=
  match m with
  | [] => Undef
  | None :: _ => Undef
  | Some c :: m =>
      if decide (c = x00) then Ret []
      else match c_string m with Ret s => Ret (c :: s) | Undef => Undef | Abort => Abort | NoFuel => NoFuel end
  end.

Definition Status_ToString (s : Status) : outcome (list byte) :=
  if st_error_code s =? 0 then Ret (str "No error")
  else if Slice_Empty (st_message s) then
    Ret (str "Error code is " ++ dec (st_error_code s) ++ str ". No description.")
  else
    match c_string (Slice_begin (st_message s)) with
    | Ret text => Ret (str "Error code is " ++ dec (st_error_code s) ++ str ". " ++ text ++ str ".")
    | Undef => Undef
    | Abort => Abort
    | NoFuel => NoFuel
    end.

(** [None] when the concatenation leaves its storage. *)
Definition AppendMessage (msg : list byte) (s : Status) : option Status :=
  m ← Slice_add (st_message s) (slice_of msg);
  Some {| st_error_code := st_error_code s; st_message := m |}.

Definition MakeStatusFromStaticString (msg : list byte) : raptor_error := Some (Status_msg msg).

Definition MakeStatusFromPosixError (strerror : Z -> list byte) (errno : Z) (api : list byte) : raptor_error :=
  Some (Status_code_msg errno (api ++ str ": " ++ strerror errno)).

(** [MakeStatusFromFormat], of a message already formatted. *)
Definition MakeStatusFromFormat (message : list byte) : raptor_error := Some (Status_msg message).

(** ** Events *)

Inductive EventType : Type :=
  | kManualShutdown
  | kSocketError
  | kConnectionTimeout.

Record Event : Type := {
  ev_type : EventType;
  ev_desc : raptor_error;
}.

Definition Event_default : Event := {| ev_type := kManualShutdown; ev_desc := RAPTOR_ERROR_NONE |}.
Definition Event_new (t : EventType) (err : raptor_error) : Event := {| ev_type := t; ev_desc := err |}.

Definition Event_What (e : Event) : outcome (list byte) :=
  match ev_desc e with None => Ret [] | Some s => Status_ToString s end.

Definition Event_ErrorCode (e : Event) : Z :=
  match ev_desc e with None => 0 | Some s => ErrorCode s end.

(** ** Messages *)

(** A status whose message is [msg] followed by bytes the slice does not show. *)
Definition message_is (s : Status) (msg : list byte) : Prop :=
  Slice_wf (st_message s) /\ Slice_bytes (st_message s) = Some <$> msg.

Lemma slice_of_spec msg : Slice_wf (slice_of msg) /\ Slice_bytes (slice_of msg) = Some <$> msg.
Proof. split; [apply Slice_ctor_wf|apply Slice_ctor_bytes]. Qed.

Lemma AppendMessage_some more s :
  Slice_wf (st_message s) ->
  exists s', AppendMessage more s = Some s' /\ ErrorCode s' = ErrorCode s /\ Slice_wf (st_message s') /\
    Slice_bytes (st_message s') = Slice_bytes (st_message s) ++ (Some <$> more).
Proof.
  intros Hwf. destruct (slice_of_spec more) as [Hwf' Hb'].
  destruct (Slice_add_spec (st_message s) (slice_of more) Hwf Hwf') as (m & E & Hm & Hmb).
  exists {| st_error_code := st_error_code s; st_message := m |}. unfold AppendMessage. rewrite E.
  split_and!; [done..|]. cbn. by rewrite Hmb, Hb'.
Qed.

(** Appending to a message keeps the error code and shows the two texts one after the
    other: no append is lost or leaves the storage of the new slice. *)
Theorem append_message_spec (s : Status) (msg more : list byte) :
  message_is s msg ->
  exists s', AppendMessage more s = Some s' /\ message_is s' (msg ++ more) /\
    ErrorCode s' = ErrorCode s.
Proof.
  intros [Hwf Hb]. destruct (AppendMessage_some more s Hwf) as (s' & E & Hc & Hwf' & Hb').
  exists s'. split_and!; [done|split; [done|]|done]. by rewrite Hb', Hb, fmap_app.
Qed.

Lemma append_message_spec_witness :
  exists s', AppendMessage (str "localhost") (Status_msg (str "Invalid address: ")) = Some s' /\
    message_is s' (str "Invalid address: " ++ str "localhost") /\
    ErrorCode s' = ErrorCode (Status_msg (str "Invalid address: ")).
Proof.
  apply append_message_spec. split; [apply Slice_ctor_wf|apply Slice_ctor_bytes].
Defined.

Lemma c_string_past d m :
  x00 ∉ d -> (m = [] \/ exists m', m = None :: m') -> c_string ((Some <$> d) ++ m) = Undef.
Proof.
  intros Hd Hm. induction d as [|c d IH]; cbn.
  - by destruct Hm as [-> | [m' ->]].
  - apply not_elem_of_cons in Hd as [Hc Hd]. rewrite decide_False by done. by rewrite IH.
Qed.

(** The storage of a slice built from [d] ends with the bytes shown, or goes on with
    indeterminate ones: 23 bytes exactly fill the inlined array, more a block. *)
Lemma slice_of_begin d : d <> [] ->
  exists m, Slice_begin (slice_of d) = (Some <$> d) ++ m /\ (m = [] \/ exists m', m = None :: m').
Proof.
  intros Hd. unfold slice_of, Slice_ctor. rewrite length_fmap.
  destruct (Nat.eqb_spec (length d) 0%nat) as [E|E]; [by apply nil_length_inv in E|].
  destruct (Nat.leb_spec (length d) SLICE_INLINED_SIZE) as [Hn|Hn]; cbn.
  - eexists. split; [done|]. destruct (23 - length d)%nat; [by left|].
    right. by eexists.
  - exists []. split; [by rewrite app_nil_r, drop_0|by left].
Qed.

(** [ToString] of an error with a non-empty message reads beyond the message: the
    slice has no terminating NUL, so [%s] goes on into the rest of the object or past
    the end of the block.  This holds for every message without a NUL in it. *)
Theorem status_to_string_overreads (err_code : Z) (msg : list byte) :
  err_code <> 0 -> msg <> [] -> x00 ∉ msg ->
  Status_ToString (Status_code_msg err_code msg) = Undef.
Proof.
  intros Hc Hm H0. unfold Status_ToString, Status_code_msg. cbn [st_error_code st_message].
  rewrite (proj2 (Z.eqb_neq _ _) Hc). destruct (slice_of_spec msg) as [Hwf Hb].
  destruct (Slice_Empty (slice_of msg)) eqn:E.
  { apply Slice_Empty_bytes in E; [|done]. rewrite Hb in E. by destruct msg. }
  destruct (slice_of_begin msg Hm) as (m & -> & Hm'). by rewrite c_string_past.
Qed.

Lemma status_to_string_overreads_witness :
  Status_ToString (Status_code_msg 104 (str "recv: Connection reset by peer")) = Undef.
Proof.
  apply status_to_string_overreads; [discriminate|discriminate|].
  apply (bool_decide_unpack _). vm_compute. exact I.
Defined.
