(* ===== verification/Property.v ===== *)
(** * Properties (include/raptor-lite/impl/property.h)

    A [Property] is a table from names to [uintptr_t]: values of every type are
    converted to 64 unsigned bits when they are stored and cast to the type asked for
    when they are read.  The keys are [std::string]s, Rocq strings here. *)

From S2P Require Import Prelude.

(** ** Entries *)

(** The constructors of [PropertyEntry] convert their value to [uintptr_t]. *)
Definition PropertyEntry : Type := string * Z.

Definition PropertyEntry_default : PropertyEntry := (EmptyString, 0%Z).
Definition PropertyEntry_bool (k : string) (v : bool) : PropertyEntry := (k, if v then 1 else 0)%Z.
(** A pointer is its address, 0 for the null pointer. *)
Definition PropertyEntry_ptr (k : string) (v : Z) : PropertyEntry := (k, u64 v).
Definition PropertyEntry_int (k : string) (v : Z) : PropertyEntry := (k, u64 v).

Definition Entry_Key (e : PropertyEntry) : string := e.1.
Definition Entry_Value (e : PropertyEntry) : Z := e.2.

(** ** Tables *)

Definition Property : Type := gmap string Z.

Definition Property_set (e : PropertyEntry) (p : Property) : Property :=
  <[Entry_Key e := Entry_Value e]> p.

Definition Property_entry (e : PropertyEntry) : Property := Property_set e ∅.

Definition Property_set_list (l : list PropertyEntry) (p : Property) : Property :=
  fold_left (fun p e => Property_set e p) l p.

Definition Property_list (l : list PropertyEntry) : Property := Property_set_list l ∅.

Section Reading.
Context {T : Type}.
(** [static_cast<T>] from [uintptr_t]. *)
Variable cast : Z -> T.

Definition GetValue (key : string) (default_value : T) (p : Property) : T :=
  match p !! key with
  | None => default_value
  | Some v => cast v
  end.

(** The result, and [value] after the call. *)
Definition CheckValue (key : string) (value : T) (p : Property) : bool * T :=
  match p !! key with
  | None => (false, value)
  | Some v => (true, cast v)
  end.
End Reading.

(** The casts the library uses. *)
Definition to_int (v : Z) : Z := i32 v.
Definition to_intptr (v : Z) : Z := i64 v.
Definition to_bool (v : Z) : bool := negb (v =? 0)%Z.

(** ** Storing and reading *)

Lemma swrap_wrap w z : (0 < w)%Z -> swrap w (wrap w z) = swrap w z.
Proof.
  intros Hw. unfold swrap, wrap. f_equal.
  rewrite Z.add_mod_idemp_l; [done|]. apply Z.pow_nonzero; lia.
Qed.

Lemma wrap_wrap_le v w z : (0 <= v <= w)%Z -> wrap v (wrap w z) = wrap v z.
Proof.
  intros Hv. unfold wrap. symmetry.
  replace (2 ^ w)%Z with (2 ^ v * 2 ^ (w - v))%Z by (rewrite <- Z.pow_add_r by lia; f_equal; lia).
  assert (0 < 2 ^ v)%Z by (apply Z.pow_pos_nonneg; lia).
  assert (0 < 2 ^ (w - v))%Z by (apply Z.pow_pos_nonneg; lia).
  rewrite Z.rem_mul_r by lia. rewrite (Z.mul_comm (2 ^ v)), Z.mod_add by lia.
  by rewrite Z.mod_mod by lia.
Qed.

Lemma to_int_u64 z : (- 2 ^ 31 <= z < 2 ^ 31)%Z -> to_int (u64 z) = z.
Proof.
  intros Hz. unfold to_int, i32, u64. rewrite <- (swrap_small 32 z) at 2 by lia.
  rewrite <- (swrap_wrap 32 (wrap 64 z)), wrap_wrap_le, swrap_wrap by lia. done.
Qed.

Lemma to_intptr_u64 z : (- 2 ^ 63 <= z < 2 ^ 63)%Z -> to_intptr (u64 z) = z.
Proof.
  intros Hz. unfold to_intptr, i64, u64. rewrite swrap_wrap by lia. apply swrap_small; lia.
Qed.

(** The last entry of a list with a given key is the one read back. *)
Fixpoint last_entry (key : string) (l : list PropertyEntry) (init : option Z) : option Z :=
  match l with
  | [] => init
  | e :: l => last_entry key l (if decide (Entry_Key e = key) then Some (Entry_Value e) else init)
  end.

Lemma Property_set_list_lookup l : forall p key,
  Property_set_list l p !! key = last_entry key l (p !! key).
Proof.
  induction l as [|e l IH]; intros p key; [done|].
  unfold Property_set_list in *. cbn. rewrite IH. f_equal. unfold Property_set.
  destruct (decide (Entry_Key e = key)) as [<-|Hk].
  - apply lookup_insert_eq.
  - by apply lookup_insert_ne.
Qed.

(** What is stored under a key is what is read back: an [int], an [intptr_t] (or a
    pointer) and a [bool] survive their conversion to 64 unsigned bits, the other keys
    keep their value, and a key that was never stored gives the default. *)
Theorem property_roundtrip (p : Property) (key : string) (n h : Z) (b : bool) :
  (- 2 ^ 31 <= n < 2 ^ 31)%Z -> (- 2 ^ 63 <= h < 2 ^ 63)%Z ->
  (forall d, GetValue to_int key d (Property_set (PropertyEntry_int key n) p) = n) /\
  (forall d, GetValue to_intptr key d (Property_set (PropertyEntry_ptr key h) p) = h) /\
  (forall d, CheckValue to_bool key d (Property_set (PropertyEntry_bool key b) p) = (true, b)) /\
  (forall k e, k <> Entry_Key e -> Property_set e p !! k = p !! k) /\
  (p !! key = None -> forall d, GetValue to_int key d p = d /\ CheckValue to_int key d p = (false, d)).
Proof.
  intros Hn Hh. unfold GetValue, CheckValue, Property_set, Property in *. split_and!.
  1-3: intros d; unfold Entry_Key, Entry_Value, PropertyEntry_int, PropertyEntry_ptr, PropertyEntry_bool;
    cbn [fst snd]; rewrite lookup_insert_eq.
  - by apply to_int_u64.
  - by apply to_intptr_u64.
  - by destruct b.
  - intros k e Hk. by apply lookup_insert_ne.
  - intros -> d. done.
Qed.

Lemma property_roundtrip_witness :
  (forall d, GetValue to_int "ListenThreadNum" d (Property_set (PropertyEntry_int "ListenThreadNum" (-1)) ∅) = (-1)%Z) /\
  (forall d, GetValue to_intptr "ListenThreadNum" d (Property_set (PropertyEntry_ptr "ListenThreadNum" 4096) ∅) = 4096%Z) /\
  (forall d, CheckValue to_bool "ListenThreadNum" d (Property_set (PropertyEntry_bool "ListenThreadNum" true) ∅) = (true, true)) /\
  (forall k e, k <> Entry_Key e -> Property_set e ∅ !! k = (∅ : Property) !! k) /\
  ((∅ : Property) !! "ListenThreadNum"%string = None ->
   forall d, GetValue to_int "ListenThreadNum" d ∅ = d /\ CheckValue to_int "ListenThreadNum" d ∅ = (false, d)).
Proof. apply property_roundtrip; lia. Defined.
