(* ===== verification/OS.v ===== *)
(** * System calls

    The kernel is a parameter: a state and a function that answers each call.  The
    state of a process records the answers given so far and the thread's [errno],
    which a call sets when it fails and leaves alone when it succeeds.  The C library
    functions that only compute are the fields of [LibC]. *)

From S2P Require Import Prelude.

Local Open Scope Z_scope.

Inductive syscall : Type :=
  | SysSocket (family type protocol : Z)
  | SysClose (fd : Z)
  | SysShutdown (fd how : Z)
  | SysFcntl (fd cmd arg : Z)
  | SysSetsockopt (fd level name : Z) (val : list Z)
  | SysGetsockopt (fd level name : Z)
  | SysBind (fd : Z) (addr : list byte)
  | SysListen (fd backlog : Z)
  | SysAccept4 (fd flags : Z)
  | SysConnect (fd : Z) (addr : list byte)
  | SysGetsockname (fd : Z)
  | SysRecv (fd len : Z)
  | SysSend (fd : Z) (data : list cell)
  | SysEpollCreate (size : Z)
  | SysEpollCtl (epfd op fd events data : Z)
  | SysEpollWait (epfd maxevents timeout : Z)
  | SysGettimeofday
  | SysUsleep (usec : Z)
  | SysPthreadCreate
  | SysPthreadJoin (thread : Z)
  | SysCondWait
  | SysCondTimedwait (sec nsec : Z)
  | SysSysconf (name : Z)
  | SysWSAIoctl (sock code param : Z)
  | SysDisconnectEx (sock : Z)
  | SysWSASend (sock : Z) (buffers : list (list cell))
  | SysWSARecv (sock : Z)
  | SysAcceptEx (listen_sock sock : Z)
  | SysConnectEx (sock : Z) (addr : list byte)
  | SysCreateIoCompletionPort (file existing key threads : Z)
  | SysGetQueuedCompletionStatus (port timeout : Z)
  | SysPostQueuedCompletionStatus (port bytes key overlapped : Z)
  | SysCloseHandle (handle : Z)
  | SysGetSystemTimeAsFileTime
  | SysSleepConditionVariableCS (milliseconds : Z)
  | SysGetSystemInfo
  | SysCreateEvent
  | SysSetEvent (event : Z)
  | SysCreateThread (stack_size : Z)
  | SysWaitForSingleObject (handle milliseconds : Z)
  | SysGetStdHandle (which : Z)
  | SysGetConsoleScreenBufferInfo (handle : Z)
  | SysSetConsoleTextAttribute (handle attributes : Z)
  | SysFprintf (stream : Z) (text : list byte).

(** What a call returns: its result, the error number when the result is negative, the
    bytes it wrote to the caller's buffer, the integer it wrote through a pointer (an
    option value, an address length, a thread), the pairs it wrote (the events of
    [epoll_wait], the seconds and microseconds of [gettimeofday], the two halves of a
    [FILETIME]). *)
Record sysret : Type := {
  r_ret : Z;
  r_errno : Z;
  r_data : list byte;
  r_int : Z;
  r_events : list (Z * Z);
}.

Class Kernel (K : Type) : Type := sys_call : K -> syscall -> sysret * K.

Class LibC : Type := {
  strerror : Z -> list byte;
  inet_ntop : Z -> list byte -> option (list byte);
  inet_pton : Z -> list byte -> option (list byte);
}.

Record os (K : Type) : Type := {
  os_kernel : K;
  os_errno : Z;
  os_trace : list (syscall * sysret);
}.
Arguments Build_os {K} _ _ _.
Arguments os_kernel {K} _.
Arguments os_errno {K} _.
Arguments os_trace {K} _.

(** The state of a component that runs in a process, with others. *)
Class InProcess (E K : Type) : Type := {
  env_os : E -> os K;
  env_with_os : os K -> E -> E;
  env_os_with o e : env_os (env_with_os o e) = o;
}.
#[export] Hint Mode InProcess + - : typeclass_instances.

#[export] Instance os_in_process {K} : InProcess (os K) K :=
  { env_os o := o; env_with_os o _ := o; env_os_with _ _ := eq_refl }.

Definition EINTR : Z := 4.
Definition EAGAIN : Z := 11.
Definition EWOULDBLOCK : Z := 11.
Definition EINPROGRESS : Z := 115.

Definition SHUT_RDWR : Z := 2.
Definition SOCK_STREAM : Z := 1.
Definition SOCK_NONBLOCK : Z := 2048.
Definition SOCK_CLOEXEC : Z := 524288.
Definition F_GETFD : Z := 1.
Definition F_SETFD : Z := 2.
Definition F_GETFL : Z := 3.
Definition F_SETFL : Z := 4.
Definition FD_CLOEXEC : Z := 1.
Definition O_NONBLOCK : Z := 2048.
Definition SOL_SOCKET : Z := 1.
Definition SO_REUSEADDR : Z := 2.
Definition SO_ERROR : Z := 4.
Definition SO_REUSEPORT : Z := 15.
Definition SO_RCVTIMEO : Z := 20.
Definition SO_SNDTIMEO : Z := 21.
Definition IPPROTO_TCP : Z := 6.
Definition TCP_NODELAY : Z := 1.
Definition TCP_USER_TIMEOUT : Z := 18.
Definition IPPROTO_IPV6 : Z := 41.
Definition IPV6_V6ONLY : Z := 26.
Definition EPOLL_CTL_ADD : Z := 1.
Definition EPOLL_CTL_DEL : Z := 2.
Definition EPOLL_CTL_MOD : Z := 3.
Definition EPOLLIN : Z := 1.
Definition EPOLLOUT : Z := 4.
Definition EPOLLERR : Z := 8.
Definition EPOLLHUP : Z := 16.
Definition EPOLLRDHUP : Z := 8192.
Definition EPOLLET : Z := 2147483648.

Section Calls.
Context {K : Type} `{Kernel K}.

Definition call (c : syscall) : M (os K) sysret := fun o =>
  let '(r, k) := sys_call (os_kernel o) c in
  Ret (r, {| os_kernel := k;
             os_errno := if r_ret r <? 0 then r_errno r else os_errno o;
             os_trace := os_trace o ++ [(c, r)] |}).

(** Only the result matters. *)
Definition call_ret (c : syscall) : M (os K) Z := r ← call c; mret (r_ret r).

Definition errno : M (os K) Z := gets os_errno.
Definition set_errno (e : Z) : M (os K) unit :=
  modify (fun o => {| os_kernel := os_kernel o; os_errno := e; os_trace := os_trace o |}).
End Calls.

(** ** Descriptors opened and closed *)

Definition opened_by (e : syscall * sysret) : option Z :=
  match e.1 with
  | SysSocket _ _ _ | SysAccept4 _ _ | SysEpollCreate _ =>
      if 0 <=? r_ret e.2 then Some (r_ret e.2) else None
  | _ => None
  end.

Definition closed_by (e : syscall * sysret) : option Z :=
  match e.1 with SysClose fd => Some fd | _ => None end.

Definition opened (t : list (syscall * sysret)) : list Z := omap opened_by t.
Definition closed (t : list (syscall * sysret)) : list Z := omap closed_by t.

Lemma opened_app t t' : opened (t ++ t') = opened t ++ opened t'.
Proof. apply omap_app. Qed.

Lemma closed_app t t' : closed (t ++ t') = closed t ++ closed t'.
Proof. apply omap_app. Qed.

Section FdSpec.
Context {K : Type} `{Kernel K}.

(** [m] returns, and its result, the descriptors it opened and those it closed are
    related by [Q]. *)
Definition fd_spec {A} (m : M (os K) A) (Q : A -> list Z -> list Z -> Prop) : Prop :=
  forall o, wp m o (fun a o' => exists t, os_trace o' = os_trace o ++ t /\ Q a (opened t) (closed t)).

Lemma fd_ret {A} (a : A) (Q : A -> list Z -> list Z -> Prop) : Q a [] [] -> fd_spec (mret a) Q.
Proof. intros HQ o. exists []. by rewrite app_nil_r. Qed.

Lemma fd_bind {A B} (m : M (os K) A) (f : A -> M (os K) B) Q R :
  fd_spec m R ->
  (forall a o c, R a o c -> fd_spec (f a) (fun b o' c' => Q b (o ++ o') (c ++ c'))) ->
  fd_spec (m ≫= f) Q.
Proof.
  intros Hm Hf o. apply wp_bind. eapply wp_mono; [apply Hm|]. cbn. intros a o' (t & Et & HR).
  eapply wp_mono; [apply (Hf _ _ _ HR)|]. cbn. intros b o'' (t' & Et' & HQ).
  exists (t ++ t'). by rewrite Et', Et, app_assoc, opened_app, closed_app.
Qed.

Lemma fd_mono {A} (m : M (os K) A) (Q R : A -> list Z -> list Z -> Prop) :
  fd_spec m R -> (forall a o c, R a o c -> Q a o c) -> fd_spec m Q.
Proof.
  intros Hm HRQ o. eapply wp_mono; [apply Hm|]. cbn. intros a o' (t & Et & HR). eauto.
Qed.

Lemma fd_call c (Q : sysret -> list Z -> list Z -> Prop) :
  (forall k r, (sys_call k c).1 = r -> Q r (opened [(c, r)]) (closed [(c, r)])) -> fd_spec (call c) Q.
Proof.
  intros HQ o. unfold wp, call. specialize (HQ (os_kernel o)).
  destruct (sys_call (os_kernel o) c) as [r k]. eauto.
Qed.

Lemma fd_call_ret c (Q : Z -> list Z -> list Z -> Prop) :
  (forall k r, (sys_call k c).1 = r -> Q (r_ret r) (opened [(c, r)]) (closed [(c, r)])) ->
  fd_spec (call_ret c) Q.
Proof.
  intros HQ. eapply fd_bind; [by apply (fd_call c (fun r o c' => Q (r_ret r) o c'))|].
  intros r o c' HR. apply fd_ret. by rewrite !app_nil_r.
Qed.

Lemma fd_errno Q : (forall e, Q e [] []) -> fd_spec errno Q.
Proof. intros HQ o. exists []. by rewrite app_nil_r. Qed.

(** Neither opens nor closes. *)
Definition quiet {A} (m : M (os K) A) : Prop := fd_spec m (fun _ o c => o = [] /\ c = []).

Lemma quiet_ret {A} (a : A) : quiet (mret a).
Proof. by apply fd_ret. Qed.

Lemma quiet_bind {A B} (m : M (os K) A) (f : A -> M (os K) B) :
  quiet m -> (forall a, quiet (f a)) -> quiet (m ≫= f).
Proof.
  intros Hm Hf. eapply fd_bind; [apply Hm|]. cbn. intros a o c [-> ->]. apply Hf.
Qed.

Lemma quiet_errno : quiet errno.
Proof. by apply fd_errno. Qed.

Definition quiet_call (c : syscall) : bool :=
  match c with SysSocket _ _ _ | SysAccept4 _ _ | SysEpollCreate _ | SysClose _ => false | _ => true end.

Lemma quiet_syscall c : quiet_call c = true -> quiet (call c).
Proof. intros Hc. apply fd_call. intros k r _. by destruct c. Qed.

Lemma quiet_syscall_ret c : quiet_call c = true -> quiet (call_ret c).
Proof. intros Hc. apply quiet_bind; [by apply quiet_syscall|]. intros r. apply quiet_ret. Qed.

(** A quiet call before the rest. *)
Lemma fd_quiet_bind {A B} (m : M (os K) A) (f : A -> M (os K) B) Q :
  quiet m -> (forall a, fd_spec (f a) Q) -> fd_spec (m ≫= f) Q.
Proof.
  intros Hm Hf. eapply fd_bind; [apply Hm|]. cbn. intros a o c [-> ->].
  eapply fd_mono; [apply Hf|done].
Qed.
End FdSpec.

Create HintDb quiet discriminated.
#[export] Hint Resolve quiet_ret quiet_errno : quiet.
#[export] Hint Extern 1 (quiet (call _)) => by apply quiet_syscall : quiet.
#[export] Hint Extern 1 (quiet (call_ret _)) => by apply quiet_syscall_ret : quiet.
#[export] Hint Extern 2 (quiet (_ ≫= _)) => apply quiet_bind; [|intros ?] : quiet.
#[export] Hint Extern 2 (quiet (if ?b then _ else _)) => destruct b : quiet.
#[export] Hint Extern 2 (quiet (match ?x with _ => _ end)) => destruct x : quiet.
