(* ===== verification/SocketSetting.v ===== *)
(** * Socket options and preparation (src/linux/socket_setting.cc, socket_setting.h)

    Each function is a sequence of system calls.  An option that is set is read back
    where the source does so.  The end of the file accounts for the descriptors that
    the functions creating and preparing sockets open and close. *)

From S2P Require Import Prelude.
From S2P Require Import OS.
From S2P Require Import Status.
From S2P Require Import SockAddr.

Local Open Scope Z_scope.

Inductive raptor_dualstack_mode : Type :=
  | RAPTOR_DSMODE_NONE
  | RAPTOR_DSMODE_IPV4
  | RAPTOR_DSMODE_IPV6
  | RAPTOR_DSMODE_DUALSTACK.

Definition DEFAULT_SERVER_TCP_USER_TIMEOUT_MS : Z := 20000.
Definition DEFAULT_CLIENT_TCP_USER_TIMEOUT_MS : Z := 20000.

(** Runs [k] when there is no error, as the [goto error] chains do. *)
Definition on_ok {S} (m k : M S raptor_error) : M S raptor_error :=
  err ← m;
  match err with
  | None => k
  | Some _ => mret err
  end.

(** [x != 0] as an [int]. *)
Definition int_of_bool (b : bool) : Z := if b then 1 else 0.
Definition nonzero (x : Z) : bool := negb (x =? 0).

Section Settings.
Context {K : Type} `{Kernel K} `{LibC}.

Definition RAPTOR_POSIX_ERROR (api : String.string) : M (os K) raptor_error :=
  e ← errno; mret (MakeStatusFromPosixError strerror e (str api)).

Definition RAPTOR_ERROR_FROM_STATIC_STRING (msg : String.string) : raptor_error :=
  MakeStatusFromStaticString (str msg).

Definition raptor_set_socket_nonblocking (fd non_blocking : Z) : M (os K) raptor_error :=
  oldflags ← call_ret (SysFcntl fd F_GETFL 0);
  if oldflags <? 0 then RAPTOR_POSIX_ERROR "fcntl"
  else
    let oldflags :=
      if nonzero non_blocking then Z.lor oldflags O_NONBLOCK
      else Z.land oldflags (Z.lnot O_NONBLOCK) in
    r ← call_ret (SysFcntl fd F_SETFL oldflags);
    if nonzero r then RAPTOR_POSIX_ERROR "fcntl" else mret RAPTOR_ERROR_NONE.

Definition raptor_set_socket_cloexec (fd close_on_exec : Z) : M (os K) raptor_error :=
  oldflags ← call_ret (SysFcntl fd F_GETFD 0);
  if oldflags <? 0 then RAPTOR_POSIX_ERROR "fcntl"
  else
    let oldflags :=
      if nonzero close_on_exec then Z.lor oldflags FD_CLOEXEC
      else Z.land oldflags (Z.lnot FD_CLOEXEC) in
    r ← call_ret (SysFcntl fd F_SETFD oldflags);
    if nonzero r then RAPTOR_POSIX_ERROR "fcntl" else mret RAPTOR_ERROR_NONE.

Definition raptor_set_socket_reuse_addr (fd reuse : Z) : M (os K) raptor_error :=
  let val := int_of_bool (nonzero reuse) in
  r ← call_ret (SysSetsockopt fd SOL_SOCKET SO_REUSEADDR [val]);
  if nonzero r then RAPTOR_POSIX_ERROR "setsockopt(SO_REUSEADDR)"
  else
    g ← call (SysGetsockopt fd SOL_SOCKET SO_REUSEADDR);
    if nonzero (r_ret g) then RAPTOR_POSIX_ERROR "getsockopt(SO_REUSEADDR)"
    else if negb (int_of_bool (nonzero (r_int g)) =? val)
    then mret (RAPTOR_ERROR_FROM_STATIC_STRING "Failed to set SO_REUSEADDR")
    else mret RAPTOR_ERROR_NONE.

Definition raptor_set_socket_low_latency (fd low_latency : Z) : M (os K) raptor_error :=
  let val := int_of_bool (nonzero low_latency) in
  r ← call_ret (SysSetsockopt fd IPPROTO_TCP TCP_NODELAY [val]);
  if nonzero r then RAPTOR_POSIX_ERROR "setsockopt(TCP_NODELAY)"
  else
    g ← call (SysGetsockopt fd IPPROTO_TCP TCP_NODELAY);
    if nonzero (r_ret g) then RAPTOR_POSIX_ERROR "getsockopt(TCP_NODELAY)"
    else if negb (int_of_bool (nonzero (r_int g)) =? val)
    then mret (RAPTOR_ERROR_FROM_STATIC_STRING "Failed to set TCP_NODELAY")
    else mret RAPTOR_ERROR_NONE.

Definition raptor_set_socket_reuse_port (fd reuse : Z) : M (os K) raptor_error :=
  let val := int_of_bool (nonzero reuse) in
  r ← call_ret (SysSetsockopt fd SOL_SOCKET SO_REUSEPORT [val]);
  if nonzero r then RAPTOR_POSIX_ERROR "setsockopt(SO_REUSEPORT)"
  else
    g ← call (SysGetsockopt fd SOL_SOCKET SO_REUSEPORT);
    if nonzero (r_ret g) then RAPTOR_POSIX_ERROR "getsockopt(SO_REUSEPORT)"
    else if negb (int_of_bool (nonzero (r_int g)) =? val)
    then mret (RAPTOR_ERROR_FROM_STATIC_STRING "Failed to set SO_REUSEPORT")
    else mret RAPTOR_ERROR_NONE.

(** [struct timeval] of a number of milliseconds. *)
Definition timeval (timeout_ms : Z) : list Z :=
  let tv_sec := Z.quot timeout_ms 1000 in
  [tv_sec; (timeout_ms - tv_sec * 1000) * 1000].

Definition raptor_set_socket_snd_timeout (fd timeout_ms : Z) : M (os K) raptor_error :=
  status ← call_ret (SysSetsockopt fd SOL_SOCKET SO_SNDTIMEO (timeval timeout_ms));
  if status =? 0 then mret RAPTOR_ERROR_NONE else RAPTOR_POSIX_ERROR "setsockopt(SO_SNDTIMEO)".

Definition raptor_set_socket_rcv_timeout (fd timeout_ms : Z) : M (os K) raptor_error :=
  status ← call_ret (SysSetsockopt fd SOL_SOCKET SO_RCVTIMEO (timeval timeout_ms));
  if status =? 0 then mret RAPTOR_ERROR_NONE else RAPTOR_POSIX_ERROR "setsockopt(SO_RCVTIMEO)".

Definition raptor_set_socket_ipv6_only (fd only : Z) : M (os K) raptor_error :=
  let on_off := int_of_bool (nonzero only) in
  status ← call_ret (SysSetsockopt fd IPPROTO_IPV6 IPV6_V6ONLY [on_off]);
  if status =? 0 then mret RAPTOR_ERROR_NONE else RAPTOR_POSIX_ERROR "setsockopt(IPV6_V6ONLY)".

Definition raptor_set_socket_shutdown (fd : Z) : M (os K) unit :=
  if fd <? 0 then mret tt
  else
    _ ← call_ret (SysShutdown fd SHUT_RDWR);
    _ ← call_ret (SysClose fd);
    mret tt.

(** A failed [getsockopt] leaves [error_code] 0. *)
Definition raptor_get_socket_error (fd : Z) : M (os K) Z :=
  g ← call (SysGetsockopt fd SOL_SOCKET SO_ERROR);
  mret (if r_ret g <? 0 then 0 else r_int g).

Definition raptor_is_unix_socket (a : raptor_resolved_address) : bool :=
  sa_family (ra_addr a) =? AF_UNIX.

(** Failures are logged, never returned. *)
Definition raptor_set_socket_tcp_user_timeout (fd timeout : Z) : M (os K) raptor_error :=
  r ← call_ret (SysSetsockopt fd IPPROTO_TCP TCP_USER_TIMEOUT [timeout]);
  if nonzero r then mret RAPTOR_ERROR_NONE
  else
    _ ← call (SysGetsockopt fd IPPROTO_TCP TCP_USER_TIMEOUT);
    mret RAPTOR_ERROR_NONE.

(** Linux has no [SO_NOSIGPIPE]: the other branch of the conditional. *)
Definition raptor_set_socket_no_sigpipe_if_possible (fd : Z) : M (os K) raptor_error :=
  mret RAPTOR_ERROR_NONE.

(** ** Creating a socket *)

(** The error, [*dsmode] and [*newfd]. *)
Definition create_family_socket (family type protocol : Z) :
    M (os K) (raptor_error * raptor_dualstack_mode * Z) :=
  let dsmode := if family =? AF_INET then RAPTOR_DSMODE_IPV4 else RAPTOR_DSMODE_NONE in
  newfd ← call_ret (SysSocket family type protocol);
  if newfd <=? 0
  then err ← RAPTOR_POSIX_ERROR "socket"; mret (err, dsmode, newfd)
  else mret (RAPTOR_ERROR_NONE, dsmode, newfd).

Definition raptor_create_dualstack_socket (a : raptor_resolved_address) (type protocol : Z) :
    M (os K) (raptor_error * raptor_dualstack_mode * Z) :=
  let family := sa_family (ra_addr a) in
  if family =? AF_INET6 then
    newfd ← call_ret (SysSocket family type protocol);
    dualstack ← (if 0 <=? newfd
                 then e ← raptor_set_socket_ipv6_only newfd 0;
                      mret (match e with None => true | Some _ => false end)
                 else mret false);
    match (dualstack : bool) with
    | true => mret (RAPTOR_ERROR_NONE, RAPTOR_DSMODE_DUALSTACK, newfd)
    | false =>
        match raptor_sockaddr_is_v4mapped a with
        | None =>
            if newfd <=? 0
            then err ← RAPTOR_POSIX_ERROR "socket"; mret (err, RAPTOR_DSMODE_IPV6, newfd)
            else mret (RAPTOR_ERROR_NONE, RAPTOR_DSMODE_IPV6, newfd)
        | Some _ =>
            _ ← (if 0 <=? newfd then call_ret (SysClose newfd) else mret 0);
            create_family_socket AF_INET type protocol
        end
    end
  else create_family_socket family type protocol.

(** ** The accept queue *)

Definition is_space (c : byte) : bool :=
  bool_decide (c = x20 \/ c = x09 \/ c = x0a \/ c = x0b \/ c = x0c \/ c = x0d).

Definition digit_val (c : byte) : option Z :=
  let v := byte_val c in if (48 <=? v) && (v <=? 57) then Some (v - 48) else None.

Fixpoint strtol_digits (s : list byte) (acc : Z) : Z * list byte :=
  match s with
  | [] => (acc, [])
  | c :: s' =>
      match digit_val c with
      | Some d => strtol_digits s' (10 * acc + d)
      | None => (acc, s)
      end
  end.

Fixpoint skip_spaces (s : list byte) : list byte :=
  match s with
  | c :: s' => if is_space c then skip_spaces s' else s
  | [] => []
  end.

(** [strtol(s, &end, 10)], with its clamping to [long]: the value and [end]. *)
Definition strtol (s : list byte) : Z * list byte :=
  let t := skip_spaces s in
  let '(neg, digits) :=
    match t with
    | c :: r => if decide (c = x2d) then (true, r) else if decide (c = x2b) then (false, r) else (false, t)
    | [] => (false, [])
    end in
  match digits with
  | c :: _ =>
      match digit_val c with
      | None => (0, s)
      | Some _ =>
          let '(v, rest) := strtol_digits digits 0 in
          let v := if neg : bool then - v else v in
          (Z.max (- 2 ^ 63) (Z.min v (2 ^ 63 - 1)), rest)
      end
  | [] => (0, s)
  end.

Definition SOMAXCONN : Z := 4096.
Definition INT_MAX : Z := 2 ^ 31 - 1.

(** The value of [s_max_accept_queue_size] once initialised.  [file] is what
    /proc/sys/net/core/somaxconn holds: nothing when it does not open, then nothing
    when no line is read, then its first line. *)
Definition init_max_accept_queue_size (file : option (option (list byte))) : Z :=
  match file with
  | None => SOMAXCONN
  | Some None => SOMAXCONN
  | Some (Some buf) =>
      let '(i, rest) := strtol buf in
      if (0 <? i) && (i <=? INT_MAX) && bool_decide (head rest = Some x0a) then i else SOMAXCONN
  end.

(** ** Preparing a socket *)

Variable somaxconn_file : option (option (list byte)).

Definition get_max_accept_queue_size : Z := init_max_accept_queue_size somaxconn_file.

(** The statements up to the label [error], with [*port]. *)
Definition server_prepare_body (fd : Z) (a : raptor_resolved_address) (so_reuseport : Z) :
    M (os K) (raptor_error * Z) :=
  err ←
    on_ok (if nonzero so_reuseport && negb (raptor_is_unix_socket a)
           then raptor_set_socket_reuse_port fd 1 else mret RAPTOR_ERROR_NONE)
    (on_ok (raptor_set_socket_nonblocking fd 1)
    (on_ok (raptor_set_socket_cloexec fd 1)
    (on_ok (if negb (raptor_is_unix_socket a)
            then on_ok (raptor_set_socket_low_latency fd 1)
                 (on_ok (raptor_set_socket_reuse_addr fd 1)
                 (raptor_set_socket_tcp_user_timeout fd DEFAULT_SERVER_TCP_USER_TIMEOUT_MS))
            else mret RAPTOR_ERROR_NONE)
    (on_ok (raptor_set_socket_no_sigpipe_if_possible fd)
    (on_ok (r ← call_ret (SysBind fd (take (Z.to_nat (ra_len a)) (ra_addr a)));
            if r <? 0 then RAPTOR_POSIX_ERROR "bind" else mret RAPTOR_ERROR_NONE)
           (r ← call_ret (SysListen fd get_max_accept_queue_size);
            if r <? 0 then RAPTOR_POSIX_ERROR "listen" else mret RAPTOR_ERROR_NONE))))));
  match err with
  | Some _ => mret (err, 0)
  | None =>
      g ← call (SysGetsockname fd);
      if r_ret g <? 0
      then err ← RAPTOR_POSIX_ERROR "getsockname"; mret (err, 0)
      else
        let sockname_temp := {| ra_addr := r_data g; ra_len := r_int g |} in
        mret (RAPTOR_ERROR_NONE, raptor_sockaddr_get_port sockname_temp)
  end.

(** [fd] must not be negative. *)
Definition raptor_tcp_server_prepare_socket (fd : Z) (a : raptor_resolved_address) (so_reuseport : Z) :
    M (os K) (raptor_error * Z) :=
  _ ← raptor_assert (0 <=? fd);
  '(err, port) ← server_prepare_body fd a so_reuseport;
  match err with
  | None => mret (RAPTOR_ERROR_NONE, port)
  | Some _ =>
      _ ← (if 0 <=? fd then call_ret (SysClose fd) else mret 0);
      mret (err, port)
  end.

Definition tcp_client_prepare_socket (a : raptor_resolved_address) (fd timeout_ms : Z) :
    M (os K) raptor_error :=
  let timeout_ms := if timeout_ms <=? 0 then DEFAULT_CLIENT_TCP_USER_TIMEOUT_MS else timeout_ms in
  err ←
    on_ok (raptor_set_socket_nonblocking fd 1)
    (on_ok (raptor_set_socket_cloexec fd 1)
    (on_ok (if negb (raptor_is_unix_socket a)
            then on_ok (raptor_set_socket_low_latency fd 1)
                 (on_ok (raptor_set_socket_reuse_addr fd 1)
                 (raptor_set_socket_tcp_user_timeout fd timeout_ms))
            else mret RAPTOR_ERROR_NONE)
    (raptor_set_socket_no_sigpipe_if_possible fd)));
  match err with
  | None => mret err
  | Some _ =>
      _ ← (if 0 <=? fd then call_ret (SysClose fd) else mret 0);
      mret err
  end.

(** The error, [*mapped_addr] and [*newfd]. *)
Definition raptor_tcp_client_prepare_socket (a : raptor_resolved_address) (timeout_ms : Z) :
    M (os K) (raptor_error * raptor_resolved_address * Z) :=
  let mapped_addr := match raptor_sockaddr_to_v4mapped a with Some m => m | None => a end in
  '(error, dsmode, fd) ← raptor_create_dualstack_socket mapped_addr SOCK_STREAM 0;
  match error with
  | Some _ => mret (error, mapped_addr, 0)
  | None =>
      let mapped_addr :=
        match dsmode with
        | RAPTOR_DSMODE_IPV4 => match raptor_sockaddr_is_v4mapped a with Some m => m | None => a end
        | _ => mapped_addr
        end in
      error ← tcp_client_prepare_socket mapped_addr fd timeout_ms;
      match error with
      | Some _ => mret (error, mapped_addr, 0)
      | None => mret (RAPTOR_ERROR_NONE, mapped_addr, fd)
      end
  end.
End Settings.

(** ** Which descriptors are opened and closed *)

Section Descriptors.
Context {K : Type} `{Kernel K} `{LibC}.
Variable somaxconn_file : option (option (list byte)).

Lemma quiet_posix_error api : quiet (K := K) (RAPTOR_POSIX_ERROR api).
Proof. unfold RAPTOR_POSIX_ERROR. auto with quiet. Qed.

Lemma quiet_on_ok (m k : M (os K) raptor_error) : quiet m -> quiet k -> quiet (on_ok m k).
Proof. intros Hm Hk. unfold on_ok. apply quiet_bind; [done|]. intros [e|]; [apply quiet_ret|done]. Qed.

Local Hint Resolve quiet_posix_error quiet_on_ok : quiet.

Lemma quiet_nonblocking fd b : quiet (K := K) (raptor_set_socket_nonblocking fd b).
Proof. unfold raptor_set_socket_nonblocking. auto 10 with quiet. Qed.

Lemma quiet_cloexec fd b : quiet (K := K) (raptor_set_socket_cloexec fd b).
Proof. unfold raptor_set_socket_cloexec. auto 10 with quiet. Qed.

Lemma quiet_reuse_addr fd b : quiet (K := K) (raptor_set_socket_reuse_addr fd b).
Proof. unfold raptor_set_socket_reuse_addr. auto 12 with quiet. Qed.

Lemma quiet_low_latency fd b : quiet (K := K) (raptor_set_socket_low_latency fd b).
Proof. unfold raptor_set_socket_low_latency. auto 12 with quiet. Qed.

Lemma quiet_reuse_port fd b : quiet (K := K) (raptor_set_socket_reuse_port fd b).
Proof. unfold raptor_set_socket_reuse_port. auto 12 with quiet. Qed.

Lemma quiet_user_timeout fd t : quiet (K := K) (raptor_set_socket_tcp_user_timeout fd t).
Proof. unfold raptor_set_socket_tcp_user_timeout. auto 12 with quiet. Qed.

Lemma quiet_no_sigpipe fd : quiet (K := K) (raptor_set_socket_no_sigpipe_if_possible fd).
Proof. apply quiet_ret. Qed.

Lemma quiet_ipv6_only fd b : quiet (K := K) (raptor_set_socket_ipv6_only fd b).
Proof. unfold raptor_set_socket_ipv6_only. auto 12 with quiet. Qed.

Local Hint Resolve quiet_nonblocking quiet_cloexec quiet_reuse_addr quiet_low_latency quiet_reuse_port
  quiet_user_timeout quiet_no_sigpipe quiet_ipv6_only : quiet.

Lemma quiet_server_body fd a r : quiet (K := K) (server_prepare_body somaxconn_file fd a r).
Proof.
  unfold server_prepare_body. apply quiet_bind; [auto 20 with quiet|].
  intros [e|]; [apply quiet_ret|]. auto 12 with quiet.
Qed.

(** What a preparation that failed, or not, has opened and closed: the descriptor it
    was given is closed on failure only. *)
Definition closes_on_error {A} (err_of : A -> raptor_error) (fd : Z) (a : A) (o c : list Z) : Prop :=
  o = [] /\ c = match err_of a with Some _ => [fd] | None => [] end.

(** Preparing a listening socket closes it exactly when it reports an error. *)
Lemma server_prepare_fds fd a r :
  0 <= fd ->
  fd_spec (K := K) (raptor_tcp_server_prepare_socket somaxconn_file fd a r) (closes_on_error fst fd).
Proof.
  intros Hfd. unfold raptor_tcp_server_prepare_socket, raptor_assert.
  rewrite (proj2 (Z.leb_le _ _) Hfd). apply fd_quiet_bind; [apply quiet_ret|]. intros _.
  apply fd_quiet_bind; [apply quiet_server_body|]. intros [[e|] port].
  - eapply fd_bind; [by apply (fd_call_ret _ (fun _ o c => o = [] /\ c = [fd]))|].
    intros ? ? ? [-> ->]. by apply fd_ret.
  - by apply fd_ret.
Qed.

Lemma client_prepare_fds a fd t :
  0 <= fd -> fd_spec (K := K) (tcp_client_prepare_socket a fd t) (closes_on_error id fd).
Proof.
  intros Hfd. unfold tcp_client_prepare_socket. rewrite (proj2 (Z.leb_le _ _) Hfd).
  apply fd_quiet_bind; [auto 20 with quiet|]. intros [e|].
  - eapply fd_bind; [by apply (fd_call_ret _ (fun _ o c => o = [] /\ c = [fd]))|].
    intros ? ? ? [-> ->]. by apply fd_ret.
  - by apply fd_ret.
Qed.

(** The kernel hands out descriptor 0 only to a process that closed its standard input;
    [good] is what else is known of the descriptors it gives. *)
Variable good : Z -> Prop.
Variable no_fd0 : forall k f t p,
  r_ret (sys_call k (SysSocket f t p)).1 <> 0 /\ good (r_ret (sys_call k (SysSocket f t p)).1).

(** All that was opened was closed, but the socket a success returns. *)
Definition one_socket {A} (err_of : A -> raptor_error) (fd_of : A -> Z) (a : A) (o c : list Z) : Prop :=
  match err_of a with
  | None => o = c ++ [fd_of a] /\ 0 < fd_of a /\ good (fd_of a)
  | Some _ => o = c
  end.

Lemma socket_fds f t p :
  fd_spec (call_ret (SysSocket f t p)) (fun fd o c =>
    (fd <> 0 /\ good fd) /\ o = (if 0 <? fd then [fd] else []) /\ c = []).
Proof using no_fd0.
  apply fd_call_ret. intros k r <-. destruct (no_fd0 k f t p) as [Hnz Hg]. split_and!; [exact Hnz|exact Hg| |done].
  unfold opened. cbn. unfold opened_by. cbn.
  replace (0 <? r_ret (sys_call k (SysSocket f t p)).1)
    with (0 <=? r_ret (sys_call k (SysSocket f t p)).1) by lia. by destruct (0 <=? _).
Qed.

Lemma posix_error_some api (Q : raptor_error -> list Z -> list Z -> Prop) :
  (forall s, Q (Some s) [] []) -> fd_spec (K := K) (RAPTOR_POSIX_ERROR api) Q.
Proof.
  intros HQ. unfold RAPTOR_POSIX_ERROR. apply fd_quiet_bind; [apply quiet_errno|].
  intros e. apply fd_ret, HQ.
Qed.

Lemma family_socket_fds f t p :
  fd_spec (K := K) (create_family_socket f t p) (one_socket (fun x => x.1.1) snd).
Proof using no_fd0.
  unfold create_family_socket. eapply fd_bind; [apply socket_fds|]. cbn.
  intros fd o c ([Hfd Hg] & -> & ->). destruct (Z.leb_spec fd 0) as [Hn|Hp].
  - eapply fd_bind; [by apply (posix_error_some _ (fun e o c => (exists s, e = Some s) /\ o = [] /\ c = [])); eauto|].
    intros e o c ([s ->] & -> & ->). apply fd_ret. cbn. rewrite (proj2 (Z.ltb_ge _ _)) by lia. done.
  - apply fd_ret. rewrite (proj2 (Z.ltb_lt 0 fd)) by lia. done.
Qed.

Lemma fd_posix_error {A} api (f : raptor_error -> A) (Q : A -> list Z -> list Z -> Prop) :
  (forall s, Q (f (Some s)) [] []) ->
  fd_spec (K := K) (err ← RAPTOR_POSIX_ERROR api; mret (f err)) Q.
Proof.
  intros HQ.
  eapply fd_bind; [by apply (posix_error_some _ (fun e o c => (exists s, e = Some s) /\ o = [] /\ c = [])); eauto|].
  intros e o c ([s ->] & -> & ->). by apply fd_ret.
Qed.

Lemma close_if_open_fds fd :
  fd <> 0 ->
  fd_spec (K := K) (if 0 <=? fd then call_ret (SysClose fd) else mret 0)
    (fun _ o c => o = [] /\ c = if 0 <? fd then [fd] else []).
Proof.
  intros Hfd. destruct (Z.leb_spec 0 fd).
  - apply fd_call_ret. intros k r _. by rewrite (proj2 (Z.ltb_lt 0 fd)) by lia.
  - apply fd_ret. by rewrite (proj2 (Z.ltb_ge 0 fd)) by lia.
Qed.

Lemma dualstack_fds a t p :
  fd_spec (K := K) (raptor_create_dualstack_socket a t p) (one_socket (fun x => x.1.1) snd).
Proof using no_fd0.
  unfold raptor_create_dualstack_socket.
  destruct (_ =? AF_INET6); [|apply family_socket_fds].
  eapply fd_bind; [apply socket_fds|]. cbn. intros fd o c ([Hfd Hg] & -> & ->).
  apply fd_bind with (R := fun b o c => o = [] /\ c = [] /\ (b = true -> 0 < fd)).
  { destruct (Z.leb_spec 0 fd).
    - apply fd_quiet_bind; [auto with quiet|]. intros e. apply fd_ret. split_and!; [done..|]. lia.
    - by apply fd_ret. }
  intros [|] o' c' (-> & -> & Hpos).
  { apply fd_ret. cbn. rewrite (proj2 (Z.ltb_lt 0 fd)) by auto. auto. }
  destruct (raptor_sockaddr_is_v4mapped a).
  - eapply fd_bind; [by apply close_if_open_fds|]. intros ? ? ? [-> ->].
    eapply fd_mono; [apply family_socket_fds|]. intros [[e m] fd'] o'' c''. unfold one_socket. cbn.
    destruct e; [by intros ->|]. intros [-> Hp]. split; [by rewrite app_assoc|exact Hp].
  - destruct (Z.leb_spec fd 0).
    + apply fd_posix_error. intros s. cbn. by rewrite (proj2 (Z.ltb_ge _ _)) by lia.
    + apply fd_ret. cbn. rewrite (proj2 (Z.ltb_lt 0 fd)) by lia. done.
Qed.

Lemma tcp_client_fds a t :
  fd_spec (K := K) (raptor_tcp_client_prepare_socket a t) (one_socket (fun x => x.1.1) snd).
Proof using no_fd0.
  unfold raptor_tcp_client_prepare_socket. eapply fd_bind; [apply dualstack_fds|].
  intros [[e m] fd] o c. unfold one_socket at 1. cbn. destruct e as [e|].
  { intros ->. apply fd_ret. by rewrite !app_nil_r. }
  intros [-> [Hfd Hg]]. eapply fd_bind; [apply client_prepare_fds; lia|].
  intros e o' c' [-> ->]. cbn. destruct e as [e|]; apply fd_ret; cbn; by rewrite !app_nil_r.
Qed.
End Descriptors.

Section Leaks.
Context {K : Type} `{Kernel K} `{LibC}.
Variable somaxconn_file : option (option (list byte)).

(** From any state, whatever the kernel answers: [m] returns, and the calls it appended
    to the trace opened and closed descriptors as [Q] says. *)
Definition accounts {A} (m : M (os K) A) (Q : A -> list Z -> list Z -> Prop) : Prop :=
  forall o, exists a o' t, m o = Ret (a, o') /\ os_trace o' = os_trace o ++ t /\ Q a (opened t) (closed t).

Lemma accounts_fd_spec {A} (m : M (os K) A) Q : fd_spec m Q -> accounts m Q.
Proof.
  intros Hm o. specialize (Hm o). unfold wp in Hm.
  destruct (m o) as [[a o']| | |]; [|done..]. destruct Hm as (t & Ht & HQ). eauto 10.
Qed.

(** C27. Preparing sockets leaks no descriptor and closes none twice.  A client socket that
    could not be created, configured or mapped was closed on every path, the fallback
    from IPv6 to IPv4 included, and a successful preparation has exactly the returned
    one open; a listening socket is closed exactly when its preparation fails.  The
    hypothesis: the kernel does not return descriptor 0, which holds while the
    process keeps its standard input. *)
Theorem prepare_socket_no_leak (a : raptor_resolved_address) (t fd reuse : Z) :
  (forall k f ty p, r_ret (sys_call k (SysSocket f ty p)).1 <> 0) -> 0 <= fd ->
  accounts (raptor_tcp_client_prepare_socket a t) (fun '(err, _, newfd) o c =>
    match err with
    | None => o = c ++ [newfd] /\ 0 < newfd
    | Some _ => o = c
    end) /\
  accounts (raptor_tcp_server_prepare_socket somaxconn_file fd a reuse) (fun '(err, _) o c =>
    o = [] /\ c = match err with Some _ => [fd] | None => [] end).
Proof.
  intros H0' Hfd. split; apply accounts_fd_spec.
  - eapply fd_mono; [by apply (tcp_client_fds (fun _ => True)); split|].
    intros [[[e|] m] f] o c; [done|]. by intros (-> & Hf & _).
  - eapply fd_mono; [by apply server_prepare_fds|]. by intros [[e|] port] o c.
Qed.

(** Descriptor 0 is taken for a failure: when the kernel returns it, the socket is
    reported as an error and stays open. *)
Theorem create_socket_leaks_fd0 (a : raptor_resolved_address) (t p : Z) (o : os K) :
  raptor_sockaddr_get_family a = AF_INET ->
  r_ret (sys_call (os_kernel o) (SysSocket AF_INET t p)).1 = 0 ->
  exists e o' r, raptor_create_dualstack_socket a t p o = Ret ((Some e, RAPTOR_DSMODE_IPV4, 0), o') /\
    os_trace o' = os_trace o ++ [(SysSocket AF_INET t p, r)] /\ r_ret r = 0.
Proof.
  intros Hf Hr. unfold raptor_create_dualstack_socket, raptor_sockaddr_get_family in *. rewrite Hf.
  cbn [Z.eqb AF_INET AF_INET6]. unfold create_family_socket, call_ret, call.
  unfold mbind, M_bind, mret, M_ret, RAPTOR_POSIX_ERROR, errno, gets.
  cbn. destruct (sys_call (os_kernel o) (SysSocket AF_INET t p)) as [r k]. cbn in Hr |- *. rewrite Hr. cbn.
  eexists _, _, r. split; [done|]. done.
Qed.
End Leaks.

(** A kernel that opens sockets from 3 on and answers 0 to everything else. *)
Definition next_fd_kernel : Kernel Z := fun k c =>
  match c with
  | SysSocket _ _ _ => ({| r_ret := Z.max 3 k; r_errno := 0; r_data := []; r_int := 0; r_events := [] |}, Z.max 3 k + 1)
  | SysGetsockopt _ _ _ => ({| r_ret := 0; r_errno := 0; r_data := []; r_int := 1; r_events := [] |}, k)
  | _ => ({| r_ret := 0; r_errno := 0; r_data := []; r_int := 0; r_events := [] |}, k)
  end.

(** A kernel whose first socket is descriptor 0. *)
Definition zero_fd_kernel : Kernel unit := fun _ _ =>
  ({| r_ret := 0; r_errno := 0; r_data := []; r_int := 0; r_events := [] |}, tt).

Definition quiet_libc : LibC :=
  {| strerror _ := []; inet_ntop _ _ := None; inet_pton _ _ := None |}.

Lemma prepare_socket_no_leak_witness :
  @accounts Z _ (@raptor_tcp_client_prepare_socket Z next_fd_kernel quiet_libc (loopback4 80) 0) (fun '(err, _, newfd) o c =>
    match err with
    | None => o = c ++ [newfd] /\ 0 < newfd
    | Some _ => o = c
    end) /\
  @accounts Z _ (@raptor_tcp_server_prepare_socket Z next_fd_kernel quiet_libc None 3 (loopback4 80) 1) (fun '(err, _) o c =>
    o = [] /\ c = match err with Some _ => [3] | None => [] end).
Proof.
  apply (@prepare_socket_no_leak Z next_fd_kernel quiet_libc); [|lia].
  intros k f ty p. unfold sys_call, next_fd_kernel. cbn. lia.
Defined.

Definition fresh_process : os unit := {| os_kernel := tt; os_errno := 0; os_trace := [] |}.

Lemma create_socket_leaks_fd0_witness :
  exists e o' r,
    @raptor_create_dualstack_socket unit zero_fd_kernel quiet_libc (loopback4 80) SOCK_STREAM 0 fresh_process =
      Ret ((Some e, RAPTOR_DSMODE_IPV4, 0), o') /\
    os_trace o' = os_trace fresh_process ++ [(SysSocket AF_INET SOCK_STREAM 0, r)] /\ r_ret r = 0.
Proof.
  apply (@create_socket_leaks_fd0 unit zero_fd_kernel quiet_libc (loopback4 80) SOCK_STREAM 0 fresh_process);
    vm_compute; reflexivity.
Defined.
