(* ===== verification/WinSocketSetting.v ===== *)
(** * Socket options and preparation on Windows (src/windows/socket_setting.cc)

    The Windows counterparts of SocketSetting.v.  Sockets are unsigned there; the
    model keeps -1 for [INVALID_SOCKET].  [WSAGetLastError] reads the thread's last error,
    which is the [errno] of the process model; [closesocket] is the call that closes a
    descriptor.  Constants that both systems name have the values of OS.v. *)

From S2P Require Import Prelude.
From S2P Require Import OS.
From S2P Require Import Status.
From S2P Require Import SockAddr.
From S2P Require Import SocketSetting.

Local Open Scope Z_scope.

Definition INVALID_SOCKET : Z := -1.
Definition SOCKET_ERROR : Z := -1.
Definition FIONBIO : Z := 0x8004667e.
Definition SIO_GET_EXTENSION_FUNCTION_POINTER : Z := 0xc8000006.

(** [FormatMessage]'s text for an error number, if it has one. *)
Class WinLibC : Type := { FormatMessage : Z -> option (list byte) }.

Section WinSettings.
Context {K : Type} `{Kernel K} `{WinLibC}.

Definition raptor_format_message (messageid : Z) : list byte :=
  default (str "Unable to retrieve error string") (FormatMessage messageid).

Definition MakeStatusFromWindowsError (err : Z) (api : list byte) : raptor_error :=
  Some (Status_code_msg err (api ++ str ": " ++ raptor_format_message err)).

(** RAPTOR_WINDOWS_ERROR(WSAGetLastError(), api) *)
Definition last_error (api : String.string) : M (os K) raptor_error :=
  e ← errno; mret (MakeStatusFromWindowsError e (str api)).

Definition win_set_socket_nonblocking (fd non_blocking : Z) : M (os K) raptor_error :=
  status ← call_ret (SysWSAIoctl fd FIONBIO (int_of_bool (nonzero non_blocking)));
  if status =? 0 then mret RAPTOR_ERROR_NONE else last_error "WSAIoctl(FIONBIO)".

Definition win_set_socket_cloexec (fd close_on_exec : Z) : M (os K) raptor_error := mret RAPTOR_ERROR_NONE.

Definition win_set_socket_reuse_addr (fd reuse : Z) : M (os K) raptor_error :=
  status ← call_ret (SysSetsockopt fd SOL_SOCKET SO_REUSEADDR [int_of_bool (nonzero reuse)]);
  if status =? 0 then mret RAPTOR_ERROR_NONE else last_error "setsockopt(SO_REUSEADDR)".

Definition win_set_socket_low_latency (fd low_latency : Z) : M (os K) raptor_error :=
  status ← call_ret (SysSetsockopt fd IPPROTO_TCP TCP_NODELAY [int_of_bool (nonzero low_latency)]);
  if status =? 0 then mret RAPTOR_ERROR_NONE else last_error "setsockopt(TCP_NODELAY)".

Definition win_set_socket_reuse_port (fd reuse : Z) : M (os K) raptor_error := mret RAPTOR_ERROR_NONE.

Definition win_set_socket_snd_timeout (fd timeout_ms : Z) : M (os K) raptor_error :=
  status ← call_ret (SysSetsockopt fd SOL_SOCKET SO_SNDTIMEO (timeval timeout_ms));
  if status =? 0 then mret RAPTOR_ERROR_NONE else last_error "setsockopt(SO_SNDTIMEO)".

Definition win_set_socket_rcv_timeout (fd timeout_ms : Z) : M (os K) raptor_error :=
  status ← call_ret (SysSetsockopt fd SOL_SOCKET SO_RCVTIMEO (timeval timeout_ms));
  if status =? 0 then mret RAPTOR_ERROR_NONE else last_error "setsockopt(SO_RCVTIMEO)".

Definition win_set_socket_ipv6_only (fd only : Z) : M (os K) raptor_error :=
  status ← call_ret (SysSetsockopt fd IPPROTO_IPV6 IPV6_V6ONLY [int_of_bool (nonzero only)]);
  if status =? 0 then mret RAPTOR_ERROR_NONE else last_error "setsockopt(IPV6_V6ONLY)".

(** The failure to find [DisconnectEx] is logged. *)
Definition win_set_socket_shutdown (fd : Z) : M (os K) unit :=
  status ← call_ret (SysWSAIoctl fd SIO_GET_EXTENSION_FUNCTION_POINTER 0);
  _ ← (if status =? 0 then call_ret (SysDisconnectEx fd) else mret 0);
  _ ← call_ret (SysClose fd);
  mret tt.

Definition win_set_socket_tcp_user_timeout (fd timeout : Z) : M (os K) raptor_error := mret RAPTOR_ERROR_NONE.

(** Windows has no [SO_NOSIGPIPE]. *)
Definition win_set_socket_no_sigpipe_if_possible (fd : Z) : M (os K) raptor_error := mret RAPTOR_ERROR_NONE.

Definition ws2_socket (family type protocol : Z) : M (os K) Z := call_ret (SysSocket family type protocol).

(** ** Creating a socket *)

Definition win_create_family_socket (family type protocol : Z) :
    M (os K) (raptor_error * raptor_dualstack_mode * Z) :=
  let dsmode := if family =? AF_INET then RAPTOR_DSMODE_IPV4 else RAPTOR_DSMODE_NONE in
  newfd ← ws2_socket family type protocol;
  if newfd =? INVALID_SOCKET
  then err ← last_error "WSASocket"; mret (err, dsmode, newfd)
  else mret (RAPTOR_ERROR_NONE, dsmode, newfd).

(** The error, [*dsmode] and [*newfd]. *)
Definition win_create_dualstack_socket (a : raptor_resolved_address) (type protocol : Z) :
    M (os K) (raptor_error * raptor_dualstack_mode * Z) :=
  let family := sa_family (ra_addr a) in
  if family =? AF_INET6 then
    newfd ← ws2_socket family type protocol;
    dualstack ← (if negb (newfd =? INVALID_SOCKET)
                 then e ← win_set_socket_ipv6_only newfd 0;
                      mret (match e with None => true | Some _ => false end)
                 else mret false);
    if (dualstack : bool) then mret (RAPTOR_ERROR_NONE, RAPTOR_DSMODE_DUALSTACK, newfd)
    else
      match raptor_sockaddr_is_v4mapped a with
      | None =>
          if newfd =? INVALID_SOCKET
          then err ← last_error "WSASocket"; mret (err, RAPTOR_DSMODE_IPV6, newfd)
          else mret (RAPTOR_ERROR_NONE, RAPTOR_DSMODE_IPV6, newfd)
      | Some _ =>
          _ ← (if negb (newfd =? INVALID_SOCKET) then call_ret (SysClose newfd) else mret 0);
          win_create_family_socket AF_INET type protocol
      end
  else win_create_family_socket family type protocol.

(** The error, [*mapped_addr], [*newfd] and [*dsmode]. *)
Definition win_create_socket (a : raptor_resolved_address) :
    M (os K) (raptor_error * raptor_resolved_address * Z * raptor_dualstack_mode) :=
  let a := match raptor_sockaddr_to_v4mapped a with Some m => m | None => a end in
  a ← match raptor_sockaddr_is_wildcard a with
      | Some port => match raptor_sockaddr_make_wildcard6 port with Some wildcard => mret wildcard | None => abort end
      | None => mret a
      end;
  '(err, dsmode, newfd) ← win_create_dualstack_socket a SOCK_STREAM IPPROTO_TCP;
  mret (err, a, newfd, dsmode).

(** ** Preparing a socket *)

Definition win_tcp_prepare_socket (sock timeout : Z) : M (os K) raptor_error :=
  on_ok (win_set_socket_nonblocking sock 1)
  (on_ok (win_set_socket_ipv6_only sock 0)
  (on_ok (win_set_socket_low_latency sock 1)
  (on_ok (win_set_socket_tcp_user_timeout sock timeout)
  (mret RAPTOR_ERROR_NONE)))).

(** The statements up to the label [failure], with [*port]. *)
Definition win_server_prepare_body (sock : Z) (a : raptor_resolved_address) : M (os K) (raptor_error * Z) :=
  err ←
    on_ok (win_tcp_prepare_socket sock 0)
    (on_ok (r ← call_ret (SysBind sock (take (Z.to_nat (ra_len a)) (ra_addr a)));
            if r =? SOCKET_ERROR then last_error "bind" else mret RAPTOR_ERROR_NONE)
           (r ← call_ret (SysListen sock SOMAXCONN);
            if r =? SOCKET_ERROR then last_error "listen" else mret RAPTOR_ERROR_NONE));
  match err with
  | Some _ => mret (err, 0)
  | None =>
      g ← call (SysGetsockname sock);
      if r_ret g =? SOCKET_ERROR
      then err ← last_error "getsockname"; mret (err, 0)
      else mret (RAPTOR_ERROR_NONE, raptor_sockaddr_get_port {| ra_addr := r_data g; ra_len := r_int g |})
  end.

Definition win_tcp_server_prepare_socket (sock : Z) (a : raptor_resolved_address) (so_reuseport : Z) :
    M (os K) (raptor_error * Z) :=
  '(err, port) ← win_server_prepare_body sock a;
  match err with
  | None => mret (RAPTOR_ERROR_NONE, port)
  | Some _ =>
      _ ← (if negb (sock =? INVALID_SOCKET) then call_ret (SysClose sock) else mret 0);
      mret (err, port)
  end.
End WinSettings.

(** ** Which sockets are opened and closed *)

Section WinDescriptors.
Context {K : Type} `{Kernel K} `{WinLibC}.

Lemma quiet_last_error api : quiet (K := K) (last_error api).
Proof using Type. unfold last_error. auto with quiet. Qed.

Local Hint Resolve quiet_last_error quiet_on_ok : quiet.

Lemma quiet_win_option (m : M (os K) Z) api :
  quiet m -> quiet (status ← m; if status =? 0 then mret RAPTOR_ERROR_NONE else last_error api).
Proof using Type. intros Hm. auto 10 with quiet. Qed.

Lemma quiet_win_prepare sock t : quiet (K := K) (win_tcp_prepare_socket sock t).
Proof using Type.
  unfold win_tcp_prepare_socket, win_set_socket_nonblocking, win_set_socket_ipv6_only, win_set_socket_low_latency,
    win_set_socket_tcp_user_timeout. auto 20 using quiet_win_option with quiet.
Qed.

Lemma quiet_win_server_body sock a : quiet (K := K) (win_server_prepare_body sock a).
Proof using Type.
  unfold win_server_prepare_body. apply quiet_bind; [auto 20 using quiet_win_prepare with quiet|].
  intros [e|]; auto 20 with quiet.
Qed.

(** A listening socket is closed exactly when its preparation fails. *)
Lemma win_server_prepare_fds sock a r :
  sock <> INVALID_SOCKET ->
  fd_spec (K := K) (win_tcp_server_prepare_socket sock a r) (closes_on_error fst sock).
Proof using Type.
  intros Hs. unfold win_tcp_server_prepare_socket. apply Z.eqb_neq in Hs. rewrite Hs. cbn [negb].
  apply fd_quiet_bind; [apply quiet_win_server_body|]. intros [[e|] port].
  - eapply fd_bind; [by apply (fd_call_ret _ (fun _ o c => o = [] /\ c = [sock]))|].
    intros ? ? ? [-> ->]. by apply fd_ret.
  - by apply fd_ret.
Qed.

(** Shutting a socket down closes it. *)
Lemma win_shutdown_fds sock : fd_spec (K := K) (win_set_socket_shutdown sock) (fun _ o c => o = [] /\ c = [sock]).
Proof using Type.
  unfold win_set_socket_shutdown. apply fd_quiet_bind; [auto with quiet|]. intros status.
  apply fd_quiet_bind; [auto with quiet|]. intros _.
  eapply fd_bind; [by apply (fd_call_ret _ (fun _ o c => o = [] /\ c = [sock]))|].
  intros ? ? ? [-> ->]. by apply fd_ret.
Qed.

(** Sockets are [INVALID_SOCKET] or not negative. *)
Class KernelWinSockets : Prop := {
  win_socket_result k f t p : -1 <= r_ret (sys_call k (SysSocket f t p)).1;
}.

Context `{!KernelWinSockets}.

(** What was opened was closed, but the socket a success returns. *)
Definition one_win_socket (a : raptor_error * raptor_dualstack_mode * Z) (o c : list Z) : Prop :=
  match a.1.1 with None => o = c ++ [a.2] /\ 0 <= a.2 | Some _ => o = c end.

Lemma ws2_socket_fds f t p :
  fd_spec (ws2_socket f t p) (fun fd o c => -1 <= fd /\ o = (if 0 <=? fd then [fd] else []) /\ c = []).
Proof.
  apply fd_call_ret. intros k r <-. split; [apply win_socket_result|]. split; [|done].
  unfold opened. cbn. unfold opened_by. cbn. by destruct (0 <=? _).
Qed.

Lemma last_error_some {A} api (f : raptor_error -> A) (Q : A -> list Z -> list Z -> Prop) :
  (forall s, Q (f (Some s)) [] []) -> fd_spec (K := K) (err ← last_error api; mret (f err)) Q.
Proof using Type. intros HQ o. unfold last_error. apply wp_bind, wp_bind, wp_gets, wp_ret, wp_ret. exists []. rewrite app_nil_r. split; [done|apply HQ]. Qed.

Lemma win_family_socket_fds f t p : fd_spec (K := K) (win_create_family_socket f t p) one_win_socket.
Proof.
  unfold win_create_family_socket. eapply fd_bind; [apply ws2_socket_fds|]. cbn. intros fd o c (Hfd & -> & ->).
  destruct (Z.eqb_spec fd INVALID_SOCKET) as [->|Hne].
  - by apply last_error_some.
  - apply fd_ret. unfold INVALID_SOCKET in Hne. cbn. rewrite (proj2 (Z.leb_le 0 fd)) by lia. split; [done|lia].
Qed.

(** Creating a dual-stack socket leaks nothing on any path, the fallback to IPv4 included. *)
Lemma win_dualstack_fds a t p : fd_spec (K := K) (win_create_dualstack_socket a t p) one_win_socket.
Proof.
  unfold win_create_dualstack_socket. destruct (_ =? AF_INET6); [|apply win_family_socket_fds].
  eapply fd_bind; [apply ws2_socket_fds|]. cbn. intros fd o c (Hfd & -> & ->).
  apply fd_bind with (R := fun b o c => o = [] /\ c = [] /\ (b = true -> 0 <= fd)).
  { destruct (Z.eqb_spec fd INVALID_SOCKET) as [->|Hne]; cbn [negb]; [by apply fd_ret|].
    apply fd_quiet_bind; [unfold win_set_socket_ipv6_only; auto using quiet_win_option with quiet|].
    intros e. apply fd_ret. split_and!; [done..|]. intros _. unfold INVALID_SOCKET in Hne. lia. }
  intros [|] o' c' (-> & -> & Hpos).
  { apply fd_ret. cbn. rewrite (proj2 (Z.leb_le 0 fd)) by auto. auto. }
  destruct (raptor_sockaddr_is_v4mapped a).
  - eapply (fd_bind _ _ _ (fun _ o c => o = [] /\ c = if 0 <=? fd then [fd] else [])).
    { destruct (Z.eqb_spec fd INVALID_SOCKET) as [->|Hne]; cbn [negb]; [by apply fd_ret|].
      apply fd_call_ret. intros k ? _. unfold INVALID_SOCKET in Hne. by rewrite (proj2 (Z.leb_le 0 fd)) by lia. }
    intros ? ? ? [-> ->]. eapply fd_mono; [apply win_family_socket_fds|]. intros [[e m] fd'] o'' c''.
    unfold one_win_socket. cbn. destruct e; [by intros ->|]. intros [-> Hp]. split; [by rewrite app_assoc|exact Hp].
  - destruct (Z.eqb_spec fd INVALID_SOCKET) as [->|Hne].
    + by apply last_error_some.
    + apply fd_ret. unfold INVALID_SOCKET in Hne. cbn. rewrite (proj2 (Z.leb_le 0 fd)) by lia. split; [done|lia].
Qed.

(** The option that sets a timeout holds it in seconds and microseconds; Windows reads the
    first word of it as milliseconds. *)
Lemma win_timeout_word fd timeout_ms (o : os K) :
  0 <= timeout_ms ->
  wp (win_set_socket_snd_timeout fd timeout_ms) o (fun _ o' => exists word rest r,
    os_trace o' = os_trace o ++ [(SysSetsockopt fd SOL_SOCKET SO_SNDTIMEO (word :: rest), r)] /\ word = timeout_ms / 1000).
Proof using Type.
  intros Ht. unfold win_set_socket_snd_timeout, call_ret. apply wp_bind, wp_bind. unfold call, wp at 1.
  destruct (sys_call (os_kernel o) _) as [r k]. apply wp_ret.
  assert (exists word rest r0, os_trace o ++ [(SysSetsockopt fd SOL_SOCKET SO_SNDTIMEO (timeval timeout_ms), r)] =
    os_trace o ++ [(SysSetsockopt fd SOL_SOCKET SO_SNDTIMEO (word :: rest), r0)] /\ word = timeout_ms / 1000) as Hx.
  { unfold timeval. eexists _, _, _. split; [reflexivity|]. apply Z.quot_div_nonneg; lia. }
  destruct (_ =? 0); [by apply wp_ret|]. unfold last_error. apply wp_bind, wp_gets, wp_ret. exact Hx.
Qed.
End WinDescriptors.
