(* ===== verification/Resolve.v ===== *)
(** * Address resolution (src/common/resolve_address.cc)

    [getaddrinfo] belongs to the C library and is a parameter: its result and the
    addresses it found, in order.  The three hints are constants, as in the code. *)

From S2P Require Import Prelude.
From S2P Require Import HostPort.
From S2P Require Import SockAddr.
From S2P Require Import Status.
From S2P Require Import OS.
From S2P Require Import SocketSetting.

Local Open Scope Z_scope.

Class Resolver (K : Type) : Type :=
  getaddrinfo : list byte -> list byte -> M (os K) (Z * list (list byte)).

Section Resolve.
Context {K : Type} `{Kernel K} `{LibC} `{Resolver K}.

(** One [memcpy] into an array element: the bytes after the address keep what [malloc]
    left there, which nobody reads; they are 0 here. *)
Definition copy_address (a : list byte) : raptor_resolved_address :=
  {| ra_addr := a ++ replicate (128 - length a) x00; ra_len := Z.of_nat (length a) |}.

(** The loop of copies: an address longer than the buffer overruns it. *)
Definition copy_addresses (result : list (list byte)) : M (os K) (list raptor_resolved_address) :=
  if forallb (fun a => length a <=? 128)%nat result then mret (copy_address <$> result) else undef.

(** The port numbers tried for service names the resolver does not know. *)
Definition svc (port : list byte) : option (list byte) :=
  if decide (port = str "http") then Some (str "80")
  else if decide (port = str "https") then Some (str "443")
  else None.

(** The error and [*addresses], nothing when it is not written. *)
Definition raptor_blocking_resolve_address (name : list byte) (default_port : option (list byte)) :
    M (os K) (raptor_error * option (list raptor_resolved_address)) :=
  let '(_, host, port) := SplitHostPort name in
  match host with
  | None => mret (MakeStatusFromFormat (str "unparseable host:port (" ++ name ++ str ")"), None)
  | Some host =>
      match (match port with Some p => Some p | None => default_port end) with
      | None => mret (MakeStatusFromFormat (str "no port in name (" ++ name ++ str ")"), None)
      | Some port =>
          '(s, result) ← getaddrinfo host port;
          '(s, result) ←
            (if negb (s =? 0) then
               match svc port with
               | Some number => getaddrinfo host number
               | None => mret (s, result)
               end
             else mret (s, result));
          if negb (s =? 0) then err ← RAPTOR_POSIX_ERROR "getaddrinfo"; mret (err, None)
          else
            addrs ← copy_addresses result;
            mret (RAPTOR_ERROR_NONE, Some addrs)
      end
  end.
End Resolve.

(** The C library opens no descriptor that it keeps, and its addresses fit in a
    [sockaddr_storage]. *)
Class ResolverLaws {K : Type} `{Kernel K} `{Resolver K} : Prop :=
  resolver_addresses host port : fd_spec (getaddrinfo host port) (fun r o c =>
    o = [] /\ c = [] /\ Forall (fun a => (length a <= 128)%nat) r.2).

Section ResolveSpec.
Context {K : Type} `{Kernel K} `{LibC} `{Resolver K}.

Lemma take_copy_address a : take (Z.to_nat (ra_len (copy_address a))) (ra_addr (copy_address a)) = a.
Proof using Type. clear. cbn. by rewrite Nat2Z.id, take_app_length. Qed.

Lemma copy_address_wf a : (length a <= 128)%nat -> ra_wf (copy_address a).
Proof using Type. clear. intros Ha. unfold ra_wf. cbn. rewrite length_app, length_replicate. lia. Qed.

Lemma copy_addresses_fit (result : list (list byte)) :
  Forall (fun a => (length a <= 128)%nat) result -> copy_addresses (K := K) result = mret (copy_address <$> result).
Proof using Type.
  intros Hlen. unfold copy_addresses. replace (forallb _ _) with true; [done|]. symmetry. apply forallb_forall.
  intros a Ha. apply list_elem_of_In in Ha. rewrite Forall_forall in Hlen. apply Nat.leb_le. by apply Hlen.
Qed.

Lemma resolve_calls name default_port host port o :
  SplitHostPort name = (true, Some host, Some port) ->
  forall r result o', getaddrinfo host port o = Ret ((r, result), o') -> r = 0 \/ svc port = None ->
  raptor_blocking_resolve_address name default_port o =
    (if negb (r =? 0) then err ← RAPTOR_POSIX_ERROR "getaddrinfo"; mret (err, None)
     else addrs ← copy_addresses result; mret (RAPTOR_ERROR_NONE, Some addrs)) o'.
Proof using Type.
  intros Hsplit r result o' Hgai Hr. unfold raptor_blocking_resolve_address. rewrite Hsplit.
  unfold mbind, M_bind in *. rewrite Hgai.
  destruct (Z.eqb_spec r 0) as [->|Hne]; cbn [negb]; [done|].
  destruct Hr as [->|Hs]; [done|]. rewrite Hs. cbn. by rewrite (proj2 (Z.eqb_neq _ _) Hne).
Qed.

(** Resolving what [JoinHostPort] printed asks the C library for exactly that host and
    that port, whatever the default, and returns the addresses it found, all of them,
    in its order and byte for byte, each in a well-formed buffer. *)
Theorem resolve_joined_name (host : list byte) (port : Z) (default_port : option (list byte))
    (result : list (list byte)) (o o' : os K) :
  host_ok host ->
  getaddrinfo host (dec port) o = Ret ((0, result), o') ->
  Forall (fun a => (length a <= 128)%nat) result ->
  exists addrs,
    raptor_blocking_resolve_address (JoinHostPort host port).1 default_port o =
      Ret ((RAPTOR_ERROR_NONE, Some addrs), o') /\
    Forall ra_wf addrs /\
    (fun a => take (Z.to_nat (ra_len a)) (ra_addr a)) <$> addrs = result.
Proof using Type.
  intros Hok Hgai Hlen. exists (copy_address <$> result).
  assert (SplitHostPort (JoinHostPort host port).1 = (true, Some host, Some (dec port))) as Hs.
  { unfold SplitHostPort. rewrite DoSplit_join by done. cbn.
    destruct Hok as (_ & Hn & _). rewrite !c_str_id; auto using dec_no. }
  split; [|split].
  - rewrite (resolve_calls _ _ _ _ _ Hs _ _ _ Hgai (or_introl eq_refl)). cbn [Z.eqb negb].
    by rewrite copy_addresses_fit.
  - apply Forall_fmap. eapply Forall_impl; [exact Hlen|]. intros a. apply copy_address_wf.
  - rewrite <- list_fmap_compose. rewrite <- (list_fmap_id result) at 2. apply list_fmap_ext.
    intros _ a _. apply take_copy_address.
Qed.

(** A failure of [getaddrinfo] is reported with the thread's [errno], which the function
    need not set: after a failure that leaves it 0 the error returned says it is no
    error. *)
Theorem resolve_failure_can_be_ok (name host port : list byte) (default_port : option (list byte))
    (r : Z) (result : list (list byte)) (o o' : os K) :
  SplitHostPort name = (true, Some host, Some port) -> svc port = None ->
  getaddrinfo host port o = Ret ((r, result), o') -> r <> 0 -> os_errno o' = 0 ->
  exists st, raptor_blocking_resolve_address name default_port o = Ret ((Some st, None), o') /\
    IsOK st = true /\ Status_ToString st = Ret (str "No error").
Proof using Type.
  intros Hs Hsvc Hgai Hr He.
  rewrite (resolve_calls _ _ _ _ _ Hs _ _ _ Hgai (or_intror Hsvc)). rewrite (proj2 (Z.eqb_neq _ _) Hr).
  cbn [negb]. unfold RAPTOR_POSIX_ERROR, errno, gets, mbind, M_bind, mret, M_ret. rewrite He.
  eexists. split; [done|]. split; done.
Qed.

(** Without an error there are addresses. *)
Lemma resolve_fds `{!ResolverLaws} name default_port :
  fd_spec (raptor_blocking_resolve_address name default_port) (fun '(e, addrs) o c =>
    o = [] /\ c = [] /\ (e = None -> is_Some addrs)).
Proof.
  unfold raptor_blocking_resolve_address. destruct (SplitHostPort name) as [[b host] port].
  destruct host as [host|]; [|by apply fd_ret].
  destruct (match port with Some p => Some p | None => default_port end) as [p|]; [|by apply fd_ret].
  eapply fd_bind; [apply resolver_addresses|]. intros [s result] o c (-> & -> & Hl).
  eapply (fd_bind _ _ _ (fun r o c => o = [] /\ c = [] /\ Forall (fun a => (length a <= 128)%nat) r.2)).
  { destruct (negb (s =? 0)); [|by apply fd_ret]. destruct (svc p); [apply resolver_addresses|by apply fd_ret]. }
  intros [s' result'] o c (-> & -> & Hl'). cbn [snd] in Hl'.
  destruct (negb (s' =? 0)).
  - eapply (fd_bind _ _ _ (fun e o c => o = [] /\ c = [] /\ is_Some e)).
    + unfold RAPTOR_POSIX_ERROR. eapply fd_bind; [by apply (fd_errno (fun _ o c => o = [] /\ c = []))|].
      intros e ? ? [-> ->]. apply fd_ret. split_and!; [done..|]. by eexists.
    + intros e ? ? (-> & -> & [x ->]). by apply fd_ret.
  - rewrite copy_addresses_fit by done. eapply fd_bind; [by apply (fd_ret _ (fun r o c => o = [] /\ c = []))|].
    intros addrs ? ? [-> ->]. apply fd_ret. split_and!; [done..|]. intros _. by eexists.
Qed.
End ResolveSpec.

(** A resolver that knows one host, and a process none of whose calls failed. *)
Definition loopback_resolver : Resolver unit := fun host port =>
  if decide (host = str "::1") then mret (0, [take 16 (ra_addr (loopback4 80))]) else mret (-2, []).

#[local] Existing Instance loopback_resolver.
#[local] Existing Instance quiet_libc.

Lemma resolve_joined_name_witness :
  exists addrs,
    raptor_blocking_resolve_address (JoinHostPort (str "::1") 80).1 None fresh_process =
      Ret ((RAPTOR_ERROR_NONE, Some addrs), fresh_process) /\
    Forall ra_wf addrs /\
    (fun a => take (Z.to_nat (ra_len a)) (ra_addr a)) <$> addrs = [take 16 (ra_addr (loopback4 80))].
Proof.
  apply (resolve_joined_name (str "::1") 80).
  - split; [|split]; [| |vm_compute; discriminate]; apply (proj1 (memchr_None _ _)); vm_compute; reflexivity.
  - vm_compute. reflexivity.
  - constructor; [vm_compute; repeat constructor|constructor].
Defined.

Lemma resolve_failure_can_be_ok_witness :
  exists st, raptor_blocking_resolve_address (str "nowhere:80") None fresh_process = Ret ((Some st, None), fresh_process) /\
    IsOK st = true /\ Status_ToString st = Ret (str "No error").
Proof.
  apply (resolve_failure_can_be_ok (str "nowhere:80") (str "nowhere") (str "80") None (-2) []);
    [vm_compute; reflexivity..|vm_compute; discriminate|vm_compute; reflexivity].
Defined.
