(* ===== verification/Endpoint.v ===== *)
(** * Endpoints (src/common/endpoint_impl.h, src/common/endpoint_impl.cc)

    The state of an [EndpointImpl] and its accessors.  The methods that go through the
    container ([BindWithContainer], [SendMsg], [Close]) are in Container.v. *)

From S2P Require Import Prelude.
From S2P Require Import Cid.
From S2P Require Import OS.
From S2P Require Import SockAddr.

Local Open Scope Z_scope.

(** [_fd] is a [uint64_t]; [ei_attached] stands for a non-null [_container]. *)
Record EndpointImpl : Type := {
  ei_fd : Z;
  ei_connection_id : Z;
  ei_attached : bool;
  ei_listen_port : Z;
  ei_ext_info : Z;
  ei_local_addr : raptor_resolved_address;
  ei_remote_addr : raptor_resolved_address;
}.

(** [uint64_t(~0)]. *)
Definition InvalidFd : Z := u64 (Z.lnot 0).

Definition EndpointImpl_new (fd : Z) (local remote : raptor_resolved_address) : EndpointImpl := {|
  ei_fd := u64 fd;
  ei_connection_id := InvalidConnectionId;
  ei_attached := false;
  ei_listen_port := 0;
  ei_ext_info := 0;
  ei_local_addr := local;
  ei_remote_addr := remote;
|}.

Definition SetFd (fd : Z) (e : EndpointImpl) : EndpointImpl :=
  {| ei_fd := fd; ei_connection_id := ei_connection_id e; ei_attached := ei_attached e;
     ei_listen_port := ei_listen_port e; ei_ext_info := ei_ext_info e;
     ei_local_addr := ei_local_addr e; ei_remote_addr := ei_remote_addr e |}.

Definition SetConnection (connection_id : Z) (e : EndpointImpl) : EndpointImpl :=
  {| ei_fd := ei_fd e; ei_connection_id := connection_id; ei_attached := ei_attached e;
     ei_listen_port := ei_listen_port e; ei_ext_info := ei_ext_info e;
     ei_local_addr := ei_local_addr e; ei_remote_addr := ei_remote_addr e |}.

Definition SetContainer (attached : bool) (e : EndpointImpl) : EndpointImpl :=
  {| ei_fd := ei_fd e; ei_connection_id := ei_connection_id e; ei_attached := attached;
     ei_listen_port := ei_listen_port e; ei_ext_info := ei_ext_info e;
     ei_local_addr := ei_local_addr e; ei_remote_addr := ei_remote_addr e |}.

Definition SetListenPort (port : Z) (e : EndpointImpl) : EndpointImpl :=
  {| ei_fd := ei_fd e; ei_connection_id := ei_connection_id e; ei_attached := ei_attached e;
     ei_listen_port := port; ei_ext_info := ei_ext_info e;
     ei_local_addr := ei_local_addr e; ei_remote_addr := ei_remote_addr e |}.

Definition SetExtInfo (info : Z) (e : EndpointImpl) : EndpointImpl :=
  {| ei_fd := ei_fd e; ei_connection_id := ei_connection_id e; ei_attached := ei_attached e;
     ei_listen_port := ei_listen_port e; ei_ext_info := info;
     ei_local_addr := ei_local_addr e; ei_remote_addr := ei_remote_addr e |}.

Definition ConnectionId (e : EndpointImpl) : Z := ei_connection_id e.
Definition SocketFd (e : EndpointImpl) : Z := ei_fd e.
Definition Endpoint_GetListenPort (e : EndpointImpl) : Z := ei_listen_port e.
Definition GetExtInfo (e : EndpointImpl) : Z := ei_ext_info e.

Definition IsOnline (e : EndpointImpl) : bool :=
  negb (ei_fd e =? InvalidFd) && (0 <? ei_fd e).

(** [(int)_fd]. *)
Definition fd_int (e : EndpointImpl) : Z := i32 (ei_fd e).

Section Addresses.
Context `{LibC}.

Definition PeerString (e : EndpointImpl) : list byte :=
  (raptor_sockaddr_to_string inet_ntop (ei_remote_addr e) true).1.

Definition LocalIp (e : EndpointImpl) : list byte := raptor_sockaddr_get_ip inet_ntop (ei_local_addr e) 128.
Definition LocalPort (e : EndpointImpl) : Z := u16 (raptor_sockaddr_get_port (ei_local_addr e)).
Definition RemoteIp (e : EndpointImpl) : list byte := raptor_sockaddr_get_ip inet_ntop (ei_remote_addr e) 128.
Definition RemotePort (e : EndpointImpl) : Z := u16 (raptor_sockaddr_get_port (ei_remote_addr e)).
End Addresses.

Section Sync.
Context {K : Type} `{Kernel K}.

(** The synchronous calls pass through to the socket; the results are narrowed to [int]. *)
Definition SyncSend (data : list cell) (e : EndpointImpl) : M (os K) Z :=
  r ← call (SysSend (fd_int e) data); mret (i32 (r_ret r)).

Definition SyncRecv (len : Z) (e : EndpointImpl) : M (os K) (Z * list byte) :=
  r ← call (SysRecv (fd_int e) len); mret (i32 (r_ret r), r_data r).
End Sync.

(** An endpoint is online exactly while it holds a descriptor an [int] can name. *)
Lemma IsOnline_new fd local remote :
  0 <= fd < 2 ^ 31 -> IsOnline (EndpointImpl_new fd local remote) = (0 <? fd).
Proof.
  intros Hfd. unfold IsOnline, EndpointImpl_new. cbn [ei_fd]. unfold u64. rewrite wrap_small by lia.
  replace (fd =? InvalidFd) with false; [done|]. symmetry. apply Z.eqb_neq.
  change InvalidFd with 18446744073709551615. lia.
Qed.

Lemma IsOnline_closed e : IsOnline (SetFd InvalidFd e) = false.
Proof. done. Qed.

Lemma fd_int_new fd local remote :
  0 <= fd < 2 ^ 31 -> fd_int (EndpointImpl_new fd local remote) = fd.
Proof.
  intros Hfd. unfold fd_int, EndpointImpl_new. cbn [ei_fd]. unfold u64. rewrite wrap_small by lia.
  apply swrap_small; lia.
Qed.
