(* ===== verification/Epoll.v ===== *)
(** * Epoll (src/linux/epoll.h, src/linux/epoll.cc) and the calls of [PollingThread]
      that change the interest list (src/linux/epoll_thread.cc)

    An [Epoll] object is its descriptor, -1 when there is none. *)

From S2P Require Import Prelude.
From S2P Require Import OS.
From S2P Require Import Status.
From S2P Require Import SocketSetting.

Local Open Scope Z_scope.

Section Epoll.
Context {K : Type} `{Kernel K} `{LibC}.

Definition MAX_EPOLL_EVENTS : Z := 256.

(** The error and [_epoll_fd] after the call. *)
Definition Epoll_create (epoll_fd : Z) : M (os K) (raptor_error * Z) :=
  if 0 <? epoll_fd then mret (RAPTOR_ERROR_NONE, epoll_fd)
  else
    epoll_fd ← call_ret (SysEpollCreate MAX_EPOLL_EVENTS);
    if epoll_fd <? 0 then err ← RAPTOR_POSIX_ERROR "epoll_create"; mret (err, epoll_fd)
    else
      r ← call_ret (SysFcntl epoll_fd F_SETFD FD_CLOEXEC);
      if nonzero r then err ← RAPTOR_POSIX_ERROR "fcntl"; mret (err, epoll_fd)
      else mret (RAPTOR_ERROR_NONE, epoll_fd).

Definition Epoll_shutdown (epoll_fd : Z) : M (os K) Z :=
  if negb (epoll_fd =? -1) then _ ← call_ret (SysClose epoll_fd); mret (-1)
  else mret epoll_fd.

Definition Epoll_dtor (epoll_fd : Z) : M (os K) unit :=
  if negb (epoll_fd =? -1) then _ ← call_ret (SysClose epoll_fd); mret tt else mret tt.

Definition Epoll_ctl (epoll_fd fd : Z) (ev : Z * Z) (op : Z) : M (os K) Z :=
  call_ret (SysEpollCtl epoll_fd op fd ev.1 ev.2).

Definition Epoll_add (epoll_fd fd data events : Z) : M (os K) Z :=
  Epoll_ctl epoll_fd fd (events, data) EPOLL_CTL_ADD.

Definition Epoll_modify (epoll_fd fd data events : Z) : M (os K) Z :=
  Epoll_ctl epoll_fd fd (events, data) EPOLL_CTL_MOD.

Definition Epoll_remove (epoll_fd fd events : Z) : M (os K) Z :=
  Epoll_ctl epoll_fd fd (events, 0) EPOLL_CTL_DEL.

(** The number of events, and the events. *)
Definition Epoll_polling (epoll_fd timeout : Z) : M (os K) (Z * list (Z * Z)) :=
  r ← call (SysEpollWait epoll_fd MAX_EPOLL_EVENTS timeout);
  mret (r_ret r, r_events r).

(** ** [PollingThread] *)

Definition Poll_Add (epoll_fd fd data events : Z) : M (os K) Z :=
  Epoll_add epoll_fd fd data (Z.lor events EPOLLRDHUP).

Definition Poll_Modify (epoll_fd fd data events : Z) : M (os K) Z :=
  Epoll_modify epoll_fd fd data (Z.lor events EPOLLRDHUP).

Definition Poll_Delete (epoll_fd fd events : Z) : M (os K) Z :=
  Epoll_remove epoll_fd fd (Z.lor events EPOLLRDHUP).

Lemma quiet_Poll_Add epfd fd data ev : quiet (K := K) (Poll_Add epfd fd data ev).
Proof. unfold Poll_Add, Epoll_add, Epoll_ctl. auto with quiet. Qed.

Lemma quiet_Poll_Delete epfd fd ev : quiet (K := K) (Poll_Delete epfd fd ev).
Proof. unfold Poll_Delete, Epoll_remove, Epoll_ctl. auto with quiet. Qed.
End Epoll.
