(* ===== verification/Connection.v ===== *)
(** * Connections (src/linux/connection.h, src/linux/connection.cc)

    The methods of a [Connection] run on the process's system calls, the endpoint it
    shares with its user, its own buffers, and a list of the calls it makes on the
    [NotificationTransferService]: the container only queues them (Container.v), so
    they are recorded here in order and replayed there.  The [ProtocolHandler] is the
    user's code: its [OnCheckPackageLength] is a parameter, a function of the endpoint
    and the bytes it is shown.  The mutexes are not modelled: a method runs alone on
    its buffer. *)

From S2P Require Import Prelude.
From S2P Require Import OS.
From S2P Require Import Status.
From S2P Require Import Slice.
From S2P Require Import SliceBuffer.
From S2P Require Import SocketSetting.
From S2P Require Import SockAddr.
From S2P Require Import Endpoint.
From S2P Require Import Epoll.

Local Open Scope Z_scope.

(** The endpoint is shared: the connection refers to it by its address. *)
Record Connection : Type := {
  cn_handle_id : Z;
  cn_endpoint : nat;
  cn_proto : bool;
  cn_recv_thread : Z;
  cn_send_thread : Z;
  cn_rcv_buffer : SliceBuffer Slice;
  cn_snd_buffer : SliceBuffer Slice;
}.

Definition Connection_new (handle_id : Z) (endpoint : nat) : Connection := {|
  cn_handle_id := handle_id;
  cn_endpoint := endpoint;
  cn_proto := false;
  cn_recv_thread := -1;
  cn_send_thread := -1;
  cn_rcv_buffer := SliceBuffer_new;
  cn_snd_buffer := SliceBuffer_new;
|}.

Definition SetProtocol (p : bool) (c : Connection) : Connection :=
  {| cn_handle_id := cn_handle_id c; cn_endpoint := cn_endpoint c; cn_proto := p;
     cn_recv_thread := cn_recv_thread c; cn_send_thread := cn_send_thread c;
     cn_rcv_buffer := cn_rcv_buffer c; cn_snd_buffer := cn_snd_buffer c |}.

Definition set_threads (t back : Z) (c : Connection) : Connection :=
  {| cn_handle_id := cn_handle_id c; cn_endpoint := cn_endpoint c; cn_proto := cn_proto c;
     cn_recv_thread := t; cn_send_thread := back;
     cn_rcv_buffer := cn_rcv_buffer c; cn_snd_buffer := cn_snd_buffer c |}.

Definition set_rcv (b : SliceBuffer Slice) (c : Connection) : Connection :=
  {| cn_handle_id := cn_handle_id c; cn_endpoint := cn_endpoint c; cn_proto := cn_proto c;
     cn_recv_thread := cn_recv_thread c; cn_send_thread := cn_send_thread c;
     cn_rcv_buffer := b; cn_snd_buffer := cn_snd_buffer c |}.

Definition set_snd (b : SliceBuffer Slice) (c : Connection) : Connection :=
  {| cn_handle_id := cn_handle_id c; cn_endpoint := cn_endpoint c; cn_proto := cn_proto c;
     cn_recv_thread := cn_recv_thread c; cn_send_thread := cn_send_thread c;
     cn_rcv_buffer := cn_rcv_buffer c; cn_snd_buffer := b |}.

(** The calls on [_service], all with [_endpoint]. *)
Inductive service_call : Type :=
  | CallDataReceived (s : Slice)
  | CallClosed (ev : Event).

Record conn_state (K : Type) : Type := {
  cs_os : os K;
  cs_ep : EndpointImpl;
  cs_cn : Connection;
  cs_out : list service_call;
}.
Arguments Build_conn_state {K} _ _ _ _.
Arguments cs_os {K} _.
Arguments cs_ep {K} _.
Arguments cs_cn {K} _.
Arguments cs_out {K} _.

Section Methods.
Context {K : Type} `{Kernel K} `{LibC}.
Variable OnCheckPackageLength : EndpointImpl -> list cell -> Z.

Definition sys {A} (m : M (os K) A) : M (conn_state K) A :=
  zoom cs_os (fun o s => {| cs_os := o; cs_ep := cs_ep s; cs_cn := cs_cn s; cs_out := cs_out s |}) m.

Definition modify_ep (f : EndpointImpl -> EndpointImpl) : M (conn_state K) unit :=
  modify (fun s => {| cs_os := cs_os s; cs_ep := f (cs_ep s); cs_cn := cs_cn s; cs_out := cs_out s |}).

Definition modify_cn (f : Connection -> Connection) : M (conn_state K) unit :=
  modify (fun s => {| cs_os := cs_os s; cs_ep := cs_ep s; cs_cn := f (cs_cn s); cs_out := cs_out s |}).

Definition service (c : service_call) : M (conn_state K) unit :=
  modify (fun s => {| cs_os := cs_os s; cs_ep := cs_ep s; cs_cn := cs_cn s; cs_out := cs_out s ++ [c] |}).

(** A pure computation that may be undefined. *)
Definition lift {A} (o : outcome A) : M (conn_state K) A := fun s =>
  match o with Ret a => Ret (a, s) | Undef => Undef | Abort => Abort | NoFuel => NoFuel end.

Definition EV_IN : Z := Z.lor EPOLLIN EPOLLET.
Definition EV_OUT : Z := Z.lor EPOLLOUT EPOLLET.

Definition Connection_Init (t back : Z) : M (conn_state K) unit :=
  _ ← modify_cn (set_threads t back);
  ep ← gets cs_ep;
  _ ← sys (Poll_Add t (fd_int ep) (ei_connection_id ep) EV_IN);
  _ ← sys (Poll_Add back (fd_int ep) (ei_connection_id ep) EV_OUT);
  mret tt.

Definition Connection_SendMsg (s : Slice) : M (conn_state K) bool :=
  ep ← gets cs_ep;
  if negb (IsOnline ep) then mret false
  else
    cn ← gets cs_cn;
    _ ← modify_cn (fun c => set_snd (AddSlice s (cn_snd_buffer c)) c);
    _ ← sys (Poll_Modify (cn_send_thread cn) (fd_int ep) (ei_connection_id ep) EV_OUT);
    mret true.

Definition Connection_Shutdown (notify : bool) (ev : Event) : M (conn_state K) unit :=
  ep ← gets cs_ep;
  if negb (IsOnline ep) then mret tt
  else
    cn ← gets cs_cn;
    _ ← sys (Poll_Delete (cn_recv_thread cn) (fd_int ep) EV_IN);
    _ ← sys (Poll_Delete (cn_send_thread cn) (fd_int ep) EV_OUT);
    _ ← sys (raptor_set_socket_shutdown (fd_int ep));
    _ ← modify_ep (SetFd InvalidFd);
    _ ← (if notify then service (CallClosed ev) else mret tt);
    _ ← modify_cn (fun c => set_rcv (ClearBuffer (cn_rcv_buffer c)) c);
    modify_cn (fun c => set_snd (ClearBuffer (cn_snd_buffer c)) c).

Definition Connection_dtor : M (conn_state K) unit := Connection_Shutdown false Event_default.

Definition Connection_IsOnline : M (conn_state K) bool := gets (fun s => IsOnline (cs_ep s)).

Definition Connection_SetExtendInfo (data : Z) : M (conn_state K) unit := modify_ep (SetExtInfo data).
Definition Connection_GetExtendInfo : M (conn_state K) Z := gets (fun s => GetExtInfo (cs_ep s)).

(** ** Receiving *)

(** The slice, and whether it shows the whole buffer. *)
Definition ReadSliceFromRecvBuffer (read_size : nat) : M (conn_state K) (bool * Slice) :=
  b ← gets (fun s => cn_rcv_buffer (cs_cn s));
  let cache_size := GetBufferLength b in
  if (cache_size <=? read_size)%nat then
    s ← of_option (Merge b); mret (true, s)
  else
    s ← lift (GetHeader read_size b); mret (false, s).

Definition header_size : nat := 1024.

(** One round of the loop of [ParsingProtocol]: [Some r] leaves it with the result [r],
    [None] goes on.  When the handler asks for more data and the slice does not reach
    the end of the buffer, the [continue] of the inner [do { } while (false)] leaves
    that loop, and the round goes on with a [pack_len] of 0. *)
Definition parse_round (cache_size : nat) (package_counter : Z) : M (conn_state K) (option Z) :=
  '(reach_tail, package) ← ReadSliceFromRecvBuffer header_size;
  ep ← gets cs_ep;
  let pack_len := OnCheckPackageLength ep (Slice_bytes package) in
  if pack_len <? 0 then mret (Some (-1))
  else if (pack_len =? 0) && reach_tail then mret (Some package_counter)
  else if negb (pack_len =? 0) && (cache_size <? Z.to_nat pack_len)%nat then mret (Some package_counter)
  else
    package ← (if (Slice_size package <? Z.to_nat pack_len)%nat
               then b ← gets (fun s => cn_rcv_buffer (cs_cn s)); lift (GetHeader (Z.to_nat pack_len) b)
               else mret (Slice_PopBack (Slice_size package - Z.to_nat pack_len) package));
    _ ← service (CallDataReceived package);
    b ← gets (fun s => cn_rcv_buffer (cs_cn s));
    '(_, b) ← lift (MoveHeader (Z.to_nat pack_len) b);
    _ ← modify_cn (set_rcv b);
    mret None.

Fixpoint ParsingProtocol_loop (fuel : nat) (cache_size : nat) (package_counter : Z) : M (conn_state K) Z :=
  if (cache_size =? 0)%nat then mret package_counter
  else
    match fuel with
    | O => no_fuel
    | S fuel =>
        r ← parse_round cache_size package_counter;
        match r with
        | Some r => mret r
        | None =>
            cache_size ← gets (fun s => GetBufferLength (cn_rcv_buffer (cs_cn s)));
            ParsingProtocol_loop fuel cache_size (package_counter + 1)
        end
    end.

(** A round that makes progress takes at least a byte: as many rounds as bytes do. *)
Definition ParsingProtocol : M (conn_state K) Z :=
  cache_size ← gets (fun s => GetBufferLength (cn_rcv_buffer (cs_cn s)));
  ParsingProtocol_loop cache_size cache_size 0.

Definition buffer_size : Z := 8192.

(** The bytes [recv] filled of an uninitialised buffer. *)
Definition received (r : sysret) : list cell :=
  take (Z.to_nat (i32 (r_ret r)))
    ((Some <$> r_data r) ++ replicate (Z.to_nat buffer_size - length (r_data r)) None).

Definition would_block (e : Z) : bool := (e =? EINTR) || (e =? EWOULDBLOCK) || (e =? EAGAIN).

(** [fuel] bounds the number of reads that fill the whole buffer. *)
Fixpoint OnRecv (fuel : nat) : M (conn_state K) Z :=
  match fuel with
  | O => no_fuel
  | S fuel =>
      ep ← gets cs_ep;
      r ← sys (call (SysRecv (fd_int ep) buffer_size));
      let recv_bytes := i32 (r_ret r) in
      if recv_bytes =? 0 then mret (-1)
      else if recv_bytes <? 0 then
        e ← sys errno;
        mret (if would_block e then 0 else -1)
      else
        cn ← gets cs_cn;
        p ← (if negb (cn_proto cn) then
               _ ← service (CallDataReceived (Slice_ctor (received r))); mret 0
             else
               _ ← modify_cn (fun c => set_rcv (AddSlice (Slice_ctor (received r)) (cn_rcv_buffer c)) c);
               ParsingProtocol);
        if cn_proto cn && (p =? -1) then mret (-1)
        else if recv_bytes =? buffer_size then OnRecv fuel
        else mret 0
  end.

Definition DoRecvEvent (fuel : nat) : M (conn_state K) raptor_error :=
  result ← OnRecv fuel;
  if result =? 0 then
    ep ← gets cs_ep;
    cn ← gets cs_cn;
    _ ← sys (Poll_Modify (cn_recv_thread cn) (fd_int ep) (ei_connection_id ep) EV_IN);
    mret RAPTOR_ERROR_NONE
  else sys (RAPTOR_POSIX_ERROR "Connection:OnRecv").

(** ** Sending *)

(** Every round sends at least a byte of the buffer. *)
Fixpoint OnSend_loop (fuel : nat) : M (conn_state K) Z :=
  match fuel with
  | O => no_fuel
  | S fuel =>
      b ← gets (fun s => cn_snd_buffer (cs_cn s));
      slice ← lift (SliceBuffer_Front b);
      ep ← gets cs_ep;
      r ← sys (call (SysSend (fd_int ep) (Slice_bytes slice)));
      let slen := i32 (r_ret r) in
      if slen =? 0 then mret 0
      else if slen <? 0 then
        e ← sys errno;
        mret (if would_block e then -1 else 0)
      else
        '(_, b) ← lift (MoveHeader (Z.to_nat slen) b);
        _ ← modify_cn (set_snd b);
        if (0 <? SliceCount b)%nat then OnSend_loop fuel else mret 0
  end.

Definition OnSend : M (conn_state K) Z :=
  b ← gets (fun s => cn_snd_buffer (cs_cn s));
  if SliceBuffer_Empty b then mret 0
  else OnSend_loop (S (GetBufferLength b)).

Definition DoSendEvent : M (conn_state K) raptor_error :=
  result ← OnSend;
  if result =? -1 then
    ep ← gets cs_ep;
    cn ← gets cs_cn;
    _ ← sys (Poll_Modify (cn_send_thread cn) (fd_int ep) (ei_connection_id ep) EV_OUT);
    mret RAPTOR_ERROR_NONE
  else mret RAPTOR_ERROR_NONE.
End Methods.

(** ** Framing, abstractly

    [verdict check q] is what the handler's answer means for a receive buffer that
    holds the bytes [q], of which it is shown the first 1024; [split_stream] cuts a
    stream into packets until the handler waits or reports an error. *)

Section Framing.
Variable check : list cell -> Z.

Definition window (q : list cell) : list cell :=
  if (length q <=? header_size)%nat then q else take header_size q.

Inductive verdict_t : Type :=
  | VError
  | VWait
  | VSpin
  | VPacket (n : nat).

#[global] Instance verdict_eq_dec : EqDecision verdict_t.
Proof. solve_decision. Defined.

Definition verdict (q : list cell) : verdict_t :=
  let pack_len := check (window q) in
  if pack_len <? 0 then VError
  else if (pack_len =? 0) && (length q <=? header_size)%nat then VWait
  else if pack_len =? 0 then VSpin
  else if (length q <? Z.to_nat pack_len)%nat then VWait
  else VPacket (Z.to_nat pack_len).

Record split : Type := {
  sp_packets : list (list cell);
  sp_rest : list cell;
  sp_error : bool;
}.

Fixpoint split_loop (fuel : nat) (q : list cell) : split :=
  match q, fuel with
  | [], _ | _, O => {| sp_packets := []; sp_rest := q; sp_error := false |}
  | _, S fuel =>
      match verdict q with
      | VError => {| sp_packets := []; sp_rest := q; sp_error := true |}
      | VWait | VSpin => {| sp_packets := []; sp_rest := q; sp_error := false |}
      | VPacket n =>
          let r := split_loop fuel (drop n q) in
          {| sp_packets := take n q :: sp_packets r; sp_rest := sp_rest r; sp_error := sp_error r |}
      end
  end.

Definition split_stream (q : list cell) : split := split_loop (length q) q.

#[local] Arguments split_stream : simpl never.

(** The handler finds the length of a packet in the first 1024 bytes of a longer buffer. *)
Definition header_fits : Prop :=
  forall q, (header_size < length q)%nat -> check (take header_size q) <> 0.

(** The handler still waits for bytes when it has seen the whole window. *)
Definition spins (q : list cell) : Prop := verdict (sp_rest (split_stream q)) = VSpin.

Lemma verdict_packet_pos q n : verdict q = VPacket n -> (0 < n <= length q)%nat.
Proof.
  unfold verdict. destruct (Z.ltb_spec (check (window q)) 0); [done|].
  destruct (Z.eqb_spec (check (window q)) 0) as [Hz|Hz]; cbn [andb]; [by destruct (_ <=? _)%nat|].
  destruct (Nat.ltb_spec (length q) (Z.to_nat (check (window q)))); [done|]. intros [= <-]. lia.
Qed.

Lemma verdict_spin q :
  verdict q = VSpin <-> (header_size < length q)%nat /\ check (take header_size q) = 0.
Proof.
  unfold verdict, window. destruct (Nat.leb_spec (length q) header_size) as [Hl|Hl].
  - split; [|lia]. intros Hv. repeat case_match; done.
  - destruct (Z.ltb_spec (check (take header_size q)) 0); [split; [done|lia]|].
    destruct (Z.eqb_spec (check (take header_size q)) 0) as [Hz|Hz]; cbn [andb]; [done|].
    destruct (_ <? _)%nat; (split; [done|by intros []]).
Qed.

Lemma header_fits_spins q : header_fits -> ~ spins q.
Proof. intros Hh [Hl Hz]%verdict_spin. by apply (Hh _ Hl). Qed.

(** Any number of rounds from the length of the buffer on gives the same split. *)
Lemma split_loop_fuel fuel : forall q,
  (length q <= fuel)%nat -> split_loop fuel q = split_stream q.
Proof.
  assert (forall f g q, (length q <= f)%nat -> (length q <= g)%nat ->
    split_loop f q = split_loop g q) as Hfg; [|intros; apply Hfg; auto].
  induction f as [|f IH]; intros g q Hf Hg.
  { destruct q; [|cbn in Hf; lia]. by destruct g. }
  destruct q as [|x q]; [by destruct g|]. destruct g as [|g]; [cbn in Hg; lia|].
  cbn [split_loop]. destruct (verdict (x :: q)) as [| | |n] eqn:E; [done..|].
  apply verdict_packet_pos in E.
  rewrite (IH g) by (auto; rewrite length_drop; lia). done.
Qed.

Lemma split_stream_nonempty q : q <> [] ->
  split_stream q =
  match verdict q with
  | VError => {| sp_packets := []; sp_rest := q; sp_error := true |}
  | VWait | VSpin => {| sp_packets := []; sp_rest := q; sp_error := false |}
  | VPacket n =>
      let r := split_stream (drop n q) in
      {| sp_packets := take n q :: sp_packets r; sp_rest := sp_rest r; sp_error := sp_error r |}
  end.
Proof.
  intros Hq. destruct q as [|x q]; [done|]. unfold split_stream at 1. cbn [split_loop length].
  destruct (verdict (x :: q)) as [| | |n] eqn:E; [done..|].
  apply verdict_packet_pos in E.
  rewrite split_loop_fuel; [done|]. rewrite length_drop. cbn [length] in *. lia.
Qed.

(** Induction along the packets of a stream. *)
Lemma stream_ind (P : list cell -> Prop) :
  P [] ->
  (forall q, q <> [] -> (forall n, verdict q = VPacket n -> P (drop n q)) -> P q) ->
  forall q, P q.
Proof.
  intros H0 HS q. remember (length q) as l eqn:El. revert q El.
  induction l as [l IH] using lt_wf_ind. intros q ->.
  destruct (decide (q = [])) as [->|Hq]; [done|]. apply HS; [done|]. intros n Hn.
  apply verdict_packet_pos in Hn. eapply IH; [|done]. rewrite length_drop. lia.
Qed.

(** No byte is lost or moved by the cutting. *)
Lemma split_stream_concat q : mjoin (sp_packets (split_stream q)) ++ sp_rest (split_stream q) = q.
Proof.
  revert q. apply stream_ind; [done|]. intros q Hq IH.
  rewrite split_stream_nonempty by done. destruct (verdict q) as [| | |n] eqn:E; [done..|].
  cbn. rewrite <- app_assoc, IH by done. apply take_drop.
Qed.

(** The rest is cut no further. *)
Lemma split_rest_idem q :
  sp_error (split_stream q) = false ->
  split_stream (sp_rest (split_stream q)) =
    {| sp_packets := []; sp_rest := sp_rest (split_stream q); sp_error := false |}.
Proof.
  revert q. refine (stream_ind _ _ _); [done|]. intros q Hq IH.
  rewrite (split_stream_nonempty q) by done.
  destruct (verdict q) as [| | |n] eqn:E; [done|intros _; cbn [sp_rest]..|].
  - rewrite (split_stream_nonempty q) by done. by rewrite E.
  - rewrite (split_stream_nonempty q) by done. by rewrite E.
  - cbn. intros He. by apply IH.
Qed.

(** The answer of the handler on a prefix stands when more bytes follow it. *)
Definition prefix_stable : Prop :=
  forall d d', d `prefix_of` d' -> check d <> 0 -> check d' = check d.

Lemma window_prefix q x : window q `prefix_of` window (q ++ x).
Proof.
  unfold window. rewrite length_app.
  destruct (Nat.leb_spec (length q) header_size), (Nat.leb_spec (length q + length x) header_size);
    try lia.
  - by apply prefix_app_r.
  - rewrite take_app_ge by lia. by apply prefix_app_r.
  - rewrite take_app_le by lia. done.
Qed.

Lemma verdict_app q x : prefix_stable -> verdict q <> VWait -> verdict (q ++ x) = verdict q.
Proof.
  intros Hs Hv. destruct (decide (verdict q = VSpin)) as [E|Hspin].
  { rewrite E. apply verdict_spin in E as [Hl Hz]. apply verdict_spin.
    rewrite length_app, take_app_le by lia. split; [lia|done]. }
  pose proof (Hs _ _ (window_prefix q x)) as Hw. unfold verdict in *.
  destruct (Z.ltb_spec (check (window q)) 0) as [Hn|Hn].
  { rewrite Hw by lia. by rewrite (proj2 (Z.ltb_lt _ _) Hn). }
  destruct (Z.eqb_spec (check (window q)) 0) as [Hz|Hz]; cbn [andb] in *.
  { by destruct (length q <=? header_size)%nat. }
  rewrite Hw by done. rewrite (proj2 (Z.ltb_ge _ _) Hn), (proj2 (Z.eqb_neq _ _) Hz), length_app. cbn [andb].
  destruct (Nat.ltb_spec (length q) (Z.to_nat (check (window q)))) as [Hl|Hl]; [done|].
  by rewrite (proj2 (Nat.ltb_ge _ _)) by lia.
Qed.

(** Cutting a stream that goes on: the packets of its first part, then those of the
    rest of that part followed by what comes next. *)
Lemma split_stream_app q x :
  prefix_stable -> sp_error (split_stream q) = false ->
  split_stream (q ++ x) =
    let r := split_stream (sp_rest (split_stream q) ++ x) in
    {| sp_packets := sp_packets (split_stream q) ++ sp_packets r;
       sp_rest := sp_rest r; sp_error := sp_error r |}.
Proof.
  intros Hs. revert q. refine (stream_ind _ _ _).
  { intros _. change (split_stream []) with {| sp_packets := []; sp_rest := []; sp_error := false |}.
    cbn [app sp_packets sp_rest sp_error]. by destruct (split_stream x). }
  intros q Hq IH. rewrite (split_stream_nonempty q) by done.
  pose proof (verdict_app q x Hs) as Hv.
  destruct (verdict q) as [| | |n] eqn:E; [done|cbn [sp_rest]; intros _..|].
  1,2: cbn [app sp_packets]; by destruct (split_stream (q ++ x)).
  cbn. intros He. assert (q ++ x <> []) as Hqx by (by destruct q).
  rewrite (split_stream_nonempty (q ++ x) Hqx), Hv by done.
  pose proof (verdict_packet_pos q n E) as Hn.
  rewrite drop_app_le, take_app_le by lia. by rewrite (IH n).
Qed.

Lemma spins_no_error q : spins q -> sp_error (split_stream q) = false.
Proof.
  revert q. unfold spins. refine (stream_ind _ _ _); [done|]. intros q Hq IH.
  rewrite split_stream_nonempty by done.
  destruct (verdict q) as [| | |n] eqn:E; cbn [sp_rest sp_error]; rewrite ?E; [done..|]. by apply IH.
Qed.

(** A stream that makes the parser spin does so whatever follows. *)
Lemma spins_app q x : prefix_stable -> spins q -> spins (q ++ x).
Proof.
  intros Hs Hq. pose proof (spins_no_error _ Hq) as He. unfold spins in *. rewrite split_stream_app by done. cbn [sp_rest].
  assert (sp_rest (split_stream q) <> []) as Hne.
  { intros E. rewrite E in Hq. apply verdict_spin in Hq as [Hl _]. cbn in Hl. lia. }
  rewrite (split_stream_nonempty (_ ++ _)) by (by destruct (sp_rest _)).
  rewrite verdict_app, Hq by (try done; by rewrite Hq). cbn [sp_rest]. by rewrite verdict_app; rewrite ?Hq.
Qed.
End Framing.

(** ** The methods cut the stream *)

Section Receiving.
Context {K : Type} `{Kernel K} `{LibC}.
Variable OnCheckPackageLength : EndpointImpl -> list cell -> Z.

Lemma wp_sys {A} (m : M (os K) A) s Q :
  wp m (cs_os s) (fun a o => Q a {| cs_os := o; cs_ep := cs_ep s; cs_cn := cs_cn s; cs_out := cs_out s |}) ->
  wp (sys m) s Q.
Proof. intros HQ. unfold sys. apply wp_zoom, HQ. Qed.

Lemma wp_call c (o : os K) Q :
  (forall r k, sys_call (os_kernel o) c = (r, k) ->
    Q r {| os_kernel := k; os_errno := if r_ret r <? 0 then r_errno r else os_errno o;
           os_trace := os_trace o ++ [(c, r)] |}) ->
  wp (call c) o Q.
Proof. intros HQ. unfold wp, call. destruct (sys_call (os_kernel o) c) as [r k]. auto. Qed.

Lemma wp_lift {A} (x : outcome A) (s : conn_state K) Q : (exists a, x = Ret a /\ Q a s) -> wp (lift x) s Q.
Proof. intros (a & -> & HQ). done. Qed.

(** The bytes waiting to be cut. *)
Definition rcv_bytes (s : conn_state K) : list cell := sb_bytes (cn_rcv_buffer (cs_cn s)).
Definition snd_bytes (s : conn_state K) : list cell := sb_bytes (cn_snd_buffer (cs_cn s)).

Definition conn_wf (s : conn_state K) : Prop :=
  sb_wf (cn_rcv_buffer (cs_cn s)) /\ sb_wf (cn_snd_buffer (cs_cn s)).

(** A call that hands the container a slice that shows [d]. *)
Definition delivers (c : service_call) (d : list cell) : Prop :=
  exists m, c = CallDataReceived m /\ Slice_wf m /\ Slice_bytes m = d.

(** What receiving changes: the receive buffer and the calls made. *)
Definition after_parse (s : conn_state K) (packets : list (list cell)) (rest : list cell) (s' : conn_state K) : Prop :=
  exists b calls,
    s' = {| cs_os := cs_os s; cs_ep := cs_ep s; cs_cn := set_rcv b (cs_cn s); cs_out := cs_out s ++ calls |} /\
    sb_wf b /\ sb_bytes b = rest /\ Forall2 delivers calls packets.

Lemma after_parse_refl s : conn_wf s -> after_parse s [] (rcv_bytes s) s.
Proof.
  intros [Hr _]. exists (cn_rcv_buffer (cs_cn s)), []. rewrite app_nil_r.
  split; [by destruct s as [? ? []]|]. split; [done|]. split; [done|constructor].
Qed.

Lemma after_parse_nil s : conn_wf s -> rcv_bytes s = [] -> after_parse s [] [] s.
Proof. intros Hs E. pose proof (after_parse_refl s Hs) as Ha. by rewrite E in Ha. Qed.

Lemma after_parse_trans s p1 r1 s1 p2 r2 s2 :
  after_parse s p1 r1 s1 -> after_parse s1 p2 r2 s2 -> after_parse s (p1 ++ p2) r2 s2.
Proof.
  intros (b1 & c1 & -> & _ & _ & F1) (b2 & c2 & -> & Hw & Hb & F2). cbn in *.
  exists b2, (c1 ++ c2). rewrite <- app_assoc. split; [done|]. split; [done|]. split; [done|].
  by apply Forall2_app.
Qed.

Lemma after_parse_wf s p r s' : conn_wf s -> after_parse s p r s' -> conn_wf s' /\ rcv_bytes s' = r.
Proof. intros [_ Hs] (b & c & -> & Hw & Hb & _). by split; [split|]. Qed.

Lemma Read_spec s n Q :
  conn_wf s ->
  (forall m, Slice_wf m ->
    Slice_bytes m = (if (length (rcv_bytes s) <=? n)%nat then rcv_bytes s else take n (rcv_bytes s)) ->
    Q ((length (rcv_bytes s) <=? n)%nat, m) s) ->
  wp (ReadSliceFromRecvBuffer n) s Q.
Proof.
  intros [Hr _] HQ. unfold ReadSliceFromRecvBuffer. apply wp_bind, wp_gets.
  unfold GetBufferLength. rewrite (proj2 Hr). fold (rcv_bytes s).
  destruct (Nat.leb_spec (length (rcv_bytes s)) n) as [Hn|Hn].
  - destruct (Merge_spec _ Hr) as (m & Em & Hwf & Hb).
    apply wp_bind, wp_of_option. exists m. split; [done|]. apply wp_ret. by apply HQ.
  - destruct (GetHeader_spec n _ Hr) as (m & Em & Hwf & Hb).
    apply wp_bind, wp_lift. exists m. split; [done|]. apply wp_ret. apply HQ; [done|].
    etransitivity; [exact Hb|]. rewrite (proj2 Hr). fold (rcv_bytes s). by rewrite (proj2 (Nat.leb_le _ _)) by lia.
Qed.

(** The packet handed over after the handler gave its length. *)
Lemma package_spec (s : conn_state K) m n Q :
  conn_wf s -> Slice_wf m -> Slice_bytes m = window (rcv_bytes s) -> (n <= length (rcv_bytes s))%nat ->
  (forall p, Slice_wf p -> Slice_bytes p = take n (rcv_bytes s) -> Q p s) ->
  wp (if (Slice_size m <? n)%nat
      then b ← gets (fun s => cn_rcv_buffer (cs_cn s)); lift (GetHeader n b)
      else mret (Slice_PopBack (Slice_size m - n) m)) s Q.
Proof.
  intros [Hr _] Hm Hb Hn HQ. assert (Slice_size m = length (window (rcv_bytes s))) as Hsz
    by (rewrite <- Slice_length_bytes by done; by rewrite Hb).
  destruct (Nat.ltb_spec (Slice_size m) n) as [Hlt|Hge].
  - destruct (GetHeader_spec n _ Hr) as (p & Ep & Hwf & Hpb).
    apply wp_bind, wp_gets, wp_lift. exists p. split; [done|]. apply HQ; [done|].
    etransitivity; [exact Hpb|]. rewrite (proj2 Hr). fold (rcv_bytes s). by rewrite (proj2 (Nat.leb_le _ _)) by lia.
  - apply wp_ret, HQ; [by apply Slice_PopBack_wf|].
    rewrite Slice_PopBack_bytes, Hb by done.
    replace (Slice_size m - (Slice_size m - n))%nat with n by lia.
    unfold window in *. destruct (_ <=? _)%nat; [done|].
    rewrite take_take. f_equal. rewrite Hsz, length_take in Hge. lia.
Qed.

(** The end of a round: the packet is handed over and leaves the buffer. *)
Lemma hand_over_spec (s : conn_state K) p n :
  conn_wf s -> Slice_wf p -> Slice_bytes p = take n (rcv_bytes s) -> (n <= length (rcv_bytes s))%nat ->
  wp (_ ← service (CallDataReceived p);
      b ← gets (fun s => cn_rcv_buffer (cs_cn s));
      '(_, b) ← lift (MoveHeader n b);
      _ ← modify_cn (set_rcv b);
      mret (@None Z)) s (fun r (s' : conn_state K) =>
    cs_out s' = cs_out s ++ [CallDataReceived p] /\
    r = None /\ after_parse s [take n (rcv_bytes s)] (drop n (rcv_bytes s)) s').
Proof.
  intros Hs Hpw Hpb Hn. apply wp_bind, wp_modify, wp_bind, wp_gets. cbn [cs_cn cs_os cs_ep cs_out].
  destruct (MoveHeader_spec n _ (proj1 Hs)) as (b & Eb & Hbw & Hbb).
  rewrite (proj2 (proj1 Hs)) in Eb, Hbb. fold (rcv_bytes s) in Eb, Hbb.
  rewrite (proj2 (Nat.leb_le _ _)) in Eb, Hbb by lia.
  apply wp_bind, wp_lift. exists (true, b). split; [done|]. apply wp_bind, wp_modify, wp_ret.
  split; [done|]. split; [done|]. exists b, [CallDataReceived p]. cbn. split; [done|]. split; [done|]. split; [done|].
  constructor; [|constructor]. by exists p.
Qed.

Lemma parse_round_spec s counter :
  conn_wf s -> rcv_bytes s <> [] ->
  wp (parse_round OnCheckPackageLength (length (rcv_bytes s)) counter) s (fun r (s' : conn_state K) =>
    match verdict (OnCheckPackageLength (cs_ep s)) (rcv_bytes s) with
    | VError => r = Some (-1) /\ s' = s
    | VWait => r = Some counter /\ s' = s
    | VSpin => r = None /\ after_parse s [[]] (rcv_bytes s) s'
    | VPacket n => r = None /\ after_parse s [take n (rcv_bytes s)] (drop n (rcv_bytes s)) s'
    end).
Proof.
  intros Hs Hq. unfold parse_round. apply wp_bind, Read_spec; [done|]. intros m Hm Hb.
  fold (window (rcv_bytes s)) in Hb. apply wp_bind, wp_gets. unfold verdict. rewrite Hb.
  set (n := OnCheckPackageLength (cs_ep s) (window (rcv_bytes s))).
  destruct (Z.ltb_spec n 0) as [Hn|Hn]; [by apply wp_ret|].
  destruct (Z.eqb_spec n 0) as [Hz|Hz]; cbn [andb negb].
  - destruct (length (rcv_bytes s) <=? header_size)%nat; [by apply wp_ret|]. rewrite Hz.
    change (Z.to_nat 0) with O. apply wp_bind, (package_spec s m 0); [done..|lia|]. intros p Hpw Hpb.
    eapply wp_mono; [apply (hand_over_spec s p 0); [done..|lia]|].
    intros r s' [_ Hr]. by rewrite drop_0 in Hr.
  - destruct (Nat.ltb_spec (length (rcv_bytes s)) (Z.to_nat n)); [by apply wp_ret|].
    apply wp_bind, (package_spec s m); [done..|]. intros p Hpw Hpb. eapply wp_mono; [by apply hand_over_spec|]. by intros r s' [_ ?].
Qed.

(** What [ParsingProtocol] returns: the number of packets, or -1. *)
Definition parse_result (r : split) (counter : Z) : Z :=
  if sp_error r then -1 else counter + Z.of_nat (length (sp_packets r)).

(** The parser ends on the streams that do not make it spin, within as many rounds as
    there are bytes, and on no other. *)
Lemma ParsingProtocol_loop_spec fuel : forall s counter,
  conn_wf s -> ~ spins (OnCheckPackageLength (cs_ep s)) (rcv_bytes s) -> (length (rcv_bytes s) <= fuel)%nat ->
  let r := split_stream (OnCheckPackageLength (cs_ep s)) (rcv_bytes s) in
  wp (ParsingProtocol_loop OnCheckPackageLength fuel (length (rcv_bytes s)) counter) s (fun x s' =>
    x = parse_result r counter /\ after_parse s (sp_packets r) (sp_rest r) s').
Proof.
  induction fuel as [|fuel IH]; intros s counter Hs Hh Hf; cbn [ParsingProtocol_loop].
  - destruct (rcv_bytes s) as [|x q] eqn:E; [|cbn in Hf; lia]. apply wp_ret.
    split; [unfold parse_result; cbn; lia|]. by apply after_parse_nil.
  - destruct (decide (rcv_bytes s = [])) as [Hq|Hq].
    { rewrite Hq. apply wp_ret. split; [unfold parse_result; cbn; lia|]. by apply after_parse_nil. }
    unfold spins in Hh. rewrite split_stream_nonempty in * by done.
    assert ((length (rcv_bytes s) =? 0)%nat = false) as ->
      by (apply Nat.eqb_neq; by destruct (rcv_bytes s)).
    apply wp_bind. eapply wp_mono; [by apply parse_round_spec|]. intros x s'.
    pose proof (verdict_packet_pos (OnCheckPackageLength (cs_ep s)) (rcv_bytes s)) as Hp.
    destruct (verdict _ (rcv_bytes s)) as [| | |n] eqn:Ev.
    + intros [-> ->]. apply wp_ret. split; [done|]. by apply after_parse_refl.
    + intros [-> ->]. apply wp_ret. split; [unfold parse_result; cbn; lia|]. by apply after_parse_refl.
    + by destruct Hh.
    + intros [-> Ha]. specialize (Hp _ eq_refl).
      destruct (after_parse_wf _ _ _ _ Hs Ha) as [Hs' Hr'].
      assert (cs_ep s' = cs_ep s) as Hep by (destruct Ha as (? & ? & -> & _); done).
      apply wp_bind, wp_gets. unfold GetBufferLength. rewrite (proj2 (proj1 Hs')). fold (rcv_bytes s').
      eapply wp_mono; [apply IH; [done|by rewrite Hep, Hr'|rewrite Hr', length_drop; lia]|].
      rewrite Hep, Hr'. intros x s'' [-> Ha']. split.
      * unfold parse_result. cbn [sp_error sp_packets]. destruct (sp_error _); [done|]. cbn. lia.
      * cbn. by apply (after_parse_trans s _ _ s' _ _ s'' Ha).
Qed.

Lemma ParsingProtocol_spec s :
  conn_wf s -> ~ spins (OnCheckPackageLength (cs_ep s)) (rcv_bytes s) ->
  let r := split_stream (OnCheckPackageLength (cs_ep s)) (rcv_bytes s) in
  wp (ParsingProtocol OnCheckPackageLength) s (fun x s' =>
    x = parse_result r 0 /\ after_parse s (sp_packets r) (sp_rest r) s').
Proof.
  intros Hs Hh. unfold ParsingProtocol. apply wp_bind, wp_gets.
  unfold GetBufferLength. rewrite (proj2 (proj1 Hs)). fold (rcv_bytes s).
  by apply ParsingProtocol_loop_spec.
Qed.

Lemma ParsingProtocol_loop_spins fuel : forall s counter,
  conn_wf s -> spins (OnCheckPackageLength (cs_ep s)) (rcv_bytes s) ->
  ParsingProtocol_loop OnCheckPackageLength fuel (length (rcv_bytes s)) counter s = NoFuel.
Proof.
  induction fuel as [|fuel IH]; intros s counter Hs Hh.
  all: assert (rcv_bytes s <> []) as Hq by
    (intros E; rewrite E in Hh; apply verdict_spin in Hh as [Hl _]; cbn in Hl; lia).
  all: assert ((length (rcv_bytes s) =? 0)%nat = false) as Hl by (apply Nat.eqb_neq; by destruct (rcv_bytes s)).
  all: cbn [ParsingProtocol_loop]; rewrite Hl.
  { done. }
  pose proof (parse_round_spec s counter Hs Hq) as Hround. unfold wp in Hround. unfold mbind, M_bind.
  destruct (parse_round _ _ _ s) as [[r s']| | |]; [|done..].
  assert (r = None /\ exists pks q, after_parse s pks q s' /\
    spins (OnCheckPackageLength (cs_ep s)) q) as (-> & pks & q & Ha & Hq').
  { unfold spins in *. rewrite split_stream_nonempty in Hh by done.
    destruct (verdict _ (rcv_bytes s)) as [| | |n] eqn:Ev; cbn [sp_rest] in Hh; rewrite ?Ev in Hh; try done.
    - destruct Hround as [-> Ha]. split; [done|]. do 2 eexists. split; [exact Ha|].
      rewrite split_stream_nonempty, Ev by done. done.
    - destruct Hround as [-> Ha]. split; [done|]. by do 2 eexists. }
  destruct (after_parse_wf _ _ _ _ Hs Ha) as [Hs' Hr'].
  assert (cs_ep s' = cs_ep s) as Hep by (destruct Ha as (? & ? & -> & _); done).
  unfold gets, GetBufferLength. rewrite (proj2 (proj1 Hs')). fold (rcv_bytes s').
  apply IH; [done|]. by rewrite Hep, Hr'.
Qed.
End Receiving.

(** ** Properties of receiving *)

(** What [recv] and [send] are documented to return: -1 and an error, or a count of at
    most what was asked for, [recv] then having written that many bytes, and [send] at most
    0x7ffff000 (Linux transfers no more in one call). *)
Class KernelIO (K : Type) `{Kernel K} : Prop := {
  recv_result k fd len : 0 <= len -> -1 <= r_ret (sys_call k (SysRecv fd len)).1 <= len;
  recv_data k fd len : 0 <= r_ret (sys_call k (SysRecv fd len)).1 ->
    Z.of_nat (length (r_data (sys_call k (SysRecv fd len)).1)) = r_ret (sys_call k (SysRecv fd len)).1;
  send_result k fd d : -1 <= r_ret (sys_call k (SysSend fd d)).1 <= Z.min 0x7ffff000 (Z.of_nat (length d));
}.

(** The bytes the successful reads of a trace brought in. *)
Definition received_by (e : syscall * sysret) : list cell :=
  match e.1 with
  | SysRecv _ _ => if 0 <? r_ret e.2 then Some <$> r_data e.2 else []
  | _ => []
  end.

Definition bytes_received (t : list (syscall * sysret)) : list cell := mjoin (received_by <$> t).

Lemma bytes_received_app t t' : bytes_received (t ++ t') = bytes_received t ++ bytes_received t'.
Proof. unfold bytes_received. by rewrite fmap_app, join_app. Qed.

Lemma bytes_received_cons e t : bytes_received (e :: t) = received_by e ++ bytes_received t.
Proof. done. Qed.

(** Within [n] reads the kernel gives one that does not fill the buffer. *)
Fixpoint short_within {K} `{Kernel K} (n : nat) (fd : Z) (k : K) : Prop :=
  match n with
  | O => False
  | S n =>
      let '(r, k') := sys_call k (SysRecv fd buffer_size) in
      r_ret r <> buffer_size \/ short_within n fd k'
  end.

(** The bytes at most [n] reads of one event bring: it goes on while the buffer is filled. *)
Fixpoint event_bytes {K} `{Kernel K} (n : nat) (fd : Z) (k : K) : list cell :=
  match n with
  | O => []
  | S n =>
      let '(r, k') := sys_call k (SysRecv fd buffer_size) in
      received_by (SysRecv fd buffer_size, r) ++ (if r_ret r =? buffer_size then event_bytes n fd k' else [])
  end.

Section RecvProperties.
Context {K : Type} `{Kernel K} `{!KernelIO K} `{LibC}.
Variable OnCheckPackageLength : EndpointImpl -> list cell -> Z.

Lemma received_all (r : sysret) :
  0 <= r_ret r <= buffer_size -> Z.of_nat (length (r_data r)) = r_ret r -> received r = Some <$> r_data r.
Proof.
  intros Hr Hl. unfold received. unfold i32. rewrite swrap_small by (unfold buffer_size in *; lia).
  rewrite take_app_le by (rewrite length_fmap; lia).
  rewrite take_ge; [done|]. rewrite length_fmap. lia.
Qed.

(** The buffer holds no packet the handler would recognise. *)
Definition waiting (s : conn_state K) : Prop :=
  split_stream (OnCheckPackageLength (cs_ep s)) (rcv_bytes s) =
    {| sp_packets := []; sp_rest := rcv_bytes s; sp_error := false |}.

(** What a call of [OnRecv] did: the trace it left, the packets it delivered. *)
Definition recv_post (s : conn_state K) (x : Z) (s' : conn_state K) : Prop :=
  exists t calls,
    os_trace (cs_os s') = os_trace (cs_os s) ++ t /\
    cs_ep s' = cs_ep s /\ conn_wf s' /\ (exists b, cs_cn s' = set_rcv b (cs_cn s)) /\
    cs_out s' = cs_out s ++ calls /\
    let r := split_stream (OnCheckPackageLength (cs_ep s)) (rcv_bytes s ++ bytes_received t) in
    Forall2 delivers calls (sp_packets r) /\ rcv_bytes s' = sp_rest r /\
    (x = 0 \/ x = -1) /\ (sp_error r = true -> x = -1) /\ (x = 0 -> waiting s').

Lemma recv_stops s x r k e c :
  conn_wf s -> waiting s -> x = 0 \/ x = -1 -> received_by (c, r) = [] ->
  recv_post s x {| cs_os := {| os_kernel := k; os_errno := e; os_trace := os_trace (cs_os s) ++ [(c, r)] |};
                   cs_ep := cs_ep s; cs_cn := cs_cn s; cs_out := cs_out s |}.
Proof using Type.
  intros Hs Hw Hx Hr. exists [(c, r)], []. rewrite app_nil_r. split_and!; try done.
  { exists (cn_rcv_buffer (cs_cn s)). by destruct s as [? ? []]. }
  rewrite bytes_received_cons, Hr. cbn. rewrite !app_nil_r, Hw. cbn.
  split_and!; [constructor|done|done|done|]. by intros _.
Qed.

Lemma recv_post_trans s s1 x s2 :
  prefix_stable (OnCheckPackageLength (cs_ep s)) ->
  recv_post s 0 s1 -> recv_post s1 x s2 -> recv_post s x s2.
Proof using Type.
  intros Hst (t1 & calls1 & Ht1 & Hep & _ & [b1 Hb1] & Hout & Hc1 & Hr1 & _ & He1 & _).
  intros (t2 & calls2 & Ht2 & Hep2 & Hs2 & [b2 Hb2] & Hout2 & Hrec).
  exists (t1 ++ t2), (calls1 ++ calls2).
  split; [by rewrite Ht2, Ht1, app_assoc|]. split; [by rewrite Hep2|]. split; [done|].
  split; [exists b2; by rewrite Hb2, Hb1|]. split; [by rewrite Hout2, Hout, app_assoc|].
  rewrite bytes_received_app, app_assoc.
  set (r1 := split_stream _ (rcv_bytes s ++ bytes_received t1)) in *.
  assert (sp_error r1 = false) as He by (destruct (sp_error r1); [by specialize (He1 eq_refl)|done]).
  rewrite split_stream_app by done. fold r1. cbn [sp_packets sp_rest sp_error].
  rewrite Hep, Hr1 in Hrec. destruct Hrec as (Hc & Hrest).
  split; [by apply Forall2_app|]. done.
Qed.

Lemma recv_post_error s x s' : recv_post s x s' -> x = 0 -> waiting s'.
Proof using Type. intros (t & calls & _ & _ & _ & _ & _ & _ & _ & _ & _ & Hw). exact Hw. Qed.

(** Parsing what a read brought. *)
Lemma parse_read s c r k e d :
  conn_wf s -> ~ spins (OnCheckPackageLength (cs_ep s)) (rcv_bytes s ++ d) -> received_by (c, r) = d ->
  let s1 := {| cs_os := {| os_kernel := k; os_errno := e; os_trace := os_trace (cs_os s) ++ [(c, r)] |};
               cs_ep := cs_ep s; cs_cn := set_rcv (AddSlice (Slice_ctor d) (cn_rcv_buffer (cs_cn s))) (cs_cn s);
               cs_out := cs_out s |} in
  wp (ParsingProtocol OnCheckPackageLength) s1 (fun x s2 =>
    recv_post s (if x =? -1 then -1 else 0) s2 /\ cs_os s2 = cs_os s1 /\ cs_ep s2 = cs_ep s).
Proof using Type.
  intros Hs Hh Hd s1. assert (conn_wf s1) as Hs1.
  { split; [|apply Hs]. cbn. apply AddSlice_wf; [apply Slice_ctor_wf|apply Hs]. }
  assert (rcv_bytes s1 = rcv_bytes s ++ d) as Hb1.
  { unfold rcv_bytes, s1. cbn [cs_cn set_rcv cn_rcv_buffer]. rewrite AddSlice_bytes. f_equal. apply Slice_ctor_bytes. }
  eapply wp_mono; [apply ParsingProtocol_spec; [done|by rewrite Hb1]|]. cbv zeta. rewrite Hb1.
  change (cs_ep s1) with (cs_ep s). intros x s2 [-> Ha].
  destruct (after_parse_wf _ _ _ _ Hs1 Ha) as [Hs2 Hr2]. destruct Ha as (b & calls & Es2 & Hwb & Hbb & Hcalls).
  set (r1 := split_stream (OnCheckPackageLength (cs_ep s)) (rcv_bytes s ++ d)) in *.
  assert ((parse_result r1 0 =? -1) = sp_error r1) as ->.
  { unfold parse_result. destruct (sp_error r1); [done|]. apply Z.eqb_neq. lia. }
  split; [|by rewrite Es2]. rewrite Es2. exists [(c, r)], calls.
  split_and!; try done; [by rewrite Es2 in Hs2|by eexists|].
  rewrite bytes_received_cons, Hd. change (bytes_received []) with (@nil cell). rewrite app_nil_r.
  fold r1. split_and!; [done|done|by destruct (sp_error r1); auto|by intros ->|].
  intros Hx. assert (sp_error r1 = false) as He by (by destruct (sp_error r1)).
  unfold waiting. unfold rcv_bytes. cbn. rewrite Hbb. by apply split_rest_idem.
Qed.

(** One receive event, on a kernel that brings nothing to spin on. *)
Lemma OnRecv_event fuel : forall s,
  conn_wf s -> cn_proto (cs_cn s) = true -> waiting s -> prefix_stable (OnCheckPackageLength (cs_ep s)) ->
  ~ spins (OnCheckPackageLength (cs_ep s))
      (rcv_bytes s ++ event_bytes fuel (fd_int (cs_ep s)) (os_kernel (cs_os s))) ->
  short_within fuel (fd_int (cs_ep s)) (os_kernel (cs_os s)) ->
  wp (OnRecv OnCheckPackageLength fuel) s (fun x s' => recv_post s x s' /\
    exists t, os_trace (cs_os s') = os_trace (cs_os s) ++ t /\
      bytes_received t `prefix_of` event_bytes fuel (fd_int (cs_ep s)) (os_kernel (cs_os s))).
Proof.
  induction fuel as [|fuel IH]; intros s Hs Hp Hw Hst Hh Hk; [done|]. cbn [OnRecv].
  apply wp_bind, wp_gets, wp_bind, wp_sys, wp_call. intros r k Er.
  cbn [short_within event_bytes] in Hk, Hh |- *. rewrite Er in Hk, Hh |- *.
  pose proof (recv_result (os_kernel (cs_os s)) (fd_int (cs_ep s)) buffer_size ltac:(done)) as Hr.
  pose proof (recv_data (os_kernel (cs_os s)) (fd_int (cs_ep s)) buffer_size) as Hd.
  rewrite Er in Hr, Hd. cbn [fst] in Hr, Hd.
  assert (i32 (r_ret r) = r_ret r) as -> by (apply swrap_small; unfold buffer_size in *; lia).
  set (d := received_by (SysRecv (fd_int (cs_ep s)) buffer_size, r)) in *.
  assert (bytes_received [(SysRecv (fd_int (cs_ep s)) buffer_size, r)] = d) as Hd1
    by (rewrite bytes_received_cons; apply app_nil_r).
  set (rest := if r_ret r =? buffer_size then _ else _) in *.
  assert (r_ret r <= 0 -> d = []) as Hnone.
  { intros Hn. unfold d, received_by. cbn. by rewrite (proj2 (Z.ltb_ge _ _) Hn). }
  destruct (Z.eqb_spec (r_ret r) 0) as [Hz|Hz].
  { apply wp_ret. split; [apply recv_stops; [done|done|by right|apply Hnone; lia]|].
    eexists. split; [done|]. rewrite Hd1. by apply prefix_app_r. }
  destruct (Z.ltb_spec (r_ret r) 0) as [Hn|Hn].
  { apply wp_bind, wp_sys, wp_gets, wp_ret. cbn [cs_os cs_ep cs_cn cs_out os_trace os_kernel].
    split; [apply recv_stops; [done|done| |apply Hnone; lia]; destruct (would_block _); auto|].
    eexists. split; [done|]. rewrite Hd1. by apply prefix_app_r. }
  specialize (Hd Hn). rewrite received_all by lia.
  assert (d = Some <$> r_data r) as <-.
  { unfold d, received_by. cbn. by rewrite (proj2 (Z.ltb_lt _ _)) by lia. }
  apply wp_bind, wp_gets. cbn [cs_cn]. rewrite Hp. cbn [negb].
  apply wp_bind, wp_bind, wp_modify. cbn [cs_cn cs_os cs_ep cs_out].
  rewrite app_assoc in Hh. assert (forall l, bytes_received ([(SysRecv (fd_int (cs_ep s)) buffer_size, r)] ++ l) =
    d ++ bytes_received l) as Hcat by (intros l; by rewrite bytes_received_app, Hd1).
  eapply wp_mono; [eapply parse_read; [done|intros Hsp; by apply Hh, spins_app|done]|].
  intros x s2 (Hpost & Eos & Eep).
  assert (exists t, os_trace (cs_os s2) = os_trace (cs_os s) ++ t /\ bytes_received t `prefix_of` d ++ rest) as Htr.
  { eexists. rewrite Eos. split; [done|]. rewrite Hd1. by apply prefix_app_r. }
  destruct (x =? -1); cbn [andb]; [by apply wp_ret|].
  destruct (Z.eqb_spec (r_ret r) buffer_size) as [Hfull|Hfull]; [|by apply wp_ret].
  destruct Hk as [Hk|Hk]; [done|]. unfold rest in *.
  pose proof Hpost as (tp & cp & Htp & _ & Hwf2 & [b2 Hb2] & _ & _ & Hr2 & _ & He2 & Hw2).
  specialize (Hw2 eq_refl). rewrite Eos in Htp. apply app_inv_head in Htp as <-. rewrite Hd1 in Hr2, He2.
  eapply wp_mono; [apply IH; rewrite ?Eep, ?Eos; cbn [os_kernel]; try done|].
  - by rewrite Hb2.
  - rewrite Hr2. intros Hsp. apply Hh. unfold spins in *. rewrite split_stream_app; [done|done|].
    destruct (sp_error _); [by specialize (He2 eq_refl)|done].
  - intros y s3 [Hpost3 (t & Et & Hpre)]. split; [by eapply recv_post_trans|]. rewrite Et, Eos. cbn [cs_os os_trace].
    rewrite <- app_assoc.
    eexists. split; [done|]. rewrite Hcat. apply prefix_app. by rewrite Eep, Eos in Hpre.
Qed.

Lemma OnRecv_spec fuel : forall s,
  conn_wf s -> cn_proto (cs_cn s) = true -> waiting s ->
  header_fits (OnCheckPackageLength (cs_ep s)) -> prefix_stable (OnCheckPackageLength (cs_ep s)) ->
  short_within fuel (fd_int (cs_ep s)) (os_kernel (cs_os s)) ->
  wp (OnRecv OnCheckPackageLength fuel) s (recv_post s).
Proof.
  intros s Hs Hp Hw Hh Hst Hk. eapply wp_mono; [apply OnRecv_event; try done|by intros x s' []].
  by apply header_fits_spins.
Qed.
End RecvProperties.

(** Receive events one after the other, until one reports an error. *)
Fixpoint recv_events {K} `{Kernel K} (check : EndpointImpl -> list cell -> Z) (fuel n : nat) :
    M (conn_state K) Z :=
  match n with
  | O => mret 0
  | S n => x ← OnRecv check fuel; if x =? 0 then recv_events check fuel n else mret x
  end.

Section RecvTheorems.
Context {K : Type} `{Kernel K} `{!KernelIO K} `{LibC}.
Variable OnCheckPackageLength : EndpointImpl -> list cell -> Z.

Lemma recv_events_spec fuel n : forall s,
  conn_wf s -> cn_proto (cs_cn s) = true -> waiting OnCheckPackageLength s ->
  header_fits (OnCheckPackageLength (cs_ep s)) -> prefix_stable (OnCheckPackageLength (cs_ep s)) ->
  (forall k, short_within fuel (fd_int (cs_ep s)) k) ->
  wp (recv_events OnCheckPackageLength fuel n) s (fun x s' => recv_post OnCheckPackageLength s x s').
Proof using KernelIO0.
  induction n as [|n IH]; intros s Hs Hp Hw Hh Hst Hk; cbn [recv_events].
  { apply wp_ret. exists [], []. rewrite !app_nil_r. split_and!; try done.
    - exists (cn_rcv_buffer (cs_cn s)). by destruct s as [? ? []].
    - rewrite Hw. split_and!; [constructor|done|by left|done|done]. }
  apply wp_bind. eapply wp_mono; [by apply OnRecv_spec|]. intros x s1 H1.
  destruct (Z.eqb_spec x 0) as [->|Hx]; [|by apply wp_ret].
  assert (cs_ep s1 = cs_ep s) as Hep by (by destruct H1 as (? & ? & _ & ? & _)).
  eapply wp_mono; [apply IH; rewrite ?Hep; try done|].
  - by destruct H1 as (? & ? & _ & _ & ? & _).
  - destruct H1 as (? & ? & _ & _ & _ & [b Hb] & _). by rewrite Hb.
  - by eapply recv_post_error.
  - intros y s2. by apply recv_post_trans.
Qed.

(** C1. The receive path cuts the byte stream into the handler's packets, however the
    bytes arrive.  For a handler that finds the length of a packet within 1024 bytes
    and whose answers stand when more bytes follow, any number of receive events on
    any kernel return, and what they deliver to the container are exactly the packets
    of the whole stream (what the buffer held, then all the bytes the reads brought),
    in order, while the incomplete rest stays in the buffer: the segmentation of the
    stream into reads and events does not matter. *)
Theorem recv_frames_stream (fuel n : nat) (s : conn_state K) :
  conn_wf s -> cn_proto (cs_cn s) = true -> waiting OnCheckPackageLength s ->
  header_fits (OnCheckPackageLength (cs_ep s)) -> prefix_stable (OnCheckPackageLength (cs_ep s)) ->
  (forall k, short_within fuel (fd_int (cs_ep s)) k) ->
  exists x s' t calls, recv_events OnCheckPackageLength fuel n s = Ret (x, s') /\
    os_trace (cs_os s') = os_trace (cs_os s) ++ t /\ cs_out s' = cs_out s ++ calls /\
    let r := split_stream (OnCheckPackageLength (cs_ep s)) (rcv_bytes s ++ bytes_received t) in
    Forall2 delivers calls (sp_packets r) /\ rcv_bytes s' = sp_rest r /\
    mjoin (sp_packets r) ++ sp_rest r = rcv_bytes s ++ bytes_received t /\
    (sp_error r = true -> x = -1).
Proof using KernelIO0.
  intros Hs Hp Hw Hh Hst Hk. pose proof (recv_events_spec fuel n s Hs Hp Hw Hh Hst Hk) as Hwp.
  unfold wp in Hwp. destruct (recv_events _ _ _ s) as [[x s']| | |]; [|done..].
  destruct Hwp as (t & calls & Ht & _ & _ & _ & Hout & Hc & Hr & _ & He & _).
  exists x, s', t, calls. do 4 (split; [done|]). split; [done|]. split; [|done].
  by apply split_stream_concat.
Qed.

(** A handler that needs more than 1024 bytes to find the length of a packet makes
    [ParsingProtocol] spin: each round hands the container an empty message, removes
    nothing from the buffer, and leads to the same state again, for any number of
    rounds. *)
Theorem parsing_protocol_livelock (s : conn_state K) (fuel : nat) (counter : Z) :
  conn_wf s -> (header_size < length (rcv_bytes s))%nat ->
  OnCheckPackageLength (cs_ep s) (take header_size (rcv_bytes s)) = 0 ->
  ParsingProtocol_loop OnCheckPackageLength fuel (length (rcv_bytes s)) counter s = NoFuel /\
  exists m s', parse_round OnCheckPackageLength (length (rcv_bytes s)) counter s = Ret (None, s') /\
    cs_out s' = cs_out s ++ [CallDataReceived m] /\ Slice_bytes m = [] /\ rcv_bytes s' = rcv_bytes s.
Proof using Type.
  intros Hs Hl Hz.
  assert (verdict (OnCheckPackageLength (cs_ep s)) (rcv_bytes s) = VSpin) as Hv by (by apply verdict_spin).
  assert (rcv_bytes s <> []) as Hq by (intros E; rewrite E in Hl; cbn in Hl; lia).
  split; [apply ParsingProtocol_loop_spins; [done|]; unfold spins; rewrite split_stream_nonempty, Hv by done; done|].
  pose proof (parse_round_spec OnCheckPackageLength s counter Hs Hq) as Hround. unfold wp in Hround. rewrite Hv in Hround.
  destruct (parse_round _ _ _ s) as [[r s']| | |]; [|done..].
  destruct Hround as (-> & b & calls & -> & Hwf & Hb & Hc).
  inversion Hc as [|c d cs ds (m & -> & Hm & Hmb) Hnil]; subst. inversion Hnil; subst.
  do 2 eexists. split; [done|]. split; [done|]. split; [by rewrite Hmb|done].
Qed.

(** C15. The parser ends exactly on the buffers in which the handler does not wait for more
    than the 1024 bytes it is shown: then it returns, within as many rounds as there
    are bytes, with the packets of the buffer delivered and the number of them or -1
    as its result; on any other buffer it is still running after any number of rounds. *)
Theorem parsing_protocol_ends (s : conn_state K) :
  conn_wf s ->
  let check := OnCheckPackageLength (cs_ep s) in
  let r := split_stream check (rcv_bytes s) in
  (~ spins check (rcv_bytes s) ->
    exists s', ParsingProtocol OnCheckPackageLength s = Ret (parse_result r 0, s') /\
      after_parse s (sp_packets r) (sp_rest r) s') /\
  (spins check (rcv_bytes s) -> forall fuel counter,
    ParsingProtocol_loop OnCheckPackageLength fuel (length (rcv_bytes s)) counter s = NoFuel).
Proof using Type.
  intros Hs check r. split; [|intros; by apply ParsingProtocol_loop_spins].
  intros Hh. pose proof (ParsingProtocol_spec OnCheckPackageLength s Hs Hh) as Hwp. unfold wp in Hwp.
  destruct (ParsingProtocol _ s) as [[x s']| | |]; [|done..]. destruct Hwp as [-> Ha]. by exists s'.
Qed.
End RecvTheorems.

(** ** Sending *)

(** The bytes the kernel took. *)
Definition sent_by (e : syscall * sysret) : list cell :=
  match e.1 with
  | SysSend _ d => if 0 <? r_ret e.2 then take (Z.to_nat (r_ret e.2)) d else []
  | _ => []
  end.

Definition bytes_sent (t : list (syscall * sysret)) : list cell := mjoin (sent_by <$> t).

Lemma bytes_sent_app t t' : bytes_sent (t ++ t') = bytes_sent t ++ bytes_sent t'.
Proof. unfold bytes_sent. by rewrite fmap_app, join_app. Qed.

(** The socket took some bytes, or asked to be tried again. *)
Definition socket_ok (e : syscall * sysret) : bool :=
  match e.1 with
  | SysSend _ _ => (0 <? r_ret e.2) || ((r_ret e.2 <? 0) && would_block (r_errno e.2))
  | _ => true
  end.

Section Sending.
Context {K : Type} `{Kernel K} `{!KernelIO K}.

(** What a call of [OnSend] did. *)
Definition send_post (s : conn_state K) (x : Z) (s' : conn_state K) : Prop :=
  exists t, os_trace (cs_os s') = os_trace (cs_os s) ++ t /\
    cs_ep s' = cs_ep s /\ cs_out s' = cs_out s /\ conn_wf s' /\
    (exists b, cs_cn s' = set_snd b (cs_cn s)) /\
    bytes_sent t ++ snd_bytes s' = snd_bytes s /\
    (x = 0 \/ x = -1) /\
    (forallb socket_ok t = true -> if x =? 0 then snd_bytes s' = [] else sb_vs (cn_snd_buffer (cs_cn s')) <> []).

Lemma send_stops s x d r k e :
  conn_wf s -> x = 0 \/ x = -1 -> r_ret r <= 0 ->
  (socket_ok (SysSend d.1 d.2, r) = true -> x = -1) -> sb_vs (cn_snd_buffer (cs_cn s)) <> [] ->
  send_post s x {| cs_os := {| os_kernel := k; os_errno := e; os_trace := os_trace (cs_os s) ++ [(SysSend d.1 d.2, r)] |};
                   cs_ep := cs_ep s; cs_cn := cs_cn s; cs_out := cs_out s |}.
Proof using Type.
  intros Hs Hx Hr Hok Hne. exists [(SysSend d.1 d.2, r)].
  split; [done|]. split; [done|]. split; [done|]. split; [done|]. split.
  { exists (cn_snd_buffer (cs_cn s)). by destruct s as [? ? []]. }
  split. { unfold bytes_sent, sent_by. cbn. by rewrite (proj2 (Z.ltb_ge _ _) Hr). }
  split; [done|]. cbn [forallb]. intros Hf%andb_prop. by rewrite (Hok (proj1 Hf)).
Qed.

Lemma send_post_trans s t1 b s1 x s2 :
  os_trace (cs_os s1) = os_trace (cs_os s) ++ t1 -> cs_ep s1 = cs_ep s -> cs_out s1 = cs_out s ->
  cs_cn s1 = set_snd b (cs_cn s) -> bytes_sent t1 ++ snd_bytes s1 = snd_bytes s ->
  send_post s1 x s2 -> send_post s x s2.
Proof using Type.
  intros Ht Hep Ho Hc Hb (t2 & Ht2 & Hep2 & Ho2 & Hw & [b2 Hc2] & Hb2 & Hx & Hf).
  exists (t1 ++ t2). split; [by rewrite Ht2, Ht, app_assoc|]. split; [by rewrite Hep2|].
  split; [by rewrite Ho2|]. split; [done|]. split; [exists b2; by rewrite Hc2, Hc|].
  split; [by rewrite bytes_sent_app, <- app_assoc, Hb2|]. split; [done|].
  rewrite forallb_app. by intros [_ Hf2]%andb_prop; apply Hf.
Qed.

Lemma OnSend_loop_spec fuel : forall s,
  conn_wf s -> sb_vs (cn_snd_buffer (cs_cn s)) <> [] -> (length (snd_bytes s) < fuel)%nat ->
  wp (OnSend_loop fuel) s (send_post s).
Proof.
  induction fuel as [|fuel IH]; intros s Hs Hne Hf; [lia|]. cbn [OnSend_loop].
  destruct (sb_vs (cn_snd_buffer (cs_cn s))) as [|f vs] eqn:Ev; [done|].
  apply wp_bind, wp_gets, wp_bind, wp_lift. exists f. unfold SliceBuffer_Front. rewrite Ev. split; [done|].
  apply wp_bind, wp_gets, wp_bind, wp_sys, wp_call. intros r k Er.
  pose proof (send_result (os_kernel (cs_os s)) (fd_int (cs_ep s)) (Slice_bytes f)) as Hr.
  rewrite Er in Hr. cbn [fst] in Hr.
  assert (snd_bytes s = Slice_bytes f ++ vs_bytes vs) as Hsb.
  { unfold snd_bytes, sb_bytes. by rewrite Ev, vs_bytes_cons. }
  assert (length (Slice_bytes f) <= length (snd_bytes s))%nat as Hfl
    by (rewrite Hsb, length_app; lia).
  assert (i32 (r_ret r) = r_ret r) as -> by (apply swrap_small; lia).
  destruct (Z.eqb_spec (r_ret r) 0) as [Hz|Hz].
  { apply wp_ret, (send_stops s 0 (fd_int (cs_ep s), Slice_bytes f)); [done|by left|lia| |by rewrite Ev].
    unfold socket_ok. cbn. by rewrite Hz. }
  destruct (Z.ltb_spec (r_ret r) 0) as [Hn|Hn].
  { apply wp_bind, wp_sys, wp_gets, wp_ret. cbn [cs_os os_errno].
    rewrite ?(proj2 (Z.ltb_lt _ _) Hn).
    apply (send_stops s _ (fd_int (cs_ep s), Slice_bytes f)); [done|destruct (would_block _); auto|lia| |by rewrite Ev].
    unfold socket_ok. cbn. rewrite (proj2 (Z.ltb_ge 0 _)) by lia. rewrite (proj2 (Z.ltb_lt _ _) Hn). cbn. by intros ->. }
  destruct (MoveHeader_spec (Z.to_nat (r_ret r)) _ (proj2 Hs)) as (b & Eb & Hbw & Hbb).
  rewrite (proj2 (proj2 Hs)) in Eb, Hbb. fold (snd_bytes s) in Eb, Hbb.
  rewrite (proj2 (Nat.leb_le _ _)) in Eb, Hbb by lia.
  cbn [cs_cn cs_os cs_ep cs_out].
  apply wp_bind, wp_lift. exists (true, b). split; [done|]. apply wp_bind, wp_modify.
  cbn [cs_cn cs_os cs_ep cs_out].
  set (s1 := {| cs_os := _; cs_ep := _; cs_cn := _; cs_out := _ |}).
  assert (conn_wf s1) as Hs1 by (split; [apply Hs|done]).
  assert (bytes_sent [(SysSend (fd_int (cs_ep s)) (Slice_bytes f), r)] ++ snd_bytes s1 = snd_bytes s) as Hsent.
  { unfold bytes_sent, sent_by. cbn. rewrite (proj2 (Z.ltb_lt _ _)) by lia. rewrite app_nil_r.
    change (snd_bytes s1) with (sb_bytes b). rewrite Hbb.
    replace (take (Z.to_nat (r_ret r)) (Slice_bytes f)) with (take (Z.to_nat (r_ret r)) (snd_bytes s))
      by (rewrite Hsb; rewrite take_app_le by lia; done).
    apply take_drop. }
  assert (forall x s2, send_post s1 x s2 -> send_post s x s2) as Htrans.
  { intros x s2. by apply (send_post_trans s [(SysSend (fd_int (cs_ep s)) (Slice_bytes f), r)] b). }
  destruct (Nat.ltb_spec 0 (SliceCount b)) as [Hcnt|Hcnt].
  - eapply wp_mono; [|exact Htrans]. apply IH; [exact Hs1| |].
    + change (sb_vs b <> []). intros E. unfold SliceCount in Hcnt. rewrite E in Hcnt. cbn in Hcnt. lia.
    + change (snd_bytes s1) with (sb_bytes b). rewrite Hbb, length_drop. lia.
  - apply wp_ret, Htrans. exists []. rewrite app_nil_r. split; [done|]. split; [done|]. split; [done|].
    split; [done|]. split; [exists b; done|]. split; [done|]. split; [by left|].
    intros _. cbn. change (snd_bytes s1) with (sb_bytes b). unfold sb_bytes, SliceCount in *.
    by destruct (sb_vs b); [|cbn in Hcnt; lia].
Qed.

Lemma OnSend_spec s : conn_wf s -> wp OnSend s (send_post s).
Proof.
  intros Hs. unfold OnSend. apply wp_bind, wp_gets. unfold SliceBuffer_Empty, GetBufferLength.
  destruct (sb_vs (cn_snd_buffer (cs_cn s))) as [|f vs] eqn:Ev.
  - apply wp_ret. exists []. rewrite app_nil_r.
    do 4 (split; [done|]). split; [exists (cn_snd_buffer (cs_cn s)); by destruct s as [? ? []]|].
    split; [done|]. split; [by left|]. intros _. cbn. unfold snd_bytes, sb_bytes. by rewrite Ev.
  - rewrite (proj2 (proj2 Hs)). fold (snd_bytes s). apply OnSend_loop_spec; [done|by rewrite Ev|lia].
Qed.

(** C2. Sending moves a prefix of the queue to the socket.  On any kernel [OnSend] returns;
    the bytes the kernel took, in the order of the calls, followed by what is left in
    the buffer, are the bytes the buffer held: nothing is lost, repeated or reordered
    across short writes and slice boundaries, and the receive side is untouched.  When
    every [send] took something or would block, the result tells which: 0 for an empty
    buffer, -1 for one with slices left. *)
Theorem send_conserves_bytes (s : conn_state K) :
  conn_wf s ->
  exists x s' t, OnSend s = Ret (x, s') /\
    os_trace (cs_os s') = os_trace (cs_os s) ++ t /\
    bytes_sent t ++ snd_bytes s' = snd_bytes s /\
    rcv_bytes s' = rcv_bytes s /\ cs_ep s' = cs_ep s /\ cs_out s' = cs_out s /\ conn_wf s' /\
    (x = 0 \/ x = -1) /\
    (forallb socket_ok t = true ->
      if x =? 0 then snd_bytes s' = [] else sb_vs (cn_snd_buffer (cs_cn s')) <> []).
Proof.
  intros Hs. pose proof (OnSend_spec s Hs) as Hwp.
  unfold wp in Hwp. destruct (OnSend s) as [[x s']| | |]; [|done..].
  destruct Hwp as (t & Ht & Hep & Ho & Hw & [b Hb] & Hsent & Hx & Hf). exists x, s', t.
  do 3 (split; [done|]). split; [|done]. unfold rcv_bytes. by rewrite Hb.
Qed.
End Sending.

(** ** Closing *)

Section Closing.
Context {K : Type} `{Kernel K}.

Lemma wp_sys_quiet (m : M (os K) Z) (s : conn_state K) (f : Z -> M (conn_state K) unit) Q :
  quiet m ->
  (forall x o t, os_trace o = os_trace (cs_os s) ++ t -> opened t = [] -> closed t = [] ->
    wp (f x) {| cs_os := o; cs_ep := cs_ep s; cs_cn := cs_cn s; cs_out := cs_out s |} Q) ->
  wp (x ← sys m; f x) s Q.
Proof.
  intros Hm Hf. apply wp_bind, wp_sys. eapply wp_mono; [apply Hm|]. cbn. intros x o (t & Et & Ho & Hc).
  by apply (Hf x o t).
Qed.

Lemma Connection_Shutdown_offline notify ev (s : conn_state K) :
  IsOnline (cs_ep s) = false -> Connection_Shutdown notify ev s = Ret (tt, s).
Proof. intros Hs. unfold Connection_Shutdown, mbind, M_bind, gets. by rewrite Hs. Qed.

(** The endpoint holds a descriptor. *)
Definition holds_fd (e : EndpointImpl) : Prop := 0 < ei_fd e < 2 ^ 31.

Lemma holds_fd_spec e : holds_fd e -> IsOnline e = true /\ 0 < fd_int e /\ fd_int e = ei_fd e.
Proof using Type.
  intros He. unfold holds_fd in He. unfold IsOnline, fd_int, i32. rewrite swrap_small by lia.
  rewrite (proj2 (Z.ltb_lt _ _)), (proj2 (Z.eqb_neq _ _)) by (change InvalidFd with 18446744073709551615; lia).
  split; [done|lia].
Qed.

Lemma Connection_Shutdown_online notify ev (s : conn_state K) :
  holds_fd (cs_ep s) ->
  wp (Connection_Shutdown notify ev) s (fun _ s' => exists t,
    os_trace (cs_os s') = os_trace (cs_os s) ++ t /\ opened t = [] /\ closed t = [fd_int (cs_ep s)] /\
    cs_ep s' = SetFd InvalidFd (cs_ep s) /\
    cs_out s' = cs_out s ++ (if notify then [CallClosed ev] else []) /\
    cs_cn s' = set_snd (ClearBuffer (cn_snd_buffer (cs_cn s))) (set_rcv (ClearBuffer (cn_rcv_buffer (cs_cn s))) (cs_cn s))).
Proof.
  intros Hs. destruct (holds_fd_spec _ Hs) as (Hon & Hpos & _).
  unfold Connection_Shutdown. apply wp_bind, wp_gets. rewrite Hon. cbn [negb]. apply wp_bind, wp_gets.
  apply wp_sys_quiet; [unfold Poll_Delete, Epoll_remove, Epoll_ctl; auto with quiet|]. intros _ o1 t1 E1 O1 C1.
  apply wp_sys_quiet; [unfold Poll_Delete, Epoll_remove, Epoll_ctl; auto with quiet|]. intros _ o2 t2 E2 O2 C2.
  cbn [cs_os cs_ep cs_cn cs_out] in *.
  apply wp_bind, wp_sys. unfold raptor_set_socket_shutdown. rewrite (proj2 (Z.ltb_ge _ _)) by lia. unfold call_ret.
  apply wp_bind, wp_bind, wp_call. intros r3 k3 _. apply wp_ret, wp_bind, wp_bind, wp_call. intros r4 k4 _.
  apply wp_ret, wp_ret. cbn.
  assert (forall out, exists t,
    ((os_trace o2 ++ [(SysShutdown (fd_int (cs_ep s)) SHUT_RDWR, r3)]) ++ [(SysClose (fd_int (cs_ep s)), r4)]) =
      os_trace (cs_os s) ++ t /\ opened t = [] /\ closed t = [fd_int (cs_ep s)] /\ out = out :> list service_call) as Ht.
  { intros out. exists (t1 ++ t2 ++ [(SysShutdown (fd_int (cs_ep s)) SHUT_RDWR, r3)] ++ [(SysClose (fd_int (cs_ep s)), r4)]).
    rewrite E2, E1, !opened_app, !closed_app, O1, C1, O2, C2, <- !app_assoc. done. }
  destruct (Ht (cs_out s)) as (t & Et & Ot & Ct & _).
  destruct notify; cbn; exists t; rewrite ?app_nil_r; done.
Qed.

(** C11. A connection closes its descriptor exactly once and reports it at most once: the
    first [Shutdown] of a connection whose endpoint holds a descriptor opens nothing, closes just the descriptor
    of the endpoint, leaves the endpoint offline, and makes exactly the [OnClosed] call
    it was asked for; every later [Shutdown] (the destructor's too) makes no system
    call and no report, and [SendMsg] is refused. *)
Theorem connection_closes_once (notify notify' : bool) (ev ev' : Event) (s : conn_state K) (m : Slice) :
  holds_fd (cs_ep s) ->
  exists s' t, Connection_Shutdown notify ev s = Ret (tt, s') /\
    os_trace (cs_os s') = os_trace (cs_os s) ++ t /\ opened t = [] /\ closed t = [fd_int (cs_ep s)] /\
    cs_out s' = cs_out s ++ (if notify then [CallClosed ev] else []) /\
    IsOnline (cs_ep s') = false /\ rcv_bytes s' = [] /\ snd_bytes s' = [] /\
    Connection_Shutdown notify' ev' s' = Ret (tt, s') /\ Connection_dtor s' = Ret (tt, s') /\
    Connection_SendMsg m s' = Ret (false, s').
Proof.
  intros Hs. pose proof (Connection_Shutdown_online notify ev s Hs) as Hwp. unfold wp in Hwp.
  destruct (Connection_Shutdown notify ev s) as [[[] s']| | |]; [|done..].
  destruct Hwp as (t & Et & Ot & Ct & Hep & Ho & Hc). exists s', t.
  assert (IsOnline (cs_ep s') = false) as Hoff by (rewrite Hep; apply IsOnline_closed).
  do 6 (split; [done|]). split; [unfold rcv_bytes; by rewrite Hc|]. split; [unfold snd_bytes; by rewrite Hc|].
  split; [by apply Connection_Shutdown_offline|]. split; [by apply Connection_Shutdown_offline|].
  unfold Connection_SendMsg, mbind, M_bind, gets. by rewrite Hoff.
Qed.
End Closing.

(** ** Concrete connections *)

(** A peer that sent the bytes of the state, delivered in reads of at most four; the
    socket takes at most three bytes a time. *)
Definition stream_kernel : Kernel (list byte) := fun k c =>
  match c with
  | SysRecv _ len =>
      let d := take (Z.to_nat (Z.min len 4)) k in
      match d with
      | [] => ({| r_ret := -1; r_errno := EAGAIN; r_data := []; r_int := 0; r_events := [] |}, k)
      | _ => ({| r_ret := Z.of_nat (length d); r_errno := 0; r_data := d; r_int := 0; r_events := [] |},
              drop (length d) k)
      end
  | SysSend _ d =>
      ({| r_ret := Z.min 3 (Z.of_nat (length d)); r_errno := 0; r_data := []; r_int := 0; r_events := [] |}, k)
  | _ => ({| r_ret := 0; r_errno := 0; r_data := []; r_int := 0; r_events := [] |}, k)
  end.

Lemma stream_kernel_io : @KernelIO (list byte) stream_kernel.
Proof.
  split; intros k fd; unfold sys_call; cbn.
  - intros len Hlen. pose proof (length_take k (Z.to_nat (Z.min len 4))) as Hl.
    destruct (take (Z.to_nat (Z.min len 4)) k); cbn in *; lia.
  - intros len. destruct (take (Z.to_nat (Z.min len 4)) k); cbn; lia.
  - intros d. lia.
Qed.

Lemma stream_kernel_short fd k : @short_within (list byte) stream_kernel 1 fd k.
Proof.
  pose proof (length_take k 4) as Hl. unfold short_within, sys_call, stream_kernel.
  change (Z.to_nat (Z.min buffer_size 4)) with 4%nat.
  destruct (take 4 k) as [|b d] eqn:Ed; left; [done|]. cbn [r_ret]. rewrite Hl. unfold buffer_size. lia.
Qed.

(** A protocol whose packets start with their length, the byte of the length included. *)
Definition length_byte (_ : EndpointImpl) (d : list cell) : Z :=
  match d with
  | [] => 0
  | Some b :: _ => 1 + byte_val b
  | None :: _ => -1
  end.

Lemma length_byte_fits ep : header_fits (length_byte ep).
Proof.
  intros q Hq. destruct q as [|[b|] q]; cbn in Hq; [lia| |done].
  change (length_byte ep (take header_size (Some b :: q))) with (1 + byte_val b).
  pose proof (byte_val_range b). lia.
Qed.

Lemma length_byte_stable ep : prefix_stable (length_byte ep).
Proof. intros d d' [x ->] Hd. by destruct d as [|[b|] d]. Qed.

Definition example_connection (proto : bool) (incoming : list byte) (out : list byte) : conn_state (list byte) :=
  {| cs_os := {| os_kernel := incoming; os_errno := 0; os_trace := [] |};
     cs_ep := EndpointImpl_new 5 (loopback4 80) (loopback4 81);
     cs_cn := set_snd (AddSlice (Slice_ctor (Some <$> out)) SliceBuffer_new)
                (SetProtocol proto (Connection_new 7 0));
     cs_out := [] |}.

Lemma example_connection_wf proto incoming out : conn_wf (example_connection proto incoming out).
Proof.
  split; cbn; [apply SliceBuffer_new_wf|]. apply AddSlice_wf; [apply Slice_ctor_wf|apply SliceBuffer_new_wf].
Qed.

Lemma recv_frames_stream_witness :
  let s := example_connection true (str "abcdef") [] in
  exists x s' t calls, @recv_events (list byte) stream_kernel length_byte 1 3 s = Ret (x, s') /\
    os_trace (cs_os s') = os_trace (cs_os s) ++ t /\ cs_out s' = cs_out s ++ calls /\
    let r := split_stream (length_byte (cs_ep s)) (rcv_bytes s ++ bytes_received t) in
    Forall2 delivers calls (sp_packets r) /\ rcv_bytes s' = sp_rest r /\
    mjoin (sp_packets r) ++ sp_rest r = rcv_bytes s ++ bytes_received t /\
    (sp_error r = true -> x = -1).
Proof.
  apply (@recv_frames_stream (list byte) stream_kernel stream_kernel_io length_byte 1 3).
  - apply example_connection_wf.
  - done.
  - done.
  - apply length_byte_fits.
  - apply length_byte_stable.
  - intros k. apply stream_kernel_short.
Defined.

(** Two packets in three reads. *)
Example recv_two_packets :
  match @recv_events (list byte) stream_kernel length_byte 1 3
          (example_connection true [x03; x41; x42; x43; x02; x44; x45; x01] []) with
  | Ret (x, s') =>
      x = 0 /\ rcv_bytes s' = [Some x01] /\
      (fun c => match c with CallDataReceived m => Slice_bytes m | _ => [] end) <$> cs_out s' =
        [[Some x03; Some x41; Some x42; Some x43]; [Some x02; Some x44; Some x45]]
  | _ => False
  end.
Proof. vm_compute. done. Qed.

Lemma send_conserves_bytes_witness :
  let s := example_connection true [] (str "hello") in
  exists x s' t, @OnSend (list byte) stream_kernel s = Ret (x, s') /\
    os_trace (cs_os s') = os_trace (cs_os s) ++ t /\
    bytes_sent t ++ snd_bytes s' = snd_bytes s /\
    rcv_bytes s' = rcv_bytes s /\ cs_ep s' = cs_ep s /\ cs_out s' = cs_out s /\ conn_wf s' /\
    (x = 0 \/ x = -1) /\
    (forallb socket_ok t = true ->
      if x =? 0 then snd_bytes s' = [] else sb_vs (cn_snd_buffer (cs_cn s')) <> []).
Proof.
  apply (@send_conserves_bytes (list byte) stream_kernel stream_kernel_io).
  apply example_connection_wf.
Defined.

Lemma connection_closes_once_witness :
  let s := example_connection true [] (str "hello") in
  exists s' t, @Connection_Shutdown (list byte) stream_kernel true Event_default s = Ret (tt, s') /\
    os_trace (cs_os s') = os_trace (cs_os s) ++ t /\ opened t = [] /\ closed t = [fd_int (cs_ep s)] /\
    cs_out s' = cs_out s ++ [CallClosed Event_default] /\
    IsOnline (cs_ep s') = false /\ rcv_bytes s' = [] /\ snd_bytes s' = [] /\
    @Connection_Shutdown (list byte) stream_kernel false Event_default s' = Ret (tt, s') /\
    @Connection_dtor (list byte) stream_kernel s' = Ret (tt, s') /\
    @Connection_SendMsg (list byte) stream_kernel Slice_default s' = Ret (false, s').
Proof.
  apply (@connection_closes_once (list byte) stream_kernel true false). vm_compute. split; reflexivity.
Defined.

(** A connection whose receive buffer holds the bytes [d]. *)
Definition holding (d : list cell) : conn_state (list byte) :=
  let s := example_connection true [] [] in
  {| cs_os := cs_os s; cs_ep := cs_ep s;
     cs_cn := set_rcv (AddSlice (Slice_ctor d) SliceBuffer_new) (cs_cn s); cs_out := cs_out s |}.

Lemma holding_wf d : conn_wf (holding d).
Proof.
  split; [|apply (example_connection_wf true [] [])].
  change (sb_wf (AddSlice (Slice_ctor d) SliceBuffer_new)).
  apply AddSlice_wf; [apply Slice_ctor_wf|apply SliceBuffer_new_wf].
Qed.

Lemma holding_bytes d : rcv_bytes (holding d) = d.
Proof.
  unfold holding, rcv_bytes. cbn [cs_cn set_rcv cn_rcv_buffer]. rewrite AddSlice_bytes, app_nil_l.
  apply Slice_ctor_bytes.
Qed.

(** 1025 bytes of a packet whose length the handler cannot tell yet. *)
Definition long_connection : conn_state (list byte) := holding (replicate 1025 (Some x41)).

Lemma parsing_protocol_livelock_witness :
  @ParsingProtocol_loop (list byte) (fun _ _ => 0) 5 (length (rcv_bytes long_connection)) 0 long_connection = NoFuel /\
  exists m s', @parse_round (list byte) (fun _ _ => 0) (length (rcv_bytes long_connection)) 0 long_connection = Ret (None, s') /\
    cs_out s' = cs_out long_connection ++ [CallDataReceived m] /\ Slice_bytes m = [] /\
    rcv_bytes s' = rcv_bytes long_connection.
Proof.
  apply (@parsing_protocol_livelock (list byte)).
  - apply holding_wf.
  - unfold long_connection. rewrite holding_bytes, length_replicate. unfold header_size. lia.
  - reflexivity.
Defined.

(** A packet of two bytes and the first byte of the next one: the parser returns 1; 1025
    bytes that tell no length: it does not return. *)
Lemma parsing_protocol_ends_witness :
  (exists s', @ParsingProtocol (list byte) length_byte (holding [Some x01; Some x41; Some x03]) = Ret (1, s') /\
    rcv_bytes s' = [Some x03]) /\
  (forall fuel, @ParsingProtocol_loop (list byte) (fun _ _ => 0) fuel 1025 0 long_connection = NoFuel).
Proof.
  split.
  - destruct (@parsing_protocol_ends (list byte) length_byte _ (holding_wf [Some x01; Some x41; Some x03])) as [Hends _].
    destruct Hends as (s' & Er & b & calls & -> & _ & Hb & _); [apply header_fits_spins, length_byte_fits|].
    eexists. split; [exact Er|exact Hb].
  - intros fuel. destruct (@parsing_protocol_ends (list byte) (fun _ _ => 0) long_connection (holding_wf _)) as [_ Hspins].
    apply (Hspins eq_refl fuel 0).
Defined.
