(* ===== verification/WinConnection.v ===== *)
(** * Connections on Windows (src/windows/connection.h, src/windows/connection.cc)

    Reads and writes are overlapped: a write hands the kernel the slices at the front of
    the send buffer, which stay there until its completion arrives as a send event; a
    read of no bytes is posted to learn that data is there.  The part of the state both
    ports have is that of Connection.v, whose parser this port repeats word for word.
    [_poll_thread] is any [ConnectionPoller]; WinContainer.v gives the one of Iocp.v. *)

From S2P Require Import Prelude.
From S2P Require Import OS.
From S2P Require Import Status.
From S2P Require Import Slice.
From S2P Require Import SliceBuffer.
From S2P Require Import SocketSetting.
From S2P Require Import WinSocketSetting.
From S2P Require Import SockAddr.
From S2P Require Import Endpoint.
From S2P Require Import Connection.

Local Open Scope Z_scope.

Record WinConnection : Type := {
  wn_handle_id : Z;
  wn_endpoint : nat;
  wn_proto : bool;
  wn_send_pending : bool;
  wn_rcv_buffer : SliceBuffer Slice;
  wn_snd_buffer : SliceBuffer Slice;
}.

(** [_handle_id] comes from [global_counter]; both overlapped structures carry it. *)
Definition WinConnection_new (handle_id : Z) (endpoint : nat) : WinConnection := {|
  wn_handle_id := handle_id; wn_endpoint := endpoint; wn_proto := false; wn_send_pending := false;
  wn_rcv_buffer := SliceBuffer_new; wn_snd_buffer := SliceBuffer_new |}.

Definition win_SetProtocol (p : bool) (c : WinConnection) : WinConnection := {|
  wn_handle_id := wn_handle_id c; wn_endpoint := wn_endpoint c; wn_proto := p; wn_send_pending := wn_send_pending c;
  wn_rcv_buffer := wn_rcv_buffer c; wn_snd_buffer := wn_snd_buffer c |}.
Definition set_pending (b : bool) (c : WinConnection) : WinConnection := {|
  wn_handle_id := wn_handle_id c; wn_endpoint := wn_endpoint c; wn_proto := wn_proto c; wn_send_pending := b;
  wn_rcv_buffer := wn_rcv_buffer c; wn_snd_buffer := wn_snd_buffer c |}.
Definition set_buffers (rcv snd : SliceBuffer Slice) (c : WinConnection) : WinConnection := {|
  wn_handle_id := wn_handle_id c; wn_endpoint := wn_endpoint c; wn_proto := wn_proto c; wn_send_pending := wn_send_pending c;
  wn_rcv_buffer := rcv; wn_snd_buffer := snd |}.

(** The state outside a connection that its methods change: the process, and what
    [_poll_thread] keeps. *)
Record wconn_state (K P : Type) : Type := {
  wcs_os : os K;
  wcs_ep : EndpointImpl;
  wcs_cn : WinConnection;
  wcs_out : list service_call;
  wcs_poll : P;
}.
Arguments Build_wconn_state {K P}. Arguments wcs_os {K P}. Arguments wcs_ep {K P}. Arguments wcs_cn {K P}.
Arguments wcs_out {K P}. Arguments wcs_poll {K P}.

(** What a connection asks of its polling thread; it drops the answers. *)
Class ConnectionPoller (K P : Type) := {
  poller_Add (sock CompletionKey type : Z) : M (os K * P) bool;
  poller_Delete (sock : Z) : M (os K * P) Z;
}.

Definition MAX_PACKAGE_SIZE : nat := Z.to_nat 0xffff.
Definition MAX_WSABUF_COUNT : nat := 16.
Definition WSA_IO_PENDING : Z := 997.
Definition WSAEWOULDBLOCK : Z := 10035.
Definition kRecvSend : Z := 6.

Section WinMethods.
Context {K P : Type} `{Kernel K} `{!ConnectionPoller K P} `{WinLibC}.
Variable OnCheckPackageLength : EndpointImpl -> list cell -> Z.
Implicit Types s : wconn_state K P.

Definition wcs_with_os o s : wconn_state K P := Build_wconn_state o (wcs_ep s) (wcs_cn s) (wcs_out s) (wcs_poll s).
Definition win_sys {A} : M (os K) A -> M (wconn_state K P) A := zoom wcs_os wcs_with_os.
Definition win_modify_cn (f : WinConnection -> WinConnection) : M (wconn_state K P) unit :=
  modify (fun s => Build_wconn_state (wcs_os s) (wcs_ep s) (f (wcs_cn s)) (wcs_out s) (wcs_poll s)).
Definition win_modify_ep (f : EndpointImpl -> EndpointImpl) : M (wconn_state K P) unit :=
  modify (fun s => Build_wconn_state (wcs_os s) (f (wcs_ep s)) (wcs_cn s) (wcs_out s) (wcs_poll s)).
Definition win_service (c : service_call) : M (wconn_state K P) unit :=
  modify (fun s => Build_wconn_state (wcs_os s) (wcs_ep s) (wcs_cn s) (wcs_out s ++ [c]) (wcs_poll s)).
Definition win_poll {A} : M (os K * P) A -> M (wconn_state K P) A :=
  zoom (fun s => (wcs_os s, wcs_poll s)) (fun p s => Build_wconn_state p.1 (wcs_ep s) (wcs_cn s) (wcs_out s) p.2).

(** The part both ports have. *)
Definition common (s : wconn_state K P) : conn_state K := {|
  cs_os := wcs_os s; cs_ep := wcs_ep s;
  cs_cn := {| cn_handle_id := wn_handle_id (wcs_cn s); cn_endpoint := wn_endpoint (wcs_cn s); cn_proto := wn_proto (wcs_cn s);
              cn_recv_thread := -1; cn_send_thread := -1;
              cn_rcv_buffer := wn_rcv_buffer (wcs_cn s); cn_snd_buffer := wn_snd_buffer (wcs_cn s) |};
  cs_out := wcs_out s |}.
Definition with_common (c : conn_state K) (s : wconn_state K P) : wconn_state K P := {|
  wcs_os := cs_os c; wcs_ep := cs_ep c;
  wcs_cn := set_buffers (cn_rcv_buffer (cs_cn c)) (cn_snd_buffer (cs_cn c)) (wcs_cn s);
  wcs_out := cs_out c; wcs_poll := wcs_poll s |}.

Definition win_ParsingProtocol : M (wconn_state K P) Z :=
  zoom common with_common (ParsingProtocol OnCheckPackageLength).

(** ** Sending *)

(** The slices handed to [WSASend]: at most 16, of at most 65535 bytes together. *)
Definition gather (b : SliceBuffer Slice) : list Slice :=
  (ForEachSlice (fun m '(buffers, prepare_send_size) =>
     if (MAX_WSABUF_COUNT <=? length buffers)%nat then (false, (buffers, prepare_send_size))
     else if (MAX_PACKAGE_SIZE <? prepare_send_size + Slice_size m)%nat then (false, (buffers, prepare_send_size))
     else (true, (buffers ++ [m], (prepare_send_size + Slice_size m)%nat))) b ([], 0%nat)).1.

Definition AsyncSend : M (wconn_state K P) bool :=
  cn ← gets wcs_cn;
  if SliceBuffer_Empty (wn_snd_buffer cn) || wn_send_pending cn then mret true
  else
    _ ← win_modify_cn (set_pending true);
    ep ← gets wcs_ep;
    ret ← win_sys (call_ret (SysWSASend (ei_fd ep) (Slice_bytes <$> gather (wn_snd_buffer cn))));
    if ret =? SOCKET_ERROR then
      error ← win_sys errno;
      if negb (error =? WSA_IO_PENDING) then _ ← win_modify_cn (set_pending false); mret false
      else mret true
    else mret true.

Definition win_SendMsg (m : Slice) : M (wconn_state K P) bool :=
  ep ← gets wcs_ep;
  if negb (IsOnline ep) then mret false
  else
    _ ← win_modify_cn (fun c => set_buffers (wn_rcv_buffer c) (AddSlice m (wn_snd_buffer c)) c);
    AsyncSend.

Definition win_lift {A} (x : outcome A) : M (wconn_state K P) A := fun s =>
  match x with Ret a => Ret (a, s) | Undef => Undef | Abort => Abort | NoFuel => NoFuel end.

(** A completed write of [size] bytes. *)
Definition win_OnSendEvent (size : nat) (handle_id : Z) : M (wconn_state K P) bool :=
  cn ← gets wcs_cn;
  if negb (wn_handle_id cn =? handle_id) then mret true
  else if (size =? 0)%nat then mret false
  else
    _ ← win_modify_cn (set_pending false);
    '(_, b) ← win_lift (MoveHeader size (wn_snd_buffer cn));
    _ ← win_modify_cn (fun c => set_buffers (wn_rcv_buffer c) b c);
    if SliceBuffer_Empty b then mret true else AsyncSend.

(** ** Receiving *)

(** A read of no bytes, to be told of data. *)
Definition AsyncRecv : M (wconn_state K P) bool :=
  ep ← gets wcs_ep;
  ret ← win_sys (call_ret (SysWSARecv (ei_fd ep)));
  if ret =? SOCKET_ERROR then
    error ← win_sys errno;
    mret (error =? WSA_IO_PENDING)
  else mret true.

(** The loop of [OnRecvEvent]; [fuel] bounds the number of reads that fill the buffer. *)
Fixpoint win_recv_loop (fuel : nat) : M (wconn_state K P) bool :=
  match fuel with
  | O => no_fuel
  | S fuel =>
      ep ← gets wcs_ep;
      r ← win_sys (call (SysRecv (ei_fd ep) buffer_size));
      let recv_bytes := i32 (r_ret r) in
      if recv_bytes =? 0 then mret false
      else if recv_bytes <? 0 then
        err ← win_sys errno;
        mret (err =? WSAEWOULDBLOCK)
      else
        cn ← gets wcs_cn;
        p ← (if wn_proto cn then
               _ ← win_modify_cn (fun c => set_buffers (AddSlice (Slice_ctor (received r)) (wn_rcv_buffer c)) (wn_snd_buffer c) c);
               win_ParsingProtocol
             else _ ← win_service (CallDataReceived (Slice_ctor (received r))); mret 0);
        if wn_proto cn && (p =? -1) then mret false
        else if recv_bytes =? buffer_size then win_recv_loop fuel
        else AsyncRecv
  end.

Definition win_OnRecvEvent (fuel : nat) (size : nat) (handle_id : Z) : M (wconn_state K P) bool :=
  cn ← gets wcs_cn;
  if negb (handle_id =? wn_handle_id cn) then mret true
  else win_recv_loop fuel.

(** The event's number of bytes and handle. *)
Definition win_DoRecvEvent (fuel transferred_bytes : nat) (handle_id : Z) : M (wconn_state K P) raptor_error :=
  ok ← win_OnRecvEvent fuel transferred_bytes handle_id;
  if (ok : bool) then mret RAPTOR_ERROR_NONE else win_sys (last_error "Connection:OnRecvEvent").

Definition win_DoSendEvent (transferred_bytes : nat) (handle_id : Z) : M (wconn_state K P) raptor_error :=
  ok ← win_OnSendEvent transferred_bytes handle_id;
  if (ok : bool) then mret RAPTOR_ERROR_NONE else win_sys (last_error "Connection:OnSendEvent").

(** ** The rest *)

Definition win_Connection_Init : M (wconn_state K P) bool :=
  _ ← win_modify_cn (set_pending false);
  ep ← gets wcs_ep;
  _ ← win_poll (poller_Add (ei_fd ep) (ei_connection_id ep) kRecvSend);
  AsyncRecv.

Definition win_Connection_Shutdown (notify : bool) (ev : Event) : M (wconn_state K P) unit :=
  ep ← gets wcs_ep;
  if negb (IsOnline ep) then mret tt
  else
    _ ← win_poll (poller_Delete (ei_fd ep));
    _ ← win_sys (win_set_socket_shutdown (ei_fd ep));
    _ ← win_modify_ep (SetFd InvalidFd);
    _ ← win_modify_cn (set_pending false);
    _ ← (if notify then win_service (CallClosed ev) else mret tt);
    _ ← win_modify_cn (fun c => set_buffers (ClearBuffer (wn_rcv_buffer c)) (wn_snd_buffer c) c);
    win_modify_cn (fun c => set_buffers (wn_rcv_buffer c) (ClearBuffer (wn_snd_buffer c)) c).

(** The destructor closes nothing. *)
Definition win_Connection_dtor : M (wconn_state K P) unit := mret tt.

Definition win_IsOnline : M (wconn_state K P) bool := gets (fun s => IsOnline (wcs_ep s)).
Definition win_SetExtendInfo (data : Z) : M (wconn_state K P) unit := win_modify_ep (SetExtInfo data).
Definition win_GetExtendInfo : M (wconn_state K P) Z := gets (fun s => GetExtInfo (wcs_ep s)).
End WinMethods.

(** ** Overlapped writes *)

(** The bytes of an accepted [WSASend]: they stay in the send buffer until its completion. *)
Definition accepted_by (e : syscall * sysret) : option (list cell) :=
  match e.1 with
  | SysWSASend _ buffers =>
      if (r_ret e.2 =? SOCKET_ERROR) && negb (r_errno e.2 =? WSA_IO_PENDING) then None else Some (mjoin buffers)
  | _ => None
  end.

(** What the sending side does: messages are queued, writes complete with some bytes. *)
Inductive win_send_op : Type :=
  | WinSend (m : Slice)
  | WinSent (size : nat).

(** The connection, the bytes of the write in flight, those the kernel reported written, and those
    of the messages accepted so far. *)
Record send_run (K P : Type) : Type := {
  sr_state : wconn_state K P;
  sr_flight : option (list cell);
  sr_sent : list cell;
  sr_queued : list cell;
}.
Arguments Build_send_run {K P}. Arguments sr_state {K P}. Arguments sr_flight {K P}. Arguments sr_sent {K P}.
Arguments sr_queued {K P}.

Section WinSending.
Context {K P : Type} `{Kernel K}.
Implicit Types (s : wconn_state K P) (c : send_run K P).

Definition on_state {A} : M (wconn_state K P) A -> M (send_run K P) A :=
  zoom sr_state (fun s c => Build_send_run s (sr_flight c) (sr_sent c) (sr_queued c)).

(** The calls made since the trace was [n] long. *)
Definition calls_since (n : nat) s : list (syscall * sysret) := drop n (os_trace (wcs_os s)).

Definition note_flight (n : nat) (before : option (list cell)) (sent queued : list cell) c : send_run K P :=
  Build_send_run (sr_state c)
    (match omap accepted_by (calls_since n (sr_state c)) with d :: _ => Some d | [] => before end)
    (sr_sent c ++ sent) (sr_queued c ++ queued).

(** A write completes only when one is in flight, with at most its bytes. *)
Definition win_send_step (op : win_send_op) : M (send_run K P) unit :=
  c ← gets id;
  let n := length (os_trace (wcs_os (sr_state c))) in
  match op with
  | WinSend m =>
      _ ← on_state (win_SendMsg m);
      modify (note_flight n (sr_flight c) [] (if IsOnline (wcs_ep (sr_state c)) then Slice_bytes m else []))
  | WinSent size =>
      match sr_flight c with
      | Some d =>
          if (0 <? size)%nat && (size <=? length d)%nat then
            _ ← on_state (win_OnSendEvent size (wn_handle_id (wcs_cn (sr_state c))));
            modify (note_flight n None (take size d) [])
          else mret tt
      | None => mret tt
      end
  end.

Fixpoint win_send_run (ops : list win_send_op) : M (send_run K P) unit :=
  match ops with
  | [] => mret tt
  | op :: ops => _ ← win_send_step op; win_send_run ops
  end.

Definition win_snd_bytes s : list cell := sb_bytes (wn_snd_buffer (wcs_cn s)).

Lemma gather_prefix (b : SliceBuffer Slice) : mjoin (Slice_bytes <$> gather b) `prefix_of` sb_bytes b.
Proof.
  unfold gather, ForEachSlice, sb_bytes.
  assert (forall vs (buffers : list Slice) size,
    mjoin (Slice_bytes <$> (ForEachSlice_from (fun m '(buffers, prepare_send_size) =>
       if (MAX_WSABUF_COUNT <=? length buffers)%nat then (false, (buffers, prepare_send_size))
       else if (MAX_PACKAGE_SIZE <? prepare_send_size + Slice_size m)%nat then (false, (buffers, prepare_send_size))
       else (true, (buffers ++ [m], (prepare_send_size + Slice_size m)%nat))) vs (buffers, size)).1)
    `prefix_of` mjoin (Slice_bytes <$> buffers) ++ vs_bytes vs) as Hg; [|apply (Hg _ [] 0%nat)].
  induction vs as [|m vs IH]; intros buffers size; cbn [ForEachSlice_from]; [by apply prefix_app_r|].
  rewrite vs_bytes_cons. destruct (_ <=? _)%nat; [by apply prefix_app_r|]. destruct (_ <? _)%nat; [by apply prefix_app_r|].
  etransitivity; [apply IH|]. rewrite fmap_app, join_app. cbn. rewrite app_nil_r, <- app_assoc. done.
Qed.

(** [AsyncSend] writes when nothing is in flight and something is queued, and is pending
    exactly when the write was accepted. *)
Lemma AsyncSend_spec s :
  wp AsyncSend s (fun _ s' => exists t,
    os_trace (wcs_os s') = os_trace (wcs_os s) ++ t /\ wcs_ep s' = wcs_ep s /\ wcs_out s' = wcs_out s /\
    wcs_cn s' = set_pending (wn_send_pending (wcs_cn s')) (wcs_cn s) /\
    if SliceBuffer_Empty (wn_snd_buffer (wcs_cn s)) || wn_send_pending (wcs_cn s)
    then t = [] /\ s' = s
    else match omap accepted_by t with
         | [] => wn_send_pending (wcs_cn s') = false
         | d :: _ => wn_send_pending (wcs_cn s') = true /\ d = mjoin (Slice_bytes <$> gather (wn_snd_buffer (wcs_cn s)))
         end).
Proof.
  unfold AsyncSend. apply wp_bind, wp_gets. destruct (_ || _) eqn:Eb.
  { apply wp_ret. exists []. rewrite app_nil_r. split_and!; try done. by destruct s as [? ? [] ? ?]. }
  apply wp_bind, wp_modify, wp_bind, wp_gets, wp_bind. unfold win_sys. apply wp_zoom. unfold call_ret. apply wp_bind.
  unfold call, wp at 1. cbn [wcs_os os_kernel]. destruct (sys_call (os_kernel (wcs_os s)) _) as [r k] eqn:Ecall. apply wp_ret.
  destruct (r_ret r =? SOCKET_ERROR) eqn:Er.
  - apply wp_bind, wp_zoom, wp_gets. cbn [os_errno wcs_os wcs_with_os].
    assert ((r_ret r <? 0) = true) as -> by (apply Z.eqb_eq in Er; by rewrite Er).
    destruct (negb (r_errno r =? WSA_IO_PENDING)) eqn:Ee.
    + apply wp_bind, wp_modify, wp_ret. cbn. eexists. split; [reflexivity|]. split_and!; [done..|by destruct (wcs_cn s)|].
      cbn. unfold accepted_by. cbn [fst snd]. by rewrite Er, Ee.
    + apply wp_ret. cbn. eexists. split; [reflexivity|]. split_and!; [done..|].
      cbn. unfold accepted_by. cbn [fst snd]. by rewrite Er, Ee.
  - apply wp_ret. cbn. eexists. split; [reflexivity|]. split_and!; [done..|].
    cbn. unfold accepted_by. cbn [fst snd]. by rewrite Er.
Qed.
End WinSending.

Section WinSendTheorem.
Context {K P : Type} `{Kernel K}.
Implicit Types (s : wconn_state K P) (c : send_run K P).

Definition win_send_op_ok (op : win_send_op) : Prop := match op with WinSend m => Slice_wf m | WinSent _ => True end.

(** A write is pending exactly when one is in flight, and its bytes are still at the front
    of the buffer. *)
Record send_inv c : Prop := {
  si_wf : sb_wf (wn_snd_buffer (wcs_cn (sr_state c)));
  si_pending : wn_send_pending (wcs_cn (sr_state c)) = bool_decide (is_Some (sr_flight c));
  si_bytes : sr_sent c ++ win_snd_bytes (sr_state c) = sr_queued c;
  si_flight d : sr_flight c = Some d -> d `prefix_of` win_snd_bytes (sr_state c);
}.

(** Starting what [AsyncSend] starts, after the buffer was changed to that of [s]. *)
Lemma AsyncSend_inv s n flight sent queued Q :
  os_trace (wcs_os s) = take n (os_trace (wcs_os s)) -> (n <= length (os_trace (wcs_os s)))%nat ->
  sb_wf (wn_snd_buffer (wcs_cn s)) -> wn_send_pending (wcs_cn s) = bool_decide (is_Some flight) ->
  sent ++ win_snd_bytes s = queued -> (forall d, flight = Some d -> d `prefix_of` win_snd_bytes s) ->
  (forall b s', send_inv (Build_send_run s' (match omap accepted_by (calls_since n s') with d :: _ => Some d | [] => flight end) sent queued) ->
    Q b s') ->
  wp AsyncSend s Q.
Proof.
  intros Ht Hn Hwf Hp Hb Hf HQ. eapply wp_mono; [apply AsyncSend_spec|].
  intros b s' (t & Et & Eep & _ & Ecn & Ht'). apply HQ.
  assert (calls_since n s' = t) as Hcs.
  { unfold calls_since. rewrite Et, drop_app_le by done. rewrite Ht, drop_ge by (rewrite length_take; lia). done. }
  assert (win_snd_bytes s' = win_snd_bytes s) as Hsb by (unfold win_snd_bytes; by rewrite Ecn).
  rewrite Hcs. destruct (_ || _) eqn:Eb.
  { destruct Ht' as [-> ->]. by split. }
  apply orb_false_iff in Eb as [Hne Hnp]. rewrite Hnp in Hp. symmetry in Hp. apply bool_decide_eq_false in Hp.
  destruct flight as [d0|]; [by destruct Hp|].
  split; cbn [sr_state sr_flight sr_sent sr_queued]; [by rewrite Ecn| |by rewrite Hsb|].
  - destruct (omap accepted_by t); [done|]. by destruct Ht' as [-> _].
  - rewrite Hsb. destruct (omap accepted_by t); [done|]. destruct Ht' as [_ ->]. intros d [= <-]. apply gather_prefix.
Qed.

Lemma win_send_step_inv op c : send_inv c -> win_send_op_ok op -> wp (win_send_step op) c (fun _ c' => send_inv c').
Proof.
  intros [Hwf Hp Hb Hf] Hok. unfold win_send_step. apply wp_bind, wp_gets. unfold id. cbv zeta. unfold on_state.
  set (s := sr_state c) in *. destruct op as [m|size].
  - apply wp_bind, wp_zoom. unfold win_SendMsg. apply wp_bind, wp_gets. fold s. destruct (IsOnline (wcs_ep s)); cbn [negb].
    + apply wp_bind, wp_modify.
      eapply (AsyncSend_inv _ (length (os_trace (wcs_os s))) (sr_flight c) (sr_sent c) (sr_queued c ++ Slice_bytes m));
        cbn [wcs_os wcs_cn set_buffers wn_snd_buffer wn_send_pending]; unfold win_snd_bytes; cbn [wcs_cn wn_snd_buffer set_buffers].
      * by rewrite firstn_all.
      * done.
      * by apply AddSlice_wf.
      * done.
      * rewrite AddSlice_bytes, app_assoc. by rewrite <- Hb.
      * intros d Hd. rewrite AddSlice_bytes. by apply prefix_app_r, Hf.
      * intros b s' Hinv. apply wp_modify. unfold note_flight. cbn. by rewrite app_nil_r.
    + apply wp_ret, wp_modify. unfold note_flight, calls_since. cbn. fold s. rewrite drop_all. cbn. rewrite !app_nil_r. by split.
  - destruct (sr_flight c) as [d|] eqn:Ed; [|by apply wp_ret; split; rewrite ?Ed].
    destruct (Nat.ltb_spec 0 size) as [H0|H0]; [|by apply wp_ret; split; rewrite ?Ed].
    destruct (Nat.leb_spec size (length d)) as [Hle|Hle]; [|by apply wp_ret; split; rewrite ?Ed]. cbn [andb].
    apply wp_bind, wp_zoom. unfold win_OnSendEvent. apply wp_bind, wp_gets. fold s. rewrite Z.eqb_refl. cbn [negb].
    destruct (Nat.eqb_spec size 0) as [?|_]; [lia|]. apply wp_bind, wp_modify.
    destruct (Hf d eq_refl) as [rest Hrest].
    destruct (MoveHeader_spec size (wn_snd_buffer (wcs_cn s)) Hwf) as (b & Eb & Hbw & Hbb).
    assert ((size <=? sb_length (wn_snd_buffer (wcs_cn s)))%nat = true) as Hsz.
    { apply Nat.leb_le. rewrite (proj2 Hwf). fold (win_snd_bytes s). rewrite Hrest, length_app. lia. }
    rewrite Hsz in Eb, Hbb. apply wp_bind. unfold win_lift at 1, wp at 1. rewrite Eb. apply wp_bind, wp_modify.
    fold (win_snd_bytes s) in Hbb. rewrite Hrest in Hbb. rewrite drop_app_le in Hbb by done.
    assert ((sr_sent c ++ take size d) ++ sb_bytes b = sr_queued c) as Hbytes.
    { rewrite Hbb, <- app_assoc, (app_assoc (take size d)), take_drop, <- Hrest. exact Hb. }
    destruct (SliceBuffer_Empty b).
    + apply wp_ret, wp_modify. unfold note_flight, calls_since. cbn. fold s. rewrite drop_all. cbn. rewrite app_nil_r. by split.
    + eapply (AsyncSend_inv _ (length (os_trace (wcs_os s))) None (sr_sent c ++ take size d) (sr_queued c));
        cbn [wcs_os wcs_cn set_buffers wn_snd_buffer wn_send_pending set_pending]; unfold win_snd_bytes;
        cbn [wcs_cn wn_snd_buffer set_buffers]; [by rewrite firstn_all|done|done|done|done|done|].
      intros ok s' Hinv. apply wp_modify. unfold note_flight. cbn. by rewrite app_nil_r.
Qed.

Lemma win_send_run_inv ops : forall c, send_inv c -> Forall win_send_op_ok ops -> wp (win_send_run ops) c (fun _ c' => send_inv c').
Proof.
  induction ops as [|op ops IH]; intros c Hc Hok; cbn [win_send_run]; [by apply wp_ret|].
  apply Forall_cons in Hok as [Hop Hok]. eapply wp_bind, wp_mono; [by apply win_send_step_inv|]. intros ? c' Hc'. by apply IH.
Qed.

(** C12. Overlapped sending loses nothing.  Whatever messages are sent and however the kernel
    accepts, refuses and completes the writes, in whole or in part, every call
    returns; a write is pending exactly when one is in flight, so there is never
    more than one; the bytes in flight are still at the front of the buffer; and the bytes
    the kernel reported written, followed by those of the buffer, are those of the
    accepted messages in order. *)
Theorem win_send_conserves (s : wconn_state K P) (ops : list win_send_op) :
  wn_snd_buffer (wcs_cn s) = SliceBuffer_new -> wn_send_pending (wcs_cn s) = false -> Forall win_send_op_ok ops ->
  exists c, win_send_run ops (Build_send_run s None [] []) = Ret (tt, c) /\
    sr_sent c ++ win_snd_bytes (sr_state c) = sr_queued c /\
    wn_send_pending (wcs_cn (sr_state c)) = bool_decide (is_Some (sr_flight c)) /\
    (forall d, sr_flight c = Some d -> d `prefix_of` win_snd_bytes (sr_state c)).
Proof.
  intros Hb Hp Hok. pose proof (win_send_run_inv ops (Build_send_run s None [] [])) as Hr. unfold wp in Hr.
  assert (send_inv (Build_send_run s None [] [])) as Hi.
  { split; cbn; [rewrite Hb; apply SliceBuffer_new_wf|done|unfold win_snd_bytes; by rewrite Hb|done]. }
  specialize (Hr Hi Hok). destruct (win_send_run ops _) as [[[] c]| | |]; [|done..]. destruct Hr. by exists c.
Qed.

(** A message longer than 65535 bytes cannot be sent.  [AsyncSend] hands the kernel no buffer
    at all; that write completes with 0 bytes, which [OnSendEvent] takes for an error: the
    event is reported as failed, and nothing has left the buffer. *)
Theorem win_large_message_stuck (m : Slice) (s : wconn_state K P) :
  Slice_wf m -> (MAX_PACKAGE_SIZE < Slice_size m)%nat ->
  IsOnline (wcs_ep s) = true -> sb_vs (wn_snd_buffer (wcs_cn s)) = [] -> wn_send_pending (wcs_cn s) = false ->
  exists b s' r, win_SendMsg m s = Ret (b, s') /\
    os_trace (wcs_os s') = os_trace (wcs_os s) ++ [(SysWSASend (ei_fd (wcs_ep s)) [], r)] /\
    win_snd_bytes s' = Slice_bytes m /\
    win_OnSendEvent 0 (wn_handle_id (wcs_cn s')) s' = Ret (false, s').
Proof.
  intros Hm Hl Ho Hv Hp. unfold win_SendMsg, mbind, M_bind, gets, win_modify_cn, modify. rewrite Ho. cbn [negb].
  unfold AsyncSend at 1, mbind, M_bind, gets, win_modify_cn, modify, AddSlice. cbn [wcs_cn set_buffers wn_snd_buffer wn_send_pending].
  rewrite Hv, Hp. cbn [app]. set (b1 := {| sb_vs := [m] |}).
  assert (gather b1 = []) as Hg.
  { unfold gather, ForEachSlice, b1. cbn [sb_vs ForEachSlice_from length Nat.add].
    change (MAX_WSABUF_COUNT <=? 0)%nat with false. by rewrite (proj2 (Nat.ltb_lt _ _) Hl). }
  cbn [SliceBuffer_Empty sb_vs b1 orb]. cbn [wcs_ep]. 
  change (SliceBuffer_Empty b1) with false. cbn [orb]. unfold win_sys, zoom, call_ret, call, mbind, M_bind, mret, M_ret.
  cbn [wcs_os wcs_ep]. rewrite Hg. cbn [fmap list_fmap]. destruct (sys_call (os_kernel (wcs_os s)) (SysWSASend (ei_fd (wcs_ep s)) [])) as [r k].
  assert (forall s' : wconn_state K P, win_OnSendEvent 0 (wn_handle_id (wcs_cn s')) s' = Ret (false, s')) as Hzero.
  { intros s'. unfold win_OnSendEvent, mbind, M_bind, gets. by rewrite Z.eqb_refl. }
  destruct (r_ret r =? SOCKET_ERROR); [unfold errno, gets, mbind, M_bind; cbn [wcs_os wcs_with_os os_errno]; destruct (negb _)|];
    (do 3 eexists; split; [reflexivity|]; split; [reflexivity|]; split; [by unfold win_snd_bytes, sb_bytes; cbn; rewrite app_nil_r|apply Hzero]).
Qed.
End WinSendTheorem.

(** ** Receiving *)

Section WinReceiving.
Context {K P : Type} `{Kernel K} `{!KernelIO K} `{WinLibC}.
Variable OnCheckPackageLength : EndpointImpl -> list cell -> Z.
Implicit Types s : wconn_state K P.

Lemma common_with_common s (c : conn_state K) b :
  cs_cn c = set_rcv b (cs_cn (common s)) -> common (with_common c s) = c.
Proof using Type. destruct c as [o ep cn out]. cbn. intros ->. done. Qed.

Definition is_read (e : syscall * sysret) : Prop := match e.1 with SysRecv _ _ => True | _ => False end.

(** The calls of a receive event: reads, then a new read posted, or no more than reads; then
    the event succeeded only if the last one would have blocked. *)
Definition recv_calls (ok : bool) (t : list (syscall * sysret)) : Prop :=
  (exists reads sock r, t = reads ++ [(SysWSARecv sock, r)] /\ Forall is_read reads) \/
  (exists reads e, t = reads ++ [e] /\ Forall is_read (reads ++ [e]) /\
    (ok = true -> r_ret e.2 < 0 /\ r_errno e.2 = WSAEWOULDBLOCK)).

Definition win_recv_post s (ok : bool) s' : Prop :=
  exists x t, recv_post OnCheckPackageLength (common s) x (common s') /\ (ok = true -> x = 0) /\
    os_trace (wcs_os s') = os_trace (wcs_os s) ++ t /\ recv_calls ok t.

Lemma recv_calls_cons ok e t : is_read e -> recv_calls ok t -> recv_calls ok (e :: t).
Proof using Type.
  intros He [(reads & sock & r & -> & Hr)|(reads & e' & -> & Hr & Hok)].
  - left. exists (e :: reads), sock, r. split; [done|by constructor].
  - right. exists (e :: reads), e'. split; [done|]. split; [by constructor|done].
Qed.

Lemma AsyncRecv_spec s :
  conn_wf (common s) -> waiting OnCheckPackageLength (common s) ->
  wp AsyncRecv s (win_recv_post s).
Proof using Type.
  intros Hs Hw. unfold AsyncRecv. apply wp_bind, wp_gets, wp_bind. unfold win_sys. apply wp_zoom. unfold call_ret.
  apply wp_bind, wp_call. intros r k E. apply wp_ret.
  assert (forall ok, win_recv_post s ok (wcs_with_os {| os_kernel := k; os_errno := if r_ret r <? 0 then r_errno r else os_errno (wcs_os s);
    os_trace := os_trace (wcs_os s) ++ [(SysWSARecv (ei_fd (wcs_ep s)), r)] |} s)) as Hpost.
  { intros ok. eexists 0, _. split; [|split; [done|split; [reflexivity|]]].
    - by apply (recv_stops OnCheckPackageLength (common s) 0 r); [..|by left|].
    - left. by eexists [], _, _. }
  destruct (r_ret r =? SOCKET_ERROR); [|by apply wp_ret, Hpost]. apply wp_bind, wp_zoom, wp_gets, wp_ret.
  pose proof (Hpost (os_errno (wcs_os (wcs_with_os {| os_kernel := k; os_errno := if r_ret r <? 0 then r_errno r else os_errno (wcs_os s);
    os_trace := os_trace (wcs_os s) ++ [(SysWSARecv (ei_fd (wcs_ep s)), r)] |} s)) =? WSA_IO_PENDING)) as Hp. by destruct s.
Qed.

Lemma win_recv_post_trans s s1 ok s2 e :
  header_fits (OnCheckPackageLength (wcs_ep s)) -> prefix_stable (OnCheckPackageLength (wcs_ep s)) ->
  recv_post OnCheckPackageLength (common s) 0 (common s1) -> is_read e ->
  os_trace (wcs_os s1) = os_trace (wcs_os s) ++ [e] ->
  win_recv_post s1 ok s2 -> win_recv_post s ok s2.
Proof using Type.
  intros Hh Hst H1 He Et (x & t & H2 & Hx & Et2 & Hc). exists x, (e :: t).
  split; [by eapply (recv_post_trans _ (common s) (common s1))|]. split; [done|].
  split; [by rewrite Et2, Et, <- app_assoc|by apply recv_calls_cons].
Qed.

Lemma win_recv_loop_spec fuel : forall s,
  conn_wf (common s) -> wn_proto (wcs_cn s) = true -> waiting OnCheckPackageLength (common s) ->
  header_fits (OnCheckPackageLength (wcs_ep s)) -> prefix_stable (OnCheckPackageLength (wcs_ep s)) ->
  short_within fuel (ei_fd (wcs_ep s)) (os_kernel (wcs_os s)) ->
  wp (win_recv_loop OnCheckPackageLength fuel) s (win_recv_post s).
Proof.
  induction fuel as [|fuel IH]; intros s Hs Hp Hw Hh Hst Hk; [done|]. cbn [win_recv_loop].
  apply wp_bind, wp_gets, wp_bind. unfold win_sys. apply wp_zoom, wp_call. intros r k Er. cbn [short_within] in Hk. rewrite Er in Hk.
  pose proof (recv_result (os_kernel (wcs_os s)) (ei_fd (wcs_ep s)) buffer_size ltac:(done)) as Hr.
  pose proof (recv_data (os_kernel (wcs_os s)) (ei_fd (wcs_ep s)) buffer_size) as Hd.
  rewrite Er in Hr, Hd. cbn [fst] in Hr, Hd.
  assert (i32 (r_ret r) = r_ret r) as -> by (apply swrap_small; unfold buffer_size in *; lia).
  set (o1 := {| os_kernel := k |}).
  assert (r_ret r <= 0 -> received_by (SysRecv (ei_fd (wcs_ep s)) buffer_size, r) = []) as Hnone.
  { intros Hn. unfold received_by. cbn. by rewrite (proj2 (Z.ltb_ge _ _) Hn). }
  assert (forall ok x, r_ret r <= 0 -> x = 0 \/ x = -1 -> (ok = true -> x = 0 /\ r_ret r < 0 /\ r_errno r = WSAEWOULDBLOCK) ->
    win_recv_post s ok (wcs_with_os o1 s)) as Hstop.
  { intros ok x Hn Hx Hok. exists x, [(SysRecv (ei_fd (wcs_ep s)) buffer_size, r)].
    split; [by apply (recv_stops OnCheckPackageLength (common s) x r); auto|]. split; [intros Hok'; apply Hok, Hok'|]. split; [done|].
    right. exists [], (SysRecv (ei_fd (wcs_ep s)) buffer_size, r). split; [done|]. split; [by repeat constructor|]. intros Hok'. apply Hok, Hok'. }
  destruct (Z.eqb_spec (r_ret r) 0) as [Hz|Hz]; [apply wp_ret, (Hstop false (-1)); [lia|by right|done]|].
  destruct (Z.ltb_spec (r_ret r) 0) as [Hn|Hn].
  { apply wp_bind, wp_zoom, wp_gets, wp_ret. cbn [wcs_with_os wcs_os os_errno o1].
    destruct (Z.eqb_spec (r_errno r) WSAEWOULDBLOCK) as [Ee|Ee].
    - by apply (Hstop true 0); [lia|left|].
    - by apply (Hstop false (-1)); [lia|right|]. }
  specialize (Hd Hn). rewrite received_all by lia. set (d := Some <$> r_data r).
  apply wp_bind, wp_gets. cbn [wcs_cn wcs_with_os]. rewrite Hp. cbn [andb].
  assert (received_by (SysRecv (ei_fd (wcs_ep s)) buffer_size, r) = d) as Hd1.
  { unfold received_by. cbn. by rewrite (proj2 (Z.ltb_lt _ _)) by lia. }
  apply wp_bind, wp_bind, wp_modify. unfold win_ParsingProtocol. apply wp_zoom.
  set (s1 := Build_wconn_state _ _ _ _ _).
  pose proof (parse_read OnCheckPackageLength (common s) (SysRecv (ei_fd (wcs_ep s)) buffer_size) r k (os_errno o1) d Hs (header_fits_spins _ _ Hh) Hd1) as Hparse.
  eapply wp_mono; [exact Hparse|]. intros x c2 (Hpost & Eos & Eep).
  assert (exists b, cs_cn c2 = set_rcv b (cs_cn (common s))) as [b Eb] by (by destruct Hpost as (? & ? & _ & _ & _ & Hcn & _)).
  set (s2 := with_common c2 s1). assert (common s2 = c2) as Ec.
  { apply (common_with_common s1 c2 b). by rewrite Eb. }
  assert (os_trace (wcs_os s2) = os_trace (wcs_os s) ++ [(SysRecv (ei_fd (wcs_ep s)) buffer_size, r)]) as Et2 by (unfold s2; cbn; by rewrite Eos).
  destruct (x =? -1).
  { apply wp_ret. exists (-1), [(SysRecv (ei_fd (wcs_ep s)) buffer_size, r)]. rewrite Ec. split; [done|]. split; [done|]. split; [done|].
    right. exists [], (SysRecv (ei_fd (wcs_ep s)) buffer_size, r). split; [done|]. split; [by repeat constructor|done]. }
  rewrite <- Ec in Hpost. assert (conn_wf (common s2)) as Hs2 by (by destruct Hpost as (? & ? & _ & _ & ? & _)).
  assert (waiting OnCheckPackageLength (common s2)) as Hw2 by (by eapply recv_post_error).
  assert (wcs_ep s2 = wcs_ep s) as Eep2 by (unfold s2; cbn; exact Eep).
  destruct (Z.eqb_spec (r_ret r) buffer_size) as [Hfull|Hfull].
  - destruct Hk as [Hk|Hk]; [done|]. eapply wp_mono; [apply IH; [done|exact Hp|done|by rewrite Eep2|by rewrite Eep2|]|].
    + rewrite Eep2. unfold s2. cbn [with_common wcs_os]. by rewrite Eos.
    + intros ok s3. by apply (win_recv_post_trans s s2 ok s3 (SysRecv (ei_fd (wcs_ep s)) buffer_size, r) Hh Hst Hpost).
  - eapply wp_mono; [by apply AsyncRecv_spec|]. intros ok s3. by apply (win_recv_post_trans s s2 ok s3 (SysRecv (ei_fd (wcs_ep s)) buffer_size, r) Hh Hst Hpost).
Qed.
End WinReceiving.

(** Receive events one after the other, until one fails. *)
Fixpoint win_recv_events {K P} `{Kernel K} `{WinLibC} (check : EndpointImpl -> list cell -> Z) (fuel n : nat) :
    M (wconn_state K P) bool :=
  match n with
  | O => mret true
  | S n =>
      cn ← gets wcs_cn;
      ok ← win_OnRecvEvent check fuel 0 (wn_handle_id cn);
      if (ok : bool) then win_recv_events check fuel n else mret false
  end.

(** [n] reads that fill the buffer, then one that would block. *)
Fixpoint full_reads {K} `{Kernel K} (n : nat) (fd : Z) (k : K) : Prop :=
  let '(r, k') := sys_call k (SysRecv fd buffer_size) in
  match n with
  | O => r_ret r = -1 /\ r_errno r = WSAEWOULDBLOCK
  | S n => r_ret r = buffer_size /\ full_reads n fd k'
  end.

Section WinRecvTheorems.
Context {K P : Type} `{Kernel K} `{!KernelIO K} `{WinLibC}.
Variable OnCheckPackageLength : EndpointImpl -> list cell -> Z.
Implicit Types s : wconn_state K P.

Lemma win_recv_events_spec fuel n : forall s,
  conn_wf (common s) -> wn_proto (wcs_cn s) = true -> waiting OnCheckPackageLength (common s) ->
  header_fits (OnCheckPackageLength (wcs_ep s)) -> prefix_stable (OnCheckPackageLength (wcs_ep s)) ->
  (forall k, short_within fuel (ei_fd (wcs_ep s)) k) ->
  wp (win_recv_events OnCheckPackageLength fuel n) s (fun ok s' =>
    exists x, recv_post OnCheckPackageLength (common s) x (common s') /\ (ok = true -> x = 0)).
Proof using KernelIO0.
  induction n as [|n IH]; intros s Hs Hp Hw Hh Hst Hk; cbn [win_recv_events].
  { apply wp_ret. exists 0. split; [|done]. exists [], []. rewrite !app_nil_r. split_and!; try done.
    - by exists (wn_rcv_buffer (wcs_cn s)).
    - rewrite Hw. split_and!; [constructor|done|by left|done|done]. }
  apply wp_bind, wp_gets, wp_bind. unfold win_OnRecvEvent. apply wp_bind, wp_gets. rewrite Z.eqb_refl. cbn [negb].
  eapply wp_mono; [by apply win_recv_loop_spec|]. intros ok s1 (x & t & H1 & Hx & _).
  destruct ok; [|by apply wp_ret; exists x].
  rewrite Hx in H1 by done. assert (wcs_ep s1 = wcs_ep s) as Hep by (by destruct H1 as (? & ? & _ & Hep & _)).
  eapply wp_mono; [apply IH; rewrite ?Hep; try done|].
  - by destruct H1 as (? & ? & _ & _ & ? & _).
  - destruct H1 as (? & ? & _ & _ & _ & [b Hb] & _). transitivity (cn_proto (cs_cn (common s1))); [done|]. by rewrite Hb.
  - by eapply recv_post_error.
  - intros ok s2 (y & H2 & Hy). exists y. split; [by apply (recv_post_trans _ _ (common s1))|done].
Qed.

(** C16. The Windows connection cuts the byte stream into the handler's packets too.
    For a handler that finds the length of a packet within 1024 bytes and whose
    answers stand when more bytes follow, any number of receive events returns, and they
    deliver exactly the packets of the stream, what the buffer held and all the bytes
    read, in order, and keep the incomplete rest. *)
Theorem win_recv_frames (fuel n : nat) (s : wconn_state K P) :
  conn_wf (common s) -> wn_proto (wcs_cn s) = true -> waiting OnCheckPackageLength (common s) ->
  header_fits (OnCheckPackageLength (wcs_ep s)) -> prefix_stable (OnCheckPackageLength (wcs_ep s)) ->
  (forall k, short_within fuel (ei_fd (wcs_ep s)) k) ->
  exists ok s' t calls, win_recv_events OnCheckPackageLength fuel n s = Ret (ok, s') /\
    os_trace (wcs_os s') = os_trace (wcs_os s) ++ t /\ wcs_out s' = wcs_out s ++ calls /\
    let r := split_stream (OnCheckPackageLength (wcs_ep s)) (sb_bytes (wn_rcv_buffer (wcs_cn s)) ++ bytes_received t) in
    Forall2 delivers calls (sp_packets r) /\ sb_bytes (wn_rcv_buffer (wcs_cn s')) = sp_rest r /\
    (sp_error r = true -> ok = false).
Proof using KernelIO0.
  intros Hs Hp Hw Hh Hst Hk. pose proof (win_recv_events_spec fuel n s Hs Hp Hw Hh Hst Hk) as Hwp.
  unfold wp in Hwp. destruct (win_recv_events _ _ _ s) as [[ok s']| | |]; [|done..].
  destruct Hwp as (x & (t & calls & Ht & _ & _ & _ & Hout & Hc & Hr & _ & He & _) & Hx).
  exists ok, s', t, calls. do 5 (split; [done|]). intros E%He. destruct ok; [|done]. by rewrite Hx in E.
Qed.

(** A connection can go deaf.  When the bytes that arrived fill the reads of a
    receive event exactly (also when there are none), the read after them would block and
    the event succeeds at once: no new read is posted, so no later receive event
    comes, and the container is told of no error. *)
Theorem win_recv_deaf (n fuel size : nat) (s : wconn_state K P) :
  wn_proto (wcs_cn s) = false -> full_reads n (ei_fd (wcs_ep s)) (os_kernel (wcs_os s)) -> (n < fuel)%nat ->
  exists s' t calls, win_DoRecvEvent OnCheckPackageLength fuel size (wn_handle_id (wcs_cn s)) s = Ret (RAPTOR_ERROR_NONE, s') /\
    os_trace (wcs_os s') = os_trace (wcs_os s) ++ t /\ Forall is_read t /\ length t = S n /\
    wcs_out s' = wcs_out s ++ calls /\ length calls = n /\ wcs_cn s' = wcs_cn s /\ wcs_ep s' = wcs_ep s.
Proof using Type.
  intros Hp Hf Hn. unfold win_DoRecvEvent, win_OnRecvEvent, mbind at 1, M_bind at 1, mbind at 1, M_bind at 1, gets at 1.
  rewrite Z.eqb_refl. cbn [negb].
  enough (wp (win_recv_loop OnCheckPackageLength fuel) s (fun ok s' => ok = true /\ exists t calls,
    os_trace (wcs_os s') = os_trace (wcs_os s) ++ t /\ Forall is_read t /\ length t = S n /\
    wcs_out s' = wcs_out s ++ calls /\ length calls = n /\ wcs_cn s' = wcs_cn s /\ wcs_ep s' = wcs_ep s)) as Hwp.
  { unfold wp in Hwp. destruct (win_recv_loop _ _ s) as [[ok s']| | |]; [|done..]. destruct Hwp as [-> (t & calls & Hwp)].
    by exists s', t, calls. }
  revert n s Hp Hf Hn. induction fuel as [|fuel IH]; intros n s Hp Hf Hn; [lia|]. cbn [win_recv_loop].
  apply wp_bind, wp_gets, wp_bind. unfold win_sys. apply wp_zoom, wp_call. intros r k Er.
  destruct n as [|n]; cbn [full_reads] in Hf; rewrite Er in Hf; destruct Hf as [Hr Hf]; rewrite Hr.
  - change (i32 (-1)) with (-1). cbn [Z.eqb Z.ltb Z.compare]. apply wp_bind, wp_zoom, wp_gets, wp_ret.
    cbn [wcs_with_os wcs_os os_errno os_trace wcs_out wcs_cn wcs_ep]. rewrite Hf.
    split; [done|]. eexists [_], []. rewrite app_nil_r. split_and!; try done. by repeat constructor.
  - change (i32 buffer_size) with buffer_size. cbn [Z.eqb Z.ltb Z.compare buffer_size].
    apply wp_bind, wp_gets. cbn [wcs_with_os wcs_cn]. rewrite Hp. cbn [andb].
    apply wp_bind, wp_bind, wp_modify, wp_ret. cbn [wcs_os wcs_ep wcs_cn wcs_out wcs_poll wcs_with_os].
    eapply wp_mono; [apply (IH n); [done|exact Hf|lia]|].
    intros ok s' (-> & t & calls & Ht & Hrd & Hl & Ho & Hc & Ecn & Eep). split; [done|].
    eexists (_ :: t), (_ :: calls). rewrite Ht, Ho. cbn [wcs_os wcs_out os_trace]. rewrite <- !app_assoc. cbn [app length].
    split_and!; [done|by constructor|lia|done|lia|done..].
Qed.
End WinRecvTheorems.

(** ** Concrete connections *)

Definition example_win (proto pending : bool) (snd : SliceBuffer Slice) {K} (k : K) : wconn_state K unit := {|
  wcs_os := {| os_kernel := k; os_errno := 0; os_trace := [] |};
  wcs_ep := EndpointImpl_new 5 (loopback4 80) (loopback4 81);
  wcs_cn := set_pending pending (set_buffers SliceBuffer_new snd (win_SetProtocol proto (WinConnection_new 7 0)));
  wcs_out := []; wcs_poll := tt |}.

Definition example_message (d : list byte) : Slice := Slice_ctor (Some <$> d).

(** Two messages, of which the first is written in two parts. *)
Lemma win_send_conserves_witness :
  let s := example_win true false SliceBuffer_new (str "") in
  exists c, @win_send_run (list byte) unit stream_kernel
      [WinSend (example_message (str "hello")); WinSend (example_message (str "abc")); WinSent 3; WinSent 5]
      (Build_send_run s None [] []) = Ret (tt, c) /\
    sr_sent c ++ win_snd_bytes (sr_state c) = sr_queued c /\
    wn_send_pending (wcs_cn (sr_state c)) = bool_decide (is_Some (sr_flight c)) /\
    (forall d, sr_flight c = Some d -> d `prefix_of` win_snd_bytes (sr_state c)).
Proof.
  intros s. apply (@win_send_conserves (list byte) unit stream_kernel s); [reflexivity|reflexivity|].
  repeat constructor; apply Slice_ctor_wf.
Defined.

Example win_sends_in_parts :
  match @win_send_run (list byte) unit stream_kernel
      [WinSend (example_message (str "hello")); WinSend (example_message (str "abc")); WinSent 3; WinSent 4]
      (Build_send_run (example_win true false SliceBuffer_new (str "")) None [] []) with
  | Ret (_, c) => sr_sent c = Some <$> str "helloab" /\ sr_flight c = Some [Some x63] /\
                  win_snd_bytes (sr_state c) = [Some x63]
  | _ => False
  end.
Proof. vm_compute. done. Qed.

Definition long_message : Slice := Slice_ctor (replicate (S MAX_PACKAGE_SIZE) (Some x41)).

Lemma win_large_message_stuck_witness :
  let s := example_win true false SliceBuffer_new (str "") in
  exists b s' r, @win_SendMsg (list byte) unit stream_kernel long_message s = Ret (b, s') /\
    os_trace (wcs_os s') = os_trace (wcs_os s) ++ [(SysWSASend (ei_fd (wcs_ep s)) [], r)] /\
    win_snd_bytes s' = Slice_bytes long_message /\
    @win_OnSendEvent (list byte) unit stream_kernel 0 (wn_handle_id (wcs_cn s')) s' = Ret (false, s').
Proof.
  intros s. apply (@win_large_message_stuck (list byte) unit stream_kernel long_message s); [apply Slice_ctor_wf| |reflexivity..].
  rewrite <- Slice_length_bytes by apply Slice_ctor_wf. unfold long_message. rewrite Slice_ctor_bytes, length_replicate. apply Nat.lt_succ_diag_r.
Defined.

Definition no_messages : WinLibC := {| FormatMessage := fun _ => None |}.

Lemma win_recv_frames_witness :
  let s := example_win true false SliceBuffer_new (str "abcdef") in
  exists ok s' t calls, @win_recv_events (list byte) unit stream_kernel no_messages length_byte 1 3 s = Ret (ok, s') /\
    os_trace (wcs_os s') = os_trace (wcs_os s) ++ t /\ wcs_out s' = wcs_out s ++ calls /\
    let r := split_stream (length_byte (wcs_ep s)) (sb_bytes (wn_rcv_buffer (wcs_cn s)) ++ bytes_received t) in
    Forall2 delivers calls (sp_packets r) /\ sb_bytes (wn_rcv_buffer (wcs_cn s')) = sp_rest r /\
    (sp_error r = true -> ok = false).
Proof.
  intros s. apply (@win_recv_frames (list byte) unit stream_kernel stream_kernel_io no_messages length_byte 1 3 s).
  - split; apply SliceBuffer_new_wf.
  - reflexivity.
  - reflexivity.
  - apply length_byte_fits.
  - apply length_byte_stable.
  - intros k. apply stream_kernel_short.
Defined.

(** A peer that sent as many times 8192 bytes as the state says. *)
Definition full_kernel : Kernel nat := fun k c =>
  match c, k with
  | SysRecv _ len, S k => ({| r_ret := len; r_errno := 0; r_data := replicate (Z.to_nat len) x41; r_int := 0; r_events := [] |}, k)
  | _, _ => ({| r_ret := -1; r_errno := WSAEWOULDBLOCK; r_data := []; r_int := 0; r_events := [] |}, k)
  end.

Lemma win_recv_deaf_witness :
  let s := example_win false false SliceBuffer_new 1%nat in
  exists s' t calls, @win_DoRecvEvent nat unit full_kernel no_messages length_byte 2 0 (wn_handle_id (wcs_cn s)) s = Ret (RAPTOR_ERROR_NONE, s') /\
    os_trace (wcs_os s') = os_trace (wcs_os s) ++ t /\ Forall is_read t /\ length t = 2%nat /\
    wcs_out s' = wcs_out s ++ calls /\ length calls = 1%nat /\ wcs_cn s' = wcs_cn s /\ wcs_ep s' = wcs_ep s.
Proof.
  intros s. apply (@win_recv_deaf nat unit full_kernel no_messages length_byte 1 2 0 s); [reflexivity|split; [reflexivity|split; reflexivity]|lia].
Defined.
