(* ===== verification/Time.v ===== *)
(** * The clock (src/utils/time.cc) *)

From S2P Require Import Prelude.
From S2P Require Import OS.

Local Open Scope Z_scope.

Record raptor_time_spec : Type := {
  tv_sec : Z;
  tv_usec : Z;
}.

Section Clock.
Context {K : Type} `{Kernel K}.

Definition timeval_of (r : sysret) : Z * Z := default (0, 0) (head (r_events r)).

Definition GetTimeOfDay : M (os K) (Z * raptor_time_spec) :=
  r ← call SysGettimeofday;
  let tp := timeval_of r in
  mret (r_ret r, {| tv_sec := tp.1; tv_usec := i32 tp.2 |}).

Definition GetCurrentMilliseconds : M (os K) Z :=
  r ← call SysGettimeofday;
  let tp := timeval_of r in
  mret (tp.1 * 1000 + Z.quot tp.2 1000).
End Clock.
