(* ===== verification/Sync.v ===== *)
(** * Waiting on a condition variable, initialising once (src/utils/sync.cc, src/utils/cpu.cc)

    The conditional wait turns a timeout into the point of time that
    [pthread_cond_timedwait] takes; the two pthread waits are system calls of the
    model.  Mutexes have no state here. *)

From S2P Require Import Prelude.
From S2P Require Import OS.
From S2P Require Import Time.

Local Open Scope Z_scope.

Definition ETIMEDOUT : Z := 110.
Definition _SC_NPROCESSORS_CONF : Z := 83.

Section Sync.
Context {K : Type} `{Kernel K}.

(** Arithmetic on [long]: overflow is undefined. *)
Definition long (z : Z) : M (os K) Z := if (- 2 ^ 63 <=? z) && (z <? 2 ^ 63) then mret z else undef.

Lemma wp_long z o (Q : Z -> os K -> Prop) : - 2 ^ 63 <= z < 2 ^ 63 -> Q z o -> wp (long z) o Q.
Proof using Type.
  intros Hz HQ. unfold long. rewrite (proj2 (Z.leb_le _ _)), (proj2 (Z.ltb_lt _ _)) by lia. by apply wp_ret.
Qed.

(** The result: 1 for a timeout, 0 in other cases. *)
Definition RaptorCondVarWait (timeout_ms : Z) : M (os K) Z :=
  error ←
    (if timeout_ms <? 0 then call_ret SysCondWait
     else
       r ← call SysGettimeofday;
       let now := timeval_of r in
       tv_sec ← long (now.1 + Z.quot timeout_ms 1000);
       tv_usec ← long (now.2 + Z.rem timeout_ms 1000 * 1000);
       let sec := Z.quot tv_usec 1000000 in
       '(tv_sec, tv_usec) ←
         (if 0 <? sec then s ← long (tv_sec + sec); mret (s, tv_usec - sec * 1000000)
          else mret (tv_sec, tv_usec));
       tv_nsec ← long (tv_usec * 1000);
       call_ret (SysCondTimedwait tv_sec tv_nsec));
  mret (if error =? ETIMEDOUT then 1 else 0).

(** [pthread_once], whose result is 0: the routine runs the first time. *)
Definition RaptorOnceInit (init_routine : M (os K) Z) (cell : option Z) : M (os K) (option Z) :=
  match cell with
  | None => v ← init_routine; mret (Some v)
  | Some v => mret (Some v)
  end.

Definition get_number_of_cpu_cores_impl : M (os K) Z :=
  r ← call_ret (SysSysconf _SC_NPROCESSORS_CONF);
  let number_of_cpu_cores := i32 r in
  mret (if number_of_cpu_cores <? 1 then 1 else number_of_cpu_cores).

(** The cell is [once] with [number_of_cpu_cores], which it guards. *)
Definition raptor_get_number_of_cpu_cores (cell : option Z) : M (os K) (Z * option Z) :=
  cell ← RaptorOnceInit get_number_of_cpu_cores_impl cell;
  mret (u32 (default 0 cell), cell).

(** A thread that waits with a timeout waits until exactly that long after the time
    [gettimeofday] gave, as a [timespec] whose nanoseconds are in range. *)
Theorem condvar_deadline (timeout_ms : Z) (o : os K) :
  0 <= timeout_ms ->
  let now := timeval_of (sys_call (os_kernel o) SysGettimeofday).1 in
  0 <= now.1 -> 0 <= now.2 < 1000000 -> now.1 + timeout_ms / 1000 + 1 < 2 ^ 63 ->
  wp (RaptorCondVarWait timeout_ms) o (fun x o' => exists r sec nsec r',
    os_trace o' = os_trace o ++ [(SysGettimeofday, r); (SysCondTimedwait sec nsec, r')] /\
    0 <= nsec < 1000000000 /\
    sec * 1000000000 + nsec = (now.1 * 1000000 + now.2) * 1000 + timeout_ms * 1000000 /\
    x = (if r_ret r' =? ETIMEDOUT then 1 else 0)).
Proof using Type.
  intros Ht now Hs Hu Hmax. unfold RaptorCondVarWait. rewrite (proj2 (Z.ltb_ge _ _)) by lia.
  apply wp_bind, wp_bind. unfold call at 1, wp at 1. fold now.
  destruct (sys_call (os_kernel o) SysGettimeofday) as [r k]. cbn [fst] in now. fold now.
  rewrite Z.quot_div_nonneg, Z.rem_mod_nonneg by lia.
  pose proof (Z.div_mod timeout_ms 1000) as Hdm. pose proof (Z.mod_pos_bound timeout_ms 1000) as Hmb.
  apply wp_bind, wp_long; [lia|]. apply wp_bind, wp_long; [lia|].
  set (us := now.2 + timeout_ms mod 1000 * 1000). assert (0 <= us < 2000000) as Hus by lia.
  rewrite Z.quot_div_nonneg by lia.
  pose proof (Z.div_mod us 1000000) as Hdu. pose proof (Z.mod_pos_bound us 1000000) as Hmu.
  apply wp_bind. destruct (Z.ltb_spec 0 (us / 1000000)) as [Hd|Hd].
  - apply wp_bind, wp_long; [lia|]. apply wp_ret. apply wp_bind, wp_long; [lia|].
    unfold call_ret. apply wp_bind. unfold call, wp at 1. cbn [os_kernel].
    destruct (sys_call k _) as [r' k'] eqn:E. apply wp_ret, wp_ret. cbn.
    exists r, (now.1 + timeout_ms / 1000 + us / 1000000), ((us - us / 1000000 * 1000000) * 1000), r'.
    rewrite <- app_assoc. split_and!; [done|lia|lia| |done]. lia.
  - apply wp_ret. apply wp_bind, wp_long; [lia|].
    unfold call_ret. apply wp_bind. unfold call, wp at 1. cbn [os_kernel].
    destruct (sys_call k _) as [r' k'] eqn:E. apply wp_ret, wp_ret. cbn.
    exists r, (now.1 + timeout_ms / 1000), (us * 1000), r'.
    rewrite <- app_assoc. split_and!; [done|lia|lia| |done]. lia.
Qed.

(** The number of processors is at least one, and asked for once. *)
Lemma cpu_cores_once (cell : option Z) (o : os K) :
  match cell with Some n => 1 <= n < 2 ^ 31 | None => True end ->
  wp (raptor_get_number_of_cpu_cores cell) o (fun '(n, cell') o' =>
    1 <= n < 2 ^ 31 /\ cell' = Some n /\
    match cell with Some m => n = m /\ o' = o | None => exists r, os_trace o' = os_trace o ++ [(SysSysconf _SC_NPROCESSORS_CONF, r)] end).
Proof using Type.
  intros Hc. unfold raptor_get_number_of_cpu_cores. apply wp_bind. destruct cell as [n|]; cbn [RaptorOnceInit].
  - apply wp_ret, wp_ret. cbn. unfold u32. rewrite wrap_small by lia. done.
  - apply wp_bind. unfold get_number_of_cpu_cores_impl, call_ret. apply wp_bind, wp_bind. unfold call, wp at 1.
    destruct (sys_call (os_kernel o) _) as [r k]. do 4 apply wp_ret. cbn.
    pose proof (wrap_range 32 (r_ret r + 2 ^ (32 - 1)) ltac:(lia)) as Hr.
    assert (- 2 ^ 31 <= i32 (r_ret r) < 2 ^ 31) as Hi by (unfold i32, swrap; cbn in *; lia).
    unfold u32. rewrite wrap_small by (destruct (Z.ltb_spec (i32 (r_ret r)) 1); lia).
    split; [destruct (Z.ltb_spec (i32 (r_ret r)) 1); lia|]. split; [done|]. by eexists.
Qed.
End Sync.

(** ** A concrete wait *)

(** A clock at a tenth of a second before a full second. *)
Definition clock_kernel : Kernel unit := fun k c =>
  match c with
  | SysGettimeofday => ({| r_ret := 0; r_errno := 0; r_data := []; r_int := 0; r_events := [(1589046186, 900000)] |}, k)
  | SysCondTimedwait _ _ => ({| r_ret := ETIMEDOUT; r_errno := 0; r_data := []; r_int := 0; r_events := [] |}, k)
  | _ => ({| r_ret := 0; r_errno := 0; r_data := []; r_int := 0; r_events := [] |}, k)
  end.

#[local] Existing Instance clock_kernel.

Definition clock_os : os unit := {| os_kernel := tt; os_errno := 0; os_trace := [] |}.

Lemma condvar_deadline_witness :
  let now := timeval_of (sys_call (os_kernel clock_os) SysGettimeofday).1 in
  now = (1589046186, 900000) /\
  wp (RaptorCondVarWait 1250) clock_os (fun x o' => exists r sec nsec r',
    os_trace o' = os_trace clock_os ++ [(SysGettimeofday, r); (SysCondTimedwait sec nsec, r')] /\
    0 <= nsec < 1000000000 /\
    sec * 1000000000 + nsec = (now.1 * 1000000 + now.2) * 1000 + 1250 * 1000000 /\
    x = (if r_ret r' =? ETIMEDOUT then 1 else 0)).
Proof.
  split; [reflexivity|]. apply (condvar_deadline 1250 clock_os).
  - lia.
  - cbn. lia.
  - cbn. lia.
  - vm_compute. reflexivity.
Defined.
