(* ===== verification/Monitor.v ===== *)
(** * Mutexes and condition variables (include/raptor-lite/utils/sync.h)

    What [Mutex], [AutoMutex] and [ConditionVariable] do for the threads that share some
    state: a section that runs under the mutex is atomic.  The threads are interleaved
    statement by statement; a wait can end without a signal, and a signal wakes any one
    of those who wait. *)

From stdpp Require Import functions gmap.
From S2P Require Import Prelude.

(** ** The classes *)

(** A mutex with the thread that holds it, and a condition variable used with it. *)
Record monitor : Type := {
  _mutex : option nat;
  _cv : gset nat;
}.

Definition monitor_new : monitor := {| _mutex := None; _cv := ∅ |}.

(** [None]: the caller blocks, also when it is the holder itself. *)
Definition Mutex_Lock (t : nat) (m : monitor) : option monitor :=
  match _mutex m with None => Some {| _mutex := Some t; _cv := _cv m |} | Some _ => None end.

(** Only the holder may unlock. *)
Definition Mutex_Unlock (t : nat) (m : monitor) : outcome monitor :=
  if bool_decide (_mutex m = Some t) then Ret {| _mutex := None; _cv := _cv m |} else Undef.

(** Destroying what is in use is undefined. *)
Definition Mutex_dtor (m : monitor) : outcome unit :=
  match _mutex m with None => Ret tt | Some _ => Undef end.
Definition ConditionVariable_dtor (m : monitor) : outcome unit :=
  if bool_decide (_cv m = ∅) then Ret tt else Undef.

(** Wakes the thread [w], one of those who wait; [None]: it is not. *)
Definition ConditionVariable_Signal (w : nat) (m : monitor) : option monitor :=
  if bool_decide (_cv m = ∅) then Some m
  else if bool_decide (w ∈ _cv m) then Some {| _mutex := _mutex m; _cv := _cv m ∖ {[w]} |} else None.

Definition ConditionVariable_Broadcast (m : monitor) : monitor := {| _mutex := _mutex m; _cv := ∅ |}.

(** [Wait] gives the mutex up and waits in one step; when it was woken, or its time is
    over, it takes the mutex again. *)
Definition ConditionVariable_Wait (t : nat) (m : monitor) : outcome monitor :=
  match Mutex_Unlock t m with
  | Ret m => Ret {| _mutex := _mutex m; _cv := _cv m ∪ {[t]} |}
  | o => o
  end.
Definition wake_up (t : nat) (m : monitor) : monitor := {| _mutex := _mutex m; _cv := _cv m ∖ {[t]} |}.
Definition Wait_return (t : nat) (m : monitor) : option monitor :=
  if bool_decide (t ∈ _cv m) then None else Mutex_Lock t m.

(** ** Threads *)

Section Threads.
(** What the mutex guards. *)
Context {S : Type}.

Inductive instr : Type :=
  | Lock
  | Unlock
  | Wait
  | Waiting
  | Signal
  | Broadcast
  | Stmt (f : S -> S).

(** A block with a variable of the class [AutoMutex]. *)
Definition AutoMutex_scope (body : list instr) : list instr := Lock :: body ++ [Unlock].

(** [c_section] has the statements that the holder of the mutex has run since it took it,
    [c_history] those of the sections that are over, with their threads. *)
Record config : Type := {
  c_shared : S;
  c_monitor : monitor;
  c_threads : nat -> list instr;
  c_section : list (S -> S);
  c_history : list (nat * list (S -> S));
}.

Inductive choice : Type :=
  | Run (t w : nat)
  | Wakeup (t : nat).

(** The thread [t] goes on with [p]. *)
Definition go_on (t : nat) (p : list instr) (m : monitor) (k : config) : config :=
  {| c_shared := c_shared k; c_monitor := m; c_threads := <[t := p]> (c_threads k);
     c_section := c_section k; c_history := c_history k |}.

Definition begin_section (t : nat) (p : list instr) (m : monitor) (k : config) : config :=
  {| c_shared := c_shared k; c_monitor := m; c_threads := <[t := p]> (c_threads k);
     c_section := []; c_history := c_history k |}.

Definition end_section (t : nat) (p : list instr) (m : monitor) (k : config) : config :=
  {| c_shared := c_shared k; c_monitor := m; c_threads := <[t := p]> (c_threads k);
     c_section := []; c_history := c_history k ++ [(t, c_section k)] |}.

Definition run_stmt (t : nat) (p : list instr) (f : S -> S) (k : config) : config :=
  {| c_shared := f (c_shared k); c_monitor := c_monitor k; c_threads := <[t := p]> (c_threads k);
     c_section := c_section k ++ [f]; c_history := c_history k |}.

Definition on_ret (o : outcome monitor) (f : monitor -> config) : outcome config :=
  match o with Ret m => Ret (f m) | Undef => Undef | Abort => Abort | NoFuel => NoFuel end.

(** [None]: the thread blocks or has ended. *)
Definition step (c : choice) (k : config) : option (outcome config) :=
  let m := c_monitor k in
  match c with
  | Wakeup t => Some (Ret (go_on t (c_threads k t) (wake_up t m) k))
  | Run t w =>
      match c_threads k t with
      | [] => None
      | Lock :: p => m' ← Mutex_Lock t m; Some (Ret (begin_section t p m' k))
      | Unlock :: p => Some (on_ret (Mutex_Unlock t m) (fun m' => end_section t p m' k))
      | Wait :: p => Some (on_ret (ConditionVariable_Wait t m) (fun m' => end_section t (Waiting :: p) m' k))
      | Waiting :: p => m' ← Wait_return t m; Some (Ret (begin_section t p m' k))
      | Signal :: p => m' ← ConditionVariable_Signal w m; Some (Ret (go_on t p m' k))
      | Broadcast :: p => Some (Ret (go_on t p (ConditionVariable_Broadcast m) k))
      | Stmt f :: p => Some (Ret (run_stmt t p f k))
      end
  end.

Inductive steps : config -> config -> Prop :=
  | steps_refl k : steps k k
  | steps_next c k k' k'' : step c k = Some (Ret k') -> steps k' k'' -> steps k k''.

Definition start (s : S) (prog : nat -> list instr) : config :=
  {| c_shared := s; c_monitor := monitor_new; c_threads := prog; c_section := []; c_history := [] |}.

(** ** Sections *)

(** The mutex is taken before the state is touched and waited on, once, and given up at the
    end; [held] says whether the thread has it. *)
Fixpoint guarded (held : bool) (p : list instr) : bool :=
  match p with
  | [] => negb held
  | Lock :: p | Waiting :: p => negb held && guarded true p
  | Unlock :: p => held && guarded false p
  | Wait :: p | Stmt _ :: p => held && guarded true p
  | Signal :: p | Broadcast :: p => guarded held p
  end.

(** The statements between taking the mutex and giving it up, by a wait too. *)
Fixpoint sections (now : list (S -> S)) (p : list instr) : list (list (S -> S)) :=
  match p with
  | [] => []
  | Lock :: p | Waiting :: p => sections [] p
  | Unlock :: p | Wait :: p => now :: sections [] p
  | Stmt f :: p => sections (now ++ [f]) p
  | Signal :: p | Broadcast :: p => sections now p
  end.

Definition run_section (fs : list (S -> S)) (s : S) : S := fold_left (fun s f => f s) fs s.

(** Whole sections, one after the other. *)
Definition serially (h : list (nat * list (S -> S))) (s : S) : S := fold_left (fun s e => run_section e.2 s) h s.

(** Those of one thread. *)
Definition sections_of (t : nat) (h : list (nat * list (S -> S))) : list (list (S -> S)) :=
  snd <$> filter (fun e => e.1 = t) h.

(** ** The invariant *)

Definition holds (t : nat) (k : config) : bool := bool_decide (_mutex (c_monitor k) = Some t).

(** What the thread [t] has run of its current section. *)
Definition running (t : nat) (k : config) : list (S -> S) := if holds t k then c_section k else [].

Record kinv (s0 : S) (prog : nat -> list instr) (k : config) : Prop := {
  k_shared : c_shared k = run_section (c_section k) (serially (c_history k) s0);
  k_free : _mutex (c_monitor k) = None -> c_section k = [];
  k_guarded t : guarded (holds t k) (c_threads k t) = true;
  k_sections t : sections_of t (c_history k) ++ sections (running t k) (c_threads k t) = sections [] (prog t);
  k_waiting t : t ∈ _cv (c_monitor k) -> exists p, c_threads k t = Waiting :: p;
}.

Lemma kinv_start s prog : (forall t, guarded false (prog t) = true) -> kinv s prog (start s prog).
Proof.
  intros Hg. split; cbn; [done|done| |done|set_solver].
  intros t. unfold holds. cbn. by rewrite bool_decide_eq_false_2.
Qed.

Lemma holds_eq t k : holds t k = true -> _mutex (c_monitor k) = Some t.
Proof. unfold holds. by intros ?%bool_decide_eq_true. Qed.

(** A thread that is not waiting goes on, with the mutex as it was. *)
Lemma kinv_go_on s0 prog t p m k :
  kinv s0 prog k -> _mutex m = _mutex (c_monitor k) -> _cv m ⊆ _cv (c_monitor k) ->
  guarded (holds t k) p = true -> (t ∉ _cv m \/ p = c_threads k t) ->
  (forall now, sections now p = sections now (c_threads k t)) ->
  kinv s0 prog (go_on t p m k).
Proof.
  intros [Hs Hf Hg Hsec Hw] Hm Hcv Hp Ht Hsame.
  assert (forall t', holds t' (go_on t p m k) = holds t' k) as Eh by (intros t'; unfold holds, go_on; cbn; by rewrite Hm).
  split.
  - done.
  - cbn. rewrite Hm. done.
  - intros t'. rewrite Eh. cbn. destruct (decide (t' = t)) as [->|Hne].
    + by rewrite fn_lookup_insert.
    + by rewrite fn_lookup_insert_ne.
  - intros t'. unfold running. rewrite Eh. cbn. destruct (decide (t' = t)) as [->|Hne].
    + rewrite fn_lookup_insert, Hsame. apply Hsec.
    + rewrite fn_lookup_insert_ne by done. apply Hsec.
  - cbn. intros t' Ht'. destruct (decide (t' = t)) as [->|Hne].
    + rewrite fn_lookup_insert. destruct Ht as [Ht| ->]; [done|]. apply Hw. set_solver.
    + rewrite fn_lookup_insert_ne by done. apply Hw. set_solver.
Qed.

Lemma holds_update t' k h : _mutex (c_monitor k) = h -> holds t' k = bool_decide (h = Some t').
Proof. by intros <-. Qed.

Lemma kinv_begin s0 prog t p m k :
  kinv s0 prog k -> Mutex_Lock t (c_monitor k) = Some m -> t ∉ _cv (c_monitor k) ->
  guarded true p = true -> sections [] p = sections [] (c_threads k t) -> kinv s0 prog (begin_section t p m k).
Proof.
  intros [Hs Hf Hg Hsec Hw] Hl Ht Hp Hsame. unfold Mutex_Lock in Hl.
  destruct (_mutex (c_monitor k)) as [|] eqn:Hm; [done|]. injection Hl as <-. specialize (Hf eq_refl).
  assert (forall t', holds t' k = false) as Hno by (intros t'; unfold holds; by rewrite Hm).
  split.
  - cbn. by rewrite Hs, Hf.
  - done.
  - intros t'. rewrite (holds_update _ _ (Some t)) by done. cbn. destruct (decide (t' = t)) as [->|Hne].
    + by rewrite fn_lookup_insert, bool_decide_eq_true_2.
    + rewrite fn_lookup_insert_ne, bool_decide_eq_false_2 by congruence. by rewrite <- (Hno t').
  - intros t'. specialize (Hsec t'). unfold running in *. rewrite Hno in Hsec. rewrite <- Hsec. cbn. f_equal.
    replace (if holds t' _ then _ else _) with (@nil (S -> S)) by (by destruct (holds t' _)).
    destruct (decide (t' = t)) as [->|Hne]; [by rewrite fn_lookup_insert|by rewrite fn_lookup_insert_ne].
  - cbn. intros t' Ht'. rewrite fn_lookup_insert_ne by set_solver. by apply Hw.
Qed.

Lemma sections_of_snoc t t' h fs :
  sections_of t' (h ++ [(t, fs)]) = sections_of t' h ++ (if decide (t = t') then [fs : list (S -> S)] else []).
Proof.
  unfold sections_of. rewrite filter_app, fmap_app. f_equal. unfold filter. cbn. by destruct (decide (t = t')).
Qed.

Lemma kinv_end s0 prog t p m k :
  kinv s0 prog k -> holds t k = true -> _mutex m = None -> _cv m ⊆ _cv (c_monitor k) ∪ {[t]} ->
  (t ∈ _cv m -> exists p', p = Waiting :: p') -> guarded false p = true ->
  (forall now, sections now (c_threads k t) = now :: sections [] p) -> kinv s0 prog (end_section t p m k).
Proof.
  intros [Hs Hf Hg Hsec Hw] Hh Hm Hcv Ht Hp Hsame. pose proof (holds_eq _ _ Hh) as Hk.
  assert (forall t', holds t' (end_section t p m k) = false) as Hno by (intros t'; unfold holds; cbn; by rewrite Hm).
  assert (forall t', t' <> t -> holds t' k = false) as Hothers.
  { intros t' Hne. unfold holds. rewrite Hk. apply bool_decide_eq_false_2. congruence. }
  split.
  - cbn. unfold serially. rewrite fold_left_app. exact Hs.
  - done.
  - intros t'. rewrite Hno. cbn. destruct (decide (t' = t)) as [->|Hne]; [by rewrite fn_lookup_insert|].
    rewrite fn_lookup_insert_ne, <- (Hothers t') by done. apply Hg.
  - intros t'. rewrite <- Hsec. unfold running. rewrite Hno. cbn [c_history c_threads end_section].
    rewrite sections_of_snoc, <- app_assoc. f_equal. destruct (decide (t = t')) as [<-|Hne].
    + by rewrite Hh, fn_lookup_insert, Hsame.
    + by rewrite Hothers, fn_lookup_insert_ne by done.
  - cbn. intros t' Ht'. destruct (decide (t' = t)) as [->|Hne].
    + rewrite fn_lookup_insert. by apply Ht.
    + rewrite fn_lookup_insert_ne by done. apply Hw. set_solver.
Qed.

Lemma kinv_stmt s0 prog t p f k :
  kinv s0 prog k -> c_threads k t = Stmt f :: p -> kinv s0 prog (run_stmt t p f k).
Proof.
  intros [Hs Hf Hg Hsec Hw] Hp. pose proof (Hg t) as Hgt. rewrite Hp in Hgt. cbn in Hgt.
  apply andb_true_iff in Hgt as [Hh Hgp]. pose proof (holds_eq _ _ Hh) as Hk.
  assert (forall t', holds t' (run_stmt t p f k) = holds t' k) as Eh by done.
  split.
  - cbn. unfold run_section. rewrite fold_left_app. cbn. by rewrite Hs.
  - cbn. by rewrite Hk.
  - intros t'. rewrite Eh. cbn. destruct (decide (t' = t)) as [->|Hne]; [by rewrite fn_lookup_insert, Hh|by rewrite fn_lookup_insert_ne].
  - intros t'. rewrite <- Hsec. unfold running. rewrite Eh. cbn. f_equal. destruct (decide (t' = t)) as [->|Hne].
    + by rewrite fn_lookup_insert, Hp, Hh.
    + rewrite fn_lookup_insert_ne by done. unfold holds. rewrite Hk, bool_decide_eq_false_2; congruence.
  - cbn. intros t' Ht'. destruct (decide (t' = t)) as [->|Hne].
    + destruct (Hw t Ht') as [p' E]. congruence.
    + rewrite fn_lookup_insert_ne by done. by apply Hw.
Qed.

(** A step is defined, and keeps the invariant. *)
Lemma step_defined s0 prog c k r : kinv s0 prog k -> step c k = Some r -> exists k', r = Ret k' /\ kinv s0 prog k'.
Proof.
  intros Hk Hstep. destruct c as [t w|t].
  2:{ injection Hstep as <-. eexists. split; [done|]. apply kinv_go_on; [done|done|cbn; set_solver|apply (k_guarded _ _ _ Hk)|by right|done]. }
  cbn [step] in Hstep. pose proof (k_guarded _ _ _ Hk t) as Hg.
  assert (forall i p, c_threads k t = i :: p -> i <> Waiting -> t ∉ _cv (c_monitor k)) as Hnw.
  { intros i p E Hi Ht. destruct (k_waiting _ _ _ Hk t Ht) as [p' E']. congruence. }
  destruct (c_threads k t) as [|i p] eqn:Ep; [done|]. specialize (Hnw i p eq_refl).
  destruct i; cbn [guarded] in Hg; try (apply andb_true_iff in Hg as [Hh Hg]).
  - destruct (Mutex_Lock _ _) as [m|] eqn:El; [|done]. injection Hstep as <-. eexists. split; [done|].
    apply kinv_begin; [done|done|by apply Hnw|done|by rewrite Ep].
  - unfold Mutex_Unlock in Hstep. rewrite bool_decide_eq_true_2 in Hstep by (by apply holds_eq). injection Hstep as <-.
    eexists. split; [done|]. apply kinv_end; [done|done|done|cbn; set_solver| |done|by rewrite Ep].
    intros Ht. by apply Hnw in Ht.
  - unfold ConditionVariable_Wait, Mutex_Unlock in Hstep. rewrite bool_decide_eq_true_2 in Hstep by (by apply holds_eq).
    injection Hstep as <-. eexists. split; [done|].
    apply kinv_end; [done|done|done|cbn; set_solver|by eexists|done|by rewrite Ep].
  - unfold Wait_return in Hstep. destruct (bool_decide_reflect (t ∈ _cv (c_monitor k))) as [|Ht]; [done|].
    destruct (Mutex_Lock _ _) as [m|] eqn:El; [|done]. injection Hstep as <-. eexists. split; [done|].
    apply kinv_begin; [done|done|done|done|by rewrite Ep].
  - destruct (ConditionVariable_Signal _ _) as [m|] eqn:Es; [|done]. injection Hstep as <-. eexists. split; [done|].
    unfold ConditionVariable_Signal in Es. assert (_mutex m = _mutex (c_monitor k) /\ _cv m ⊆ _cv (c_monitor k)) as [Hm Hcv].
    { repeat case_bool_decide; simplify_eq; cbn; split; set_solver. }
    apply kinv_go_on; [done|done|done|done| |by rewrite Ep]. left. intros Ht. apply Hnw; [done|set_solver].
  - injection Hstep as <-. eexists. split; [done|]. apply kinv_go_on; [done|done|cbn; set_solver|done|left; cbn; set_solver|by rewrite Ep].
  - injection Hstep as <-. eexists. split; [done|]. by apply kinv_stmt.
Qed.

Lemma steps_kinv s0 prog k k' : steps k k' -> kinv s0 prog k -> kinv s0 prog k'.
Proof.
  induction 1 as [|c k k1 k2 Hstep _ IH]; [done|]. intros Hk. apply IH.
  destruct (step_defined s0 prog c k _ Hk Hstep) as (? & [= <-] & ?). done.
Qed.

(** ** What the mutex is for *)

(** However the threads are interleaved, no use of the mutex is undefined, and when all
    have ended, the state is that of their sections run whole, one after the other, those
    of a thread in its order. *)
Lemma sections_serial s prog k :
  (forall t, guarded false (prog t) = true) -> steps (start s prog) k ->
  (forall c r, step c k = Some r -> exists k', r = Ret k') /\
  ((forall t, c_threads k t = []) -> exists h,
    c_shared k = serially h s /\ forall t, sections_of t h = sections [] (prog t)).
Proof.
  intros Hg Hsteps. pose proof (steps_kinv _ _ _ _ Hsteps (kinv_start s prog Hg)) as Hk. split.
  - intros c r Hstep. destruct (step_defined _ _ c k r Hk Hstep) as (k' & -> & _). by exists k'.
  - intros Hend. exists (c_history k). destruct Hk as [Hs Hf Hgk Hsec Hw].
    assert (_mutex (c_monitor k) = None) as Hm.
    { destruct (_mutex (c_monitor k)) as [h|] eqn:Em; [|done]. specialize (Hgk h). rewrite Hend in Hgk.
      unfold holds in Hgk. by rewrite Em, bool_decide_eq_true_2 in Hgk. }
    split; [by rewrite Hs, Hf|]. intros t. rewrite <- Hsec, Hend. cbn. by rewrite app_nil_r.
Qed.

(** Threads are stuck only when all that have not ended wait for a signal. *)
Lemma stuck_all_wait s prog k :
  (forall t, guarded false (prog t) = true) -> steps (start s prog) k ->
  (forall t w, step (Run t w) k = None) -> forall t, c_threads k t <> [] -> t ∈ _cv (c_monitor k).
Proof.
  intros Hg Hsteps Hstuck. pose proof (steps_kinv _ _ _ _ Hsteps (kinv_start s prog Hg)) as Hk.
  assert (forall t i p, c_threads k t = i :: p -> i = Lock \/ i = Waiting) as Hhead.
  { intros t i p E. destruct i; [by left| | |by right| | |]; exfalso.
    - specialize (Hstuck t 0). cbn in Hstuck. by rewrite E in Hstuck.
    - specialize (Hstuck t 0). cbn in Hstuck. by rewrite E in Hstuck.
    - assert (exists w m, ConditionVariable_Signal w (c_monitor k) = Some m) as (w & m & Es).
      { unfold ConditionVariable_Signal. case_bool_decide as Hcv; [by eexists 0, _|].
        destruct (set_choose_L _ Hcv) as [w Hw]. exists w. rewrite bool_decide_eq_true_2 by done. by eexists. }
      specialize (Hstuck t w). cbn in Hstuck. by rewrite E, Es in Hstuck.
    - specialize (Hstuck t 0). cbn in Hstuck. by rewrite E in Hstuck.
    - specialize (Hstuck t 0). cbn in Hstuck. by rewrite E in Hstuck. }
  assert (_mutex (c_monitor k) = None) as Hm.
  { destruct (_mutex (c_monitor k)) as [h|] eqn:Em; [|done]. exfalso. pose proof (k_guarded _ _ _ Hk h) as Hgh.
    unfold holds in Hgh. rewrite Em, bool_decide_eq_true_2 in Hgh by done.
    destruct (c_threads k h) as [|i p] eqn:E; [done|]. by destruct (Hhead h i p E) as [-> | ->]. }
  intros t Ht. destruct (c_threads k t) as [|i p] eqn:E; [done|].
  specialize (Hstuck t 0). cbn in Hstuck. rewrite E in Hstuck. destruct (Hhead t i p E) as [-> | ->].
  - unfold Mutex_Lock in Hstuck. by rewrite Hm in Hstuck.
  - unfold Wait_return, Mutex_Lock in Hstuck. case_bool_decide; [done|]. by rewrite Hm in Hstuck.
Qed.

Lemma sections_of_all (h : list (nat * list (S -> S))) t fs : (t, fs) ∈ h -> fs ∈ sections_of t h.
Proof. intros Hh. apply list_elem_of_fmap. exists (t, fs). split; [done|]. by apply list_elem_of_filter. Qed.

(** What every section keeps, when it runs whole, holds whenever the mutex is free, though
    the statements of a section may break it. *)
Lemma sections_keep (P : S -> Prop) s prog k :
  (forall t, guarded false (prog t) = true) ->
  (forall t fs s, fs ∈ sections [] (prog t) -> P s -> P (run_section fs s)) ->
  P s -> steps (start s prog) k -> _mutex (c_monitor k) = None -> P (c_shared k).
Proof.
  intros Hg HP Hs Hsteps Hm. destruct (steps_kinv _ _ _ _ Hsteps (kinv_start s prog Hg)) as [Hsh Hf _ Hsec _].
  rewrite Hsh, Hf by done. change (P (serially (c_history k) s)).
  assert (forall t fs, (t, fs) ∈ c_history k -> fs ∈ sections [] (prog t)) as Hall.
  { intros t fs Hh. rewrite <- Hsec. apply elem_of_app. left. by apply sections_of_all. }
  clear Hsh Hf Hsec Hm Hsteps. revert s Hs Hall. induction (c_history k) as [|[t fs] h IH]; intros s Hs Hall; [done|].
  apply IH; [|intros t' fs' Hin; apply Hall; by apply list_elem_of_further].
  apply (HP t); [|done]. apply Hall. apply list_elem_of_here.
Qed.

(** *** [AutoMutex] *)

(** A block may wait, signal and run statements; [AutoMutex] does the rest. *)
Definition block_instr (i : instr) : bool := match i with Lock | Unlock | Waiting => false | _ => true end.

Lemma AutoMutex_guarded body p :
  forallb block_instr body = true -> guarded false (AutoMutex_scope body ++ p) = guarded false p.
Proof.
  intros Hb. cbn. rewrite <- app_assoc. cbn [app]. induction body as [|i body IH]; [done|].
  cbn in Hb. apply andb_true_iff in Hb as [Hi Hb]. specialize (IH Hb). by destruct i.
Qed.

(** Threads that run such blocks, one after the other. *)
Definition blocks_of (bs : list (list instr)) : list instr := concat (AutoMutex_scope <$> bs).

Lemma blocks_guarded bs : Forall (fun body => forallb block_instr body = true) bs -> guarded false (blocks_of bs) = true.
Proof. induction 1 as [|body bs Hb _ IH]; [done|]. unfold blocks_of. rewrite fmap_cons. cbn [concat]. by rewrite AutoMutex_guarded. Qed.

(** C34. Blocks under an [AutoMutex] are atomic.  However threads that run them are interleaved,
    statement by statement, whatever thread a signal wakes and whatever wait ends without
    one: no lock, unlock or wait is undefined; while a thread holds the mutex no other
    takes it; when all threads have ended, the state is that of their sections (the blocks,
    cut at their waits) run whole, one after the other, those of a thread in its order;
    and threads are stuck only when all that have not ended wait for a signal. *)
Theorem automutex_serial s (blocks : nat -> list (list instr)) k :
  (forall t, Forall (fun body => forallb block_instr body = true) (blocks t)) ->
  steps (start s (fun t => blocks_of (blocks t))) k ->
  (forall c r, step c k = Some r -> exists k', r = Ret k') /\
  (forall t t' f p, c_threads k t = Stmt f :: p -> _mutex (c_monitor k) = Some t' -> t' = t) /\
  ((forall t, c_threads k t = []) -> exists h,
    c_shared k = serially h s /\ forall t, sections_of t h = sections [] (blocks_of (blocks t))) /\
  ((forall t w, step (Run t w) k = None) -> forall t, c_threads k t <> [] -> t ∈ _cv (c_monitor k)).
Proof.
  intros Hb Hsteps. assert (forall t, guarded false (blocks_of (blocks t)) = true) as Hg by (intros t; apply blocks_guarded, Hb).
  destruct (sections_serial s _ k Hg Hsteps) as [H1 H2]. split; [exact H1|]. split; [|split; [exact H2|apply (stuck_all_wait s _ k Hg Hsteps)]].
  intros t t' f p Hp Hm. pose proof (k_guarded _ _ _ (steps_kinv _ _ _ _ Hsteps (kinv_start s _ Hg)) t) as Hgt.
  rewrite Hp in Hgt. cbn in Hgt. apply andb_true_iff in Hgt as [Hh _]. apply holds_eq in Hh. congruence.
Qed.
End Threads.
Arguments instr S : clear implicits.
Arguments config S : clear implicits.

(** ** Example: a counter of two threads *)

(** Two statements: the value is read into a local variable, and written back. *)
Definition read_counter (t : nat) (s : nat * (nat * nat)) : nat * (nat * nat) :=
  if (t =? 0)%nat then (s.1, (s.1, s.2.2)) else (s.1, (s.2.1, s.1)).
Definition write_counter (t : nat) (s : nat * (nat * nat)) : nat * (nat * nat) :=
  (Datatypes.S (if (t =? 0)%nat then s.2.1 else s.2.2), s.2).

Definition counting (t : nat) : list (list (instr (nat * (nat * nat)))) :=
  if (t <? 2)%nat then [[Stmt (read_counter t); Stmt (write_counter t)]] else [].

Definition counting_start : config (nat * (nat * nat)) := start (0, (0, 0)) (fun t => blocks_of (counting t)).

Definition schedule (cs : list choice) (k : config (nat * (nat * nat))) : config (nat * (nat * nat)) :=
  fold_left (fun k c => match step c k with Some (Ret k') => k' | _ => k end) cs k.

Lemma schedule_steps cs : forall k, steps k (schedule cs k).
Proof.
  induction cs as [|c cs IH]; intros k; [apply steps_refl|]. cbn.
  destruct (step c k) as [[k'| | |]|] eqn:E; [by eapply steps_next|apply IH..].
Qed.

(** The second thread does not get in between. *)
Definition both : list choice :=
  [Run 0 0; Run 0 0; Run 1 0; Run 0 0; Run 0 0; Run 1 0; Run 1 0; Run 1 0; Run 1 0].

Lemma automutex_serial_witness :
  let k := schedule both counting_start in
  (c_shared k).1 = 2 /\
  (forall c r, step c k = Some r -> exists k', r = Ret k') /\
  (forall t t' f p, c_threads k t = Stmt f :: p -> _mutex (c_monitor k) = Some t' -> t' = t) /\
  ((forall t, c_threads k t = []) -> exists h,
    c_shared k = serially h (0, (0, 0)) /\ forall t, sections_of t h = sections [] (blocks_of (counting t))) /\
  ((forall t w, step (Run t w) k = None) -> forall t, c_threads k t <> [] -> t ∈ _cv (c_monitor k)).
Proof.
  intros k. split; [vm_compute; reflexivity|]. apply (automutex_serial (0, (0, 0)) counting k).
  - intros [|[|t]]; repeat constructor.
  - apply schedule_steps.
Defined.

(** Without the mutex an increment is lost. *)
Definition not_counting (t : nat) : list (instr (nat * (nat * nat))) :=
  if (t <? 2)%nat then [Stmt (read_counter t); Stmt (write_counter t)] else [].

Example increment_lost :
  (c_shared (schedule [Run 0 0; Run 1 0; Run 0 0; Run 1 0] (start (0, (0, 0)) not_counting))).1 = 1.
Proof. vm_compute. done. Qed.
