(* ===== verification/CString.v ===== *)
(** * C strings (src/utils/string.cc)

    A C string is the bytes up to the first NUL of a buffer.  The printf family is
    modelled by the text it would print, its result and what it stores. *)

From S2P Require Import Prelude.
From Stdlib Require Import DecimalPos DecimalFacts DecimalString.

Local Open Scope Z_scope.

Definition NUL : byte := x00.

(** A text that C strings can carry. *)
Definition no_nul (text : list byte) : Prop := NUL ∉ text.

Definition c_buffer (text : list byte) : list byte := text ++ [NUL].

(** Reading past the end of the buffer is undefined. *)
Fixpoint strlen (m : list byte) : outcome nat :=
  match m with
  | [] => Undef
  | b :: m =>
      if decide (b = NUL) then Ret O
      else match strlen m with Ret n => Ret (S n) | Undef => Undef | Abort => Abort | NoFuel => NoFuel end
  end.

(** What [vsnprintf] returns: -1 when it fails ([None]) or the length is not an [int]. *)
Definition printf_result (text : option (list byte)) : Z :=
  match text with
  | Some text => if Z.of_nat (length text) <? 2 ^ 31 then Z.of_nat (length text) else -1
  | None => -1
  end.

(** What it stores in a buffer of [size] bytes, [size] not 0. *)
Definition vsnprintf_store (size : nat) (text : list byte) : list byte := c_buffer (take (size - 1) text).

(** [malloc_ok] tells whether [malloc] gives a block of a size. *)
Section Strings.
Variable malloc_ok : nat -> bool.

(** A copy in a new block; the result of [malloc] is not tested. *)
Definition raptor_strdup (src : option (list byte)) : outcome (option (list byte)) :=
  match src with
  | None => Ret None
  | Some src =>
      match strlen src with
      | Ret n => if malloc_ok (S n) then Ret (Some (take (S n) src)) else Undef
      | Undef => Undef | Abort => Abort | NoFuel => NoFuel
      end
  end.

(** The result and [*strp].  [text] is what the format and its arguments print. *)
Definition raptor_asprintf (text : option (list byte)) : Z * option (list byte) :=
  let ret := printf_result text in
  let buf := vsnprintf_store 128 (default [] text) in
  if ret <? 0 then (-1, None)
  else
    let strp_buflen := S (Z.to_nat ret) in
    if negb (malloc_ok strp_buflen) then (-1, None)
    else if (strp_buflen <=? 128)%nat then (ret, Some (take strp_buflen buf))
    else
      let ret := printf_result text in
      let strp := vsnprintf_store strp_buflen (default [] text) in
      if (Z.to_nat ret =? strp_buflen - 1)%nat then (ret, Some strp) else (-1, None).

Lemma strlen_c_buffer text rest : no_nul text -> strlen (text ++ NUL :: rest) = Ret (length text).
Proof using Type.
  unfold no_nul. induction text as [|b text IH]; cbn; [done|]. intros [Hb Ht]%not_elem_of_cons.
  rewrite decide_False by done. by rewrite IH.
Qed.

Lemma strdup_text text rest :
  no_nul text -> malloc_ok (S (length text)) = true ->
  raptor_strdup (Some (text ++ NUL :: rest)) = Ret (Some (c_buffer text)).
Proof using Type.
  intros Hn Hm. unfold raptor_strdup. rewrite strlen_c_buffer, Hm by done.
  unfold c_buffer. rewrite take_app_ge by lia. by replace (S (length text) - length text)%nat with 1%nat by lia.
Qed.

(** Short or long, through the local buffer or straight into the block, [*strp] is
    the whole text. *)
Lemma asprintf_text text :
  Z.of_nat (length text) < 2 ^ 31 -> malloc_ok (S (length text)) = true ->
  raptor_asprintf (Some text) = (Z.of_nat (length text), Some (c_buffer text)).
Proof using Type.
  intros Hl Hm. unfold raptor_asprintf, printf_result. cbn [default from_option id].
  rewrite (proj2 (Z.ltb_lt (Z.of_nat (length text)) _)) by exact Hl. rewrite (proj2 (Z.ltb_ge _ _)) by lia. rewrite Nat2Z.id, Hm. cbn [negb].
  unfold vsnprintf_store. destruct (Nat.leb_spec (S (length text)) 128) as [Hs|Hs].
  - rewrite (take_ge text) by lia. by rewrite (take_ge (c_buffer text)) by (unfold c_buffer; rewrite length_app; cbn; lia).
  - replace (S (length text) - 1)%nat with (length text) by lia. rewrite Nat.eqb_refl. by rewrite take_ge by lia.
Qed.
End Strings.

(** ** Numbers in decimal *)

Section Decimals.
Import DecimalPos Decimal.

Lemma of_uint_acc_bound d : forall acc, Z.pos acc * 10 ^ Z.of_nat (nb_digits d) <= Z.pos (Pos.of_uint_acc d acc).
Proof.
  induction d; intros acc; cbn [nb_digits Pos.of_uint_acc];
    [lia|rewrite Nat2Z.inj_succ, Z.pow_succ_r by lia; etransitivity; [|apply IHd]; nia..].
Qed.

Lemma to_uint_head p l : Pos.to_uint p <> D0 l.
Proof.
  intros E. pose proof (Unsigned.to_of (Pos.to_uint p)) as Hn. rewrite Unsigned.of_to in Hn. cbn in Hn. rewrite E in Hn.
  assert (l = Nil \/ l <> Nil) as [->|Hl] by (destruct l; [by left|by right..]); [by apply (Unsigned.to_uint_nonzero p)|].
  pose proof (DecimalFacts.nb_digits_unorm l Hl) as Hle. rewrite <- DecimalFacts.unorm_D0, <- Hn in Hle. cbn in Hle. lia.
Qed.

Lemma to_uint_length p k : Z.pos p < 10 ^ Z.of_nat k -> (nb_digits (Pos.to_uint p) <= k)%nat.
Proof.
  intros Hp. pose proof (Unsigned.of_to p) as E. pose proof (to_uint_head p) as Hh.
  destruct (Nat.le_gt_cases (nb_digits (Pos.to_uint p)) k) as [?|Hgt]; [done|]. exfalso.
  assert (forall d acc, Npos p = Npos (Pos.of_uint_acc d acc) -> (k <= nb_digits d)%nat -> False) as Hacc.
  { intros d acc [= Ep] Hk. pose proof (of_uint_acc_bound d acc) as Hb. rewrite <- Ep in Hb.
    assert (10 ^ Z.of_nat k <= 10 ^ Z.of_nat (nb_digits d)) by (apply Z.pow_le_mono_r; lia). nia. }
  destruct (Pos.to_uint p) as [|d|d|d|d|d|d|d|d|d|d]; cbn in E, Hgt; [done|by destruct (Hh d)|..];
    (eapply Hacc; [symmetry; exact E|lia]).
Qed.

Lemma length_str s : length (str s) = String.length s.
Proof. unfold str. induction s as [|a s IH]; [done|]. cbn. f_equal. exact IH. Qed.

Lemma string_of_uint_length d : String.length (DecimalString.NilEmpty.string_of_uint d) = nb_digits d.
Proof. induction d; cbn; congruence. Qed.

Lemma length_dec z k : (0 < k)%nat -> 0 <= z < 10 ^ Z.of_nat k -> (length (dec z) <= k)%nat.
Proof.
  intros Hk [Hz Hlt]. unfold dec. rewrite length_str. destruct z as [|p|p]; [cbn; lia| |lia].
  cbn [Z.to_int DecimalString.NilZero.string_of_int]. unfold DecimalString.NilZero.string_of_uint.
  pose proof (to_uint_length p k Hlt) as Hl. pose proof (string_of_uint_length (Pos.to_uint p)) as E.
  destruct (Pos.to_uint p); [cbn; lia|rewrite E; exact Hl..].
Qed.

Lemma length_dec_neg z k : (0 < k)%nat -> - 10 ^ Z.of_nat k < z < 0 -> (length (dec z) <= S k)%nat.
Proof.
  intros Hk Hz. unfold dec. rewrite length_str. destruct z as [|p|p]; [lia|lia|].
  cbn [Z.to_int DecimalString.NilZero.string_of_int String.length]. unfold DecimalString.NilZero.string_of_uint.
  pose proof (to_uint_length p k ltac:(lia)) as Hl. pose proof (string_of_uint_length (Pos.to_uint p)) as E.
  destruct (Pos.to_uint p); [cbn; lia|rewrite E; lia..].
Qed.
End Decimals.
