(* ===== verification/Color.v ===== *)
(** * Coloured text on a terminal (src/utils/color.cc)

    What the functions write to their stream, in the ANSI version. *)

From S2P Require Import Prelude.

Inductive Color : Type :=
  | Default | Black | Red | Green | Yellow | Blue | Magenta | Cyan | White.

(** The escape code for a number. *)
Definition escape (n : String.string) : list byte := x1b :: str "[" ++ str n ++ str "m".

Definition ForegroundColorTable (c : Color) : list byte :=
  escape (match c with
          | Default => "39" | Black => "30" | Red => "31" | Green => "32" | Yellow => "33"
          | Blue => "34" | Magenta => "35" | Cyan => "36" | White => "37"
          end).

Definition BackgroundColorTable (c : Color) : list byte :=
  escape (match c with
          | Default => "49" | Black => "40" | Red => "41" | Green => "42" | Yellow => "43"
          | Blue => "44" | Magenta => "45" | Cyan => "46" | White => "47"
          end).

Definition colorReset : list byte := escape "0".

Definition SetConsoleColor (foreground background : Color) (f : list byte) : list byte :=
  f ++ ForegroundColorTable foreground ++ BackgroundColorTable background.

Definition ResetConsoleColor (f : list byte) : list byte := f ++ colorReset.

(** The codes are written twice: by [SetConsoleColor] and with the text. *)
Definition FprintColorTextLine (foreground background : Color) (text : list byte) (f : list byte) : list byte :=
  let f := SetConsoleColor foreground background f in
  let f := f ++ ForegroundColorTable foreground ++ BackgroundColorTable background ++ text ++ colorReset ++ [x0a] in
  ResetConsoleColor f.
