(* ===== verification/TestUtil.v ===== *)
(** * The test framework (src/utils/testutil.h, src/utils/testutil.cc)

    Tests are registered before [main] and run in the order of their registration; a failed
    assertion ends the process when its [Tester] is destroyed.  A computation writes to
    standard error and may exit. *)

From S2P Require Import Prelude.

(** ** Computations that may exit *)

(** The text written to standard error, and the result or the exit code. *)
Definition run (A : Type) : Type := list byte * (A + Z).

#[export] Instance run_MRet : MRet run := fun A a => ([], inl a).
#[export] Instance run_MBind : MBind run := fun A B f m =>
  match m with
  | (out, inl a) => let '(out', r) := f a in (out ++ out', r)
  | (out, inr code) => (out, inr code)
  end.

Definition fprintf_stderr (text : list byte) : run unit := (text, inl tt).
Definition exit {A} (code : Z) : run A := ([], inr code).

(** ** Assertions *)

Record Tester : Type := {
  _ok : bool;
  _file : list byte;
  _line : Z;
  _ss : list byte;
}.

Definition Tester_new (f : list byte) (l : Z) : Tester := {| _ok := true; _file := f; _line := l; _ss := [] |}.

Definition tester_fails (text : list byte) (t : Tester) : Tester :=
  {| _ok := false; _file := _file t; _line := _line t; _ss := _ss t ++ text |}.

Definition Tester_dtor (t : Tester) : run unit :=
  if _ok t then mret tt
  else
    _ ← fprintf_stderr (_file t ++ str ":" ++ dec (_line t) ++ str ":" ++ _ss t ++ [x0a]);
    exit 1.

Definition Is (b : bool) (msg : list byte) (t : Tester) : Tester :=
  if b then t else tester_fails (str "Assertion failure " ++ msg) t.

(** [BINARY_OPERATION]: [holds] is the operator, [op] its text, [show] what a stream
    writes for an operand. *)
Section BinaryOperation.
Context {X Y : Type} (show_x : X -> list byte) (show_y : Y -> list byte).

Definition binary_operation (holds : X -> Y -> bool) (op : list byte) (x : X) (y : Y) (t : Tester) : Tester :=
  if holds x y then t
  else tester_fails (str " failed: " ++ show_x x ++ str " " ++ op ++ str " " ++ show_y y) t.
End BinaryOperation.

Definition IsEq : Z -> Z -> Tester -> Tester := binary_operation dec dec Z.eqb (str "==").
Definition IsNe : Z -> Z -> Tester -> Tester := binary_operation dec dec (fun x y => negb (Z.eqb x y)) (str "!=").
Definition IsGe : Z -> Z -> Tester -> Tester := binary_operation dec dec Z.geb (str ">=").
Definition IsGt : Z -> Z -> Tester -> Tester := binary_operation dec dec Z.gtb (str ">").
Definition IsLe : Z -> Z -> Tester -> Tester := binary_operation dec dec Z.leb (str "<=").
Definition IsLt : Z -> Z -> Tester -> Tester := binary_operation dec dec Z.ltb (str "<").

(** [operator<<] *)
Definition Tester_add (value : list byte) (t : Tester) : Tester :=
  if _ok t then t
  else {| _ok := _ok t; _file := _file t; _line := _line t; _ss := _ss t ++ str " " ++ value |}.

(** [ASSERT_EQ(a, b)] and the like: a temporary that is destroyed at the end of the statement. *)
Definition assert_with (f : list byte) (l : Z) (check : Tester -> Tester) : run unit :=
  Tester_dtor (check (Tester_new f l)).

(** ** Registration and running *)

Record Test : Type := {
  test_base : list byte;
  test_name : list byte;
  test_func : run unit;
}.

(** The vector behind a pointer that is null until the first test is registered. *)
Definition RegisterTest (base name : list byte) (func : run unit) (tests : option (list Test)) : option (list Test) :=
  Some (default [] tests ++ [{| test_base := base; test_name := name; test_func := func |}]).

Definition test_heading (t : Test) : list byte :=
  str "==== Test " ++ test_base t ++ str "." ++ test_name t ++ [x0a].

(** The result is [num]. *)
Fixpoint run_tests (ts : list Test) (num : Z) : run Z :=
  match ts with
  | [] => mret num
  | t :: ts =>
      _ ← fprintf_stderr (test_heading t);
      _ ← test_func t;
      run_tests ts (num + 1)%Z
  end.

Definition RunAllTests (tests : option (list Test)) : run Z :=
  num ← match tests with Some ts => run_tests ts 0%Z | None => mret 0%Z end;
  _ ← fprintf_stderr (str "==== PASSED " ++ dec num ++ str " tests" ++ [x0a]);
  mret 0%Z.

(** ** What a run shows *)

(** An assertion that holds writes nothing and lets the test go on; one that does not
    writes a line and exits with 1. *)
Lemma assert_outcome f l check :
  _ok (check (Tester_new f l)) = true /\ assert_with f l check = mret tt \/
  _ok (check (Tester_new f l)) = false /\ (assert_with f l check).2 = inr 1%Z.
Proof.
  unfold assert_with, Tester_dtor. destruct (_ok (check _)); [by left|by right].
Qed.

Lemma binary_operation_ok {X Y} (sx : X -> list byte) (sy : Y -> list byte) holds op x y f l :
  _ok (binary_operation sx sy holds op x y (Tester_new f l)) = holds x y.
Proof. unfold binary_operation. by destruct (holds x y). Qed.

(** A test passes when it returns. *)
Definition passes (t : Test) : Prop := exists out, test_func t = (out, inl tt).

Lemma run_tests_pass ts num :
  Forall passes ts -> exists out, run_tests ts num = (out, inl (num + Z.of_nat (length ts))%Z).
Proof.
  intros Hts. revert num. induction Hts as [|t ts [out Ht] Hts IH]; intros num; [exists []; cbn; by rewrite Z.add_0_r|].
  destruct (IH (num + 1)%Z) as [out' E]. cbn [run_tests]. unfold mbind, run_MBind, fprintf_stderr. rewrite Ht, E.
  eexists. do 2 f_equal. cbn [length]. lia.
Qed.

(** The tests run in the order of their registration up to the first that fails, whose
    exit code is the process's; the tests after it do not run. *)
Lemma run_tests_fail ts t ts' out code num :
  Forall passes ts -> test_func t = (out, inr code) ->
  exists before, run_tests (ts ++ t :: ts') num = (before ++ test_heading t ++ out, inr code).
Proof.
  intros Hts Ht. revert num. induction Hts as [|t0 ts [out0 H0] Hts IH]; intros num; cbn [app run_tests];
    unfold mbind, run_MBind, fprintf_stderr.
  - rewrite Ht. by exists [].
  - rewrite H0. destruct (IH (num + 1)%Z) as [before E]. rewrite E. eexists. f_equal. by rewrite !app_assoc.
Qed.

(** All pass and are counted, and the result is 0, or the process ends with the code of
    the first that fails. *)
Lemma run_all_tests ts :
  (Forall passes ts -> (RunAllTests (Some ts)).2 = inl 0%Z) /\
  (forall ts1 t ts2 out code, ts = ts1 ++ t :: ts2 -> Forall passes ts1 -> test_func t = (out, inr code) ->
    (RunAllTests (Some ts)).2 = inr code).
Proof.
  unfold RunAllTests, mbind, run_MBind. split.
  - intros Hts. destruct (run_tests_pass ts 0 Hts) as [out ->]. done.
  - intros ts1 t ts2 out code -> Hts Ht. destruct (run_tests_fail ts1 t ts2 out code 0 Hts Ht) as [before ->]. done.
Qed.

Example two_tests :
  RunAllTests (RegisterTest (str "A") (str "one") (assert_with (str "a.cc") 3 (IsEq 2 2))
    None ≫= fun ts => RegisterTest (str "A") (str "two") (assert_with (str "a.cc") 7 (IsLt 3 2)) (Some ts)) =
  (str "==== Test A.one" ++ [x0a] ++ str "==== Test A.two" ++ [x0a] ++ str "a.cc:7: failed: 3 < 2" ++ [x0a], inr 1%Z).
Proof. vm_compute. reflexivity. Qed.
