(* ===== verification/Multimap.v ===== *)
(** * Ordered multimaps: [std::multimap] with 64-bit keys

    The entries in iteration order.  [insert] puts a new entry after those with an
    equal key, as the standard prescribes; an iterator is an entry's identity, kept in
    its value, and erasing through one that names no entry is undefined. *)

From S2P Require Import Prelude.
From Stdlib Require Import Sorting.Sorted.

Local Open Scope Z_scope.

Section Multimap.
Context {V : Type}.

Fixpoint mm_insert (k : Z) (v : V) (l : list (Z * V)) : list (Z * V) :=
  match l with
  | [] => [(k, v)]
  | (k', v') :: l' => if k' <=? k then (k', v') :: mm_insert k v l' else (k, v) :: l
  end.

(** Erases the entry whose value satisfies [p]. *)
Fixpoint mm_erase (p : V -> bool) (l : list (Z * V)) : option (list (Z * V)) :=
  match l with
  | [] => None
  | (k, v) :: l' => if p v then Some l' else cons (k, v) <$> mm_erase p l'
  end.

Definition key_le (a b : Z * V) : Prop := a.1 <= b.1.
Definition mm_sorted (l : list (Z * V)) : Prop := StronglySorted key_le l.

Lemma mm_insert_perm k v l : mm_insert k v l ≡ₚ (k, v) :: l.
Proof.
  induction l as [|[k' v'] l IH]; [done|]. cbn. destruct (k' <=? k); [|done].
  rewrite IH. constructor.
Qed.

Lemma mm_insert_sorted k v l : mm_sorted l -> mm_sorted (mm_insert k v l).
Proof.
  unfold mm_sorted. induction 1 as [|[k' v'] l Hl IH Hk]; cbn; [repeat constructor|].
  destruct (Z.leb_spec k' k) as [Hle|Hgt].
  - constructor; [done|]. rewrite mm_insert_perm. by constructor.
  - constructor; [by constructor|]. constructor; [unfold key_le; cbn; lia|].
    eapply Forall_impl; [exact Hk|]. unfold key_le. cbn. intros a Ha. lia.
Qed.

Lemma mm_sorted_tail a l : mm_sorted (a :: l) -> mm_sorted l.
Proof. by inversion 1. Qed.

Lemma mm_sorted_head a l : mm_sorted (a :: l) -> Forall (key_le a) l.
Proof. by inversion 1. Qed.

Lemma mm_erase_perm p l l' :
  mm_erase p l = Some l' -> exists k v, p v = true /\ l ≡ₚ (k, v) :: l'.
Proof.
  revert l'. induction l as [|[k v] l IH]; [done|]. intros l'. cbn.
  destruct (p v) eqn:Ep; [intros [= <-]; eauto|].
  destruct (mm_erase p l) as [l2|]; [|done]. intros [= <-].
  destruct (IH l2 eq_refl) as (k0 & v0 & Hp & Hl). exists k0, v0. split; [done|].
  rewrite Hl. constructor.
Qed.

Lemma mm_erase_sublist p l l' : mm_erase p l = Some l' -> l' `sublist_of` l.
Proof.
  revert l'. induction l as [|[k v] l IH]; [done|]. intros l'. cbn.
  destruct (p v); [intros [= <-]; by constructor|].
  destruct (mm_erase p l) as [l2|]; [|done]. intros [= <-]. constructor. by apply IH.
Qed.

Lemma mm_sorted_sublist l l' : l' `sublist_of` l -> mm_sorted l -> mm_sorted l'.
Proof.
  unfold mm_sorted. induction 1 as [|a l l' Hs IH|a l l' Hs IH]; [done| |].
  - inversion_clear 1 as [|? ? Hl Ha]. constructor; [by apply IH|].
    rewrite Forall_forall in *. intros x Hx. apply Ha. eapply elem_of_submseteq; [exact Hx|].
    by apply sublist_submseteq.
  - inversion_clear 1. by apply IH.
Qed.

Lemma mm_erase_sorted p l l' : mm_erase p l = Some l' -> mm_sorted l -> mm_sorted l'.
Proof. intros He. apply mm_sorted_sublist. by eapply mm_erase_sublist. Qed.

Lemma mm_erase_is_Some p l k v : (k, v) ∈ l -> p v = true -> is_Some (mm_erase p l).
Proof.
  induction l as [|[k' v'] l IH]; [by intros ?%elem_of_nil|]. cbn.
  intros [[= <- <-]|Hl]%elem_of_cons Hp; [rewrite Hp; by eexists|].
  destruct (p v'); [by eexists|]. destruct (IH Hl Hp) as [l2 ->]. by eexists.
Qed.
End Multimap.
