(* ===== verification/Thread.v ===== *)
(** * Threads (include/raptor-lite/utils/thread.h, src/utils/thread.cc)

    A [Thread] owns an [InternalThreadImpl]: the pthread it created, which waits until
    it is started.  The thread procedures are the loops modelled in the files of the
    components that create them. *)

From S2P Require Import Prelude.
From S2P Require Import OS.

Local Open Scope Z_scope.

Record InternalThreadImpl : Type := {
  im_started : bool;
  im_join_object : Z;
}.

Inductive thread_state : Type :=
  | kNull
  | kAlive
  | kActive
  | kFinish
  | kFailed.

#[export] Instance thread_state_eq_dec : EqDecision thread_state.
Proof. solve_decision. Defined.

(** A pthread that was created and not joined. *)
Abbreviation alive_or_active := (fun s : thread_state => s = kAlive \/ s = kActive).

Record Thread : Type := {
  th_impl : option InternalThreadImpl;
  th_state : thread_state;
}.

Definition Thread_null : Thread := {| th_impl := None; th_state := kNull |}.

Section Threads.
Context {K : Type} `{Kernel K}.

(** The implementation object, if the pthread was created. *)
Definition InternalThreadImpl_new : M (os K) (option InternalThreadImpl) :=
  r ← call SysPthreadCreate;
  mret (if r_ret r =? 0 then Some {| im_started := false; im_join_object := r_int r |} else None).

Definition Thread_new : M (os K) (Thread * bool) :=
  impl ← InternalThreadImpl_new;
  mret (match impl with
        | None => ({| th_impl := None; th_state := kFailed |}, false)
        | Some i => ({| th_impl := Some i; th_state := kAlive |}, true)
        end).

(** What a move leaves behind, and what it gives. *)
Definition Thread_move (other : Thread) : Thread * Thread := (Thread_null, other).

Definition Impl_Start (i : InternalThreadImpl) : InternalThreadImpl :=
  {| im_started := true; im_join_object := im_join_object i |}.

Definition Impl_Join (i : InternalThreadImpl) : M (os K) unit :=
  if negb (im_join_object i =? 0) then _ ← call (SysPthreadJoin (im_join_object i)); mret tt
  else mret tt.

Definition Thread_Start (t : Thread) : M (os K) Thread :=
  match th_impl t with
  | Some i =>
      _ ← raptor_assert (bool_decide (th_state t = kAlive));
      mret {| th_impl := Some (Impl_Start i); th_state := kActive |}
  | None =>
      _ ← raptor_assert (bool_decide (th_state t = kFailed));
      mret t
  end.

Definition Thread_Join (t : Thread) : M (os K) Thread :=
  match th_impl t with
  | Some i =>
      let i := if bool_decide (th_state t = kAlive) then Impl_Start i else i in
      _ ← Impl_Join i;
      mret {| th_impl := None; th_state := kFinish |}
  | None =>
      _ ← raptor_assert (bool_decide (th_state t = kFailed));
      mret t
  end.

(** ** The states of a thread *)

(** A thread has an implementation exactly while it is alive or active, and its
    procedure runs exactly while it is active. *)
Definition Thread_wf (t : Thread) : Prop :=
  match th_impl t with
  | Some i => im_join_object i <> 0 /\
      (th_state t = kAlive /\ im_started i = false \/ th_state t = kActive /\ im_started i = true)
  | None => th_state t = kNull \/ th_state t = kFinish \/ th_state t = kFailed
  end.

(** The pthread a thread has still to join. *)
Definition unjoined (t : Thread) : list Z :=
  match th_impl t with Some i => [im_join_object i] | None => [] end.

(** The pthreads a trace created and joined. *)
Definition created_by (e : syscall * sysret) : option Z :=
  match e.1 with
  | SysPthreadCreate => if r_ret e.2 =? 0 then Some (r_int e.2) else None
  | _ => None
  end.

Definition joined_by (e : syscall * sysret) : option Z :=
  match e.1 with SysPthreadJoin t => Some t | _ => None end.

Definition created (t : list (syscall * sysret)) : list Z := omap created_by t.
Definition joined (t : list (syscall * sysret)) : list Z := omap joined_by t.

(** pthread_create gives a thread a nonzero name. *)
Class KernelThreads : Prop := {
  create_nonzero k : r_ret (sys_call k SysPthreadCreate).1 = 0 -> r_int (sys_call k SysPthreadCreate).1 <> 0;
}.

Lemma Thread_new_spec `{!KernelThreads} o :
  wp Thread_new o (fun '(t, ok) o' => exists tr, os_trace o' = os_trace o ++ tr /\
    Thread_wf t /\ joined tr = [] /\ created tr = unjoined t /\
    th_state t = (if ok then kAlive else kFailed)).
Proof.
  unfold Thread_new, InternalThreadImpl_new, wp, call, mbind, M_bind.
  pose proof (create_nonzero (os_kernel o)) as Hnz. destruct (sys_call (os_kernel o) SysPthreadCreate) as [r k].
  cbn in *. destruct (Z.eqb_spec (r_ret r) 0) as [Hr|Hr].
  - exists [(SysPthreadCreate, r)]. cbn. rewrite (proj2 (Z.eqb_eq _ _) Hr). split_and!; auto.
  - exists [(SysPthreadCreate, r)]. cbn. rewrite (proj2 (Z.eqb_neq _ _) Hr). split_and!; auto.
Qed.

Lemma Thread_Join_spec t o :
  Thread_wf t -> th_state t = kAlive \/ th_state t = kActive \/ th_state t = kFailed ->
  wp (Thread_Join t) o (fun t' o' => exists tr, os_trace o' = os_trace o ++ tr /\
    Thread_wf t' /\ unjoined t' = [] /\ joined tr = unjoined t /\ created tr = [] /\
    th_state t' = (match th_impl t with Some _ => kFinish | None => kFailed end)).
Proof.
  intros Hwf Hst. unfold Thread_Join, unjoined. unfold Thread_wf in Hwf.
  destruct (th_impl t) as [i|] eqn:Ei.
  - destruct Hwf as [Hj _].
    replace (im_join_object i) with (im_join_object (if bool_decide (th_state t = kAlive) then Impl_Start i else i))
      in * by (by case_bool_decide).
    set (i' := if bool_decide _ then _ else _) in *. unfold Impl_Join.
    rewrite (proj2 (Z.eqb_neq _ _) Hj). cbn [negb]. unfold wp, call, mbind, M_bind.
    destruct (sys_call (os_kernel o) _) as [r k]. eexists [_]. cbn. split_and!; auto.
  - apply wp_bind, wp_assert; [apply bool_decide_eq_true_2; by destruct Hwf as [?|[?|?]], Hst as [?|[?|?]]; congruence|].
    apply wp_ret. exists []. rewrite app_nil_r, Ei. unfold Thread_wf. rewrite Ei. cbn.
    assert (th_state t = kFailed) as -> by (by destruct Hwf as [?|[?|?]], Hst as [?|[?|?]]; congruence). auto 10.
Qed.

Lemma Thread_Start_spec t o :
  Thread_wf t -> th_state t = kAlive \/ th_state t = kFailed ->
  wp (Thread_Start t) o (fun t' o' => o' = o /\ Thread_wf t' /\ unjoined t' = unjoined t /\
    th_state t' = (match th_impl t with Some _ => kActive | None => kFailed end)).
Proof.
  intros Hwf Hst. unfold Thread_Start, unjoined. unfold Thread_wf in Hwf.
  destruct (th_impl t) as [i|] eqn:Ei.
  - destruct Hwf as [Hj Hs]. apply wp_bind, wp_assert.
    { apply bool_decide_eq_true_2. destruct Hst, Hs as [[??]|[??]]; congruence. }
    apply wp_ret. unfold Thread_wf. cbn. auto 10.
  - apply wp_bind, wp_assert; [apply bool_decide_eq_true_2; by destruct Hwf as [?|[?|?]], Hst as [?|?]; congruence|].
    apply wp_ret. unfold Thread_wf. rewrite Ei.
    assert (th_state t = kFailed) as -> by (by destruct Hwf as [?|[?|?]], Hst as [?|?]; congruence). auto 10.
Qed.

(** ** The loops of the components over their threads *)

(** Creates up to [n] threads, until one fails: the array, the number that run. *)
Fixpoint create_threads (n : nat) : M (os K) (list Thread * nat) :=
  match n with
  | O => mret ([], O)
  | S n =>
      '(t, success) ← Thread_new;
      if (success : bool) then
        '(ts, running) ← create_threads n;
        mret (t :: ts, S running)
      else mret (t :: replicate n Thread_null, O)
  end.

(** The first [n] threads of the array. *)
Fixpoint start_threads (n : nat) (ts : list Thread) : M (os K) (list Thread) :=
  match n, ts with
  | O, _ => mret ts
  | S _, [] => undef
  | S n, t :: ts =>
      t ← Thread_Start t;
      ts ← start_threads n ts;
      mret (t :: ts)
  end.

Fixpoint join_threads (n : nat) (ts : list Thread) : M (os K) (list Thread) :=
  match n, ts with
  | O, _ => mret ts
  | S _, [] => undef
  | S n, t :: ts =>
      t ← Thread_Join t;
      ts ← join_threads n ts;
      mret (t :: ts)
  end.

(** The first [n] threads of the array are pthreads in one of the states [st], the
    others are none. *)
Definition threads_in (st : thread_state -> Prop) (n : nat) (ts : list Thread) : Prop :=
  (n <= length ts)%nat /\
  Forall (fun t => Thread_wf t /\ st (th_state t) /\ is_Some (th_impl t)) (take n ts) /\
  Forall (fun t => th_impl t = None) (drop n ts).

Lemma threads_in_cons (st : thread_state -> Prop) n t ts :
  Thread_wf t -> st (th_state t) -> is_Some (th_impl t) -> threads_in st n ts -> threads_in st (S n) (t :: ts).
Proof using Type.
  intros Hw Hs Hi (Hl & Hf & Hr). split; [cbn; lia|]. split; [|done]. cbn. by constructor.
Qed.

Lemma threads_in_inv (st : thread_state -> Prop) n ts :
  threads_in st (S n) ts ->
  exists t ts', ts = t :: ts' /\ Thread_wf t /\ st (th_state t) /\ is_Some (th_impl t) /\ threads_in st n ts'.
Proof using Type.
  intros (Hl & Hf & Hr). destruct ts as [|t ts]; [cbn in Hl; lia|]. cbn in Hf, Hr.
  apply Forall_cons in Hf as [(Hw & Hs & Hi) Hf]. exists t, ts. do 4 (split; [done|]).
  split; [cbn in Hl; lia|]. done.
Qed.

Lemma unjoined_cons t ts : mjoin (unjoined <$> t :: ts) = unjoined t ++ mjoin (unjoined <$> ts).
Proof using Type. done. Qed.

Lemma no_threads_unjoined ts : Forall (fun t => th_impl t = None) ts -> mjoin (unjoined <$> ts) = [].
Proof using Type. induction 1 as [|t ts Ht _ IH]; [done|]. cbn. unfold unjoined at 1. by rewrite Ht. Qed.

Lemma threads_in_0 (st : thread_state -> Prop) ts : threads_in st 0 ts -> mjoin (unjoined <$> ts) = [].
Proof using Type. intros (_ & _ & Hr). by apply no_threads_unjoined. Qed.

Lemma create_threads_spec `{!KernelThreads} n : forall o,
  wp (create_threads n) o (fun '(ts, running) o' => exists tr, os_trace o' = os_trace o ++ tr /\
    threads_in (eq kAlive) running ts /\ created tr = mjoin (unjoined <$> ts) /\ joined tr = []
    /\ opened tr = [] /\ closed tr = []).
Proof.
  induction n as [|n IH]; intros o; cbn [create_threads].
  { apply wp_ret. exists []. rewrite app_nil_r. split_and!; try done. }
  apply wp_bind.
  assert (quiet (K := K) Thread_new) as Hq by (unfold Thread_new, InternalThreadImpl_new; auto with quiet).
  pose proof (Thread_new_spec o) as Hnew. specialize (Hq o). unfold wp in *.
  destruct (Thread_new o) as [[[t ok] o1]| | |]; [|done..].
  destruct Hnew as (tr1 & E1 & Hw & Hj & Hc & Hst). destruct Hq as (tr1' & E1' & Ho & Hcl).
  rewrite E1 in E1'. apply app_inv_head in E1' as <-.
  destruct ok; cbn.
  - unfold mbind, M_bind. specialize (IH o1). destruct (create_threads n o1) as [[[ts running] o2]| | |]; [|done..].
    destruct IH as (tr2 & E2 & Hin & Hc2 & Hj2 & Ho2 & Hcl2). cbn. exists (tr1 ++ tr2).
    rewrite E2, E1, app_assoc. unfold created, joined in *. rewrite opened_app, closed_app, !omap_app, Hc, Hc2, Hj, Hj2, Ho, Ho2, Hcl, Hcl2.
    split_and!; try done. apply threads_in_cons; [done..| |done].
    unfold Thread_wf in Hw. rewrite Hst in Hw. destruct (th_impl t); [by eexists|]. by destruct Hw as [?|[?|?]].
  - exists tr1. assert (th_impl t = None) as Ht.
    { unfold Thread_wf in Hw. rewrite Hst in Hw. destruct (th_impl t); [|done]. by destruct Hw as [_ [[??]|[??]]]. }
    rewrite Hc, Hj. unfold unjoined at 1. rewrite Ht. split_and!; try done.
    + split_and!; [cbn; lia|by rewrite take_0; constructor|]. cbn. constructor; [done|].
      by apply Forall_replicate.
    + cbn. unfold unjoined at 1. rewrite Ht. rewrite no_threads_unjoined; [done|]. by apply Forall_replicate.
Qed.

Lemma start_threads_spec n : forall ts o, threads_in (eq kAlive) n ts ->
  wp (start_threads n ts) o (fun ts' o' => o' = o /\ threads_in (eq kActive) n ts' /\
    mjoin (unjoined <$> ts') = mjoin (unjoined <$> ts)).
Proof using Type.
  induction n as [|n IH]; intros ts o Hin; cbn [start_threads].
  { apply wp_ret. split_and!; try done. destruct Hin as (? & _ & ?). split_and!; [done| |done].
    rewrite take_0. constructor. }
  destruct (threads_in_inv _ _ _ Hin) as (t & ts' & -> & Hw & Hs & Hi & Hin').
  apply wp_bind. eapply wp_mono; [apply Thread_Start_spec; auto|]. intros t1 o1 (-> & Hw1 & Hu & Hs1).
  apply wp_bind. eapply wp_mono; [by apply IH|]. intros ts1 o2 (-> & Hin1 & Hu1). apply wp_ret.
  destruct Hi as [i Hi]. rewrite Hi in Hs1. split; [done|]. split; [|by rewrite !unjoined_cons, Hu, Hu1].
  apply threads_in_cons; [done..| |done]. unfold Thread_wf in Hw1. unfold unjoined in Hu. rewrite Hi in Hu.
  by destruct (th_impl t1).
Qed.

Lemma join_threads_spec n : forall ts o, threads_in (fun s => s = kAlive \/ s = kActive) n ts ->
  wp (join_threads n ts) o (fun ts' o' => exists tr, os_trace o' = os_trace o ++ tr /\
    joined tr = mjoin (unjoined <$> ts) /\ created tr = [] /\ opened tr = [] /\ closed tr = []).
Proof using Type.
  induction n as [|n IH]; intros ts o Hin; cbn [join_threads].
  { apply wp_ret. exists []. rewrite app_nil_r. by rewrite (threads_in_0 _ _ Hin). }
  destruct (threads_in_inv _ _ _ Hin) as (t & ts' & -> & Hw & Hs & Hi & Hin'). apply wp_bind.
  assert (quiet (K := K) (Thread_Join t)) as Hq.
  { unfold Thread_Join, Impl_Join, raptor_assert. destruct (th_impl t); auto with quiet.
    destruct (bool_decide (th_state t = kFailed)); [auto with quiet|]. destruct Hi; congruence. }
  pose proof (Thread_Join_spec t o Hw ltac:(tauto)) as Hj. specialize (Hq o). unfold wp in *.
  destruct (Thread_Join t o) as [[t1 o1]| | |]; [|done..].
  destruct Hj as (tr1 & E1 & _ & _ & Hj1 & Hc1 & _). destruct Hq as (tr1' & E1' & Ho & Hcl).
  rewrite E1 in E1'. apply app_inv_head in E1' as <-.
  unfold mbind, M_bind. specialize (IH ts' o1 Hin'). destruct (join_threads n ts' o1) as [[ts1 o2]| | |]; [|done..].
  destruct IH as (tr2 & E2 & Hj2 & Hc2 & Ho2 & Hcl2). cbn. exists (tr1 ++ tr2).
  rewrite E2, E1, app_assoc. unfold created, joined in *.
  by rewrite opened_app, closed_app, !omap_app, Hc1, Hc2, Hj1, Hj2, Ho, Ho2, Hcl, Hcl2.
Qed.
End Threads.
