(* ===== verification/ThreadRun.v ===== *)
(** * How a thread starts and ends (src/utils/thread.cc, include/raptor-lite/utils/sync.h)

    The object of a thread and the argument block of its pthread are shared by the thread
    that made them, the owner, and the new one, which runs [Run].  Each statement that
    touches them is a step; the steps of the two are taken in any order, and a wait on
    the condition variable can end without a signal.  The states that can be reached
    are finitely many: the theorems are decided by visiting them all. *)

From S2P Require Import Prelude.

(** ** Visiting the states of a transition system *)

Section Explore.
Context {S C : Type} `{EqDecision S}.
Variable step : C -> S -> option (outcome S).
Variable choices : list C.

(** A choice whose step is not enabled does nothing. *)
Definition take_step (c : C) (s : S) : outcome S :=
  match step c s with Some o => o | None => Ret s end.

Fixpoint run_schedule (cs : list C) (s : S) : outcome S :=
  match cs with
  | [] => Ret s
  | c :: cs => match take_step c s with Ret s => run_schedule cs s | Undef => Undef | Abort => Abort | NoFuel => NoFuel end
  end.

Definition successors (s : S) : list S :=
  omap (fun c => match step c s with Some (Ret s') => Some s' | _ => None end) choices.

Fixpoint explore (fuel : nat) (seen todo : list S) : list S :=
  match fuel, todo with
  | O, _ | _, [] => seen
  | Datatypes.S fuel, s :: todo =>
      if bool_decide (s ∈ seen) then explore fuel seen todo
      else explore fuel (s :: seen) (successors s ++ todo)
  end.

(** The list [l] is closed under the steps, of which none fails. *)
Definition closed_under (l : list S) : bool :=
  forallb (fun s => forallb (fun c =>
    match step c s with None => true | Some (Ret s') => bool_decide (s' ∈ l) | Some _ => false end) choices) l.

Lemma run_in_closed l cs : forall s,
  closed_under l = true -> (forall c, c ∈ choices) -> s ∈ l -> exists s', run_schedule cs s = Ret s' /\ s' ∈ l.
Proof.
  induction cs as [|c cs IH]; intros s Hl Hc Hs; [by exists s|]. cbn [run_schedule]. unfold take_step.
  pose proof Hl as Hcl. unfold closed_under in Hcl. rewrite forallb_forall in Hcl.
  specialize (Hcl s (proj1 (list_elem_of_In _ _) Hs)). rewrite forallb_forall in Hcl.
  specialize (Hcl c (proj1 (list_elem_of_In _ _) (Hc c))).
  destruct (step c s) as [[s1| | |]|]; [|done..|by apply IH]. apply bool_decide_eq_true in Hcl. by apply IH.
Qed.

(** How many steps of a schedule are enabled. *)
Fixpoint steps_taken (cs : list C) (s : S) : nat :=
  match cs with
  | [] => 0
  | c :: cs =>
      match step c s with
      | Some (Ret s') => Datatypes.S (steps_taken cs s')
      | Some _ => 0
      | None => steps_taken cs s
      end
  end.

(** A measure of the states, and what a choice may add to it. *)
Variable measure : S -> nat.
Variable grows : C -> nat.

Definition decreasing (l : list S) : bool :=
  forallb (fun s => forallb (fun c =>
    match step c s with Some (Ret s') => (measure s' <? measure s + grows c)%nat | _ => true end) choices) l.

Lemma steps_bounded l cs : forall s,
  closed_under l = true -> decreasing l = true -> (forall c, c ∈ choices) -> s ∈ l ->
  (steps_taken cs s <= measure s + sum_list (grows <$> cs))%nat.
Proof.
  induction cs as [|c cs IH]; intros s Hl Hd Hc Hs; [cbn; lia|].
  pose proof Hl as Hcl. unfold closed_under in Hcl. rewrite forallb_forall in Hcl.
  specialize (Hcl s (proj1 (list_elem_of_In _ _) Hs)). rewrite forallb_forall in Hcl.
  specialize (Hcl c (proj1 (list_elem_of_In _ _) (Hc c))).
  pose proof Hd as Hdl. unfold decreasing in Hdl. rewrite forallb_forall in Hdl.
  specialize (Hdl s (proj1 (list_elem_of_In _ _) Hs)). rewrite forallb_forall in Hdl.
  specialize (Hdl c (proj1 (list_elem_of_In _ _) (Hc c))). cbn [steps_taken fmap list_fmap sum_list sum_list_with].
  destruct (step c s) as [[s1| | |]|]; [|lia..|].
  - apply bool_decide_eq_true in Hcl. apply Nat.ltb_lt in Hdl. pose proof (IH s1 Hl Hd Hc Hcl). cbn in *. lia.
  - pose proof (IH s Hl Hd Hc Hs). cbn in *. lia.
Qed.
End Explore.

(** ** The shared objects *)

Inductive who : Type := Owner | Child.

#[export] Instance who_eq_dec : EqDecision who.
Proof. solve_decision. Defined.

(** The members of [InternalThreadImpl] that both threads use: the flag, the mutex with
    the thread that holds it, and whether the child waits on the condition variable. *)
Record thread_object : Type := {
  to_started : bool;
  to_mutex : option who;
  to_waiting : bool;
}.

#[export] Instance thread_object_eq_dec : EqDecision thread_object.
Proof. solve_decision. Defined.

Definition thread_object_new : thread_object := {| to_started := false; to_mutex := None; to_waiting := false |}.

(** [None]: the caller blocks. *)
Definition RaptorMutexLock (w : who) (t : thread_object) : option thread_object :=
  match to_mutex t with
  | None => Some {| to_started := to_started t; to_mutex := Some w; to_waiting := to_waiting t |}
  | Some _ => None
  end.

(** Only the holder may unlock. *)
Definition RaptorMutexUnlock (w : who) (t : thread_object) : outcome thread_object :=
  if bool_decide (to_mutex t = Some w)
  then Ret {| to_started := to_started t; to_mutex := None; to_waiting := to_waiting t |} else Undef.

Definition RaptorCondVarSignal (t : thread_object) : thread_object :=
  {| to_started := to_started t; to_mutex := to_mutex t; to_waiting := false |}.

(** The wait gives the mutex up and starts to wait in one step. *)
Definition RaptorCondVarWait_enter (w : who) (t : thread_object) : outcome thread_object :=
  match RaptorMutexUnlock w t with
  | Ret t => Ret {| to_started := to_started t; to_mutex := to_mutex t; to_waiting := true |}
  | o => o
  end.

(** Destroying a mutex that is held, or a condition variable someone waits on, is undefined. *)
Definition InternalThreadImpl_dtor (t : thread_object) : outcome unit :=
  match to_mutex t with None => if to_waiting t then Undef else Ret tt | Some _ => Undef end.

(** ** The two threads *)

(** What the owner does, statement by statement: the end of the constructor, [Start],
    and [Join] with the deletion that follows it. *)
Inductive owner_action : Type :=
  | ACreate
  | AReadJoinObject
  | ALock
  | ASetStarted
  | ASignal
  | AUnlock
  | AJoin
  | ADelete.

#[export] Instance owner_action_eq_dec : EqDecision owner_action.
Proof. solve_decision. Defined.

Definition constructor_code : list owner_action := [ACreate; AReadJoinObject].
Definition Start_code : list owner_action := [ALock; ASetStarted; ASignal; AUnlock].
Definition Join_code : list owner_action := [AJoin; ADelete].

(** Where the child is in [Run]. *)
Inductive run_at : Type :=
  | RNotCreated
  | RCopyInfo
  | RDeleteInfo
  | RLock
  | RTestStarted
  | RWaiting
  | RUnlock
  | RThreadProc
  | REnd
  | RFinished.

#[export] Instance run_at_eq_dec : EqDecision run_at.
Proof. solve_decision. Defined.

Record handshake : Type := {
  hs_info : bool;
  hs_thd : option thread_object;
  hs_owner : list owner_action;
  hs_child : run_at;
  hs_join_object : bool;
  hs_runs : nat;
}.

#[export] Instance handshake_eq_dec : EqDecision handshake.
Proof. solve_decision. Defined.

Inductive hs_choice : Type := StepOwner | StepChild | SpuriousWakeup.

Definition hs_choices : list hs_choice := [StepOwner; StepChild; SpuriousWakeup].

Section Steps.
Variable joinable : bool.

Definition with_owner (k : list owner_action) (s : handshake) : handshake :=
  {| hs_info := hs_info s; hs_thd := hs_thd s; hs_owner := k; hs_child := hs_child s;
     hs_join_object := hs_join_object s; hs_runs := hs_runs s |}.
Definition with_thd (t : option thread_object) (s : handshake) : handshake :=
  {| hs_info := hs_info s; hs_thd := t; hs_owner := hs_owner s; hs_child := hs_child s;
     hs_join_object := hs_join_object s; hs_runs := hs_runs s |}.
Definition with_child (c : run_at) (s : handshake) : handshake :=
  {| hs_info := hs_info s; hs_thd := hs_thd s; hs_owner := hs_owner s; hs_child := c;
     hs_join_object := hs_join_object s; hs_runs := hs_runs s |}.

(** A statement on the thread's object, which must be there. *)
Definition on_thd (f : thread_object -> option (outcome thread_object)) (next : handshake -> handshake) (s : handshake) :
    option (outcome handshake) :=
  match hs_thd s with
  | None => Some Undef
  | Some t =>
      match f t with
      | None => None
      | Some (Ret t) => Some (Ret (next (with_thd (Some t) s)))
      | Some _ => Some Undef
      end
  end.

(** pthread_create stores the name before the new thread runs. *)
Definition owner_step (s : handshake) : option (outcome handshake) :=
  match hs_owner s with
  | [] => None
  | a :: k =>
      let s' := with_owner k s in
      match a with
      | ACreate => Some (Ret (with_child RCopyInfo s'))
      | AReadJoinObject =>
          if hs_info s
          then Some (Ret {| hs_info := true; hs_thd := hs_thd s; hs_owner := k; hs_child := hs_child s;
                            hs_join_object := true; hs_runs := hs_runs s |})
          else Some Undef
      | ALock => on_thd (fun t => Ret <$> RaptorMutexLock Owner t) (with_owner k) s
      | ASetStarted =>
          on_thd (fun t => Some (Ret {| to_started := true; to_mutex := to_mutex t; to_waiting := to_waiting t |})) (with_owner k) s
      | ASignal => on_thd (fun t => Some (Ret (RaptorCondVarSignal t))) (with_owner k) s
      | AUnlock => on_thd (fun t => Some (RaptorMutexUnlock Owner t)) (with_owner k) s
      | AJoin =>
          if negb (hs_join_object s) then Some (Ret s')
          else if negb joinable then Some Undef
          else if bool_decide (hs_child s = RFinished) then Some (Ret s') else None
      | ADelete =>
          match hs_thd s with
          | None => Some Undef
          | Some t => match InternalThreadImpl_dtor t with Ret _ => Some (Ret (with_thd None s')) | _ => Some Undef end
          end
      end
  end.

Definition child_step (s : handshake) : option (outcome handshake) :=
  match hs_child s with
  | RNotCreated | RFinished => None
  | RCopyInfo => if hs_info s then Some (Ret (with_child RDeleteInfo s)) else Some Undef
  | RDeleteInfo =>
      if hs_info s
      then Some (Ret {| hs_info := false; hs_thd := hs_thd s; hs_owner := hs_owner s; hs_child := RLock;
                        hs_join_object := hs_join_object s; hs_runs := hs_runs s |})
      else Some Undef
  | RLock => on_thd (fun t => Ret <$> RaptorMutexLock Child t) (with_child RTestStarted) s
  | RTestStarted =>
      match hs_thd s with
      | None => Some Undef
      | Some t =>
          if to_started t then Some (Ret (with_child RUnlock s))
          else on_thd (fun t => Some (RaptorCondVarWait_enter Child t)) (with_child RWaiting) s
      end
  | RWaiting =>
      on_thd (fun t => if to_waiting t then None else Ret <$> RaptorMutexLock Child t) (with_child RTestStarted) s
  | RUnlock => on_thd (fun t => Some (RaptorMutexUnlock Child t)) (with_child RThreadProc) s
  | RThreadProc =>
      Some (Ret {| hs_info := hs_info s; hs_thd := hs_thd s; hs_owner := hs_owner s; hs_child := REnd;
                   hs_join_object := hs_join_object s; hs_runs := S (hs_runs s) |})
  | REnd =>
      if joinable then Some (Ret (with_child RFinished s))
      else match hs_thd s with
           | None => Some Undef
           | Some t => match InternalThreadImpl_dtor t with
                       | Ret _ => Some (Ret (with_child RFinished (with_thd None s)))
                       | _ => Some Undef
                       end
           end
  end.

Definition spurious_step (s : handshake) : option (outcome handshake) :=
  match hs_child s, hs_thd s with
  | RWaiting, Some t => if to_waiting t then Some (Ret (with_thd (Some (RaptorCondVarSignal t)) s)) else None
  | _, _ => None
  end.

Definition hs_step (c : hs_choice) (s : handshake) : option (outcome handshake) :=
  match c with
  | StepOwner => owner_step s
  | StepChild => child_step s
  | SpuriousWakeup => spurious_step s
  end.
End Steps.

(** The owner is about to create the pthread of a new object, then does [code]. *)
Definition hs_start (code : list owner_action) : handshake :=
  {| hs_info := true; hs_thd := Some thread_object_new; hs_owner := constructor_code ++ code;
     hs_child := RNotCreated; hs_join_object := false; hs_runs := 0 |}.

(** ** What can happen *)

(** The constructor reads the argument block after pthread_create.  The new thread may
    have run up to the [delete] of that block before: then the constructor reads freed
    memory, whatever the owner does next. *)
Theorem constructor_reads_freed_block (joinable : bool) (code : list owner_action) :
  run_schedule (hs_step joinable) [StepOwner; StepChild; StepChild; StepOwner] (hs_start code) = Undef.
Proof. reflexivity. Qed.

(** The schedules in which the constructor is in time: the new thread has not deleted the block. *)
Definition in_time : list (list hs_choice) := [[StepOwner; StepOwner]; [StepOwner; StepChild; StepOwner]].

Definition thread_start : handshake := hs_start (Start_code ++ Join_code).

Definition constructed : list handshake :=
  omap (fun cs => match run_schedule (hs_step true) cs thread_start with Ret s => Some s | _ => None end) in_time.

Definition reachable : list handshake :=
  Eval vm_compute in explore (hs_step true) hs_choices 1000 [] constructed.

Lemma reachable_closed : closed_under (hs_step true) hs_choices reachable = true.
Proof. vm_compute. reflexivity. Qed.

Lemma constructed_reachable s : s ∈ constructed -> s ∈ reachable.
Proof.
  intros Hs. apply (proj1 (Forall_forall (fun s => s ∈ reachable) constructed)); [|done].
  apply (bool_decide_eq_true_1 _). vm_compute. reflexivity.
Qed.

Lemma all_choices c : c ∈ hs_choices.
Proof. destruct c; set_solver. Qed.

(** An upper bound on the steps that are left, wakeups without a signal apart. *)
Definition steps_left (s : handshake) : nat :=
  10 * length (hs_owner s) +
  match hs_child s with
  | RNotCreated => 9
  | RCopyInfo => 8
  | RDeleteInfo => 7
  | RLock => 6
  | RWaiting => match hs_thd s with Some t => if to_waiting t then 4 else 6 | None => 4 end
  | RTestStarted => 5
  | RUnlock => 3
  | RThreadProc => 2
  | REnd => 1
  | RFinished => 0
  end.

Definition wakeups (c : hs_choice) : nat := match c with SpuriousWakeup => 3 | _ => 0 end.

Lemma reachable_decreasing : decreasing (hs_step true) hs_choices steps_left wakeups reachable = true.
Proof. vm_compute. reflexivity. Qed.

(** What holds at every moment: the procedure runs at most once and not before it is
    started; it has run, and everything is freed, when [Join] returns; only one of the
    two threads is between its lock and its unlock; and one of them can go on, unless
    both are done. *)
Definition handshake_ok (s : handshake) : Prop :=
  (hs_runs s <= 1)%nat /\
  (hs_runs s = 1%nat -> ASetStarted ∉ hs_owner s) /\
  (hs_owner s = [] -> hs_runs s = 1%nat /\ hs_thd s = None /\ hs_info s = false /\ hs_child s = RFinished) /\
  ~ (head (hs_owner s) ∈ [Some ASetStarted; Some ASignal; Some AUnlock] /\ hs_child s ∈ [RTestStarted; RUnlock]) /\
  (hs_owner s = [] \/ is_Some (hs_step true StepOwner s) \/ is_Some (hs_step true StepChild s)).

#[export] Instance handshake_ok_dec s : Decision (handshake_ok s).
Proof. unfold handshake_ok. apply _. Defined.

Lemma reachable_ok : Forall handshake_ok reachable.
Proof. apply (bool_decide_eq_true_1 _). vm_compute. reflexivity. Qed.

(** C29. Starting and joining a thread.  When the constructor reads the argument block in time,
    then however the owner and the new thread run from there, with wakeups that no
    signal caused at any moment: no step is undefined; the procedure runs once, after
    [Start], and before [Join] returns; both threads never hold the mutex; nothing stays
    allocated; there is no deadlock, and after at most 68 steps, and 3 more for every such
    wakeup, both are done. *)
Theorem thread_handshake (s : handshake) (cs : list hs_choice) :
  s ∈ constructed ->
  exists s', run_schedule (hs_step true) cs s = Ret s' /\ handshake_ok s' /\
    (steps_taken (hs_step true) cs s <= 68 + sum_list (wakeups <$> cs))%nat.
Proof.
  intros Hs. pose proof (constructed_reachable s Hs) as Hr.
  destruct (run_in_closed (hs_step true) hs_choices reachable cs s reachable_closed all_choices Hr) as (s' & E & Hs').
  exists s'. split; [done|]. split; [by eapply Forall_forall in Hs'; [|apply reachable_ok]|].
  pose proof (steps_bounded (hs_step true) hs_choices steps_left wakeups reachable cs s
    reachable_closed reachable_decreasing all_choices Hr) as Hb.
  assert (steps_left s <= 68)%nat; [|lia].
  apply (proj1 (Forall_forall (fun s => steps_left s <= 68)%nat constructed)); [|done].
  apply (bool_decide_eq_true_1 _). vm_compute. reflexivity.
Qed.

(** A thread that is never started nor joined waits for ever. *)
Lemma unstarted_thread_waits :
  exists s, run_schedule (hs_step true) [StepOwner; StepOwner; StepChild; StepChild; StepChild; StepChild] (hs_start []) = Ret s /\
    hs_child s = RWaiting /\ hs_step true StepOwner s = None /\ hs_step true StepChild s = None.
Proof. eexists. split; [reflexivity|]. split; [done|]. split; reflexivity. Qed.

(** Joining a thread that was made detached is undefined. *)
Lemma detached_join_undefined :
  run_schedule (hs_step false) (replicate 7 StepOwner) thread_start = Undef.
Proof. vm_compute. reflexivity. Qed.

Lemma thread_handshake_witness :
  exists s', run_schedule (hs_step true)
      [StepChild; StepChild; StepChild; SpuriousWakeup; StepChild; StepOwner; StepOwner; StepOwner; StepOwner; StepOwner; StepOwner]
      (default thread_start (head constructed)) = Ret s' /\ handshake_ok s' /\
    (steps_taken (hs_step true)
       [StepChild; StepChild; StepChild; SpuriousWakeup; StepChild; StepOwner; StepOwner; StepOwner; StepOwner; StepOwner; StepOwner]
       (default thread_start (head constructed)) <= 68 + 3)%nat.
Proof. apply thread_handshake. apply list_elem_of_here. Defined.

