(* ===== verification/WinUtils.v ===== *)
(** * The Windows variants of the utilities (src/utils/)

    What time.cc, sync.cc, cpu.cc, thread.cc and color.cc do when [_WIN32] is defined, over
    the calls of the Windows API, which are system calls of the model (OS.v).  The rest of
    these files is common to both systems (Time.v, Sync.v, Thread.v). *)

From S2P Require Import Prelude.
From S2P Require Import OS.
From S2P Require Import Time.
From S2P Require Import Color.
From S2P Require Import Sync.
From S2P Require Import Thread.

Local Open Scope Z_scope.

(** ** The clock *)

Section Clock.
Context {K : Type} `{Kernel K}.

(** 1970 in units of 100 ns since 1601. *)
Definition unix_epoch : Z := 116444736000000000.

(** The high half is shifted as a signed number. *)
Definition win_gettimeofday : M (os K) (Z * (Z * Z)) :=
  r ← call SysGetSystemTimeAsFileTime;
  let '(high, low) := default (0, 0) (head (r_events r)) in
  if 2 ^ 31 <=? high then undef
  else
    let ns100 := u64 (Z.shiftl high 32 + low - unix_epoch) in
    mret (0, (i32 (ns100 / 10000000), i32 ((ns100 mod 10000000) / 10))).

Definition win_GetTimeOfDay : M (os K) (Z * raptor_time_spec) :=
  '(r, tp) ← win_gettimeofday;
  mret (r, {| tv_sec := tp.1; tv_usec := i32 tp.2 |}).

Definition win_GetCurrentMilliseconds : M (os K) Z :=
  '(_, tp) ← win_gettimeofday;
  mret (tp.1 * 1000 + Z.quot tp.2 1000).

(** The time the system gives, as one number. *)
Definition filetime (o : os K) : Z :=
  let '(high, low) := default (0, 0) (head (r_events (sys_call (os_kernel o) SysGetSystemTimeAsFileTime).1)) in
  high * 2 ^ 32 + low.

Definition filetime_ok (o : os K) : Prop :=
  let '(high, low) := default (0, 0) (head (r_events (sys_call (os_kernel o) SysGetSystemTimeAsFileTime).1)) in
  0 <= high < 2 ^ 31 /\ is_u32 low.

Lemma win_gettimeofday_spec (o : os K) :
  filetime_ok o ->
  wp win_gettimeofday o (fun '(r, tp) _ => let ns100 := u64 (filetime o - unix_epoch) in
    r = 0 /\ tp = (i32 (ns100 / 10000000), (ns100 mod 10000000) / 10)).
Proof using Type.
  unfold filetime_ok, filetime, win_gettimeofday, wp, call, mbind, M_bind.
  destruct (sys_call (os_kernel o) _) as [r k]. cbn [fst].
  destruct (default (0, 0) (head (r_events r))) as [high low]. intros [Hh Hl].
  rewrite (proj2 (Z.leb_gt _ _)) by lia. cbn [mret M_ret]. split; [done|].
  rewrite Z.shiftl_mul_pow2 by lia. set (ns := u64 _).
  pose proof (Z.mod_pos_bound ns 10000000 ltac:(lia)). f_equal.
  assert (0 <= (ns mod 10000000) / 10 < 1000000).
  { split; [apply Z.div_pos; lia|apply Z.div_lt_upper_bound; lia]. }
  unfold i32. rewrite swrap_small; lia.
Qed.

(** From 1970 to the year 2038 the clock is exact. *)
Lemma win_clock_exact (o : os K) :
  filetime_ok o -> unix_epoch <= filetime o < unix_epoch + 2 ^ 31 * 10000000 ->
  wp win_GetCurrentMilliseconds o (fun ms _ => ms = (filetime o - unix_epoch) / 10000).
Proof using Type.
  intros Hok Hr. unfold win_GetCurrentMilliseconds. apply wp_bind.
  eapply wp_mono; [by apply win_gettimeofday_spec|]. intros [r tp] o' [_ ->]. apply wp_ret. cbn [fst snd].
  set (t := filetime o - unix_epoch) in *. assert (0 <= t < 2 ^ 31 * 10000000) as Ht by (subst t; lia).
  unfold u64. rewrite wrap_small by lia.
  assert (0 <= t / 10000000 < 2 ^ 31).
  { split; [apply Z.div_pos; lia|apply Z.div_lt_upper_bound; lia]. }
  unfold i32. rewrite swrap_small by lia.
  pose proof (Z.mod_pos_bound t 10000000 ltac:(lia)).
  rewrite Z.quot_div_nonneg, Z.div_div; [|lia|lia|apply Z.div_pos; lia|lia].
  rewrite (Z.div_mod t 10000000) at 3 by lia.
  replace (10000000 * (t / 10000000) + t mod 10000000) with (t mod 10000000 + (t / 10000000 * 1000) * 10000) by lia.
  rewrite Z.div_add by lia. change (10 * 1000) with 10000. lia.
Qed.

(** From then on it is negative: the seconds are 32 bits wide. *)
Lemma win_clock_2038 (o : os K) :
  filetime_ok o -> filetime o = unix_epoch + 2 ^ 31 * 10000000 ->
  wp win_GetCurrentMilliseconds o (fun ms _ => ms = - 2 ^ 31 * 1000).
Proof using Type.
  intros Hok Ht. unfold win_GetCurrentMilliseconds. apply wp_bind.
  eapply wp_mono; [by apply win_gettimeofday_spec|]. intros [r tp] o' [_ ->]. apply wp_ret. rewrite Ht. reflexivity.
Qed.
End Clock.

(** ** What a call leaves in the trace *)

Section Calls.
Context {K : Type} `{Kernel K}.

Lemma wp_call_traced c (o : os K) (Q : sysret -> os K -> Prop) :
  (forall r o', os_trace o' = os_trace o ++ [(c, r)] -> Q r o') -> wp (call c) o Q.
Proof using Type. intros HQ. unfold wp, call. destruct (sys_call _ c) as [r k]. by apply HQ. Qed.

Lemma wp_ret_traced c (o : os K) (Q : Z -> os K -> Prop) :
  (forall r o', os_trace o' = os_trace o ++ [(c, r)] -> Q (r_ret r) o') -> wp (call_ret c) o Q.
Proof using Type. intros HQ. apply wp_bind, wp_call_traced. intros r o' Ho. by apply wp_ret, HQ. Qed.
End Calls.

(** ** Condition variables, once, processors *)

Section Sync.
Context {K : Type} `{Kernel K}.

Definition INFINITE : Z := 2 ^ 32 - 1.

(** The result is that of the call: true when the thread was woken. *)
Definition win_RaptorCondVarWait (timeout_ms : Z) : M (os K) Z :=
  if timeout_ms <? 0 then
    _ ← call (SysSleepConditionVariableCS INFINITE);
    mret 0
  else call_ret (SysSleepConditionVariableCS (u32 timeout_ms)).

Definition win_get_number_of_cpu_cores_impl : M (os K) Z :=
  r ← call SysGetSystemInfo;
  let number_of_cpu_cores := i32 (r_int r) in
  mret (if number_of_cpu_cores <? 1 then 1 else number_of_cpu_cores).

(** [InitOnceExecuteOnce] and its callback: the routine runs the first time. *)
Definition win_RaptorOnceInit (init_function : M (os K) Z) (cell : option Z) : M (os K) (option Z) :=
  match cell with
  | None => v ← init_function; mret (Some v)
  | Some v => mret (Some v)
  end.

Definition win_raptor_get_number_of_cpu_cores (cell : option Z) : M (os K) (Z * option Z) :=
  cell ← win_RaptorOnceInit win_get_number_of_cpu_cores_impl cell;
  mret (u32 (default 0 cell), cell).

(** The call's result: FALSE for a timeout, TRUE when woken. *)
Definition timed_out (r : sysret) : Prop := r_ret r = 0.

(** The sense of the result is the reverse of that of Sync.v: 0 exactly after a timeout. *)
Lemma win_condvar_reversed (timeout_ms : Z) (o : os K) :
  0 <= timeout_ms < INFINITE ->
  wp (win_RaptorCondVarWait timeout_ms) o (fun x o' => exists r,
    os_trace o' = os_trace o ++ [(SysSleepConditionVariableCS timeout_ms, r)] /\ (x = 0 <-> timed_out r)).
Proof using Type.
  intros Ht. unfold win_RaptorCondVarWait, INFINITE in *. rewrite (proj2 (Z.ltb_ge _ _)) by lia.
  unfold u32. rewrite wrap_small by lia. apply wp_ret_traced. intros r o' Ho. by exists r.
Qed.

(** A timeout of [2^32 - 1] milliseconds never ends. *)
Lemma win_condvar_infinite (o : os K) :
  wp (win_RaptorCondVarWait (2 ^ 32 - 1)) o (fun _ o' => exists r,
    os_trace o' = os_trace o ++ [(SysSleepConditionVariableCS INFINITE, r)]).
Proof using Type.
  unfold win_RaptorCondVarWait. change (2 ^ 32 - 1 <? 0) with false. change (u32 (2 ^ 32 - 1)) with INFINITE.
  apply wp_ret_traced. intros r o' Ho. by exists r.
Qed.
End Sync.

(** ** Threads *)

Section Threads.
Context {K : Type} `{Kernel K}.

(** [CreateEvent] only for a thread that is joined; the thread's own handle is closed at
    once.  When [CreateThread] fails the event is closed, also when there is none. *)
Definition win_InternalThreadImpl_new (joinable : bool) (stack_size : Z) : M (os K) (option InternalThreadImpl) :=
  join_object ← (if joinable then call_ret SysCreateEvent else mret 0);
  if joinable && (join_object =? 0) then mret None
  else
    let dwStackSize := if stack_size =? 0 then 64 * 1024 else stack_size in
    handle ← call_ret (SysCreateThread dwStackSize);
    if handle =? 0 then
      _ ← call_ret (SysCloseHandle join_object);
      mret None
    else
      _ ← call_ret (SysCloseHandle handle);
      mret (Some {| im_started := false; im_join_object := join_object |}).

Definition win_Thread_new (joinable : bool) (stack_size : Z) : M (os K) (Thread * bool) :=
  impl ← win_InternalThreadImpl_new joinable stack_size;
  mret (match impl with
        | None => ({| th_impl := None; th_state := kFailed |}, false)
        | Some i => ({| th_impl := Some i; th_state := kAlive |}, true)
        end).

Definition win_Impl_Join (i : InternalThreadImpl) : M (os K) unit :=
  if negb (im_join_object i =? 0) then
    _ ← call_ret (SysWaitForSingleObject (im_join_object i) INFINITE);
    _ ← call_ret (SysCloseHandle (im_join_object i));
    mret tt
  else mret tt.

Definition win_Thread_Join (t : Thread) : M (os K) Thread :=
  match th_impl t with
  | Some i =>
      let i := if bool_decide (th_state t = kAlive) then Impl_Start i else i in
      _ ← win_Impl_Join i;
      mret {| th_impl := None; th_state := kFinish |}
  | None =>
      _ ← raptor_assert (bool_decide (th_state t = kFailed));
      mret t
  end.

(** The end of [Run]. *)
Definition win_Run_end (joinable : bool) (join_object : Z) : M (os K) unit :=
  if joinable then _ ← call_ret (SysSetEvent join_object); mret tt else mret tt.

(** The handles a trace opened and closed. *)
Definition handle_opened_by (e : syscall * sysret) : option Z :=
  match e.1 with
  | SysCreateEvent | SysCreateThread _ => if r_ret e.2 =? 0 then None else Some (r_ret e.2)
  | _ => None
  end.

Definition handle_closed_by (e : syscall * sysret) : option Z :=
  match e.1 with SysCloseHandle h => Some h | _ => None end.

Definition handles_opened (t : list (syscall * sysret)) : list Z := omap handle_opened_by t.
Definition handles_closed (t : list (syscall * sysret)) : list Z := omap handle_closed_by t.

(** A thread that is created, started perhaps, and joined. *)
Definition win_thread_life (stack_size : Z) (start : bool) : M (os K) thread_state :=
  '(t, ok) ← win_Thread_new true stack_size;
  t ← (if start then Thread_Start t else mret t);
  t ← win_Thread_Join t;
  mret (th_state t).

(** Its handles are closed, each once, whatever fails. *)
Lemma win_thread_handles (stack_size : Z) (start : bool) (o : os K) :
  wp (win_thread_life stack_size start) o (fun st o' => exists t,
    os_trace o' = os_trace o ++ t /\ handles_opened t ≡ₚ handles_closed t /\ (st = kFinish \/ st = kFailed)).
Proof using Type.
  unfold win_thread_life, win_Thread_new, win_InternalThreadImpl_new. cbn [andb].
  apply wp_bind, wp_bind, wp_bind, wp_ret_traced. intros re o1 E1.
  assert (forall r c, r_ret r <> 0 -> c = SysCreateEvent \/ (exists n, c = SysCreateThread n) ->
    handles_opened [(c, r)] = [r_ret r]) as Hop.
  { intros r c Hr [->|[n ->]]; unfold handles_opened; cbn; by rewrite (proj2 (Z.eqb_neq _ _) Hr). }
  assert (forall r c, r_ret r = 0 -> c = SysCreateEvent \/ (exists n, c = SysCreateThread n) ->
    handles_opened [(c, r)] = []) as Hno.
  { intros r c Hr [->|[n ->]]; unfold handles_opened; cbn; by rewrite (proj2 (Z.eqb_eq _ _) Hr). }
  assert (forall t t', handles_opened (t ++ t') = handles_opened t ++ handles_opened t') as Happ
    by (intros; apply omap_app).
  destruct (Z.eqb_spec (r_ret re) 0) as [He|He].
  { apply wp_ret, wp_ret. destruct start; cbn; (eexists; split; [exact E1|]); rewrite Hno by auto; auto. }
  apply wp_bind, wp_ret_traced. intros rt o2 E2. destruct (Z.eqb_spec (r_ret rt) 0) as [Ht|Ht].
  { apply wp_bind, wp_ret_traced. intros rc o3 E3. apply wp_ret, wp_ret.
    rewrite E2, E1, <- !app_assoc in E3.
    destruct start; cbn; (eexists; split; [exact E3|]); rewrite !Happ, Hop, Hno by eauto; auto. }
  apply wp_bind, wp_ret_traced. intros rc o3 E3. apply wp_ret, wp_ret.
  apply wp_bind. apply (wp_mono _ _ (fun t o' => o' = o3 /\ im_join_object <$> th_impl t = Some (r_ret re))); [by destruct start|].
  intros t o4 [-> Hj]. destruct (th_impl t) as [i|] eqn:Ei; [|done]. apply (inj Some) in Hj.
  apply wp_bind. unfold win_Thread_Join. rewrite Ei. set (i' := if bool_decide _ then _ else _).
  assert (im_join_object i' = r_ret re) as Hi by (subst i'; by case_bool_decide). clearbody i'.
  apply wp_bind. unfold win_Impl_Join. rewrite Hi, (proj2 (Z.eqb_neq _ _) He). cbn [negb].
  apply wp_bind, wp_ret_traced. intros rw o5 E5. apply wp_bind, wp_ret_traced. intros rj o6 E6.
  do 3 apply wp_ret. rewrite E5, E3, E2, E1, <- !app_assoc in E6. eexists. split; [exact E6|].
  rewrite !Happ, !Hop by eauto. split; [apply Permutation_swap|by left].
Qed.
End Threads.

(** ** The console *)

Inductive FILE : Type := stdout_file | stderr_file | other_file (n : nat).

Section Console.
Context {K : Type} `{Kernel K}.

Definition STD_OUTPUT_HANDLE : Z := 2 ^ 32 - 11.
Definition STD_ERROR_HANDLE : Z := 2 ^ 32 - 12.

(** The number of a stream in the trace. *)
Definition stream_of (f : FILE) : Z :=
  match f with stdout_file => 1 | stderr_file => 2 | other_file n => Z.of_nat n + 3 end.

Definition fBlue : Z := 1.
Definition fGreen : Z := 2.
Definition fRed : Z := 4.
Definition fIntensity : Z := 8.
Definition bBlue : Z := 16.
Definition bGreen : Z := 32.
Definition bRed : Z := 64.
Definition bIntensity : Z := 128.
Definition fYellow : Z := Z.lor fRed fGreen.
Definition fCyan : Z := Z.lor fGreen fBlue.
Definition fMagenta : Z := Z.lor fBlue fRed.
Definition fWhite : Z := Z.lor fRed (Z.lor fBlue fGreen).
Definition bYellow : Z := Z.lor bRed bGreen.
Definition bCyan : Z := Z.lor bGreen bBlue.
Definition bMagenta : Z := Z.lor bBlue bRed.
Definition bWhite : Z := Z.lor bRed (Z.lor bBlue bGreen).

Definition win_ForegroundColorTable (c : Color) : Z :=
  match c with
  | Default => Z.lor fWhite fIntensity
  | Black => 0
  | Red => Z.lor fRed fIntensity
  | Green => Z.lor fGreen fIntensity
  | Yellow => Z.lor fYellow fIntensity
  | Blue => Z.lor fBlue fIntensity
  | Magenta => Z.lor fMagenta fIntensity
  | Cyan => Z.lor fCyan fIntensity
  | White => Z.lor fWhite fIntensity
  end.

Definition win_BackgroundColorTable (c : Color) : Z :=
  match c with
  | Default => 0
  | Black => 0
  | Red => Z.lor bRed bIntensity
  | Green => Z.lor bGreen bIntensity
  | Yellow => Z.lor bYellow bIntensity
  | Blue => Z.lor bBlue bIntensity
  | Magenta => Z.lor bMagenta bIntensity
  | Cyan => Z.lor bCyan bIntensity
  | White => Z.lor bWhite bIntensity
  end.

Definition GetConsoleColor (h : Z) : M (os K) Z :=
  r ← call (SysGetConsoleScreenBufferInfo h);
  mret (if r_ret r =? 0 then 0 else u16 (r_int r)).

Definition console_handle (f : FILE) : M (os K) Z :=
  match f with
  | stdout_file => call_ret (SysGetStdHandle STD_OUTPUT_HANDLE)
  | _ => call_ret (SysGetStdHandle STD_ERROR_HANDLE)
  end.

(** The state is the static variable [win32_reset_color]. *)
Definition win_SetConsoleColor (f : FILE) (foreground background : Color) (reset : Z) : M (os K) Z :=
  handle ← console_handle f;
  let attr := u16 (win_ForegroundColorTable foreground + win_BackgroundColorTable background) in
  reset ← (if reset =? -1 then GetConsoleColor handle else mret reset);
  _ ← call_ret (SysSetConsoleTextAttribute handle attr);
  mret reset.

Definition win_ResetConsoleColor (f : FILE) (reset : Z) : M (os K) unit :=
  if negb (reset =? -1) then
    handle ← console_handle f;
    _ ← call_ret (SysSetConsoleTextAttribute handle (u16 reset));
    mret tt
  else mret tt.

Definition win_FprintColorTextLine (f : FILE) (foreground background : Color) (text : list byte) (reset : Z) : M (os K) Z :=
  reset ← win_SetConsoleColor f foreground background reset;
  _ ← call_ret (SysFprintf (stream_of f) text);
  _ ← win_ResetConsoleColor f reset;
  _ ← call_ret (SysFprintf (stream_of f) [x0a]);
  mret reset.

(** A colour of the tables fits in its half of the attribute byte. *)
Lemma console_attributes (fg bg : Color) :
  u16 (win_ForegroundColorTable fg + win_BackgroundColorTable bg) =
  Z.lor (win_ForegroundColorTable fg) (win_BackgroundColorTable bg).
Proof using Type. by destruct fg, bg. Qed.

(** The screen a handle writes to, if it is a console's, and the screens' attributes. *)
Class KernelConsole : Type := {
  std_handle : Z -> Z;
  screen : Z -> option Z;
  attributes : K -> Z -> Z;
  attributes_word k s : is_u16 (attributes k s);
  get_std_handle k n : let '(r, k') := sys_call k (SysGetStdHandle n) in
    r_ret r = std_handle n /\ forall s, attributes k' s = attributes k s;
  get_info k h : let '(r, k') := sys_call k (SysGetConsoleScreenBufferInfo h) in
    (forall s, attributes k' s = attributes k s) /\
    match screen h with
    | Some s => r_ret r <> 0 /\ r_int r = attributes k s
    | None => r_ret r = 0
    end;
  set_attribute k h a : is_u16 a -> let '(r, k') := sys_call k (SysSetConsoleTextAttribute h a) in
    forall s, attributes k' s = (if bool_decide (screen h = Some s) then a else attributes k s);
  print_text k n text s : attributes (sys_call k (SysFprintf n text)).2 s = attributes k s;
}.

Definition handle_of `{KernelConsole} (f : FILE) : Z :=
  match f with stdout_file => std_handle STD_OUTPUT_HANDLE | _ => std_handle STD_ERROR_HANDLE end.

Section Laws.
Context `{!KernelConsole}.

Abbreviation attrs o := (attributes (os_kernel o)).

Lemma wp_console_handle f o (Q : Z -> os K -> Prop) :
  (forall o', (forall s, attrs o' s = attrs o s) -> Q (handle_of f) o') -> wp (console_handle f) o Q.
Proof using Type.
  intros HQ. unfold console_handle, handle_of in *.
  destruct f; unfold call_ret, call, wp, mbind, M_bind;
    (lazymatch goal with |- context [SysGetStdHandle ?n] => pose proof (get_std_handle (os_kernel o) n) as Hg end);
    destruct (sys_call _ _) as [r k]; destruct Hg as [Hr Hk]; cbn; rewrite Hr; by apply HQ.
Qed.

Lemma wp_get_color h o (Q : Z -> os K -> Prop) :
  (forall o', (forall s, attrs o' s = attrs o s) ->
     Q (match screen h with Some s => attrs o s | None => 0 end) o') -> wp (GetConsoleColor h) o Q.
Proof using Type.
  intros HQ. unfold GetConsoleColor, call, wp, mbind, M_bind. pose proof (get_info (os_kernel o) h) as Hg.
  destruct (sys_call _ _) as [r k]. destruct Hg as [Hk Hr]. cbn. destruct (screen h) as [s|].
  - destruct Hr as [Hr Hi]. rewrite (proj2 (Z.eqb_neq _ _) Hr), Hi. unfold u16.
    rewrite wrap_small by apply attributes_word. by apply HQ.
  - rewrite (proj2 (Z.eqb_eq _ _) Hr). by apply HQ.
Qed.

Lemma wp_set_attribute h a o (Q : Z -> os K -> Prop) :
  is_u16 a ->
  (forall x o', (forall s, attrs o' s = if bool_decide (screen h = Some s) then a else attrs o s) -> Q x o') ->
  wp (call_ret (SysSetConsoleTextAttribute h a)) o Q.
Proof using Type.
  intros Ha HQ. unfold call_ret, call, wp, mbind, M_bind. pose proof (set_attribute (os_kernel o) h a Ha) as Hs.
  destruct (sys_call _ _) as [r k]. by apply HQ.
Qed.

Lemma wp_print n text o (Q : Z -> os K -> Prop) :
  (forall x o', (forall s, attrs o' s = attrs o s) -> Q x o') -> wp (call_ret (SysFprintf n text)) o Q.
Proof using Type.
  intros HQ. unfold call_ret, call, wp, mbind, M_bind. pose proof (print_text (os_kernel o) n text) as Hs.
  destruct (sys_call _ _) as [r k]. by apply HQ.
Qed.

(** The attribute that is in force after a line. *)
Definition after_line (f : FILE) (reset : Z) (o : os K) : Z :=
  if reset =? -1 then match screen (handle_of f) with Some s => attrs o s | None => 0 end else reset.

Lemma after_line_u16 f reset o : reset = -1 \/ is_u16 reset -> is_u16 (after_line f reset o).
Proof using Type.
  intros Hr. unfold after_line. destruct (Z.eqb_spec reset (-1)); [|by destruct Hr].
  destruct (screen _); [apply attributes_word|done].
Qed.

(** A coloured line leaves its screen with the attribute that the first line of all found,
    and the other screens alone. *)
Lemma win_color_line f fg bg text reset o :
  reset = -1 \/ is_u16 reset ->
  wp (win_FprintColorTextLine f fg bg text reset) o (fun reset' o' =>
    reset' = after_line f reset o /\
    forall s, attrs o' s = if bool_decide (screen (handle_of f) = Some s) then after_line f reset o else attrs o s).
Proof using Type.
  intros Hreset. pose proof (after_line_u16 f reset o Hreset) as Hal.
  unfold win_FprintColorTextLine, win_SetConsoleColor.
  apply wp_bind, wp_bind, wp_console_handle. intros o1 H1. apply wp_bind.
  assert (forall o2 (Q : Z -> os K -> Prop), (forall s, attrs o2 s = attrs o s) ->
    (forall o3, (forall s, attrs o3 s = attrs o s) -> Q (after_line f reset o) o3) ->
    wp (if reset =? -1 then GetConsoleColor (handle_of f) else mret reset) o2 Q) as Hget.
  { intros o2 Q H2 HQ. unfold after_line in *. destruct (reset =? -1); [|by apply wp_ret, HQ].
    apply wp_get_color. intros o3 H3. destruct (screen (handle_of f)); rewrite ?H2; apply HQ; intros; by rewrite H3. }
  apply Hget; [done|]. clear Hget. intros o2 H2.
  apply wp_bind, wp_set_attribute; [by destruct fg, bg|]. intros _ o3 H3. apply wp_ret.
  apply wp_bind, wp_print. intros _ o4 H4. apply wp_bind. unfold win_ResetConsoleColor.
  rewrite (proj2 (Z.eqb_neq _ _)) by (unfold is_u16 in Hal; lia). cbn [negb].
  apply wp_bind, wp_console_handle. intros o5 H5. unfold u16. rewrite wrap_small by exact Hal.
  apply wp_bind, wp_set_attribute; [done|]. intros _ o6 H6. apply wp_ret.
  apply wp_bind, wp_print. intros _ o7 H7. apply wp_ret. split; [done|]. intros s.
  rewrite H7, H6. case_bool_decide as Hs; [done|]. rewrite H5, H4, H3, bool_decide_eq_false_2, H2 by done. done.
Qed.
End Laws.
End Console.

(** *** Redirected output *)

(** Standard output goes to a file, standard error to a screen, whose attribute is the state. *)
Definition redirected_kernel : Kernel Z := fun k c =>
  let ret x n := {| r_ret := x; r_errno := 0; r_data := []; r_int := n; r_events := [] |} in
  match c with
  | SysGetStdHandle n => (ret (if n =? STD_OUTPUT_HANDLE then 1 else 2) 0, k)
  | SysGetConsoleScreenBufferInfo h => (if h =? 2 then ret 1 (u16 k) else ret 0 0, k)
  | SysSetConsoleTextAttribute h a => (ret 1 0, if h =? 2 then a else k)
  | _ => (ret 1 0, k)
  end.

#[local] Existing Instance redirected_kernel.

#[local] Program Instance redirected_console : KernelConsole (K := Z) := {|
  std_handle n := if n =? STD_OUTPUT_HANDLE then 1 else 2;
  screen h := if h =? 2 then Some 0 else None;
  attributes k s := if s =? 0 then u16 k else 0;
|}.
Next Obligation. intros k s. cbn. destruct (s =? 0); [apply wrap_range; lia|done]. Qed.
Next Obligation. done. Qed.
Next Obligation. intros k h. cbn. by destruct (Z.eqb_spec h 2). Qed.
Next Obligation.
  intros k h a Ha. cbn. intros s. destruct (Z.eqb_spec h 2), (Z.eqb_spec s 0) as [->|Hs]; try done.
  - by apply wrap_small.
  - by rewrite bool_decide_eq_false_2 by congruence.
Qed.
Next Obligation. done. Qed.

(** The first line finds no attribute, and 0 is what later lines leave: black on black. *)
Example black_on_black :
  match (reset ← win_FprintColorTextLine stdout_file Red Default (str "to the file") (-1);
         win_FprintColorTextLine stderr_file Red Default (str "to the screen") reset)
        {| os_kernel := 7; os_errno := 0; os_trace := [] |} with
  | Ret (reset, o) => reset = 0 /\ attributes (os_kernel o) 0 = 0
  | _ => False
  end.
Proof. vm_compute. done. Qed.

(** With the first line on the screen its attribute is restored. *)
Lemma win_color_line_screen :
  wp (win_FprintColorTextLine stderr_file Red Default (str "text") (-1)) {| os_kernel := 7; os_errno := 0; os_trace := [] |}
    (fun reset o => reset = 7 /\ attributes (os_kernel o) 0 = 7).
Proof.
  eapply wp_mono; [apply win_color_line; by left|]. cbn beta. intros reset o [-> Hs]. split; [done|].
  by rewrite Hs.
Qed.
