(* ===== verification/Log.v ===== *)
(** * Logging (src/utils/log.cc, src/surface/init.cc)

    Log messages are formatted by the thread that logs, pushed on a queue, and printed
    and freed by the log thread.  The world holds the globals of log.cc, the heap
    blocks they own (nodes and message texts), what was written to stderr and the calls
    of a user's print callback.  The queue is used through what Mpscq.v proves of it:
    a list, whose [pop] may find nothing while a push is in progress. *)

From S2P Require Import Prelude.
From S2P Require Import OS.
From S2P Require Import Time.
From S2P Require Import Thread.
From S2P Require Import CString.
From S2P Require Import Color.

Local Open Scope Z_scope.

Inductive LogLevel : Type := kDebug | kInfo | kWarn | kError.

Definition log_level_int (l : LogLevel) : Z :=
  match l with kDebug => 0 | kInfo => 1 | kWarn => 2 | kError => 3 end.

(** [la_message] points to the text's block. *)
Record LogArgument : Type := {
  la_file : list byte;
  la_line : Z;
  la_level : LogLevel;
  la_message : nat;
  la_threadid : Z;
}.

Inductive LogPrintCallback : Type :=
  | default_print
  | user_print (callback : nat).

Definition g_level_char (l : LogLevel) : list byte :=
  str (match l with kDebug => "D" | kInfo => "I" | kWarn => "W" | kError => "E" end).
Definition g_fc_table (l : LogLevel) : Color :=
  match l with kDebug => Cyan | kInfo => Green | kWarn => Yellow | kError => Red end.
Definition g_bc_table (l : LogLevel) : Color :=
  match l with kDebug => Black | kInfo => Black | kWarn => Black | kError => White end.

(** A node's block is the [LogMsgNode], of which the queue's node is the first member. *)
Record log_world (K : Type) : Type := {
  lg_os : os K;
  g_log_function : LogPrintCallback;
  g_min_level : Z;
  g_shutdown : bool;
  g_thd : Thread;
  g_mpscq : list nat;
  lg_nodes : gmap nat LogArgument;
  lg_messages : gmap nat (list byte);
  lg_next : nat;
  lg_stderr : list byte;
  lg_calls : list (nat * LogArgument * list byte);
}.
Arguments Build_log_world {K}.
Arguments lg_os {K}. Arguments g_log_function {K}. Arguments g_min_level {K}. Arguments g_shutdown {K}.
Arguments g_thd {K}. Arguments g_mpscq {K}. Arguments lg_nodes {K}. Arguments lg_messages {K}.
Arguments lg_next {K}. Arguments lg_stderr {K}. Arguments lg_calls {K}.

Section Log.
Context {K : Type} `{Kernel K}.
Variable malloc_ok : nat -> bool.
(** The broken-down time, and its text in the format "%F %T" (empty when it does not fit). *)
Context {tm : Type}.
Variable localtime_r : Z -> option tm.
Variable strftime : tm -> list byte.
Implicit Types w : log_world K.

Definition lg_with_os o w : log_world K := Build_log_world o (g_log_function w) (g_min_level w)
  (g_shutdown w) (g_thd w) (g_mpscq w) (lg_nodes w) (lg_messages w) (lg_next w) (lg_stderr w) (lg_calls w).
Definition lg_with_settings f level w : log_world K := Build_log_world (lg_os w) f level
  (g_shutdown w) (g_thd w) (g_mpscq w) (lg_nodes w) (lg_messages w) (lg_next w) (lg_stderr w) (lg_calls w).
Definition lg_with_thread shutdown thd w : log_world K := Build_log_world (lg_os w) (g_log_function w) (g_min_level w)
  shutdown thd (g_mpscq w) (lg_nodes w) (lg_messages w) (lg_next w) (lg_stderr w) (lg_calls w).
Definition lg_with_queue q w : log_world K := Build_log_world (lg_os w) (g_log_function w) (g_min_level w)
  (g_shutdown w) (g_thd w) q (lg_nodes w) (lg_messages w) (lg_next w) (lg_stderr w) (lg_calls w).
Definition lg_with_heap nodes messages next w : log_world K := Build_log_world (lg_os w) (g_log_function w) (g_min_level w)
  (g_shutdown w) (g_thd w) (g_mpscq w) nodes messages next (lg_stderr w) (lg_calls w).
Definition lg_with_output err calls w : log_world K := Build_log_world (lg_os w) (g_log_function w) (g_min_level w)
  (g_shutdown w) (g_thd w) (g_mpscq w) (lg_nodes w) (lg_messages w) (lg_next w) err calls.

Definition log_os {A} : M (os K) A -> M (log_world K) A := zoom lg_os lg_with_os.

(** ** One line of the log *)

(** What follows the last '/', if there is one. *)
Fixpoint after_slash (file : list byte) : option (list byte) :=
  match file with
  | [] => None
  | b :: file =>
      match after_slash file with
      | Some rest => Some rest
      | None => if decide (b = x2f) then Some file else None
      end
  end.

Definition display_file (file : list byte) : list byte := default file (after_slash file).

Definition pad (c : byte) (width : nat) (s : list byte) : list byte := replicate (width - length s) c ++ s.

(** "%06d" and "%7lu" *)
Definition printf_06d (z : Z) : list byte :=
  if z <? 0 then str "-" ++ pad x30 5 (dec (- z)) else pad x30 6 (dec z).
Definition printf_7lu (n : Z) : list byte := pad x20 7 (dec n).

(** RAPTOR_LOG_FORMAT *)
Definition log_line (time : list byte) (usec threadid : Z) (level : LogLevel) (message file : list byte) (line : Z) : list byte :=
  str "[" ++ time ++ str "." ++ printf_06d usec ++ str " " ++ printf_7lu threadid ++ str " " ++ g_level_char level ++
  str "] " ++ message ++ str " (" ++ file ++ str ":" ++ dec line ++ str ")".

Definition time_buffer (timer : Z) : list byte :=
  match localtime_r timer with
  | None => str "error:localtime"
  | Some stm => match strftime stm with [] => str "error:strftime" | text => text end
  end.

(** The C string at the start of a block. *)
Definition c_text (m : list byte) : outcome (list byte) :=
  match strlen m with Ret n => Ret (take n m) | Undef => Undef | Abort => Abort | NoFuel => NoFuel end.

Definition lift_log {A} (x : outcome A) : M (log_world K) A := fun w =>
  match x with Ret a => Ret (a, w) | Undef => Undef | Abort => Abort | NoFuel => NoFuel end.

(** The null pointer that [raptor_asprintf] leaves when it fails is printed: undefined. *)
Definition log_default_print (args : LogArgument) : M (log_world K) unit :=
  '(_, now) ← log_os GetTimeOfDay;
  messages ← gets lg_messages;
  m ← of_option (messages !! la_message args);
  message ← lift_log (c_text m);
  let file := display_file (la_file args) in
  let text := log_line (time_buffer (tv_sec now)) (tv_usec now) (la_threadid args) (la_level args) message file (la_line args) in
  let msg_size := (length message + length file + 128)%nat in
  buff ← (if (2048 <=? msg_size)%nat then of_option (raptor_asprintf malloc_ok (Some text)).2
          else mret (vsnprintf_store 2048 text));
  output_text ← lift_log (c_text buff);
  modify (fun w => lg_with_output
    (FprintColorTextLine (g_fc_table (la_level args)) (g_bc_table (la_level args)) output_text (lg_stderr w)) (lg_calls w) w).

(** ** The operations *)

Definition LogSetLevel (level : LogLevel) : M (log_world K) unit :=
  modify (fun w => lg_with_settings (g_log_function w) (log_level_int level) w).

Definition LogSetPrintCallback (func : LogPrintCallback) : M (log_world K) unit :=
  modify (fun w => lg_with_settings func (g_min_level w) w).

(** A new block of either kind. *)
Definition new_message (m : list byte) : M (log_world K) nat :=
  w ← gets id;
  _ ← modify (lg_with_heap (lg_nodes w) (<[lg_next w := m]> (lg_messages w)) (S (lg_next w)));
  mret (lg_next w).
Definition new_node (a : LogArgument) : M (log_world K) nat :=
  w ← gets id;
  _ ← modify (lg_with_heap (<[lg_next w := a]> (lg_nodes w)) (lg_messages w) (S (lg_next w)));
  mret (lg_next w).

(** [LogFormatPrint] up to the push: [text] is what the format prints ([None] when
    [vasprintf] fails).  The node to push, if any; a text below the level is not freed. *)
Definition LogFormat (file : list byte) (line : Z) (level : LogLevel) (text : option (list byte)) (self : Z) :
    M (log_world K) (option nat) :=
  w ← gets id;
  if g_shutdown w then mret None
  else
    match text with
    | None => mret None
    | Some text =>
        message ← new_message (c_buffer text);
        w ← gets id;
        if g_min_level w <=? log_level_int level then
          msg ← new_node {| la_file := file; la_line := line; la_level := level; la_message := message; la_threadid := self |};
          mret (Some msg)
        else mret None
    end.

Definition LogPush (msg : nat) : M (log_world K) unit := modify (fun w => lg_with_queue (g_mpscq w ++ [msg]) w).

Definition LogFormatPrint (file : list byte) (line : Z) (level : LogLevel) (text : option (list byte)) (self : Z) :
    M (log_world K) unit :=
  msg ← LogFormat file line level text self;
  match msg with Some msg => LogPush msg | None => mret tt end.

(** [free] of the message and [delete] of its node; freeing twice is undefined. *)
Definition free_message (p : nat) : M (log_world K) unit :=
  w ← gets id;
  _ ← of_option (lg_messages w !! p);
  modify (lg_with_heap (lg_nodes w) (delete p (lg_messages w)) (lg_next w)).
Definition delete_node (n : nat) : M (log_world K) unit :=
  w ← gets id;
  _ ← of_option (lg_nodes w !! n);
  modify (lg_with_heap (delete n (lg_nodes w)) (lg_messages w) (lg_next w)).

Definition read_node (n : nat) : M (log_world K) LogArgument :=
  w ← gets id; of_option (lg_nodes w !! n).

(** [g_log_function], called; a user's callback only reads. *)
Definition call_log_function (args : LogArgument) : M (log_world K) unit :=
  f ← gets g_log_function;
  match f with
  | default_print => log_default_print args
  | user_print i =>
      w ← gets id;
      m ← of_option (lg_messages w !! la_message args);
      modify (fun w => lg_with_output (lg_stderr w) (lg_calls w ++ [(i, args, m)]) w)
  end.

(** One round of [LogThreadProc]'s loop; [blocked]: the queue's [pop] finds nothing, since
    a push is in progress.  Returns the node it printed. *)
Definition LogThreadProc_round (blocked : bool) : M (log_world K) (option nat) :=
  w ← gets id;
  if g_shutdown w then mret None
  else
    match (if blocked then [] else g_mpscq w) with
    | [] => mret None
    | n :: q =>
        _ ← modify (lg_with_queue q);
        args ← read_node n;
        _ ← call_log_function args;
        _ ← free_message (la_message args);
        _ ← delete_node n;
        mret (Some n)
    end.

Definition LogStartup : M (log_world K) unit :=
  w ← gets id;
  if negb (g_shutdown w) then mret tt
  else
    '(thd, _) ← log_os Thread_new;
    _ ← modify (lg_with_thread false thd);
    thd ← log_os (Thread_Start thd);
    modify (lg_with_thread false thd).

(** The loop that clears the queue; no push is in progress. *)
Fixpoint LogCleanup_loop (fuel : nat) : M (log_world K) unit :=
  match fuel with
  | O => no_fuel
  | S fuel =>
      w ← gets id;
      match g_mpscq w with
      | [] => mret tt
      | n :: q =>
          _ ← modify (lg_with_queue q);
          msg ← read_node n;
          _ ← free_message (la_message msg);
          _ ← delete_node n;
          LogCleanup_loop fuel
      end
  end.

Definition LogCleanup : M (log_world K) unit :=
  w ← gets id;
  if g_shutdown w then mret tt
  else
    _ ← modify (lg_with_thread true (g_thd w));
    thd ← log_os (Thread_Join (g_thd w));
    _ ← modify (lg_with_thread true thd);
    LogCleanup_loop (S (length (g_mpscq w))).

(** [RaptorGlobalStartup] and [RaptorGlobalCleanup] (src/surface/init.cc) *)
Definition RaptorGlobalStartup : M (log_world K) Z := _ ← LogStartup; mret 0.
Definition RaptorGlobalCleanup : M (log_world K) Z := _ ← LogCleanup; mret 0.
End Log.

(** ** A line is written whole *)

Section Lines.
Implicit Types text : list byte.

Lemma no_nul_app text text' : no_nul (text ++ text') <-> no_nul text /\ no_nul text'.
Proof. unfold no_nul. apply not_elem_of_app. Qed.

Lemma no_nul_dec z : no_nul (dec z).
Proof.
  assert (forall d, no_nul (str (DecimalString.NilEmpty.string_of_uint d))) as Hu.
  { unfold no_nul. induction d; cbn; [by intros ?%elem_of_nil|..]; (intros [E|Hin]%elem_of_cons; [done|by apply IHd]). }
  unfold dec. destruct z as [|p|p]; cbn [Z.to_int DecimalString.NilZero.string_of_int].
  - by vm_compute; intros ?%list_elem_of_singleton.
  - specialize (Hu (Pos.to_uint p)). unfold DecimalString.NilZero.string_of_uint.
    destruct (Pos.to_uint p); [by apply (bool_decide_eq_true_1 (NUL ∉ _))|exact Hu..].
  - specialize (Hu (Pos.to_uint p)). unfold DecimalString.NilZero.string_of_uint.
    destruct (Pos.to_uint p); [by apply (bool_decide_eq_true_1 (NUL ∉ _))|..];
      (unfold no_nul in *; intros [E|Hin]%elem_of_cons; [done|by apply Hu]).
Qed.

Lemma no_nul_pad c n text : c <> NUL -> no_nul text -> no_nul (pad c n text).
Proof. intros Hc Ht. apply no_nul_app. split; [|done]. by intros [? _]%elem_of_replicate. Qed.

Lemma length_pad c n text : length (pad c n text) = Nat.max n (length text).
Proof. unfold pad. rewrite length_app, length_replicate. lia. Qed.

Lemma after_slash_suffix file rest : after_slash file = Some rest -> exists p, file = p ++ rest.
Proof.
  revert rest. induction file as [|b file IH]; cbn; [done|]. intros rest.
  destruct (after_slash file) as [r|]; [intros [= ->]|case_decide; [intros [= ->]|done]].
  - destruct (IH rest eq_refl) as [p ->]. by exists (b :: p).
  - by exists [b].
Qed.

Lemma display_file_spec file : no_nul file -> no_nul (display_file file) /\ (length (display_file file) <= length file)%nat.
Proof.
  intros Hn. unfold display_file. destruct (after_slash file) as [rest|] eqn:E; [|done].
  apply after_slash_suffix in E as [p ->]. apply no_nul_app in Hn as [_ Hn]. cbn. rewrite length_app. split; [done|lia].
Qed.

Lemma c_text_buffer text rest : no_nul text -> c_text (text ++ NUL :: rest) = Ret text.
Proof. intros Hn. unfold c_text. by rewrite strlen_c_buffer, take_app_length. Qed.

Lemma printf_06d_spec z : - 2 ^ 31 <= z < 2 ^ 31 -> no_nul (printf_06d z) /\ (length (printf_06d z) <= 11)%nat.
Proof.
  intros Hz. unfold printf_06d. destruct (Z.ltb_spec z 0) as [Hn|Hn].
  - rewrite no_nul_app, length_app, length_pad. split; [split; [by vm_compute; intros ?%list_elem_of_singleton|by apply no_nul_pad, no_nul_dec]|].
    pose proof (length_dec (- z) 10 ltac:(lia) ltac:(lia)). cbn. lia.
  - rewrite length_pad. split; [by apply no_nul_pad, no_nul_dec|]. pose proof (length_dec z 10 ltac:(lia) ltac:(lia)). lia.
Qed.

(** Everything but the message and the file takes at most 116 bytes. *)
Lemma log_line_spec time usec threadid level message file line :
  no_nul time -> (length time < 64)%nat -> - 2 ^ 31 <= usec < 2 ^ 31 -> is_u64 threadid -> - 2 ^ 31 <= line < 2 ^ 31 ->
  no_nul message -> no_nul file ->
  no_nul (log_line time usec threadid level message file line) /\
  (length (log_line time usec threadid level message file line) <= length message + length file + 116)%nat.
Proof.
  intros Ht Hlt Hu [Hi0 Hi] Hl Hm Hf. destruct (printf_06d_spec usec Hu) as [Hn1 Hl1].
  assert (length (printf_7lu threadid) <= 20)%nat as Hl2.
  { unfold printf_7lu. rewrite length_pad. pose proof (length_dec threadid 20 ltac:(lia) ltac:(lia)). lia. }
  assert (length (dec line) <= 11)%nat as Hl3.
  { destruct (Z.ltb_spec line 0); [pose proof (length_dec_neg line 10 ltac:(lia) ltac:(lia))|pose proof (length_dec line 10 ltac:(lia) ltac:(lia))]; lia. }
  assert (length (g_level_char level) = 1)%nat as Hl4 by (by destruct level).
  unfold log_line. split.
  - rewrite !no_nul_app. split_and!; try done; try (by apply (bool_decide_eq_true_1 (NUL ∉ _))).
    + by apply no_nul_pad, no_nul_dec.
    + by destruct level; apply (bool_decide_eq_true_1 (NUL ∉ _)).
    + apply no_nul_dec.
  - rewrite !length_app, !length_str, Hl4. cbn [String.length]. lia.
Qed.
End Lines.

Section Printing.
Context {K : Type} `{Kernel K}.
Variable malloc_ok : nat -> bool.
Context {tm : Type}.
Variable localtime_r : Z -> option tm.
Variable strftime : tm -> list byte.
Hypothesis Hmalloc : forall n, malloc_ok n = true.
(** [strftime] stores at most the 64 bytes of its buffer. *)
Hypothesis Hstrftime : forall stm, no_nul (strftime stm) /\ (length (strftime stm) < 64)%nat.
Implicit Types w : log_world K.

Lemma time_buffer_spec t : no_nul (time_buffer localtime_r strftime t) /\ (length (time_buffer localtime_r strftime t) < 64)%nat.
Proof using Hstrftime.
  unfold time_buffer. destruct (localtime_r t) as [stm|]; [|by split; [apply (bool_decide_eq_true_1 (NUL ∉ _))|vm_compute; lia]].
  pose proof (Hstrftime stm) as Hs. destruct (strftime stm); [|done].
  by split; [apply (bool_decide_eq_true_1 (NUL ∉ _))|vm_compute; lia].
Qed.

(** What a message needs so that its line can be printed. *)
Definition printable (a : LogArgument) (message : list byte) : Prop :=
  no_nul message /\ no_nul (la_file a) /\ - 2 ^ 31 <= la_line a < 2 ^ 31 /\ is_u64 (la_threadid a) /\
  Z.of_nat (length message + length (la_file a)) < 2 ^ 31 - 128.

Lemma default_print_spec args message w :
  lg_messages w !! la_message args = Some (c_buffer message) -> printable args message ->
  wp (log_default_print malloc_ok localtime_r strftime args) w (fun _ w' => exists o' now,
    w' = lg_with_output (FprintColorTextLine (g_fc_table (la_level args)) (g_bc_table (la_level args))
      (log_line (time_buffer localtime_r strftime (tv_sec now)) (tv_usec now) (la_threadid args) (la_level args) message
        (display_file (la_file args)) (la_line args)) (lg_stderr w)) (lg_calls w) (lg_with_os o' w)).
Proof using Hmalloc Hstrftime.
  intros Hm (Hn & Hf & Hl & Ht & Hsz). unfold log_default_print. apply wp_bind. unfold log_os. apply wp_zoom.
  unfold GetTimeOfDay. apply wp_bind. unfold call, wp at 1. destruct (sys_call (os_kernel (lg_os w)) SysGettimeofday) as [r k].
  apply wp_ret. set (now := {| tv_sec := _ |}). set (o' := {| os_kernel := k |}).
  apply wp_bind, wp_gets. cbn [lg_messages lg_with_os]. rewrite Hm. apply wp_bind, wp_of_option. eexists. split; [done|].
  unfold c_buffer. rewrite c_text_buffer by done. apply wp_bind, wp_ret.
  destruct (display_file_spec _ Hf) as [Hdf Hdl]. destruct (time_buffer_spec (tv_sec now)) as [Htn Htl].
  assert (- 2 ^ 31 <= tv_usec now < 2 ^ 31) as Hu.
  { cbn. unfold i32, swrap. pose proof (wrap_range 32 ((timeval_of r).2 + 2 ^ (32 - 1)) ltac:(lia)). cbn in *. lia. }
  destruct (log_line_spec _ (tv_usec now) (la_threadid args) (la_level args) message (display_file (la_file args)) (la_line args)
    Htn Htl Hu Ht Hl Hn Hdf) as [Hln Hll].
  set (text := log_line _ _ _ _ _ _ _) in *. cbv zeta.
  eapply wp_bind, (wp_mono _ _ (fun buff w' => buff = c_buffer text /\ w' = lg_with_os o' w)).
  { destruct (Nat.leb_spec 2048 (length message + length (display_file (la_file args)) + 128)) as [Hbig|Hsmall].
    - rewrite asprintf_text by (by auto || lia). apply wp_of_option. by eexists.
    - apply wp_ret. split; [|done]. unfold vsnprintf_store. by rewrite take_ge by lia. }
  intros buff w1 [-> ->]. unfold c_buffer. rewrite c_text_buffer by done. apply wp_bind, wp_ret, wp_modify. by exists o', now.
Qed.

(** C39. A log line is written whole.  Whether it is formatted in the 2048 bytes on the stack
    or, when it might be longer, in a block of its own, no byte is cut off: stderr gets the
    colours and the complete line, with the time, the microseconds, the thread, the level,
    the message, the file name after its last '/', and the line.  Printing changes nothing
    else. *)
Theorem log_line_complete (args : LogArgument) (message : list byte) w :
  lg_messages w !! la_message args = Some (c_buffer message) -> printable args message ->
  exists w' o' now, log_default_print malloc_ok localtime_r strftime args w = Ret (tt, w') /\
    w' = lg_with_output (lg_stderr w') (lg_calls w) (lg_with_os o' w) /\
    lg_stderr w' = FprintColorTextLine (g_fc_table (la_level args)) (g_bc_table (la_level args))
      (log_line (time_buffer localtime_r strftime (tv_sec now)) (tv_usec now) (la_threadid args) (la_level args) message
        (display_file (la_file args)) (la_line args)) (lg_stderr w).
Proof using Hmalloc Hstrftime.
  intros Hm Hp. pose proof (default_print_spec args message w Hm Hp) as Hsp. unfold wp in Hsp.
  destruct (log_default_print _ _ _ args w) as [[[] w']| | |]; [|done..].
  destruct Hsp as (o' & now & ->). by exists (lg_with_output
    (FprintColorTextLine (g_fc_table (la_level args)) (g_bc_table (la_level args))
      (log_line (time_buffer localtime_r strftime (tv_sec now)) (tv_usec now) (la_threadid args) (la_level args) message
        (display_file (la_file args)) (la_line args)) (lg_stderr w)) (lg_calls w) (lg_with_os o' w)), o', now.
Qed.
End Printing.

(** ** What becomes of the messages *)

(** A heap with exactly the given blocks. *)
Section Blocks.
Context {A : Type}.
Implicit Types (m : gmap nat A) (l : list (nat * A)).

Definition heap_is m l : Prop := NoDup l.*1 /\ m = list_to_map l.

Lemma heap_is_perm m l l' : l ≡ₚ l' -> heap_is m l -> heap_is m l'.
Proof. intros Hp [Hn ->]. split; [by rewrite <- Hp|]. by apply list_to_map_proper. Qed.

Lemma heap_is_insert m l k a : k ∉ l.*1 -> heap_is m l -> heap_is (<[k := a]> m) (l ++ [(k, a)]).
Proof.
  intros Hk [Hn ->]. apply (heap_is_perm _ ((k, a) :: l)); [by rewrite (Permutation_app_comm l)|].
  split; [by constructor|done].
Qed.

Lemma heap_is_head m l k a : heap_is m ((k, a) :: l) -> m !! k = Some a /\ heap_is (delete k m) l.
Proof.
  intros [Hn ->]. apply NoDup_cons in Hn as [Hk Hn]. cbn. split; [by rewrite lookup_insert_eq|].
  split; [done|]. rewrite delete_insert_id; [done|]. by apply not_elem_of_list_to_map_1.
Qed.

Lemma heap_is_keys m l : heap_is m l -> elements (dom m) ≡ₚ l.*1.
Proof.
  intros [Hn ->]. rewrite dom_list_to_map_L. by apply elements_list_to_set.
Qed.
End Blocks.

(** A message: its node, what the node holds, its text. *)
Definition log_entry : Type := nat * LogArgument * list byte.
Definition entry_node (e : log_entry) : nat * LogArgument := e.1.
Definition entry_message (e : log_entry) : nat * list byte := (la_message e.1.2, c_buffer e.2).

(** What threads do to the log.  [OpFormat] and [OpPush] are the two halves of a
    [LogFormatPrint]; any number of them may be between the halves. *)
Inductive log_op : Type :=
  | OpStartup
  | OpCleanup
  | OpSetLevel (level : LogLevel)
  | OpSetCallback (func : LogPrintCallback)
  | OpFormat (file : list byte) (line : Z) (level : LogLevel) (text : option (list byte)) (self : Z)
  | OpPush (i : nat)
  | OpRound (blocked : bool).

Definition log_op_ok (op : log_op) : Prop :=
  match op with
  | OpFormat file line _ (Some text) self =>
      printable {| la_file := file; la_line := line; la_level := kDebug; la_message := 0; la_threadid := self |} text
  | _ => True
  end.

(** The world, the nodes that threads are about to push, and the history. *)
Record log_config (K : Type) : Type := {
  lc_world : log_world K;
  lc_pending : list nat;
  lc_formatted : list log_entry;
  lc_pushed : list log_entry;
  lc_consumed : list log_entry;
  lc_printed : list log_entry;
  lc_filtered : list nat;
}.
Arguments Build_log_config {K}. Arguments lc_world {K}. Arguments lc_pending {K}. Arguments lc_formatted {K}.
Arguments lc_pushed {K}. Arguments lc_consumed {K}. Arguments lc_printed {K}. Arguments lc_filtered {K}.

Section Ledger.
Context {K : Type} `{Kernel K}.
Variable malloc_ok : nat -> bool.
Context {tm : Type}.
Variable localtime_r : Z -> option tm.
Variable strftime : tm -> list byte.
Implicit Types (w : log_world K) (c : log_config K).

(** The message of a node. *)
Definition entry_of w (n : nat) : option log_entry :=
  a ← lg_nodes w !! n;
  m ← lg_messages w !! la_message a;
  match c_text m with Ret text => Some (n, a, text) | _ => None end.

Definition entries_of w (ns : list nat) : list log_entry := omap (entry_of w) ns.

Definition lc_with_world w c : log_config K := Build_log_config w (lc_pending c) (lc_formatted c) (lc_pushed c)
  (lc_consumed c) (lc_printed c) (lc_filtered c).
Definition on_world {A} : M (log_world K) A -> M (log_config K) A := zoom lc_world lc_with_world.

(** What each half of [LogFormatPrint] and each consumer adds to the history. *)
Definition note_formatted (n : nat) c : log_config K := Build_log_config (lc_world c) (lc_pending c ++ [n])
  (lc_formatted c ++ entries_of (lc_world c) [n]) (lc_pushed c) (lc_consumed c) (lc_printed c) (lc_filtered c).
Definition note_filtered (ps : list nat) c : log_config K := Build_log_config (lc_world c) (lc_pending c)
  (lc_formatted c) (lc_pushed c) (lc_consumed c) (lc_printed c) (lc_filtered c ++ ps).
Definition note_pushed (i n : nat) c : log_config K := Build_log_config (lc_world c) (base.delete i (lc_pending c))
  (lc_formatted c) (lc_pushed c ++ entries_of (lc_world c) [n]) (lc_consumed c) (lc_printed c) (lc_filtered c).
Definition note_consumed (es printed : list log_entry) c : log_config K := Build_log_config (lc_world c) (lc_pending c)
  (lc_formatted c) (lc_pushed c) (lc_consumed c ++ es) (lc_printed c ++ printed) (lc_filtered c).

Definition log_step (op : log_op) : M (log_config K) unit :=
  c ← gets id;
  let w := lc_world c in
  match op with
  | OpStartup => on_world LogStartup
  | OpCleanup =>
      _ ← on_world LogCleanup;
      modify (note_consumed (if g_shutdown w then [] else entries_of w (g_mpscq w)) [])
  | OpSetLevel level => on_world (LogSetLevel level)
  | OpSetCallback func => on_world (LogSetPrintCallback func)
  | OpFormat file line level text self =>
      msg ← on_world (LogFormat file line level text self);
      match msg with
      | Some n => modify (note_formatted n)
      | None => modify (fun c => note_filtered (if (lg_next w <? lg_next (lc_world c))%nat then [lg_next w] else []) c)
      end
  | OpPush i =>
      match lc_pending c !! i with
      | Some n => _ ← on_world (LogPush n); modify (note_pushed i n)
      | None => mret tt
      end
  | OpRound blocked =>
      printed ← on_world (LogThreadProc_round malloc_ok localtime_r strftime blocked);
      match printed with
      | Some n => modify (note_consumed (entries_of w [n]) (entries_of w [n]))
      | None => mret tt
      end
  end.

Fixpoint log_run (ops : list log_op) : M (log_config K) unit :=
  match ops with
  | [] => mret tt
  | op :: ops => _ ← log_step op; log_run ops
  end.

(** The globals before [main]. *)
Definition log_start (o : os K) : log_config K :=
  Build_log_config (Build_log_world o default_print 0 true Thread_null [] ∅ ∅ 0 [] []) [] [] [] [] [] [].

Hypothesis Hmalloc : forall n, malloc_ok n = true.
Hypothesis Hstrftime : forall stm, no_nul (strftime stm) /\ (length (strftime stm) < 64)%nat.

(** The blocks: those of the queued messages [queued], of the pending ones [waiting],
    and the texts [lost]. *)
Record blocks w (queued waiting : list log_entry) (lost : list (nat * list byte)) : Prop := {
  bl_nodes : heap_is (lg_nodes w) (entry_node <$> queued ++ waiting);
  bl_messages : heap_is (lg_messages w) ((entry_message <$> queued ++ waiting) ++ lost);
  bl_fresh : Forall (fun k => (k < lg_next w)%nat)
    ((entry_node <$> queued ++ waiting).*1 ++ ((entry_message <$> queued ++ waiting) ++ lost).*1);
  bl_text : Forall (fun e => printable e.1.2 e.2) (queued ++ waiting);
}.

Definition log_thread_ok w : Prop :=
  g_shutdown w = false ->
  match th_impl (g_thd w) with Some _ => th_state (g_thd w) = kActive | None => th_state (g_thd w) = kFailed end.

Lemma blocks_ext w w' queued waiting lost :
  lg_nodes w' = lg_nodes w -> lg_messages w' = lg_messages w -> lg_next w' = lg_next w ->
  blocks w queued waiting lost -> blocks w' queued waiting lost.
Proof using Type. intros E1 E2 E3 [? ? ? ?]. split; by rewrite ?E1, ?E2, ?E3. Qed.

Lemma blocks_perm w queued waiting queued' waiting' lost :
  queued ++ waiting ≡ₚ queued' ++ waiting' -> blocks w queued waiting lost -> blocks w queued' waiting' lost.
Proof using Type.
  intros Hp [? ? ? ?]. split.
  - eapply heap_is_perm; [|done]. by rewrite Hp.
  - eapply heap_is_perm; [|done]. by rewrite Hp.
  - by rewrite <- Hp.
  - by rewrite <- Hp.
Qed.

(** The entry of the block of a message. *)
Lemma blocks_entry w queued waiting lost e :
  blocks w queued waiting lost -> e ∈ queued ++ waiting -> 
  lg_nodes w !! e.1.1 = Some e.1.2 /\ lg_messages w !! la_message e.1.2 = Some (c_buffer e.2) /\ printable e.1.2 e.2 /\
  entry_of w e.1.1 = Some e.
Proof using Type.
  intros Hb He. pose proof Hb as [[Hn En] [Hm Em] _ Hp]. rewrite Forall_forall in Hp. specialize (Hp e He).
  assert (lg_nodes w !! e.1.1 = Some e.1.2) as H1.
  { rewrite En. apply elem_of_list_to_map_1; [done|]. apply list_elem_of_fmap. exists e. split; [|done]. unfold entry_node. by destruct e as [[] ?]. }
  assert (lg_messages w !! la_message e.1.2 = Some (c_buffer e.2)) as H2.
  { rewrite Em. apply elem_of_list_to_map_1; [done|]. apply elem_of_app. left. apply list_elem_of_fmap. by exists e. }
  split; [done|]. split; [done|]. split; [done|]. unfold entry_of. rewrite H1. cbn. rewrite H2. cbn.
  unfold c_buffer. destruct Hp as [Hnul _]. rewrite c_text_buffer by done. by destruct e as [[] ?].
Qed.

Lemma entries_of_nodes w queued waiting lost es :
  blocks w queued waiting lost -> (forall e, e ∈ es -> e ∈ queued ++ waiting) -> entries_of w (es.*1.*1) = es.
Proof using Type.
  intros Hb. induction es as [|e es IH]; intros Hes; [done|]. unfold entries_of in *. cbn.
  destruct (blocks_entry _ _ _ _ e Hb) as (_ & _ & _ & E); [apply Hes; by left|]. rewrite E. f_equal. apply IH.
  intros e' He'. apply Hes. by right.
Qed.

(** Freeing the first queued message. *)
Lemma free_entry {A} (f : M (log_world K) A) w n a text queued waiting lost Q :
  blocks w ((n, a, text) :: queued) waiting lost ->
  (forall nodes messages, let w' := lg_with_heap nodes messages (lg_next w) w in blocks w' queued waiting lost -> wp f w' Q) ->
  wp (_ ← free_message (la_message a); _ ← delete_node n; f) w Q.
Proof using Type.
  intros [Hn Hm Hf Hp] HQ. cbn in Hn, Hm, Hf, Hp.
  apply heap_is_head in Hn as [En Hn]. apply heap_is_head in Hm as [Em Hm].
  apply wp_bind. unfold free_message. apply wp_bind, wp_gets. unfold id. cbn in Em. rewrite Em. apply wp_bind, wp_of_option.
  eexists. split; [done|]. apply wp_modify, wp_bind. unfold delete_node. apply wp_bind, wp_gets. unfold id. cbn. rewrite En.
  apply wp_bind, wp_of_option. eexists. split; [done|]. apply wp_modify, HQ. split; cbn; [done|done| |by apply Forall_cons in Hp as [_ Hp]].
  apply Forall_cons in Hf as [_ Hf]. apply Forall_app in Hf as [H1 H2]. apply Forall_cons in H2 as [_ H2]. by apply Forall_app.
Qed.

Lemma LogFormat_spec file line level text self w queued waiting lost :
  blocks w queued waiting lost -> log_op_ok (OpFormat file line level text self) ->
  wp (LogFormat file line level text self) w (fun r w' =>
    g_mpscq w' = g_mpscq w /\ g_shutdown w' = g_shutdown w /\ g_thd w' = g_thd w /\
    match r with
    | Some n => exists e, e.1.1 = n /\ blocks w' queued (waiting ++ [e]) lost
    | None => exists lost', lost'.*1 = (if (lg_next w <? lg_next w')%nat then [lg_next w] else []) /\
        blocks w' queued waiting (lost ++ lost')
    end).
Proof using Type.
  intros Hb Hok. unfold LogFormat. apply wp_bind, wp_gets. unfold id.
  assert (exists lost', lost'.*1 = (if (lg_next w <? lg_next w)%nat then [lg_next w] else []) /\ blocks w queued waiting (lost ++ lost')) as Hsame.
  { exists []. by rewrite Nat.ltb_irrefl, app_nil_r. }
  destruct (g_shutdown w) eqn:Es; [by apply wp_ret|]. destruct text as [text|]; [|by apply wp_ret].
  destruct Hb as [Hn Hm Hf Hp]. pose proof Hf as Hf0. rewrite Forall_app, !Forall_forall in Hf0. destruct Hf0 as [Hfn Hfm].
  apply wp_bind. unfold new_message. apply wp_bind, wp_gets, wp_bind, wp_modify, wp_ret. unfold id.
  apply wp_bind, wp_gets. unfold id. cbn.
  assert (lg_next w ∉ ((entry_message <$> queued ++ waiting) ++ lost).*1) as Hfresh.
  { intros Hin. apply Hfm in Hin. lia. }
  pose proof (heap_is_insert _ _ _ (c_buffer text) Hfresh Hm) as Hm'.
  destruct (g_min_level w <=? log_level_int level).
  - apply wp_bind. unfold new_node. apply wp_bind, wp_gets, wp_bind, wp_modify, wp_ret. unfold id. cbn. apply wp_ret.
    split_and!; [done..|]. set (a := {| la_file := file |}). exists (S (lg_next w), a, text). split; [done|].
    assert (S (lg_next w) ∉ (entry_node <$> queued ++ waiting).*1) as Hfresh'.
    { intros Hin. apply Hfn in Hin. lia. }
    pose proof (heap_is_insert _ _ _ a Hfresh' Hn) as Hn'. split; cbn; rewrite (app_assoc queued waiting).
    + by rewrite fmap_app.
    + eapply heap_is_perm; [|exact Hm']. rewrite (fmap_app entry_message (queued ++ waiting)). cbn.
      rewrite <- !app_assoc. apply Permutation_app_head. by rewrite (Permutation_app_comm lost).
    + rewrite Forall_app in Hf. destruct Hf as [H1 H2]. rewrite (fmap_app fst), Forall_app in H2. destruct H2 as [H2 H3].
      rewrite !(fmap_app _ (queued ++ waiting)), !(fmap_app fst), !Forall_app. cbn. rewrite !Forall_singleton.
      split_and!; try (eapply Forall_impl; [eassumption|]; cbn); lia.
    + rewrite Forall_app. split; [done|]. apply Forall_singleton. exact Hok.
  - apply wp_ret. cbn. split_and!; [done..|]. exists [(lg_next w, c_buffer text)]. split.
    { assert ((lg_next w <? S (lg_next w))%nat = true) as E by (apply Nat.ltb_lt; lia). cbn in E |- *. by rewrite E. }
    split; cbn; [done|by rewrite app_assoc| |done].
    rewrite (app_assoc _ lost), (fmap_app fst _ [_]), app_assoc, Forall_app. split.
    + eapply Forall_impl; [exact Hf|]. cbn. lia.
    + apply Forall_singleton. cbn. lia.
Qed.

Lemma call_function_spec a text w :
  lg_messages w !! la_message a = Some (c_buffer text) -> printable a text ->
  wp (call_log_function malloc_ok localtime_r strftime a) w (fun _ w' => exists o err calls,
    w' = lg_with_output err calls (lg_with_os o w)).
Proof using Hmalloc Hstrftime.
  intros Hm Hp. unfold call_log_function. apply wp_bind, wp_gets. destruct (g_log_function w) as [|i].
  - eapply wp_mono; [by apply default_print_spec|]. intros _ w' (o & now & ->). by eexists _, _, _.
  - apply wp_bind, wp_gets. unfold id. rewrite Hm. apply wp_bind, wp_of_option. eexists. split; [done|].
    apply wp_modify. by exists (lg_os w), (lg_stderr w), (lg_calls w ++ [(i, a, c_buffer text)]); destruct w.
Qed.

Lemma round_spec blocked w queued waiting lost :
  blocks w queued waiting lost -> g_mpscq w = queued.*1.*1 ->
  wp (LogThreadProc_round malloc_ok localtime_r strftime blocked) w (fun r w' =>
    g_shutdown w' = g_shutdown w /\ g_thd w' = g_thd w /\
    match r with
    | Some n => exists e queued', queued = e :: queued' /\ e.1.1 = n /\ blocks w' queued' waiting lost /\ g_mpscq w' = queued'.*1.*1
    | None => blocks w' queued waiting lost /\ g_mpscq w' = queued.*1.*1
    end).
Proof using Hmalloc Hstrftime.
  intros Hb Hq. unfold LogThreadProc_round. apply wp_bind, wp_gets. unfold id. destruct (g_shutdown w) eqn:Es; [by apply wp_ret|].
  destruct blocked; [by apply wp_ret|]. rewrite Hq. destruct queued as [|[[n a] text] queued]; [by apply wp_ret|]. cbn [fmap list_fmap fst].
  apply wp_bind, wp_modify, wp_bind. unfold read_node. apply wp_bind, wp_gets. unfold id. cbn [lg_nodes lg_with_queue].
  destruct (blocks_entry _ _ _ _ (n, a, text) Hb) as (En & Em & Hp & _); [by left|]. cbn in En, Em, Hp. rewrite En.
  apply wp_of_option. eexists. split; [done|]. eapply wp_bind, wp_mono; [by apply (call_function_spec a text)|].
  intros [] w1 (o & err & calls & ->). set (w1 := lg_with_output _ _ _).
  assert (blocks w1 ((n, a, text) :: queued) waiting lost) as Hb1 by (by eapply blocks_ext; [..|exact Hb]).
  eapply free_entry; [exact Hb1|]. intros nodes messages w' Hb'. apply wp_ret. split_and!; [done|done|].
  by exists (n, a, text), queued.
Qed.

Lemma cleanup_loop_spec fuel : forall w queued waiting lost,
  blocks w queued waiting lost -> g_mpscq w = queued.*1.*1 -> (length queued < fuel)%nat ->
  wp (LogCleanup_loop fuel) w (fun _ w' =>
    blocks w' [] waiting lost /\ g_mpscq w' = [] /\ g_shutdown w' = g_shutdown w /\ g_thd w' = g_thd w).
Proof using Type.
  induction fuel as [|fuel IH]; intros w queued waiting lost Hb Hq Hf; [lia|]. cbn [LogCleanup_loop].
  apply wp_bind, wp_gets. unfold id. rewrite Hq. destruct queued as [|[[n a] text] queued]; cbn [fmap list_fmap fst]; [by apply wp_ret|].
  apply wp_bind, wp_modify, wp_bind. unfold read_node. apply wp_bind, wp_gets. unfold id. cbn [lg_nodes lg_with_queue].
  destruct (blocks_entry _ _ _ _ (n, a, text) Hb) as (En & _); [by left|]. cbn in En. rewrite En.
  apply wp_of_option. eexists. split; [done|]. set (w1 := lg_with_queue _ w).
  assert (blocks w1 ((n, a, text) :: queued) waiting lost) as Hb1 by (by eapply blocks_ext; [..|exact Hb]).
  eapply free_entry; [exact Hb1|]. intros nodes messages w' Hb'.
  eapply wp_mono; [apply (IH w' queued waiting lost Hb' eq_refl); cbn in Hf; lia|]. done.
Qed.

(** The blocks are those of the queued and the pending messages and the filtered texts. *)
Definition ledger c : Prop := exists queued waiting lost,
  blocks (lc_world c) queued waiting lost /\ g_mpscq (lc_world c) = queued.*1.*1 /\ lc_pending c = waiting.*1.*1 /\
  lc_formatted c ≡ₚ lc_pushed c ++ waiting /\ lc_pushed c = lc_consumed c ++ queued /\
  lc_printed c `sublist_of` lc_consumed c /\ lost.*1 = lc_filtered c /\ log_thread_ok (lc_world c).

Lemma startup_spec w :
  log_thread_ok w -> wp LogStartup w (fun _ w' => log_thread_ok w' /\ g_mpscq w' = g_mpscq w /\
    lg_nodes w' = lg_nodes w /\ lg_messages w' = lg_messages w /\ lg_next w' = lg_next w).
Proof using Type.
  intros Ht. unfold LogStartup. apply wp_bind, wp_gets. unfold id. destruct (g_shutdown w); cbn [negb]; [|by apply wp_ret].
  apply wp_bind. unfold log_os. apply wp_zoom. unfold Thread_new, InternalThreadImpl_new. apply wp_bind, wp_bind.
  unfold call, wp at 1. destruct (sys_call _ _) as [r k]. apply wp_ret. destruct (r_ret r =? 0); apply wp_ret;
    apply wp_bind, wp_modify, wp_bind, wp_zoom; unfold Thread_Start; cbn [th_impl];
    (apply wp_bind, wp_assert; [by apply bool_decide_eq_true_2|]); apply wp_ret, wp_modify; done.
Qed.

Lemma join_ok t o :
  match th_impl t with Some _ => th_state t = kActive | None => th_state t = kFailed end ->
  wp (Thread_Join (K := K) t) o (fun _ _ => True).
Proof using Type.
  intros Ht. unfold Thread_Join. destruct (th_impl t) as [i|].
  - rewrite bool_decide_eq_false_2 by (by rewrite Ht). apply wp_bind. unfold Impl_Join. destruct (negb _); [|by apply wp_ret, wp_ret].
    apply wp_bind. unfold call, wp at 1. destruct (sys_call _ _). by do 2 apply wp_ret.
  - apply wp_bind, wp_assert; [by apply bool_decide_eq_true_2|]. by apply wp_ret.
Qed.

Lemma cleanup_spec w queued waiting lost :
  blocks w queued waiting lost -> g_mpscq w = queued.*1.*1 -> log_thread_ok w -> g_shutdown w = false ->
  wp LogCleanup w (fun _ w' => blocks w' [] waiting lost /\ g_mpscq w' = [] /\ log_thread_ok w').
Proof using Type.
  intros Hb Hq Ht Es. unfold LogCleanup. apply wp_bind, wp_gets. unfold id. rewrite Es.
  apply wp_bind, wp_modify, wp_bind. unfold log_os. apply wp_zoom. eapply wp_mono; [by apply join_ok, Ht|]. intros thd o _.
  apply wp_bind, wp_modify. set (w1 := lg_with_thread _ _ _).
  eapply wp_mono; [apply (cleanup_loop_spec _ w1 queued waiting lost)|].
  - by eapply blocks_ext; [..|exact Hb].
  - done.
  - rewrite Hq, !length_fmap. apply Nat.lt_succ_diag_r.
  - cbn. intros _ w' (Hb' & Hq' & Es' & _). split; [done|]. split; [done|]. unfold log_thread_ok. by rewrite Es'.
Qed.

Lemma push_ledger i c :
  ledger c ->
  wp (match lc_pending c !! i with
      | Some n => _ ← zoom lc_world lc_with_world (LogPush n); modify (note_pushed i n)
      | None => mret tt
      end) c (fun _ c' => ledger c').
Proof using Type.
  intros Hc. pose proof Hc as (queued & waiting & lost & Hb & Hq & Hpend & Hfm & Hpu & Hpr & Hl & Ht).
  destruct (lc_pending c !! i) as [n|] eqn:Ei; [|by apply wp_ret].
  apply wp_bind, wp_zoom, wp_modify, wp_modify. rewrite Hpend in Ei. rewrite !list_lookup_fmap in Ei.
  apply fmap_Some in Ei as (x & Ei & ->). apply fmap_Some in Ei as (e & Ee & ->).
  exists (queued ++ [e]), (base.delete i waiting), lost. cbn [lc_world lc_pending lc_formatted lc_pushed lc_consumed lc_printed lc_filtered note_pushed lc_with_world].
  assert (entries_of (lg_with_queue (g_mpscq (lc_world c) ++ [e.1.1]) (lc_world c)) [e.1.1] = [e]) as ->.
  { apply (entries_of_nodes (lc_world c) queued waiting lost [e] Hb). intros e' ->%list_elem_of_singleton.
    apply elem_of_app. right. by eapply list_elem_of_lookup_2. }
  pose proof (delete_Permutation waiting i e Ee) as Hd. cbn [g_mpscq lg_with_queue]. split_and!; try done.
  - eapply blocks_perm; [|by eapply blocks_ext; [..|exact Hb]]. rewrite <- app_assoc. cbn. by rewrite <- Hd.
  - by rewrite Hq, !fmap_app.
  - by rewrite Hpend, !list_fmap_delete.
  - rewrite Hfm, <- app_assoc. cbn. by rewrite <- Hd.
  - by rewrite Hpu, app_assoc.
Qed.

Lemma log_step_ledger op c : ledger c -> log_op_ok op -> wp (log_step op) c (fun _ c' => ledger c').
Proof using Hmalloc Hstrftime.
  intros Hc Hok. pose proof Hc as (queued & waiting & lost & Hb & Hq & Hpend & Hfm & Hpu & Hpr & Hl & Ht).
  unfold log_step. apply wp_bind, wp_gets. unfold id. cbv zeta. unfold on_world.
  destruct op as [| |level|func|file line level text self|i|blocked].
  - apply wp_zoom. eapply wp_mono; [by apply startup_spec|]. intros _ w' (Ht' & Eq & E1 & E2 & E3).
    exists queued, waiting, lost. cbn. rewrite Eq. split_and!; try done. by eapply blocks_ext.
  - apply wp_bind, wp_zoom. destruct (g_shutdown (lc_world c)) eqn:Es.
    + unfold LogCleanup. apply wp_bind, wp_gets. unfold id. rewrite Es. apply wp_ret, wp_modify.
      exists queued, waiting, lost. cbn. by rewrite !app_nil_r.
    + eapply wp_mono; [by eapply cleanup_spec|]. intros _ w' (Hb' & Eq & Ht'). apply wp_modify.
      exists [], waiting, lost. cbn. rewrite Hq, (entries_of_nodes _ queued waiting lost queued Hb) by (intros e He; apply elem_of_app; by left).
      rewrite !app_nil_r. split_and!; try done. by apply sublist_inserts_r.
  - apply wp_zoom, wp_modify. exists queued, waiting, lost. cbn. split_and!; try done. by eapply blocks_ext; [..|exact Hb].
  - apply wp_zoom, wp_modify. exists queued, waiting, lost. cbn. split_and!; try done. by eapply blocks_ext; [..|exact Hb].
  - apply wp_bind, wp_zoom. eapply wp_mono; [by eapply LogFormat_spec|]. intros [n|] w' (Eq & Es & Et & Hr).
    + destruct Hr as (e & <- & Hb'). apply wp_modify. exists queued, (waiting ++ [e]), lost. cbn [lc_world lc_pending lc_formatted lc_pushed lc_consumed lc_printed lc_filtered note_formatted lc_with_world].
      assert (entries_of w' [e.1.1] = [e]) as ->.
      { apply (entries_of_nodes w' queued (waiting ++ [e]) lost [e] Hb'). intros e' ->%list_elem_of_singleton. by apply elem_of_app; right; apply elem_of_app; right; left. }
      rewrite Eq, !fmap_app, Hpend, Hfm, <- app_assoc. split_and!; try done. unfold log_thread_ok. by rewrite Es, Et.
    + destruct Hr as (lost' & El & Hb'). apply wp_modify. exists queued, waiting, (lost ++ lost'). cbn.
      rewrite Eq, fmap_app, El, Hl. split_and!; try done. unfold log_thread_ok. by rewrite Es, Et.
  - eapply wp_mono; [by apply push_ledger|done].
  - apply wp_bind, wp_zoom. eapply wp_mono; [by eapply round_spec|]. intros [n|] w' (Es & Et & Hr).
    + destruct Hr as (e & queued' & -> & <- & Hb' & Eq). apply wp_modify. exists queued', waiting, lost. 
      cbn [lc_world lc_pending lc_formatted lc_pushed lc_consumed lc_printed lc_filtered note_consumed lc_with_world].
      assert (entries_of (lc_world c) [e.1.1] = [e]) as ->.
      { apply (entries_of_nodes (lc_world c) (e :: queued') waiting lost [e] Hb). intros e' ->%list_elem_of_singleton. by left. }
      split_and!; try done; [by rewrite Hpu, <- app_assoc|by apply sublist_app|]. unfold log_thread_ok. by rewrite Es, Et.
    + destruct Hr as [Hb' Eq]. apply wp_ret. exists queued, waiting, lost. cbn. split_and!; try done.
      unfold log_thread_ok. by rewrite Es, Et.
Qed.

Lemma log_run_ledger ops : forall c, ledger c -> Forall log_op_ok ops -> wp (log_run ops) c (fun _ c' => ledger c').
Proof using Hmalloc Hstrftime.
  induction ops as [|op ops IH]; intros c Hc Hok; cbn [log_run]; [by apply wp_ret|].
  apply Forall_cons in Hok as [Hop Hok]. eapply wp_bind, wp_mono; [by apply log_step_ledger|]. intros ? c' Hc'. by apply IH.
Qed.

Lemma log_start_ledger o : ledger (log_start o).
Proof using Type.
  exists [], [], []. cbn. split_and!; try done. split; cbn; [|by split; [constructor|]|constructor|constructor].
  split; [constructor|done].
Qed.

(** C19. What becomes of log messages.  However threads format and push, the log thread
    prints, and the log is started and stopped, no call fails, and no block is freed
    twice or read after it was freed.  Every formatted message was pushed or is pending;
    the pushed ones are, in order, those consumed (printed by the log thread, or dropped by
    [LogCleanup]) and those still queued; the printed ones were printed once, in the
    order of the pushes.  The blocks that are left are those of the queued and
    pending messages, and the texts below the level, which nothing frees. *)
Theorem log_ledger (o : os K) (ops : list log_op) :
  Forall log_op_ok ops ->
  exists c, log_run ops (log_start o) = Ret (tt, c) /\
    let w := lc_world c in
    lc_formatted c ≡ₚ lc_pushed c ++ entries_of w (lc_pending c) /\
    lc_pushed c = lc_consumed c ++ entries_of w (g_mpscq w) /\
    lc_printed c `sublist_of` lc_consumed c /\
    elements (dom (lg_nodes w)) ≡ₚ g_mpscq w ++ lc_pending c /\
    elements (dom (lg_messages w)) ≡ₚ
      ((fun e => la_message e.1.2) <$> entries_of w (g_mpscq w ++ lc_pending c)) ++ lc_filtered c.
Proof using Hmalloc Hstrftime.
  intros Hok. pose proof (log_run_ledger ops (log_start o) (log_start_ledger o) Hok) as Hr. unfold wp in Hr.
  destruct (log_run ops (log_start o)) as [[[] c]| | |]; [|done..]. exists c. split; [done|].
  destruct Hr as (queued & waiting & lost & Hb & Hq & Hpend & Hfm & Hpu & Hpr & Hl & _). cbv zeta.
  assert (entries_of (lc_world c) (queued.*1.*1 ++ waiting.*1.*1) = queued ++ waiting) as Eall.
  { rewrite <- !fmap_app. by apply (entries_of_nodes _ queued waiting lost). }
  rewrite Hq, Hpend, Eall.
  rewrite (entries_of_nodes _ queued waiting lost queued Hb) by (intros e He; apply elem_of_app; by left).
  rewrite (entries_of_nodes _ queued waiting lost waiting Hb) by (intros e He; apply elem_of_app; by right).
  destruct Hb as [Hn Hm _ _]. split_and!; [done..| |].
  - rewrite (heap_is_keys _ _ Hn), <- list_fmap_compose, <- !fmap_app, <- list_fmap_compose. done.
  - rewrite (heap_is_keys _ _ Hm), (fmap_app fst), Hl, <- list_fmap_compose. done.
Qed.
End Ledger.

(** ** Concrete logs *)

(** A process with one thread to give and a clock that stands. *)
Definition log_kernel : Kernel unit := fun k c =>
  match c with
  | SysPthreadCreate => ({| r_ret := 0; r_errno := 0; r_data := []; r_int := 77; r_events := [] |}, k)
  | SysGettimeofday => ({| r_ret := 0; r_errno := 0; r_data := []; r_int := 0; r_events := [(1589046186, 5)] |}, k)
  | _ => ({| r_ret := 0; r_errno := 0; r_data := []; r_int := 0; r_events := [] |}, k)
  end.

#[local] Existing Instance log_kernel.

Definition log_os0 : os unit := {| os_kernel := tt; os_errno := 0; os_trace := [] |}.
Definition log_strftime (stm : Z) : list byte := str "2020-05-10 01:43:06".

Lemma log_strftime_ok stm : no_nul (log_strftime stm) /\ (length (log_strftime stm) < 64)%nat.
Proof. split; [by apply (bool_decide_eq_true_1 (NUL ∉ _))|vm_compute; lia]. Qed.

Example log_line_text :
  log_line (str "2020-05-10 01:43:06") 5 99 kError (str "up") (display_file (str "src/utils/a.cc")) 7 =
  str "[2020-05-10 01:43:06.000005      99 E] up (a.cc:7)".
Proof. reflexivity. Qed.

Definition up_argument : LogArgument :=
  {| la_file := str "src/utils/a.cc"; la_line := 7; la_level := kError; la_message := 0; la_threadid := 99 |}.

Definition up_world : log_world unit :=
  Build_log_world log_os0 default_print 0 false Thread_null [] ∅ {[0%nat := c_buffer (str "up")]} 1 [] [].

Ltac printable_text :=
  split_and!; first [by apply (bool_decide_eq_true_1 (NUL ∉ _)) | vm_compute; intuition discriminate].

Lemma log_line_complete_witness :
  exists w' o' now, log_default_print (fun _ => true) Some log_strftime up_argument up_world = Ret (tt, w') /\
    w' = lg_with_output (lg_stderr w') (lg_calls up_world) (lg_with_os o' up_world) /\
    lg_stderr w' = FprintColorTextLine Red White
      (log_line (time_buffer Some log_strftime (tv_sec now)) (tv_usec now) 99 kError (str "up") (str "a.cc") 7) [].
Proof.
  apply (log_line_complete (fun _ => true) Some log_strftime (fun _ => eq_refl) log_strftime_ok up_argument (str "up") up_world).
  - reflexivity.
  - printable_text.
Defined.

(** Two messages pushed in the other order, one printed, one filtered, one dropped. *)
Definition example_log : list log_op :=
  [OpStartup; OpFormat (str "a.cc") 1 kInfo (Some (str "one")) 5; OpFormat (str "b.cc") 2 kWarn (Some (str "two")) 6;
   OpPush 1; OpPush 0; OpRound false; OpSetLevel kError; OpFormat (str "c.cc") 3 kInfo (Some (str "three")) 5; OpCleanup].

Lemma log_ledger_witness :
  exists c, log_run (fun _ => true) Some log_strftime example_log (log_start log_os0) = Ret (tt, c) /\
    let w := lc_world c in
    lc_formatted c ≡ₚ lc_pushed c ++ entries_of w (lc_pending c) /\
    lc_pushed c = lc_consumed c ++ entries_of w (g_mpscq w) /\
    lc_printed c `sublist_of` lc_consumed c /\
    elements (dom (lg_nodes w)) ≡ₚ g_mpscq w ++ lc_pending c /\
    elements (dom (lg_messages w)) ≡ₚ
      ((fun e => la_message e.1.2) <$> entries_of w (g_mpscq w ++ lc_pending c)) ++ lc_filtered c.
Proof.
  apply (log_ledger (fun _ => true) Some log_strftime (fun _ => eq_refl) log_strftime_ok log_os0 example_log).
  unfold example_log. repeat (apply Forall_cons_2; [first [exact I|printable_text]|]). apply Forall_nil_2.
Defined.
