(* ===== verification/PollingThread.v ===== *)
(** * Polling threads (src/linux/epoll_thread.h, src/linux/epoll_thread.cc,
      src/common/service.h)

    The life of a [PollingThread] and one round of the loop its threads run.  The
    receiver of the events is an interface: [EventReceivingService], on a state that
    includes the process's. *)

From S2P Require Import Prelude.
From S2P Require Import OS.
From S2P Require Import Status.
From S2P Require Import SocketSetting.
From S2P Require Import Epoll.
From S2P Require Import Time.
From S2P Require Import Thread.

Local Open Scope Z_scope.

Definition kErrorEvent : Z := 1.
Definition kSendEvent : Z := Z.shiftl 1 1.
Definition kRecvEvent : Z := Z.shiftl 1 2.
Definition kConnectEvent : Z := Z.shiftl 1 3.
Definition kAcceptEvent : Z := Z.shiftl 1 4.

Record EventDetail : Type := {
  ed_ptr : Z;
  ed_event_type : Z;
  ed_error_code : Z;
}.

Class EventReceivingService (S : Type) : Type := {
  OnEventProcess : EventDetail -> M S unit;
  OnTimeoutCheck : Z -> M S unit;
}.

Record PollingThread : Type := {
  pt_shutdown : bool;
  pt_enable_timeout_check : bool;
  pt_number_of_threads : Z;
  pt_running_threads : nat;
  pt_epoll : Z;
  pt_threads : list Thread;
}.

Definition PollingThread_new : PollingThread := {|
  pt_shutdown := true;
  pt_enable_timeout_check := false;
  pt_number_of_threads := 0;
  pt_running_threads := 0;
  pt_epoll := -1;
  pt_threads := [];
|}.

Definition EnableTimeoutCheck (b : bool) (p : PollingThread) : PollingThread :=
  {| pt_shutdown := pt_shutdown p; pt_enable_timeout_check := b; pt_number_of_threads := pt_number_of_threads p;
     pt_running_threads := pt_running_threads p; pt_epoll := pt_epoll p; pt_threads := pt_threads p |}.

Definition set_epoll (fd : Z) (p : PollingThread) : PollingThread :=
  {| pt_shutdown := pt_shutdown p; pt_enable_timeout_check := pt_enable_timeout_check p;
     pt_number_of_threads := pt_number_of_threads p;
     pt_running_threads := pt_running_threads p; pt_epoll := fd; pt_threads := pt_threads p |}.

Section PollingThreads.
Context {K : Type} `{Kernel K} `{LibC}.

(** A negative number of threads makes [new Thread[threads]] throw. *)
Definition PollingThread_Init (threads : Z) (p : PollingThread) : M (os K) (raptor_error * PollingThread) :=
  if negb (pt_shutdown p) then mret (RAPTOR_ERROR_NONE, p)
  else
    '(err, fd) ← Epoll_create (pt_epoll p);
    match err with
    | Some _ => mret (err, set_epoll fd p)
    | None =>
        if threads <? 0 then abort
        else
          '(ts, running) ← create_threads (Z.to_nat threads);
          let p := {| pt_shutdown := false;
                      pt_enable_timeout_check := pt_enable_timeout_check p;
                      pt_number_of_threads := threads;
                      pt_running_threads := pt_running_threads p + running;
                      pt_epoll := fd;
                      pt_threads := ts |} in
          if (pt_running_threads p =? 0)%nat
          then mret (RAPTOR_ERROR_FROM_STATIC_STRING "PollingThread failed to create thread", p)
          else mret (RAPTOR_ERROR_NONE, p)
    end.

Definition set_threads_array (ts : list Thread) (p : PollingThread) : PollingThread :=
  {| pt_shutdown := pt_shutdown p; pt_enable_timeout_check := pt_enable_timeout_check p;
     pt_number_of_threads := pt_number_of_threads p;
     pt_running_threads := pt_running_threads p; pt_epoll := pt_epoll p; pt_threads := ts |}.

Definition PollingThread_Start (p : PollingThread) : M (os K) (raptor_error * PollingThread) :=
  if pt_shutdown p then mret (RAPTOR_ERROR_FROM_STATIC_STRING "PollingThread is not initialized", p)
  else
    ts ← start_threads (pt_running_threads p) (pt_threads p);
    mret (RAPTOR_ERROR_NONE, set_threads_array ts p).

Definition PollingThread_Shutdown (p : PollingThread) : M (os K) PollingThread :=
  if pt_shutdown p then mret p
  else
    _ ← join_threads (pt_running_threads p) (pt_threads p);
    fd ← Epoll_shutdown (pt_epoll p);
    mret {| pt_shutdown := true; pt_enable_timeout_check := pt_enable_timeout_check p;
            pt_number_of_threads := pt_number_of_threads p;
            pt_running_threads := pt_running_threads p; pt_epoll := fd; pt_threads := [] |}.

(** The destructor, then the destructor of [_epoll]. *)
Definition PollingThread_dtor (p : PollingThread) : M (os K) unit :=
  p ← PollingThread_Shutdown p;
  Epoll_dtor (pt_epoll p).

(** ** The loop of the threads *)

Definition has (events flag : Z) : bool := negb (Z.land events flag =? 0).

(** What a thread makes of an event; [e] is the thread's [errno] at that moment. *)
Definition event_detail (ev : Z * Z) (e : Z) : EventDetail :=
  let '(events, ptr) := ev in
  if has events EPOLLERR || has events EPOLLHUP || has events EPOLLRDHUP then
    {| ed_ptr := ptr; ed_event_type := kErrorEvent; ed_error_code := e |}
  else
    {| ed_ptr := ptr;
       ed_event_type := Z.lor (if has events EPOLLIN then kRecvEvent else 0)
                              (if has events EPOLLOUT then kSendEvent else 0);
       ed_error_code := 0 |}.

Section Round.
Context {S : Type} `{EventReceivingService S}.
Variable on_os : forall A, M (os K) A -> M S A.

Fixpoint process_events (n : nat) (evs : list (Z * Z)) : M S unit :=
  match n, evs with
  | O, _ => mret tt
  | Datatypes.S _, [] => undef
  | Datatypes.S n, ev :: evs =>
      e ← on_os _ errno;
      _ ← OnEventProcess (event_detail ev e);
      process_events n evs
  end.

(** One round of [DoWork]; [shutdown] is what [_shutdown] reads after polling.  False
    when the thread returns. *)
Definition DoWork_round (p : PollingThread) (shutdown : bool) : M S bool :=
  _ ← (if pt_enable_timeout_check p then
         current_time ← on_os _ GetCurrentMilliseconds;
         OnTimeoutCheck current_time
       else mret tt);
  '(number_of_fd, evs) ← on_os _ (Epoll_polling (pt_epoll p) 1000);
  if shutdown then mret false
  else if number_of_fd <=? 0 then mret true
  else
    _ ← process_events (Z.to_nat number_of_fd) evs;
    mret true.
End Round.
End PollingThreads.

(** ** Life *)

Section Life.
Context {K : Type} `{Kernel K} `{LibC} `{!KernelThreads}.

(** epoll_create gives a descriptor or -1. *)
Class KernelEpoll : Prop := {
  epoll_create_result k n : -1 <= r_ret (sys_call k (SysEpollCreate n)).1;
}.

Context `{!KernelEpoll}.

(** What a computation created and joined, opened and closed. *)
Definition resources {A} (m : M (os K) A) (o : os K) (Q : A -> list Z -> list Z -> list Z -> list Z -> Prop) : Prop :=
  wp m o (fun a o' => exists t, os_trace o' = os_trace o ++ t /\
    Q a (opened t) (closed t) (created t) (joined t)).

Lemma resources_bind {A B} (m : M (os K) A) (f : A -> M (os K) B) o Q R :
  resources m o R ->
  (forall a op cl cr jo o', R a op cl cr jo ->
    resources (f a) o' (fun b op' cl' cr' jo' => Q b (op ++ op') (cl ++ cl') (cr ++ cr') (jo ++ jo'))) ->
  resources (m ≫= f) o Q.
Proof using Type.
  intros Hm Hf. apply wp_bind. eapply wp_mono; [exact Hm|]. intros a o1 (t1 & E1 & HR).
  eapply wp_mono; [exact (Hf _ _ _ _ _ o1 HR)|]. intros b o2 (t2 & E2 & HQ). exists (t1 ++ t2).
  rewrite E2, E1, app_assoc. split; [done|]. unfold created, joined in *.
  by rewrite opened_app, closed_app, !omap_app.
Qed.

Lemma resources_ret {A} (a : A) o (Q : A -> list Z -> list Z -> list Z -> list Z -> Prop) :
  Q a [] [] [] [] -> resources (mret a) o Q.
Proof using Type. intros HQ. apply wp_ret. exists []. by rewrite app_nil_r. Qed.

Lemma resources_mono {A} (m : M (os K) A) o (Q R : A -> list Z -> list Z -> list Z -> list Z -> Prop) :
  resources m o R -> (forall a op cl cr jo, R a op cl cr jo -> Q a op cl cr jo) -> resources m o Q.
Proof using Type. intros Hm HRQ. eapply wp_mono; [exact Hm|]. intros a o1 (t & E & HR). eauto. Qed.

(** The open descriptor of an epoll object. *)
Definition epoll_fds (fd : Z) : list Z := if fd =? -1 then [] else [fd].

Lemma epoll_create_resources o :
  resources (Epoll_create (-1)) o (fun '(err, fd) op cl cr jo =>
    op = epoll_fds fd /\ cl = [] /\ cr = [] /\ jo = [] /\ (fd < 0 -> err <> None)).
Proof.
  unfold resources, Epoll_create, call_ret, RAPTOR_POSIX_ERROR, errno, gets, wp, call, mbind, M_bind. cbn.
  pose proof (epoll_create_result (os_kernel o) MAX_EPOLL_EVENTS) as Hr.
  destruct (sys_call (os_kernel o) (SysEpollCreate MAX_EPOLL_EVENTS)) as [r k]. cbn in *.
  unfold epoll_fds. destruct (Z.ltb_spec (r_ret r) 0) as [Hn|Hn]; cbn.
  - exists [(SysEpollCreate MAX_EPOLL_EVENTS, r)]. split; [done|]. unfold opened, opened_by. cbn.
    rewrite (proj2 (Z.leb_gt _ _)) by lia. rewrite (proj2 (Z.eqb_eq _ (-1))) by lia. done.
  - destruct (sys_call k (SysFcntl (r_ret r) F_SETFD FD_CLOEXEC)) as [r2 k2]. cbn.
    destruct (nonzero (r_ret r2)); cbn;
      (exists [(SysEpollCreate MAX_EPOLL_EVENTS, r); (SysFcntl (r_ret r) F_SETFD FD_CLOEXEC, r2)];
       rewrite <- app_assoc; split; [done|]; unfold opened, opened_by; cbn;
       rewrite (proj2 (Z.leb_le _ _)) by lia; rewrite (proj2 (Z.eqb_neq _ (-1))) by lia; split_and!; [done..|lia]).
Qed.

Lemma create_threads_resources n o :
  resources (create_threads n) o (fun '(ts, running) op cl cr jo =>
    threads_in (eq kAlive) running ts /\ cr = mjoin (unjoined <$> ts) /\ jo = [] /\ op = [] /\ cl = []).
Proof.
  unfold resources. eapply wp_mono; [by apply create_threads_spec|].
  intros [ts running] o1 (t & E & Hin & Hc & Hj & Ho & Hcl). by exists t.
Qed.

Lemma join_threads_resources n ts o :
  threads_in alive_or_active n ts ->
  resources (join_threads n ts) o (fun _ op cl cr jo =>
    jo = mjoin (unjoined <$> ts) /\ cr = [] /\ op = [] /\ cl = []).
Proof using Type. intros Hin. unfold resources. eapply wp_mono; [by apply join_threads_spec|]. done. Qed.

(** The descriptor and the pthreads a polling thread still holds. *)
Definition holds (p : PollingThread) (op cl cr jo : list Z) : Prop :=
  op = cl ++ epoll_fds (pt_epoll p) /\ cr = jo ++ mjoin (unjoined <$> pt_threads p).

(** Between its operations. *)
Definition pt_wf (st : thread_state -> Prop) (p : PollingThread) : Prop :=
  if pt_shutdown p then mjoin (unjoined <$> pt_threads p) = []
  else threads_in st (pt_running_threads p) (pt_threads p).

Lemma pt_wf_running p : pt_wf (eq kAlive) p -> pt_wf alive_or_active p.
Proof using Type.
  unfold pt_wf. destruct (pt_shutdown p); [done|]. intros (Hl & Hf & Hr). split; [done|].
  split; [|done]. eapply Forall_impl; [exact Hf|]. cbn. intros t (? & ? & ?). auto.
Qed.

Lemma init_resources threads o :
  0 <= threads ->
  resources (PollingThread_Init threads PollingThread_new) o (fun '(err, p) op cl cr jo =>
    holds p op cl cr jo /\ pt_wf (eq kAlive) p /\ (err = None -> pt_shutdown p = false)).
Proof.
  intros Hth. unfold PollingThread_Init. cbn [pt_shutdown PollingThread_new negb pt_epoll].
  eapply resources_bind; [apply epoll_create_resources|].
  intros [err fd] op cl cr jo o' (-> & -> & -> & -> & Hfd). destruct err as [e|].
  { apply resources_ret. by rewrite !app_nil_r. }
  rewrite (proj2 (Z.ltb_ge _ _) Hth).
  eapply resources_bind; [apply create_threads_resources|].
  intros [ts running] op cl cr jo o1 (Hin & -> & -> & -> & ->). cbn [pt_running_threads].
  destruct (_ =? 0)%nat; apply resources_ret; rewrite !app_nil_r; (split; [done|]; split; [exact Hin|done]).
Qed.

Lemma start_resources p o :
  pt_wf (eq kAlive) p ->
  resources (PollingThread_Start p) o (fun '(_, p') op cl cr jo =>
    op = [] /\ cl = [] /\ cr = [] /\ jo = [] /\ pt_wf alive_or_active p' /\
    pt_epoll p' = pt_epoll p /\ mjoin (unjoined <$> pt_threads p') = mjoin (unjoined <$> pt_threads p)).
Proof using Type.
  intros Hp. unfold PollingThread_Start, pt_wf in *. destruct (pt_shutdown p) eqn:Es.
  { apply resources_ret. rewrite Es. done. }
  apply wp_bind. eapply wp_mono; [by apply start_threads_spec|]. intros ts o1 (-> & Hin & Hu).
  apply wp_ret. exists []. rewrite app_nil_r. do 5 (split; [done|]). cbn. rewrite Es. split; [|done].
  destruct Hin as (Hl & Hf & Hr). split; [done|]. split; [|done].
  eapply Forall_impl; [exact Hf|]. cbn. intros t (? & ? & ?). auto.
Qed.

Lemma epoll_shutdown_resources fd o :
  resources (Epoll_shutdown fd) o (fun fd' op cl cr jo =>
    op = [] /\ cl = epoll_fds fd /\ cr = [] /\ jo = [] /\ fd' = -1).
Proof using Type.
  unfold Epoll_shutdown, epoll_fds. destruct (Z.eqb_spec fd (-1)) as [->|Hne]; cbn [negb].
  - by apply resources_ret.
  - unfold resources, wp, call_ret, call, mbind, M_bind. destruct (sys_call (os_kernel o) (SysClose fd)) as [r k].
    exists [(SysClose fd, r)]. done.
Qed.

Lemma epoll_dtor_resources fd o :
  resources (Epoll_dtor fd) o (fun _ op cl cr jo => op = [] /\ cl = epoll_fds fd /\ cr = [] /\ jo = []).
Proof using Type.
  unfold Epoll_dtor, epoll_fds. destruct (Z.eqb_spec fd (-1)) as [->|Hne]; cbn [negb].
  - by apply resources_ret.
  - unfold resources, wp, call_ret, call, mbind, M_bind. destruct (sys_call (os_kernel o) (SysClose fd)) as [r k].
    exists [(SysClose fd, r)]. done.
Qed.

Lemma shutdown_resources p o :
  pt_wf alive_or_active p ->
  resources (PollingThread_Shutdown p) o (fun p' op cl cr jo =>
    op = [] /\ cl ++ epoll_fds (pt_epoll p') = epoll_fds (pt_epoll p) /\ cr = [] /\
    jo = mjoin (unjoined <$> pt_threads p) /\ mjoin (unjoined <$> pt_threads p') = [] /\ pt_shutdown p' = true).
Proof using Type.
  intros Hp. unfold PollingThread_Shutdown, pt_wf in *. destruct (pt_shutdown p) eqn:Es.
  { apply resources_ret. cbn beta. rewrite Hp. split_and!; done. }
  eapply resources_bind; [by apply join_threads_resources|].
  intros ts ? ? ? ? o1 (-> & -> & -> & ->). eapply resources_bind; [apply epoll_shutdown_resources|].
  intros fd ? ? ? ? o2 (-> & -> & -> & -> & ->). apply resources_ret. by rewrite !app_nil_r.
Qed.

Lemma dtor_resources p o :
  pt_wf alive_or_active p ->
  resources (PollingThread_dtor p) o (fun _ op cl cr jo =>
    op = [] /\ cl = epoll_fds (pt_epoll p) /\ cr = [] /\ jo = mjoin (unjoined <$> pt_threads p)).
Proof using Type.
  intros Hp. unfold PollingThread_dtor. eapply resources_bind; [by apply shutdown_resources|].
  intros p' ? ? ? ? o' (-> & Hcl & -> & -> & Hj & _). eapply resources_mono; [apply epoll_dtor_resources|].
  intros _ ? ? ? ? (-> & -> & -> & ->). by rewrite Hcl, !app_nil_r.
Qed.

(** C28. A polling thread object leaks nothing over its whole life: created, initialised with
    any number of threads, started if that succeeded, then destroyed, it has joined
    exactly the pthreads it created, each once, and closed exactly the epoll descriptor it
    opened, however many thread creations failed and whatever the epoll calls answered. *)
Theorem polling_thread_life (threads : Z) (o : os K) :
  0 <= threads ->
  resources (
    '(err, p) ← PollingThread_Init threads PollingThread_new;
    '(_, p) ← (match err with None => PollingThread_Start p | Some _ => mret (err, p) end);
    PollingThread_dtor p) o (fun _ op cl cr jo => op = cl /\ cr = jo).
Proof.
  intros Hth. eapply resources_bind; [by apply init_resources|].
  intros [err p] op cl cr jo o1 ([-> ->] & Hp & _).
  eapply (resources_bind _ _ _ _ (fun '(_, p') op' cl' cr' jo' =>
    op' = [] /\ cl' = [] /\ cr' = [] /\ jo' = [] /\ pt_wf alive_or_active p' /\
    pt_epoll p' = pt_epoll p /\ mjoin (unjoined <$> pt_threads p') = mjoin (unjoined <$> pt_threads p))).
  { destruct err as [e|]; [|by apply start_resources]. apply resources_ret. do 4 (split; [done|]).
    split; [by apply pt_wf_running|done]. }
  intros [e' p'] ? ? ? ? o2 (-> & -> & -> & -> & Hp' & Hfd & Hu).
  eapply resources_mono; [by apply dtor_resources|]. intros _ ? ? ? ? (-> & -> & -> & ->).
  by rewrite Hfd, Hu, !app_nil_r.
Qed.
End Life.

(** A kernel whose third pthread cannot be created. *)
Definition two_threads_kernel : Kernel Z := fun k c =>
  match c with
  | SysPthreadCreate =>
      ({| r_ret := if k <? 2 then 0 else 11; r_errno := 0; r_data := []; r_int := 100 + Z.abs k; r_events := [] |}, k + 1)
  | SysEpollCreate _ => ({| r_ret := 7; r_errno := 0; r_data := []; r_int := 0; r_events := [] |}, k)
  | _ => ({| r_ret := 0; r_errno := 0; r_data := []; r_int := 0; r_events := [] |}, k)
  end.

#[local] Existing Instance two_threads_kernel.
#[local] Existing Instance quiet_libc.

#[local] Instance two_threads_kernel_threads : KernelThreads (K := Z).
Proof. split. intros k _. unfold sys_call, two_threads_kernel. cbn. lia. Qed.

#[local] Instance two_threads_kernel_epoll : KernelEpoll (K := Z).
Proof. split. intros k n. unfold sys_call, two_threads_kernel. cbn. lia. Qed.

Lemma polling_thread_life_witness :
  resources (
    '(err, p) ← PollingThread_Init 3 PollingThread_new;
    '(_, p) ← (match err with None => PollingThread_Start p | Some _ => mret (err, p) end);
    PollingThread_dtor p) ({| os_kernel := 0; os_errno := 0; os_trace := [] |} : os Z)
    (fun _ op cl cr jo => op = cl /\ cr = jo).
Proof. apply (polling_thread_life 3). lia. Defined.
