(* ===== verification/Iocp.v ===== *)
(** * Completion ports and their threads on Windows
      (src/windows/iocp.h, src/windows/iocp.cc, src/windows/iocp_thread.h, src/windows/iocp_thread.cc)

    All [PollingThread] objects of a process share one [IocpThreadAdaptor], counted by
    reference; it owns the completion port, the worker threads and the table of the
    sockets.  Addresses are integers, 0 the null pointer; the overlapped structures of the
    operations in flight are a store.  A call that answers NULL or FALSE has a negative
    result in the model, which records its error number.  The calls the workers make
    on the services are recorded. *)

From S2P Require Import Prelude.
From S2P Require Import OS.
From S2P Require Import Status.
From S2P Require Import SocketSetting.
From S2P Require Import WinSocketSetting.
From S2P Require Import Time.
From S2P Require Import Thread.
From S2P Require Import PollingThread.
From stdpp Require Import sorting.

Local Open Scope Z_scope.

Definition kMaxEventValue : Z := Z.lor kAcceptEvent kErrorEvent.

Record OverLappedEx : Type := {
  ox_event_type : Z;
  ox_HandleId : Z;
}.

Record WinEventDetail : Type := {
  wd_ptr : Z;
  wd_event_type : Z;
  wd_error_code : Z;
  wd_transferred_bytes : Z;
  wd_handle_id : Z;
  wd_overlaped : Z;
}.

(** ** [Iocp] *)

Section Iocp.
Context {K : Type} `{Kernel K} `{WinLibC}.

Definition call_handle (c : syscall) : M (os K) Z := r ← call_ret c; mret (Z.max 0 r).

Definition INVALID_HANDLE_VALUE : Z := -1.

(** The error and [_handle] after the call. *)
Definition Iocp_create (max_threads handle : Z) : M (os K) (raptor_error * Z) :=
  if handle =? 0 then
    handle ← call_handle (SysCreateIoCompletionPort INVALID_HANDLE_VALUE 0 0 (u32 max_threads));
    if handle =? 0 then err ← last_error "CreateIoCompletionPort"; mret (err, handle)
    else mret (RAPTOR_ERROR_NONE, handle)
  else mret (RAPTOR_ERROR_NONE, handle).

Definition Iocp_shutdown (handle : Z) : M (os K) Z :=
  if negb (handle =? 0) then _ ← call_ret (SysCloseHandle handle); mret 0 else mret handle.

Definition Iocp_dtor (handle : Z) : M (os K) unit :=
  if negb (handle =? 0) then _ ← call_ret (SysCloseHandle handle); mret tt else mret tt.

Definition Iocp_add (sock key handle : Z) : M (os K) bool :=
  if handle =? 0 then mret false
  else
    h ← call_handle (SysCreateIoCompletionPort sock handle key 0);
    mret (negb (h =? 0)).

(** Whether it succeeded, the number of bytes, the completion key and the overlapped structure. *)
Definition Iocp_polling (timeout_ms handle : Z) : M (os K) (bool * Z * Z * Z) :=
  r ← call (SysGetQueuedCompletionStatus handle timeout_ms);
  let '(key, overlapped) := default (0, 0) (head (r_events r)) in
  mret (0 <? r_ret r, r_int r, key, overlapped).

Definition Iocp_post (key overlapped handle : Z) : M (os K) unit :=
  _ ← call_ret (SysPostQueuedCompletionStatus handle 0 key overlapped); mret tt.
End Iocp.

(** ** [IocpThread] *)

Record IocpThread : Type := {
  it_shutdown : bool;
  it_enable_timeout_check : bool;
  it_number_of_threads : Z;
  it_running_threads : nat;
  it_threads : list Thread;
  it_exit : Z;
  it_iocp : Z;
}.

(** [exit] is the address of the member [_exit]. *)
Definition IocpThread_new (exit : Z) : IocpThread := {|
  it_shutdown := true; it_enable_timeout_check := false; it_number_of_threads := 0;
  it_running_threads := 0; it_threads := []; it_exit := exit; it_iocp := 0 |}.

Definition IocpThread_EnableTimeoutCheck (b : bool) (t : IocpThread) : IocpThread := {|
  it_shutdown := it_shutdown t; it_enable_timeout_check := b; it_number_of_threads := it_number_of_threads t;
  it_running_threads := it_running_threads t; it_threads := it_threads t; it_exit := it_exit t; it_iocp := it_iocp t |}.

Definition it_set_iocp (h : Z) (t : IocpThread) : IocpThread := {|
  it_shutdown := it_shutdown t; it_enable_timeout_check := it_enable_timeout_check t; it_number_of_threads := it_number_of_threads t;
  it_running_threads := it_running_threads t; it_threads := it_threads t; it_exit := it_exit t; it_iocp := h |}.

Definition it_set_threads (shutdown : bool) (ts : list Thread) (t : IocpThread) : IocpThread := {|
  it_shutdown := shutdown; it_enable_timeout_check := it_enable_timeout_check t; it_number_of_threads := it_number_of_threads t;
  it_running_threads := it_running_threads t; it_threads := ts; it_exit := it_exit t; it_iocp := it_iocp t |}.

Section IocpThreads.
Context {K : Type} `{Kernel K} `{WinLibC}.

(** [new Thread[rs_threads]] throws when the array cannot be addressed (16 bytes each). *)
Definition IocpThread_Init (rs_threads kernel_threads : Z) (t : IocpThread) : M (os K) (raptor_error * IocpThread) :=
  if negb (it_shutdown t) then mret (RAPTOR_ERROR_NONE, t)
  else
    '(e, h) ← Iocp_create kernel_threads (it_iocp t);
    match e with
    | Some _ => mret (e, it_set_iocp h t)
    | None =>
        if 2 ^ 59 <=? rs_threads then abort
        else
          '(ts, running) ← create_threads (Z.to_nat rs_threads);
          let t := {| it_shutdown := false; it_enable_timeout_check := it_enable_timeout_check t;
                      it_number_of_threads := rs_threads; it_running_threads := running;
                      it_threads := ts; it_exit := it_exit t; it_iocp := h |} in
          if (running =? 0)%nat then mret (RAPTOR_ERROR_FROM_STATIC_STRING "IocpThread: Failed to create thread", t)
          else mret (RAPTOR_ERROR_NONE, t)
    end.

Definition IocpThread_Start (t : IocpThread) : M (os K) (raptor_error * IocpThread) :=
  if it_shutdown t then mret (RAPTOR_ERROR_FROM_STATIC_STRING "IocpThread is not initialized", t)
  else
    ts ← start_threads (it_running_threads t) (it_threads t);
    mret (RAPTOR_ERROR_NONE, it_set_threads (it_shutdown t) ts t).

Definition IocpThread_Shutdown (t : IocpThread) : M (os K) IocpThread :=
  if negb (it_shutdown t) then
    _ ← Iocp_post 0 (it_exit t) (it_iocp t);
    _ ← join_threads (it_running_threads t) (it_threads t);
    mret (it_set_threads true [] t)
  else mret t.

(** The destructor, then that of [_iocp]. *)
Definition IocpThread_dtor (t : IocpThread) : M (os K) unit :=
  t ← (if negb (it_shutdown t) then IocpThread_Shutdown t else mret t);
  Iocp_dtor (it_iocp t).

Definition IocpThread_Add (sock key : Z) (t : IocpThread) : M (os K) bool := Iocp_add sock key (it_iocp t).

(** What a worker makes of a failed operation and of a completed one; [err] is the thread's
    last error. *)
Definition failed_detail (err key bytes overlapped : Z) (olex : OverLappedEx) : WinEventDetail := {|
  wd_ptr := key; wd_event_type := ox_event_type olex; wd_error_code := if err =? 0 then -1 else err;
  wd_transferred_bytes := bytes; wd_handle_id := 0; wd_overlaped := overlapped |}.
Definition completed_detail (key bytes overlapped : Z) (olex : OverLappedEx) : WinEventDetail := {|
  wd_ptr := key; wd_event_type := ox_event_type olex; wd_error_code := 0;
  wd_transferred_bytes := bytes; wd_handle_id := ox_HandleId olex; wd_overlaped := overlapped |}.

Section Worker.
Context {S : Type}.
Variable on_os : forall A, M (os K) A -> M S A.
Variable olex_at : Z -> M S OverLappedEx.
Variable service_event : WinEventDetail -> M S unit.
Variable service_timeout : Z -> M S unit.

(** One turn of the loop of [WorkThread], at the start of which [_shutdown] reads
    [shutdown]; false when the thread returns. *)
Definition IocpThread_WorkThread (t : IocpThread) (shutdown : bool) : M S bool :=
  if shutdown then mret false
  else
    _ ← (if it_enable_timeout_check t then
           current_millseconds ← on_os _ GetCurrentMilliseconds;
           service_timeout current_millseconds
         else mret tt);
    '(ret, bytes, key, overlapped) ← on_os _ (Iocp_polling 1000 (it_iocp t));
    if negb ret then
      _ ← (if negb (overlapped =? 0) && negb (key =? 0) then
             olex ← olex_at overlapped;
             err ← on_os _ errno;
             service_event (failed_detail err key bytes overlapped olex)
           else mret tt);
      mret true
    else if overlapped =? it_exit t then mret false
    else
      olex ← olex_at overlapped;
      _ ← service_event (completed_detail key bytes overlapped olex);
      mret true.
End Worker.
End IocpThreads.

(** ** [IocpThreadAdaptor] *)

Record IocpSupplementInfo : Type := {
  si_CompletionKey : Z;
  si_service : Z;
  si_event_types : Z;
}.

(** [_interesting_event_services] and [_timeout_check_services]; the count of references
    is the base class's. *)
Record IocpThreadAdaptor : Type := {
  ad_refs : Z;
  ad_iocp : IocpThread;
  ad_services : gmap Z IocpSupplementInfo;
  ad_timeout_services : gset Z;
}.

Definition IocpThreadAdaptor_new (exit : Z) : IocpThreadAdaptor := {|
  ad_refs := 1; ad_iocp := IocpThread_new exit; ad_services := ∅; ad_timeout_services := ∅ |}.

Definition ad_set_refs (n : Z) (a : IocpThreadAdaptor) : IocpThreadAdaptor := {|
  ad_refs := n; ad_iocp := ad_iocp a; ad_services := ad_services a; ad_timeout_services := ad_timeout_services a |}.
Definition ad_set_iocp (t : IocpThread) (a : IocpThreadAdaptor) : IocpThreadAdaptor := {|
  ad_refs := ad_refs a; ad_iocp := t; ad_services := ad_services a; ad_timeout_services := ad_timeout_services a |}.
Definition ad_set_services (l : gmap Z IocpSupplementInfo) (a : IocpThreadAdaptor) : IocpThreadAdaptor := {|
  ad_refs := ad_refs a; ad_iocp := ad_iocp a; ad_services := l; ad_timeout_services := ad_timeout_services a |}.

(** [Delete] of the adaptor: type 0 forgets the socket. *)
Definition Adaptor_Delete (sock type : Z) (a : IocpThreadAdaptor) : IocpThreadAdaptor :=
  match ad_services a !! sock with
  | None => a
  | Some info =>
      if type =? 0 then ad_set_services (delete sock (ad_services a)) a
      else ad_set_services (<[sock := {| si_CompletionKey := si_CompletionKey info; si_service := si_service info;
                                         si_event_types := Z.land (si_event_types info) (Z.lnot type) |}]> (ad_services a)) a
  end.

Definition Adaptor_EnableTimeoutCheck (service : Z) (timeout_check : bool) (a : IocpThreadAdaptor) : IocpThreadAdaptor := {|
  ad_refs := ad_refs a; ad_iocp := ad_iocp a; ad_services := ad_services a;
  ad_timeout_services := if timeout_check then {[service]} ∪ ad_timeout_services a else ad_timeout_services a ∖ {[service]} |}.

(** The service of an event, and the event as the service sees it. *)
Definition FindEventService (detail : WinEventDetail) (a : IocpThreadAdaptor) : option (Z * WinEventDetail) :=
  info ← ad_services a !! wd_ptr detail;
  let event_type :=
    if (wd_event_type detail <? kErrorEvent) || (kMaxEventValue <? wd_event_type detail)
    then Z.lor (si_event_types info) kErrorEvent else wd_event_type detail in
  Some (si_service info,
        {| wd_ptr := si_CompletionKey info; wd_event_type := event_type; wd_error_code := wd_error_code detail;
           wd_transferred_bytes := wd_transferred_bytes detail; wd_handle_id := wd_handle_id detail;
           wd_overlaped := wd_overlaped detail |}).

(** ** The process's adaptor and its [PollingThread]s *)

(** A [PollingThread]: its service and its number, 0 once it was shut down. *)
Record PollInstance : Type := {
  pi_service : Z;
  pi_instance_id : Z;
}.

(** Calls of the services' methods. *)
Inductive win_call : Type :=
  | ServiceEvent (service : Z) (detail : WinEventDetail)
  | ServiceTimeout (service now : Z).

(** [iocp_thread_adaptor], which every [_impl] points to, [iocp_thread_count], the
    [PollingThread] objects, the overlapped structures, the calls on the services. *)
Record iocp_world (K : Type) : Type := {
  iw_os : os K;
  iw_adaptor : option IocpThreadAdaptor;
  iw_count : Z;
  iw_instances : gmap nat PollInstance;
  iw_overlapped : gmap Z OverLappedEx;
  iw_calls : list win_call;
}.
Arguments Build_iocp_world {K}. Arguments iw_os {K}. Arguments iw_adaptor {K}. Arguments iw_count {K}.
Arguments iw_instances {K}. Arguments iw_overlapped {K}. Arguments iw_calls {K}.

Section WinPolling.
Context {K : Type} `{Kernel K} `{WinLibC}.
Implicit Types w : iocp_world K.

Definition iw_with_os (o : os K) w : iocp_world K :=
  Build_iocp_world o (iw_adaptor w) (iw_count w) (iw_instances w) (iw_overlapped w) (iw_calls w).
Definition iw_set_adaptor (a : option IocpThreadAdaptor) w : iocp_world K :=
  Build_iocp_world (iw_os w) a (iw_count w) (iw_instances w) (iw_overlapped w) (iw_calls w).
Definition iw_set_instances (n : Z) (m : gmap nat PollInstance) w : iocp_world K :=
  Build_iocp_world (iw_os w) (iw_adaptor w) n m (iw_overlapped w) (iw_calls w).
Definition iw_add_call (c : win_call) w : iocp_world K :=
  Build_iocp_world (iw_os w) (iw_adaptor w) (iw_count w) (iw_instances w) (iw_overlapped w) (iw_calls w ++ [c]).

Definition iw_sys {A} : M (os K) A -> M (iocp_world K) A := zoom iw_os iw_with_os.

(** A method of the adaptor, and one of its [_iocp]. *)
Definition the_adaptor : M (iocp_world K) IocpThreadAdaptor := w ← gets id; of_option (iw_adaptor w).
Definition on_adaptor (f : IocpThreadAdaptor -> IocpThreadAdaptor) : M (iocp_world K) unit :=
  a ← the_adaptor; modify (iw_set_adaptor (Some (f a))).
Definition on_iocp {A} (m : IocpThread -> M (os K) (A * IocpThread)) : M (iocp_world K) A :=
  a ← the_adaptor;
  '(r, t) ← iw_sys (m (ad_iocp a));
  _ ← on_adaptor (ad_set_iocp t);
  mret r.

Definition Adaptor_Shutdown : M (iocp_world K) unit := on_iocp (fun t => t ← IocpThread_Shutdown t; mret (tt, t)).

(** The completion key of the port is the socket; the table keeps the caller's. *)
Definition Adaptor_Add (sock CompletionKey type service : Z) : M (iocp_world K) bool :=
  a ← the_adaptor;
  r ← iw_sys (IocpThread_Add sock sock (ad_iocp a));
  _ ← on_adaptor (fun a => ad_set_services (<[sock := {| si_CompletionKey := CompletionKey; si_service := service;
                                                        si_event_types := type |}]> (ad_services a)) a);
  mret r.

Definition Adaptor_OnEventProcess (detail : WinEventDetail) : M (iocp_world K) unit :=
  a ← the_adaptor;
  match FindEventService detail a with
  | Some (service, detail) => modify (iw_add_call (ServiceEvent service detail))
  | None => mret tt
  end.

Fixpoint timeout_all (services : list Z) (now : Z) : M (iocp_world K) unit :=
  match services with
  | [] => mret tt
  | s :: services => _ ← modify (iw_add_call (ServiceTimeout s now)); timeout_all services now
  end.

(** A [std::set] of pointers is in the order of the addresses. *)
Definition Adaptor_OnTimeoutCheck (now : Z) : M (iocp_world K) unit :=
  a ← the_adaptor; timeout_all (merge_sort Z.le (elements (ad_timeout_services a))) now.

(** A turn of a worker of the adaptor. *)
Definition IocpWork_round (shutdown : bool) : M (iocp_world K) bool :=
  a ← the_adaptor;
  IocpThread_WorkThread (@iw_sys)
    (fun overlapped => w ← gets id; of_option (iw_overlapped w !! overlapped))
    Adaptor_OnEventProcess Adaptor_OnTimeoutCheck (ad_iocp a) shutdown.

(** [RefIfNonZero] and [Unref] of the adaptor; the last reference deletes it. *)
Definition Adaptor_RefIfNonZero : M (iocp_world K) bool :=
  a ← the_adaptor;
  if ad_refs a =? 0 then mret false
  else _ ← on_adaptor (ad_set_refs (i64 (ad_refs a + 1))); mret true.

Definition Adaptor_dtor : M (iocp_world K) unit :=
  _ ← Adaptor_Shutdown;
  a ← the_adaptor;
  _ ← iw_sys (IocpThread_dtor (ad_iocp a));
  modify (iw_set_adaptor None).

Definition Adaptor_Unref : M (iocp_world K) unit :=
  a ← the_adaptor;
  _ ← on_adaptor (ad_set_refs (i64 (ad_refs a - 1)));
  if ad_refs a =? 1 then Adaptor_dtor else mret tt.

(** ** [PollingThread] *)

Definition instance (x : nat) : M (iocp_world K) PollInstance := w ← gets id; of_option (iw_instances w !! x).

(** The new object is [x]; [exit] is the address of [_exit] in a new adaptor. *)
Definition WinPoll_new (x : nat) (service exit : Z) : M (iocp_world K) unit :=
  w ← gets id;
  let count := iw_count w in
  _ ← (if count =? 0 then modify (iw_set_adaptor (Some (IocpThreadAdaptor_new exit)))
       else _ ← Adaptor_RefIfNonZero; mret tt);
  modify (fun w => iw_set_instances (i32 (iw_count w + 1))
    (<[x := {| pi_service := service; pi_instance_id := i32 (count + 1) |}]> (iw_instances w)) w).

Definition WinPoll_Init (x : nat) (rs_threads kernel_threads : Z) : M (iocp_world K) raptor_error :=
  p ← instance x;
  if pi_instance_id p =? 1 then on_iocp (IocpThread_Init (u64 rs_threads) (u64 kernel_threads))
  else mret RAPTOR_ERROR_NONE.

Definition WinPoll_Start (x : nat) : M (iocp_world K) raptor_error :=
  p ← instance x;
  if pi_instance_id p =? 1 then on_iocp IocpThread_Start else mret RAPTOR_ERROR_NONE.

Definition WinPoll_Shutdown (x : nat) : M (iocp_world K) unit :=
  p ← instance x;
  if pi_instance_id p =? 0 then mret tt
  else
    _ ← (if pi_instance_id p =? 1 then Adaptor_Shutdown else mret tt);
    modify (fun w => iw_set_instances (iw_count w)
      (<[x := {| pi_service := pi_service p; pi_instance_id := 0 |}]> (iw_instances w)) w).

(** The destructor, then that of [_impl]. *)
Definition WinPoll_dtor (x : nat) : M (iocp_world K) unit :=
  _ ← WinPoll_Shutdown x;
  _ ← modify (fun w => iw_set_instances (i32 (iw_count w - 1)) (delete x (iw_instances w)) w);
  Adaptor_Unref.

Definition WinPoll_Add (x : nat) (sock CompletionKey type : Z) : M (iocp_world K) bool :=
  p ← instance x;
  if pi_instance_id p =? 0 then mret false
  else Adaptor_Add sock CompletionKey type (pi_service p).

Definition WinPoll_Modify (x : nat) (sock CompletionKey type : Z) : M (iocp_world K) Z :=
  r ← WinPoll_Add x sock CompletionKey type; mret (int_of_bool r).

Definition WinPoll_Delete (x : nat) (sock type : Z) : M (iocp_world K) Z :=
  p ← instance x;
  if pi_instance_id p =? 0 then mret 0
  else _ ← on_adaptor (Adaptor_Delete sock type); mret 1.

Definition WinPoll_EnableTimeoutCheck (x : nat) (b : bool) : M (iocp_world K) unit :=
  p ← instance x;
  if pi_instance_id p =? 0 then mret tt
  else on_adaptor (Adaptor_EnableTimeoutCheck (pi_service p) b).
End WinPolling.

(** ** What a process does with its [PollingThread]s *)

Inductive poll_op : Type :=
  | PollNew (x : nat) (service exit : Z)
  | PollDtor (x : nat)
  | PollInit (x : nat) (rs_threads kernel_threads : Z)
  | PollStart (x : nat)
  | PollShutdown (x : nat)
  | PollAdd (x : nat) (sock CompletionKey type : Z)
  | PollModify (x : nat) (sock CompletionKey type : Z)
  | PollDelete (x : nat) (sock type : Z)
  | PollEnableTimeoutCheck (x : nat) (b : bool).

#[export] Instance poll_op_eq_dec : EqDecision poll_op.
Proof. solve_decision. Defined.

(** The object an operation is called on, and whether objects [xs] allow it. *)
Definition op_object (op : poll_op) : nat :=
  match op with
  | PollNew x _ _ | PollDtor x | PollInit x _ _ | PollStart x | PollShutdown x
  | PollAdd x _ _ _ | PollModify x _ _ _ | PollDelete x _ _ | PollEnableTimeoutCheck x _ => x
  end.

Definition poll_op_ok (op : poll_op) (xs : gset nat) : bool :=
  match op with PollNew x _ _ => bool_decide (x ∉ xs) | _ => bool_decide (op_object op ∈ xs) end.

Definition op_objects (op : poll_op) (xs : gset nat) : gset nat :=
  match op with PollNew x _ _ => {[x]} ∪ xs | PollDtor x => xs ∖ {[x]} | _ => xs end.

Fixpoint poll_ops_ok (ops : list poll_op) (xs : gset nat) : bool :=
  match ops with
  | [] => true
  | op :: ops => poll_op_ok op xs && poll_ops_ok ops (op_objects op xs)
  end.

Definition forget {S A} (m : M S A) : M S unit := _ ← m; mret tt.

Section PollOps.
Context {K : Type} `{Kernel K} `{WinLibC}.

Definition run_poll_op (op : poll_op) : M (iocp_world K) unit :=
  match op with
  | PollNew x service exit => WinPoll_new x service exit
  | PollDtor x => WinPoll_dtor x
  | PollInit x rs kernel => forget (WinPoll_Init x rs kernel)
  | PollStart x => forget (WinPoll_Start x)
  | PollShutdown x => WinPoll_Shutdown x
  | PollAdd x sock key type => forget (WinPoll_Add x sock key type)
  | PollModify x sock key type => forget (WinPoll_Modify x sock key type)
  | PollDelete x sock type => forget (WinPoll_Delete x sock type)
  | PollEnableTimeoutCheck x b => WinPoll_EnableTimeoutCheck x b
  end.

Fixpoint run_poll_ops (ops : list poll_op) : M (iocp_world K) unit :=
  match ops with
  | [] => mret tt
  | op :: ops => _ ← run_poll_op op; run_poll_ops ops
  end.
End PollOps.

Definition no_polls {K} (o : os K) (overlapped : gmap Z OverLappedEx) : iocp_world K := {|
  iw_os := o; iw_adaptor := None; iw_count := 0; iw_instances := ∅; iw_overlapped := overlapped; iw_calls := [] |}.

(** Completion ports created and handles closed. *)
Definition port_opened_by (e : syscall * sysret) : option Z :=
  match e.1 with
  | SysCreateIoCompletionPort _ existing _ _ => if (existing =? 0) && (0 <? r_ret e.2) then Some (r_ret e.2) else None
  | _ => None
  end.
Definition port_closed_by (e : syscall * sysret) : option Z :=
  match e.1 with SysCloseHandle h => Some h | _ => None end.
Definition ports_opened (t : list (syscall * sysret)) : list Z := omap port_opened_by t.
Definition ports_closed (t : list (syscall * sysret)) : list Z := omap port_closed_by t.

(** ** One object's resources *)

(** [m] returns with [Q], or aborts. *)
Definition runs {S A} (m : M S A) (s : S) (Q : A -> S -> Prop) : Prop :=
  match m s with Ret (a, s') => Q a s' | Abort => True | _ => False end.

Lemma runs_wp {S A} (m : M S A) s Q : wp m s Q -> runs m s Q.
Proof. unfold wp, runs. by destruct (m s) as [[]| | |]. Qed.
Lemma runs_bind {S A B} (m : M S A) (f : A -> M S B) s Q :
  runs m s (fun a s' => runs (f a) s' Q) -> runs (m ≫= f) s Q.
Proof. unfold runs, mbind, M_bind. by destruct (m s) as [[]| | |]. Qed.
Lemma runs_mono {S A} (m : M S A) s (Q R : A -> S -> Prop) : runs m s R -> (forall a s', R a s' -> Q a s') -> runs m s Q.
Proof. unfold runs. destruct (m s) as [[]| | |]; auto. Qed.
Lemma runs_zoom {S T A} (get : S -> T) set (m : M T A) s (Q : A -> S -> Prop) :
  runs m (get s) (fun a t => Q a (set t s)) -> runs (zoom get set m) s Q.
Proof. unfold runs, zoom. by destruct (m (get s)) as [[]| | |]. Qed.

Lemma runs_bind_wp {S A B} (m : M S A) (f : A -> M S B) s Q :
  wp m s (fun a s' => runs (f a) s' Q) -> runs (m ≫= f) s Q.
Proof. intros Hm. by apply runs_bind, runs_wp. Qed.

(** If [m] returns, then with [Q]. *)
Definition ends {S A} (m : M S A) (s : S) (Q : A -> S -> Prop) : Prop := forall a s', m s = Ret (a, s') -> Q a s'.

Lemma ends_ret {S A} (a : A) (s : S) (Q : A -> S -> Prop) : Q a s -> ends (mret a) s Q.
Proof. by intros HQ ? ? [= <- <-]. Qed.
Lemma ends_bind {S A B} (m : M S A) (f : A -> M S B) s Q :
  ends m s (fun a s' => ends (f a) s' Q) -> ends (m ≫= f) s Q.
Proof. intros Hm b s'. unfold mbind, M_bind. destruct (m s) as [[a s1]| | |] eqn:E; [|done..]. by apply Hm. Qed.
Lemma ends_of_option {S A} (x : option A) (s : S) (Q : A -> S -> Prop) :
  (forall a, x = Some a -> Q a s) -> ends (of_option x) s Q.
Proof. intros HQ. destruct x; [|done]. apply ends_ret. by apply HQ. Qed.
Lemma ends_gets {S A} (f : S -> A) (s : S) (Q : A -> S -> Prop) : Q (f s) s -> ends (gets f) s Q.
Proof. by intros HQ ? ? [= <- <-]. Qed.
Lemma ends_modify {S} (f : S -> S) (s : S) (Q : unit -> S -> Prop) : Q tt (f s) -> ends (modify f) s Q.
Proof. by intros HQ ? ? [= <- <-]. Qed.
Lemma ends_zoom {S T A} (get : S -> T) set (m : M T A) s (Q : A -> S -> Prop) :
  ends m (get s) (fun a t => Q a (set t s)) -> ends (zoom get set m) s Q.
Proof. intros Hm a s'. unfold zoom. destruct (m (get s)) as [[a' t]| | |] eqn:E; [|done..]. intros [= <- <-]. by apply Hm. Qed.
Lemma ends_any {S A} (m : M S A) s (Q : A -> S -> Prop) : (forall a s', Q a s') -> ends m s Q.
Proof. intros HQ a s' _. apply HQ. Qed.

(** The pthreads and the port an [IocpThread] holds. *)
Definition it_pthreads (t : IocpThread) : list Z := mjoin (unjoined <$> it_threads t).
Definition it_port (t : IocpThread) : list Z := if it_iocp t =? 0 then [] else [it_iocp t].

Definition it_ok (t : IocpThread) : Prop :=
  0 <= it_iocp t /\
  if it_shutdown t then it_threads t = [] else threads_in alive_or_active (it_running_threads t) (it_threads t).

(** What the calls [t] did with ports and pthreads is what the object held before and holds after. *)
Definition settled (p h : list Z) (t : list (syscall * sysret)) (p' h' : list Z) : Prop :=
  p ++ ports_opened t = ports_closed t ++ p' /\ h ++ created t = joined t ++ h'.

Lemma settled_app p h t p1 h1 t' p2 h2 :
  settled p h t p1 h1 -> settled p1 h1 t' p2 h2 -> settled p h (t ++ t') p2 h2.
Proof.
  intros [Hp Hh] [Hp' Hh']. unfold settled, ports_opened, ports_closed, created, joined in *.
  rewrite !omap_app, !(assoc_L app p), !(assoc_L app h), Hp, Hh, <- !(assoc_L app), Hp', Hh'. done.
Qed.

Lemma settled_nil p h : settled p h [] p h.
Proof. split; cbn; by rewrite app_nil_r. Qed.

(** Threads only. *)
Definition thread_call (c : syscall) : bool := match c with SysPthreadCreate | SysPthreadJoin _ => true | _ => false end.
Definition thread_calls (t : list (syscall * sysret)) : Prop := Forall (fun e => thread_call e.1 = true) t.

Lemma thread_calls_ports t : thread_calls t -> ports_opened t = [] /\ ports_closed t = [].
Proof. unfold ports_opened, ports_closed. induction 1 as [|[c r] t Hc _ [IH1 IH2]]; [done|]. by destruct c. Qed.

Section OneThread.
Context {K : Type} `{Kernel K} `{WinLibC} `{!KernelThreads}.

(** Whatever it does, [m] makes calls on threads only. *)
Definition only_threads {A} (m : M (os K) A) : Prop := forall o, match m o with
  | Ret (_, o') => exists t, os_trace o' = os_trace o ++ t /\ thread_calls t
  | _ => True
  end.

Lemma only_threads_ret {A} (a : A) : only_threads (mret a).
Proof using Type. intros o. exists []. split; [by rewrite app_nil_r|constructor]. Qed.
Lemma only_threads_bind {A B} (m : M (os K) A) (f : A -> M (os K) B) :
  only_threads m -> (forall a, only_threads (f a)) -> only_threads (m ≫= f).
Proof using Type.
  intros Hm Hf o. specialize (Hm o). unfold mbind, M_bind. destruct (m o) as [[a o1]| | |]; try done.
  destruct Hm as (t & E & Ht). specialize (Hf a o1). destruct (f a o1) as [[b o2]| | |]; try done.
  destruct Hf as (t' & E' & Ht'). exists (t ++ t'). split; [by rewrite E', E, app_assoc|by apply Forall_app].
Qed.
Lemma only_threads_call c : thread_call c = true -> only_threads (call c).
Proof using Type. intros Hc o. unfold call. destruct (sys_call (os_kernel o) c) as [r k]. eexists [_]. split; [done|by repeat constructor]. Qed.
Lemma only_threads_assert b : only_threads (raptor_assert b).
Proof using Type. destruct b; [apply only_threads_ret|done]. Qed.

Local Hint Resolve only_threads_ret only_threads_call only_threads_assert only_threads_bind : core.

Lemma only_threads_create n : only_threads (create_threads (K := K) n).
Proof using Type.
  induction n as [|n IH]; cbn [create_threads]; [done|]. apply only_threads_bind.
  { unfold Thread_new, InternalThreadImpl_new. auto. }
  intros [t []]; [|done]. apply only_threads_bind; [done|]. by intros [].
Qed.

Lemma only_threads_join n : forall ts, only_threads (join_threads (K := K) n ts).
Proof using Type.
  induction n as [|n IH]; intros ts; cbn [join_threads]; [done|]. destruct ts as [|t ts]; [done|].
  apply only_threads_bind; [|auto]. unfold Thread_Join, Impl_Join. destruct (th_impl t); [|auto].
  apply only_threads_bind; [|done]. destruct (negb _); auto.
Qed.

(** Starting threads some of which may run already. *)
Lemma start_threads_runs n : forall ts o, threads_in alive_or_active n ts ->
  runs (start_threads (K := K) n ts) o (fun ts' o' => o' = o /\ threads_in alive_or_active n ts' /\
    mjoin (unjoined <$> ts') = mjoin (unjoined <$> ts)).
Proof using Type.
  induction n as [|n IH]; intros ts o Hin; cbn [start_threads].
  { apply runs_wp, wp_ret. done. }
  destruct (threads_in_inv _ _ _ Hin) as (t & ts' & -> & Hw & Hs & Hi & Hin'). apply runs_bind.
  destruct Hs as [Hs|Hs].
  - apply runs_wp. eapply wp_mono; [apply Thread_Start_spec; auto|]. intros t1 o1 (-> & Hw1 & Hu & Hs1).
    apply runs_bind. eapply runs_mono; [by apply IH|]. intros ts1 o2 (-> & Hin1 & Hu1). apply runs_wp, wp_ret.
    destruct Hi as [i Hi]. rewrite Hi in Hs1. split; [done|]. split; [|by rewrite !unjoined_cons, Hu, Hu1].
    apply threads_in_cons; [done|by right| |done]. unfold Thread_wf in Hw1. unfold unjoined in Hu. rewrite Hi in Hu.
    by destruct (th_impl t1).
  - destruct Hi as [i Hi]. unfold Thread_Start, runs. rewrite Hi. unfold mbind, M_bind, raptor_assert.
    rewrite bool_decide_eq_false_2; [done|]. by rewrite Hs.
Qed.

(** What an operation of an [IocpThread] did. *)
Definition it_post (t : IocpThread) (o : os K) {A} (_ : A) (t' : IocpThread) (o' : os K) : Prop :=
  exists tr, os_trace o' = os_trace o ++ tr /\ settled (it_port t) (it_pthreads t) tr (it_port t') (it_pthreads t') /\
    it_ok t' /\ it_enable_timeout_check t' = it_enable_timeout_check t.

Lemma Iocp_create_spec max handle o :
  0 <= handle ->
  wp (Iocp_create max handle) o (fun '(e, h) o' => exists tr, os_trace o' = os_trace o ++ tr /\ 0 <= h /\
    created tr = [] /\ joined tr = [] /\ ports_closed tr = [] /\
    (if handle =? 0 then [] else [handle]) ++ ports_opened tr = (if h =? 0 then [] else [h]) /\ (e = None -> h <> 0)).
Proof using Type.
  intros Hh. unfold Iocp_create. destruct (Z.eqb_spec handle 0) as [->|Hne].
  - apply wp_bind. unfold call_handle, call_ret. apply wp_bind, wp_bind. unfold call, wp at 1.
    destruct (sys_call (os_kernel o) _) as [r k]. apply wp_ret, wp_ret.
    destruct (Z.eqb_spec (Z.max 0 (r_ret r)) 0) as [Hz|Hz].
    + unfold last_error. apply wp_bind, wp_bind, wp_gets, wp_ret, wp_ret. eexists [_]. split; [done|]. rewrite Hz.
      unfold ports_opened, port_opened_by. cbn. rewrite (proj2 (Z.ltb_ge _ _)) by lia. done.
    + apply wp_ret. eexists [_]. split; [done|]. unfold ports_opened, port_opened_by. cbn.
      rewrite (proj2 (Z.ltb_lt _ _)) by lia. rewrite Z.max_r by lia. rewrite (proj2 (Z.eqb_neq _ _)) by lia.
      split_and!; try done; lia.
  - apply wp_ret. exists []. rewrite !app_nil_r, (proj2 (Z.eqb_neq _ _) Hne). done.
Qed.

Lemma IocpThread_Init_spec rs kernel t o :
  it_ok t -> runs (IocpThread_Init rs kernel t) o (fun '(e, t') o' => it_post t o e t' o').
Proof.
  intros [Hp Ht]. unfold IocpThread_Init. destruct (it_shutdown t) eqn:Es; cbn [negb].
  2: { apply runs_wp, wp_ret. exists []. rewrite app_nil_r. split_and!; [done|apply settled_nil|by split; rewrite ?Es|done]. }
  apply runs_bind, runs_wp. eapply wp_mono; [by apply Iocp_create_spec|]. intros [e h] o1 (t1 & E1 & Hh & Hc & Hj & Hcl & Hop & He).
  assert (settled (it_port t) (it_pthreads t) t1 (if h =? 0 then [] else [h]) []) as Hset.
  { split; [by rewrite Hcl|]. unfold it_pthreads. by rewrite Ht, Hc, Hj. }
  destruct e as [s|].
  { apply runs_wp, wp_ret. exists t1. split_and!; [done| |split; [done|by cbn; rewrite Es]|done].
    replace (it_pthreads (it_set_iocp h t)) with (@nil Z) by (unfold it_pthreads; cbn; by rewrite Ht). exact Hset. }
  destruct (2 ^ 59 <=? rs); [done|]. apply runs_bind, runs_wp.
  pose proof (create_threads_spec (Z.to_nat rs) o1) as Hcr. pose proof (only_threads_create (Z.to_nat rs) o1) as Hot. unfold wp in *.
  destruct (create_threads (Z.to_nat rs) o1) as [[[ts running] o2]| | |]; [|done..].
  destruct Hcr as (t2 & E2 & Hin & Hc2 & Hj2 & _). destruct Hot as (t2' & E2' & Hot).
  rewrite E2 in E2'. apply app_inv_head in E2' as <-. destruct (thread_calls_ports _ Hot) as [Hop2 Hcl2].
  set (t' := {| it_shutdown := false |}).
  assert (it_post t o (RAPTOR_ERROR_NONE) t' o2) as Hpost.
  { exists (t1 ++ t2). split; [by rewrite E2, E1, app_assoc|]. split; [|split; [split; [done|]|done]].
    - eapply settled_app; [exact Hset|]. split; [by rewrite Hop2, Hcl2, app_nil_r|by rewrite Hc2, Hj2].
    - cbn. destruct Hin as (Hl & Hf & Hr). split; [done|]. split; [|done].
      eapply Forall_impl; [exact Hf|]. cbn. intros x (? & ? & ?). auto. }
  destruct (running =? 0)%nat; apply runs_wp, wp_ret; exact Hpost.
Qed.

Lemma IocpThread_Start_spec t o :
  it_ok t -> runs (IocpThread_Start t) o (fun '(e, t') o' => it_post t o e t' o').
Proof using Type.
  intros [Hp Ht]. unfold IocpThread_Start. destruct (it_shutdown t) eqn:Es.
  { apply runs_wp, wp_ret. exists []. rewrite app_nil_r. split_and!; [done|apply settled_nil|by split; rewrite ?Es|done]. }
  apply runs_bind. eapply runs_mono; [by apply start_threads_runs|]. intros ts o1 (-> & Hin & Hu). apply runs_wp, wp_ret.
  exists []. rewrite app_nil_r. split_and!; [done| |split; [done|exact Hin]|done].
  change (it_pthreads (it_set_threads false ts t)) with (mjoin (unjoined <$> ts)). rewrite Hu. apply settled_nil.
Qed.

Lemma IocpThread_Shutdown_spec t o :
  it_ok t -> wp (IocpThread_Shutdown t) o (fun t' o' => it_post t o tt t' o' /\ it_shutdown t' = true /\ it_iocp t' = it_iocp t).
Proof using Type.
  intros [Hp Ht]. unfold IocpThread_Shutdown. destruct (it_shutdown t) eqn:Es; cbn [negb].
  { apply wp_ret. split; [|done]. exists []. rewrite app_nil_r. split_and!; [done|apply settled_nil|by split; rewrite ?Es|done]. }
  apply wp_bind. unfold Iocp_post, call_ret. apply wp_bind, wp_bind. unfold call, wp at 1.
  destruct (sys_call (os_kernel o) _) as [r k]. apply wp_ret, wp_ret, wp_bind.
  set (o1 := {| os_kernel := k |}).
  pose proof (join_threads_spec _ _ o1 Ht) as Hjs. pose proof (only_threads_join (it_running_threads t) (it_threads t) o1) as Hot.
  unfold wp in *. destruct (join_threads _ _ o1) as [[ts o2]| | |]; [|done..]. destruct Hjs as (t2 & E2 & Hj2 & Hc2 & _).
  destruct Hot as (t2' & E2' & Hot). rewrite E2 in E2'. apply app_inv_head in E2' as <-.
  destruct (thread_calls_ports _ Hot) as [Hop2 Hcl2]. cbn. split; [|done].
  eexists (_ :: t2). split; [rewrite E2; cbn; by rewrite <- app_assoc|]. split; [|done]. split.
  - cbn. fold (ports_opened t2) (ports_closed t2). by rewrite Hop2, Hcl2, app_nil_r.
  - cbn. fold (created t2) (joined t2). rewrite Hc2, Hj2, !app_nil_r. done.
Qed.

(** Deleting the object closes its port. *)
Lemma IocpThread_dtor_spec t o :
  it_ok t -> wp (IocpThread_dtor t) o (fun _ o' => exists tr, os_trace o' = os_trace o ++ tr /\
    settled (it_port t) (it_pthreads t) tr [] []).
Proof using Type.
  intros Ht. unfold IocpThread_dtor. apply wp_bind.
  assert (wp (if negb (it_shutdown t) then IocpThread_Shutdown t else mret t) o
    (fun t' o' => it_post t o tt t' o' /\ it_shutdown t' = true)) as Hsd.
  { destruct (it_shutdown t) eqn:Es; cbn [negb].
    - apply wp_ret. split; [|done]. exists []. rewrite app_nil_r. split_and!; [done|apply settled_nil|done|done].
    - eapply wp_mono; [by apply IocpThread_Shutdown_spec|]. intros t' o' (? & ? & _). done. }
  eapply wp_mono; [exact Hsd|]. intros t' o1 ((t1 & E1 & Hs1 & [Hp1 Hth1] & _) & Esd). rewrite Esd in Hth1.
  unfold Iocp_dtor, it_port in *. destruct (Z.eqb_spec (it_iocp t') 0) as [Hz|Hz]; cbn [negb].
  - apply wp_ret. exists t1. split; [done|]. unfold it_pthreads in Hs1. by rewrite Hth1 in Hs1.
  - unfold call_ret. apply wp_bind, wp_bind. unfold call, wp at 1. destruct (sys_call (os_kernel o1) _) as [r k].
    apply wp_ret, wp_ret. eexists (t1 ++ [_]). split; [cbn; by rewrite E1, <- app_assoc|].
    eapply settled_app; [exact Hs1|]. unfold it_pthreads. rewrite Hth1. by split.
Qed.
End OneThread.

(** ** All the objects' resources *)

Section PollTheorems.
Context {K : Type} `{Kernel K} `{WinLibC} `{!KernelThreads}.
Implicit Types w : iocp_world K.

Definition iw_trace w : list (syscall * sysret) := os_trace (iw_os w).

(** The adaptor [a], what it holds, and that no worker checks for timeouts. *)
Record adaptor_inv w (a : IocpThreadAdaptor) : Prop := {
  av_adaptor : iw_adaptor w = Some a;
  av_ok : it_ok (ad_iocp a);
  av_timeout : it_enable_timeout_check (ad_iocp a) = false;
  av_settled : settled [] [] (iw_trace w) (it_port (ad_iocp a)) (it_pthreads (ad_iocp a));
}.

(** Between the operations: the adaptor lives as long as there are objects, and they are
    its references; one of them at most started the workers. *)
Record polls_inv w : Prop := {
  pv_count : iw_count w = Z.of_nat (size (iw_instances w));
  pv_adaptor : if bool_decide (iw_instances w = ∅) then iw_adaptor w = None /\ settled [] [] (iw_trace w) [] []
               else exists a, adaptor_inv w a /\ ad_refs a = iw_count w;
  pv_first : forall x y p q, iw_instances w !! x = Some p -> iw_instances w !! y = Some q ->
    pi_instance_id p = 1 -> pi_instance_id q = 1 -> x = y;
}.

(** The two worlds have the same objects. *)
Definition same_polls w w' : Prop := iw_instances w' = iw_instances w /\ iw_count w' = iw_count w.

Lemma polls_inv_adaptor w x p : polls_inv w -> iw_instances w !! x = Some p ->
  exists a, adaptor_inv w a /\ ad_refs a = iw_count w.
Proof using Type.
  intros [_ Ha _] Hx. rewrite bool_decide_eq_false_2 in Ha; [done|]. intros E. by rewrite E in Hx.
Qed.

Lemma polls_inv_same w w' a a' :
  polls_inv w -> same_polls w w' -> adaptor_inv w a -> adaptor_inv w' a' -> ad_refs a = iw_count w -> ad_refs a' = ad_refs a -> polls_inv w'.
Proof using Type.
  intros [Hc Ha Hf] [Ei Ec] Hav Hav' Hr Hr'. split; [by rewrite Ec, Ei| |by rewrite Ei].
  rewrite Ei in *. case_bool_decide; [by destruct Ha as [Ha _]; rewrite (av_adaptor _ _ Hav) in Ha|].
  exists a'. by rewrite Ec, Hr'.
Qed.

Lemma the_adaptor_wp w a Q : iw_adaptor w = Some a -> Q a w -> wp the_adaptor w Q.
Proof using Type. intros Ha HQ. unfold the_adaptor. apply wp_bind, wp_gets, wp_of_option. by exists a. Qed.

(** A method that leaves the threads and the port alone. *)
Lemma on_adaptor_spec w a f (Q : unit -> iocp_world K -> Prop) :
  adaptor_inv w a -> ad_iocp (f a) = ad_iocp a ->
  (forall w', same_polls w w' -> iw_os w' = iw_os w -> adaptor_inv w' (f a) -> Q tt w') -> wp (on_adaptor f) w Q.
Proof using Type.
  intros [Ha Hok Ht Hs] Ef HQ. unfold on_adaptor. apply wp_bind. eapply the_adaptor_wp; [exact Ha|]. apply wp_modify, HQ; [done..|].
  split; cbn; by rewrite ?Ef.
Qed.

(** Once the method of [_iocp] has returned. *)
Lemma on_iocp_after {A} w a (r : A) t' o' (Q : A -> iocp_world K -> Prop) (P : IocpThread -> Prop) :
  adaptor_inv w a -> it_post (ad_iocp a) (iw_os w) r t' o' /\ P t' ->
  (forall r w' a', same_polls w w' -> adaptor_inv w' a' -> ad_refs a' = ad_refs a -> P (ad_iocp a') -> Q r w') ->
  wp (_ ← on_adaptor (ad_set_iocp t'); mret r) (iw_with_os o' w) Q.
Proof using Type.
  intros [Ha Hok Ht Hs] ((tr & E & Hset & Hok' & Et) & HP) HQ. apply wp_bind. unfold on_adaptor. apply wp_bind.
  eapply the_adaptor_wp; [exact Ha|]. apply wp_modify, wp_ret. apply (HQ r _ (ad_set_iocp t' a)); [done| |done|done].
  split; cbn; [done|done|by rewrite Et|]. unfold iw_trace. cbn. rewrite E. by eapply settled_app.
Qed.

Lemma on_iocp_spec {A} w a (m : IocpThread -> M (os K) (A * IocpThread)) (Q : A -> iocp_world K -> Prop) (P : IocpThread -> Prop) :
  adaptor_inv w a ->
  runs (m (ad_iocp a)) (iw_os w) (fun '(r, t') o' => it_post (ad_iocp a) (iw_os w) r t' o' /\ P t') ->
  (forall r w' a', same_polls w w' -> adaptor_inv w' a' -> ad_refs a' = ad_refs a -> P (ad_iocp a') -> Q r w') ->
  runs (on_iocp m) w Q.
Proof using Type.
  intros Ha Hm HQ. unfold on_iocp. apply runs_bind_wp. eapply the_adaptor_wp; [apply Ha|].
  apply runs_bind, runs_zoom. eapply runs_mono; [exact Hm|]. intros [r t'] o' Hp. apply runs_wp. by eapply on_iocp_after.
Qed.

Lemma on_iocp_wp {A} w a (m : IocpThread -> M (os K) (A * IocpThread)) (Q : A -> iocp_world K -> Prop) (P : IocpThread -> Prop) :
  adaptor_inv w a ->
  wp (m (ad_iocp a)) (iw_os w) (fun '(r, t') o' => it_post (ad_iocp a) (iw_os w) r t' o' /\ P t') ->
  (forall r w' a', same_polls w w' -> adaptor_inv w' a' -> ad_refs a' = ad_refs a -> P (ad_iocp a') -> Q r w') ->
  wp (on_iocp m) w Q.
Proof using Type.
  intros Ha Hm HQ. unfold on_iocp. apply wp_bind. eapply the_adaptor_wp; [apply Ha|].
  apply wp_bind. unfold iw_sys. apply wp_zoom. eapply wp_mono; [exact Hm|]. intros [r t'] o' Hp. by eapply on_iocp_after.
Qed.

Lemma instance_wp w x p Q : iw_instances w !! x = Some p -> Q p w -> wp (instance x) w Q.
Proof using Type. intros Hx HQ. unfold instance. apply wp_bind, wp_gets, wp_of_option. by exists p. Qed.

Lemma Adaptor_Shutdown_spec w a (Q : unit -> iocp_world K -> Prop) :
  adaptor_inv w a ->
  (forall w' a', same_polls w w' -> adaptor_inv w' a' -> ad_refs a' = ad_refs a -> it_shutdown (ad_iocp a') = true -> Q tt w') ->
  wp Adaptor_Shutdown w Q.
Proof using Type.
  intros Ha HQ. unfold Adaptor_Shutdown.
  eapply (on_iocp_wp _ _ _ _ (fun t => it_shutdown t = true)); [exact Ha| |intros [] w' a'; apply HQ].
  apply wp_bind. eapply wp_mono; [by apply IocpThread_Shutdown_spec, (av_ok _ _ Ha)|]. intros t' o' (Hp & Es & _).
  by apply wp_ret.
Qed.

(** The workers are gone. *)
Definition workers_stopped w : Prop := exists a, iw_adaptor w = Some a /\ it_shutdown (ad_iocp a) = true.

Lemma WinPoll_Shutdown_spec w x p (Q : unit -> iocp_world K -> Prop) :
  polls_inv w -> iw_instances w !! x = Some p ->
  (forall w', polls_inv w' ->
     iw_instances w' = <[x := {| pi_service := pi_service p; pi_instance_id := 0 |}]> (iw_instances w) ->
     (pi_instance_id p = 1 \/ workers_stopped w -> workers_stopped w') -> Q tt w') ->
  wp (WinPoll_Shutdown x) w Q.
Proof using Type.
  intros Hw Hx HQ. destruct (polls_inv_adaptor _ _ _ Hw Hx) as (a & Ha & Hr). unfold WinPoll_Shutdown. apply wp_bind.
  eapply instance_wp; [exact Hx|]. destruct (Z.eqb_spec (pi_instance_id p) 0) as [Hz|Hz].
  { apply wp_ret, HQ; [done| |by rewrite Hz; intros [?|?]]. rewrite insert_id; [done|]. rewrite Hx, <- Hz. by destruct p. }
  assert (forall w' a', same_polls w w' -> adaptor_inv w' a' -> ad_refs a' = ad_refs a ->
    (pi_instance_id p = 1 \/ workers_stopped w -> it_shutdown (ad_iocp a') = true) ->
    wp (modify (fun w => iw_set_instances (iw_count w)
      (<[x := {| pi_service := pi_service p; pi_instance_id := 0 |}]> (iw_instances w)) w)) w' Q) as Hrest.
  { intros w' a' [Ei Ec] Ha' Hr' Hs. apply wp_modify, HQ.
    - destruct Hw as [Hc _ Hf]. split; cbn.
      + rewrite Ec, Ei, map_size_insert_Some by by eexists. done.
      + rewrite bool_decide_eq_false_2 by apply insert_non_empty. exists a'. split; [by destruct Ha'; split|by rewrite Hr', Ec].
      + rewrite Ei. intros y z q q' Hy Hz'. rewrite !lookup_insert_Some in Hy, Hz'.
        destruct Hy as [[<- <-]|[? Hy]], Hz' as [[<- <-]|[? Hz']]; try done. by eapply Hf.
    - cbn. by rewrite Ei.
    - intros E1. exists a'. cbn. split; [apply Ha'|by apply Hs]. }
  apply wp_bind. destruct (Z.eqb_spec (pi_instance_id p) 1) as [H1'|H1'].
  - eapply Adaptor_Shutdown_spec; [exact Ha|]. intros w' a' Hsame Ha' Hr' Hs. by eapply Hrest.
  - apply wp_ret. eapply (Hrest w a); [done|exact Ha|done|]. intros [?|(a' & Ea' & Es)]; [done|].
    rewrite (av_adaptor _ _ Ha) in Ea'. by injection Ea' as <-.
Qed.

Lemma Adaptor_dtor_spec w a (Q : unit -> iocp_world K -> Prop) :
  adaptor_inv w a ->
  (forall w', same_polls w w' -> iw_adaptor w' = None -> settled [] [] (iw_trace w') [] [] -> Q tt w') ->
  wp Adaptor_dtor w Q.
Proof using Type.
  intros Ha HQ. unfold Adaptor_dtor. apply wp_bind. eapply Adaptor_Shutdown_spec; [exact Ha|].
  intros w1 a1 Hsame Ha1 _ _. apply wp_bind. eapply the_adaptor_wp; [apply Ha1|]. apply wp_bind.
  unfold iw_sys. apply wp_zoom. eapply wp_mono; [by apply IocpThread_dtor_spec, (av_ok _ _ Ha1)|].
  intros _ o' (tr & E & Hs). apply wp_modify, HQ; [done|done|]. unfold iw_trace. cbn. rewrite E.
  eapply settled_app; [apply Ha1|exact Hs].
Qed.

(** Few enough objects that the counts do not wrap. *)
Definition few_polls w : Prop := (Z.of_nat (size (iw_instances w)) < 2 ^ 31 - 1)%Z.

Lemma WinPoll_new_spec w x service exit (Q : unit -> iocp_world K -> Prop) :
  polls_inv w -> few_polls w -> iw_instances w !! x = None ->
  (forall w' p, polls_inv w' -> iw_instances w' = <[x := p]> (iw_instances w) -> iw_os w' = iw_os w ->
     (iw_instances w <> ∅ -> (pi_instance_id p <> 1) /\ exists a a', iw_adaptor w = Some a /\ iw_adaptor w' = Some a' /\ ad_iocp a' = ad_iocp a) ->
     Q tt w') ->
  wp (WinPoll_new x service exit) w Q.
Proof using Type.
  intros Hw Hfew Hx HQ. unfold few_polls in Hfew. pose proof Hw as [Hc Ha Hf]. unfold WinPoll_new. apply wp_bind, wp_gets. unfold id. cbv zeta.
  assert (size (iw_instances w) = 0%nat <-> iw_instances w = ∅) as Hsz by (split; [apply map_size_empty_inv|intros ->; apply map_size_empty]).
  assert (i32 (iw_count w + 1) = iw_count w + 1) as Hi by (apply swrap_small; lia). rewrite Hi.
  set (p := {| pi_service := service |}).
  assert (forall w1 a1, same_polls w w1 -> iw_os w1 = iw_os w -> adaptor_inv w1 a1 -> ad_refs a1 = iw_count w + 1 ->
    (iw_instances w <> ∅ -> exists a, iw_adaptor w = Some a /\ ad_iocp a1 = ad_iocp a) ->
    wp (modify (fun w => iw_set_instances (i32 (iw_count w + 1)) (<[x := p]> (iw_instances w)) w)) w1 Q) as Hrest.
  { intros w1 a1 [Ei Ec] Eo Ha1 Hr Hsame. apply wp_modify, (HQ _ p).
    - split; cbn.
      + rewrite Ec, Hi, Ei, map_size_insert_None by done. lia.
      + rewrite bool_decide_eq_false_2 by apply insert_non_empty. exists a1. split; [by destruct Ha1; split|by rewrite Ec, Hi, Hr].
      + rewrite Ei. assert (forall z q, iw_instances w !! z = Some q -> pi_instance_id p <> 1) as Hp1.
        { intros z q Hz. cbn. assert (size (iw_instances w) <> 0)%nat by (rewrite Hsz; intros E; by rewrite E in Hz). lia. }
        intros y z q q' Hy Hz. rewrite !lookup_insert_Some in Hy, Hz.
        destruct Hy as [[<- <-]|[? Hy]], Hz as [[<- <-]|[? Hz]]; try done; [by apply Hp1 in Hz|by apply Hp1 in Hy|by eapply Hf].
    - cbn. by rewrite Ei.
    - done.
    - intros Hne. destruct (Hsame Hne) as (a & Ea & Eq). split.
      + cbn. assert (size (iw_instances w) <> 0)%nat by by rewrite Hsz. lia.
      + exists a, a1. split_and!; [done|apply Ha1|done]. }
  apply wp_bind. destruct (Z.eqb_spec (iw_count w) 0) as [Hz|Hz].
  - assert (iw_instances w = ∅) as He by (apply Hsz; lia). rewrite bool_decide_eq_true_2 in Ha by done. destruct Ha as [_ Hs].
    apply wp_modify. apply (Hrest _ (IocpThreadAdaptor_new exit)); [done|done| |by rewrite Hz|done].
    split; [done| |done|exact Hs]. by split.
  - rewrite bool_decide_eq_false_2 in Ha by (rewrite <- Hsz; lia). destruct Ha as (a & Ha & Hr).
    unfold Adaptor_RefIfNonZero. apply wp_bind, wp_bind. eapply the_adaptor_wp; [apply Ha|]. rewrite Hr, (proj2 (Z.eqb_neq _ _) Hz).
    apply wp_bind. eapply on_adaptor_spec; [exact Ha|done|]. intros w1 Hsame Eo Ha1. apply wp_ret, wp_ret.
    apply (Hrest w1 _ Hsame Eo Ha1); [cbn; apply swrap_small; lia|]. intros _. exists a. split; [apply Ha|done].
Qed.

Lemma WinPoll_dtor_spec w x p (Q : unit -> iocp_world K -> Prop) :
  polls_inv w -> few_polls w -> iw_instances w !! x = Some p ->
  (forall w', polls_inv w' -> iw_instances w' = delete x (iw_instances w) ->
    (pi_instance_id p = 1 \/ workers_stopped w -> delete x (iw_instances w) <> ∅ -> workers_stopped w') ->
    Q tt w') ->
  wp (WinPoll_dtor x) w Q.
Proof using Type.
  intros Hw Hfew Hx HQ. unfold few_polls in Hfew. unfold WinPoll_dtor. apply wp_bind. eapply WinPoll_Shutdown_spec; [done..|].
  intros w1 Hw1 Ei1 Hs1. set (p0 := {| pi_service := pi_service p; pi_instance_id := 0 |}) in *.
  assert (iw_instances w1 !! x = Some p0) as Hx1 by (rewrite Ei1; apply lookup_insert_eq).
  assert (delete x (iw_instances w1) = delete x (iw_instances w)) as Ed by (rewrite Ei1; apply delete_insert_eq).
  assert (size (iw_instances w1) = size (iw_instances w)) as Esz by (rewrite Ei1; apply map_size_insert_Some; by eexists).
  destruct (polls_inv_adaptor _ _ _ Hw1 Hx1) as (a & Ha & Hr). pose proof Hw1 as [Hc _ Hf].
  assert (size (iw_instances w1) = S (size (delete x (iw_instances w)))) as Hsz.
  { rewrite <- Ed, map_size_delete_Some by by eexists. assert (size (iw_instances w1) <> 0)%nat; [|lia].
    intros E%map_size_empty_inv. by rewrite E in Hx1. }
  assert (i32 (iw_count w1 - 1) = iw_count w1 - 1) as Hi by (apply swrap_small; lia).
  apply wp_bind, wp_modify. set (w2 := iw_set_instances _ _ w1).
  assert (adaptor_inv w2 a) as Ha2 by (destruct Ha; by split).
  assert (forall y z q q', delete x (iw_instances w) !! y = Some q -> delete x (iw_instances w) !! z = Some q' ->
    pi_instance_id q = 1 -> pi_instance_id q' = 1 -> y = z) as Hfirst.
  { intros y z q q'. rewrite <- Ed, !lookup_delete_Some. intros [_ Hy] [_ Hz]. by eapply Hf. }
  unfold Adaptor_Unref. apply wp_bind. eapply the_adaptor_wp; [apply Ha2|]. apply wp_bind.
  eapply on_adaptor_spec; [exact Ha2|done|]. intros w3 [Ei3 Ec3] _ Ha3. cbn in Ei3, Ec3. rewrite Ed in Ei3. rewrite Hi in Ec3.
  destruct (Z.eqb_spec (ad_refs a) 1) as [H1'|H1'].
  - assert (delete x (iw_instances w) = ∅) as He by (apply map_size_empty_inv; lia).
    eapply Adaptor_dtor_spec; [exact Ha3|]. intros w4 [Ei4 Ec4] Ea4 Hs4. apply HQ; [|by rewrite Ei4, Ei3|done].
    split; [rewrite Ec4, Ec3, Ei4, Ei3; lia| |by rewrite Ei4, Ei3].
    rewrite Ei4, Ei3, bool_decide_eq_true_2 by done. done.
  - assert (delete x (iw_instances w) <> ∅) as Hne.
    { intros E. rewrite E, map_size_empty in Hsz. lia. }
    apply wp_ret, HQ; [|done|].
    + split; [rewrite Ec3, Ei3; lia| |by rewrite Ei3]. rewrite Ei3, bool_decide_eq_false_2 by done.
      eexists. split; [exact Ha3|]. cbn. rewrite Hr, Ec3. apply swrap_small; lia.
    + intros Hp1 _. destruct (Hs1 Hp1) as (a' & Ea' & Es). rewrite (av_adaptor _ _ Ha) in Ea'. injection Ea' as <-.
      eexists. split; [apply Ha3|]. done.
Qed.

(** What an operation that creates no pthread did. *)
Definition quiet_step w w' : Prop :=
  polls_inv w' /\ same_polls w w' /\ (exists t, iw_trace w' = iw_trace w ++ t /\ created t = []) /\
  (forall a, iw_adaptor w = Some a -> exists a', iw_adaptor w' = Some a' /\ ad_iocp a' = ad_iocp a).

Lemma quiet_step_refl w : polls_inv w -> quiet_step w w.
Proof using Type.
  intros Hw. split; [done|]. split; [done|]. split; [exists []; by rewrite app_nil_r|]. intros a Ea. by exists a.
Qed.

(** A method that leaves the threads and the port alone. *)
Lemma quiet_on_adaptor w a f (Q : unit -> iocp_world K -> Prop) :
  polls_inv w -> adaptor_inv w a -> ad_refs a = iw_count w -> ad_iocp (f a) = ad_iocp a -> ad_refs (f a) = ad_refs a ->
  (forall w', quiet_step w w' -> Q tt w') -> wp (on_adaptor f) w Q.
Proof using Type.
  intros Hw Ha Hr Ef Ef' HQ. eapply on_adaptor_spec; [exact Ha|done|]. intros w' Hsame Eo Ha'. apply HQ.
  split; [by eapply polls_inv_same|]. split; [done|]. split; [exists []; by rewrite app_nil_r; unfold iw_trace; rewrite Eo|].
  intros a' Ea'. rewrite (av_adaptor _ _ Ha) in Ea'. injection Ea' as <-. exists (f a). split; [apply Ha'|done].
Qed.

Lemma IocpThread_Add_spec sock key t o :
  wp (IocpThread_Add sock key t) o (fun _ o' => exists tr, os_trace o' = os_trace o ++ tr /\
    created tr = [] /\ forall p h, settled p h tr p h).
Proof using Type.
  unfold IocpThread_Add, Iocp_add. destruct (Z.eqb_spec (it_iocp t) 0) as [Hz|Hz].
  - apply wp_ret. exists []. rewrite app_nil_r. split_and!; try done. intros. apply settled_nil.
  - unfold call_handle, call_ret. apply wp_bind, wp_bind, wp_bind. unfold call, wp at 1. destruct (sys_call (os_kernel o) _) as [r k].
    apply wp_ret, wp_ret, wp_ret. eexists [_]. split; [done|]. split; [done|]. intros q h. split; [|by rewrite app_nil_r].
    unfold ports_opened, port_opened_by. cbn. rewrite (proj2 (Z.eqb_neq _ _) Hz). by rewrite app_nil_r.
Qed.

Lemma WinPoll_Add_spec w x p sock key type (Q : bool -> iocp_world K -> Prop) :
  polls_inv w -> iw_instances w !! x = Some p ->
  (forall r w', quiet_step w w' -> Q r w') -> wp (WinPoll_Add x sock key type) w Q.
Proof using Type.
  intros Hw Hx HQ. destruct (polls_inv_adaptor _ _ _ Hw Hx) as (a & Ha & Hr). unfold WinPoll_Add. apply wp_bind.
  eapply instance_wp; [exact Hx|]. destruct (_ =? 0); [by apply wp_ret, HQ, quiet_step_refl|].
  unfold Adaptor_Add. apply wp_bind. eapply the_adaptor_wp; [apply Ha|]. apply wp_bind. unfold iw_sys. apply wp_zoom.
  eapply wp_mono; [apply IocpThread_Add_spec|]. intros r o' (t & E & Hcr & Hset).
  assert (adaptor_inv (iw_with_os o' w) a) as Ha1.
  { destruct Ha as [? ? ? Hs]. split; [done..|]. unfold iw_trace. cbn. rewrite E. eapply settled_app; [exact Hs|apply Hset]. }
  apply wp_bind. eapply quiet_on_adaptor; [by eapply polls_inv_same|exact Ha1|done..|].
  intros w' (Hw' & [Ei Ec] & (t' & E' & Hcr') & Had). apply wp_ret, HQ.
  split; [done|]. split; [done|]. split; [|done]. exists (t ++ t'). unfold iw_trace in *. cbn in E'. rewrite E', E, app_assoc.
  split; [done|]. unfold created in *. by rewrite omap_app, Hcr, Hcr'.
Qed.

Lemma WinPoll_Delete_spec w x p sock type (Q : Z -> iocp_world K -> Prop) :
  polls_inv w -> iw_instances w !! x = Some p -> (forall r w', quiet_step w w' -> Q r w') -> wp (WinPoll_Delete x sock type) w Q.
Proof using Type.
  intros Hw Hx HQ. destruct (polls_inv_adaptor _ _ _ Hw Hx) as (a & Ha & Hr). unfold WinPoll_Delete. apply wp_bind.
  eapply instance_wp; [exact Hx|]. destruct (_ =? 0); [by apply wp_ret, HQ, quiet_step_refl|]. apply wp_bind.
  assert (ad_iocp (Adaptor_Delete sock type a) = ad_iocp a /\ ad_refs (Adaptor_Delete sock type a) = ad_refs a) as [Ei Er].
  { unfold Adaptor_Delete. split; by repeat case_match. }
  eapply quiet_on_adaptor; [exact Hw|exact Ha|exact Hr|exact Ei|exact Er|]. intros w' Hq. by apply wp_ret, HQ.
Qed.

Lemma WinPoll_Enable_spec w x p b (Q : unit -> iocp_world K -> Prop) :
  polls_inv w -> iw_instances w !! x = Some p -> (forall w', quiet_step w w' -> Q tt w') -> wp (WinPoll_EnableTimeoutCheck x b) w Q.
Proof using Type.
  intros Hw Hx HQ. destruct (polls_inv_adaptor _ _ _ Hw Hx) as (a & Ha & Hr). unfold WinPoll_EnableTimeoutCheck. apply wp_bind.
  eapply instance_wp; [exact Hx|]. destruct (_ =? 0); [by apply wp_ret, HQ, quiet_step_refl|].
  by eapply quiet_on_adaptor; [exact Hw|exact Ha|..].
Qed.

(** Starting and initialising, which only the first object does. *)
Lemma first_on_iocp_spec w x p (m : IocpThread -> M (os K) (raptor_error * IocpThread)) (Q : raptor_error -> iocp_world K -> Prop) :
  polls_inv w -> iw_instances w !! x = Some p ->
  (forall t o, it_ok t -> runs (m t) o (fun '(e, t') o' => it_post t o e t' o')) ->
  (pi_instance_id p = 1 -> forall e w', polls_inv w' -> same_polls w w' -> Q e w') ->
  (pi_instance_id p <> 1 -> Q RAPTOR_ERROR_NONE w) ->
  runs (p ← instance x; if pi_instance_id p =? 1 then on_iocp m else mret RAPTOR_ERROR_NONE) w Q.
Proof using Type.
  intros Hw Hx Hm HQ HQ'. destruct (polls_inv_adaptor _ _ _ Hw Hx) as (a & Ha & Hr). apply runs_bind_wp.
  eapply instance_wp; [exact Hx|]. destruct (Z.eqb_spec (pi_instance_id p) 1) as [E|E]; [|by apply runs_wp, wp_ret, HQ'].
  eapply (on_iocp_spec _ _ _ _ (fun _ => True)); [exact Ha| |].
  - eapply runs_mono; [by apply Hm, (av_ok _ _ Ha)|]. intros [e t'] o' Hp. done.
  - intros e w' a' Hsame Ha' Hr' _. apply (HQ E); [by eapply polls_inv_same|done].
Qed.

Lemma poll_op_ok_lookup op w : poll_op_ok op (dom (iw_instances w)) = true ->
  match op with PollNew x _ _ => iw_instances w !! x = None | _ => exists p, iw_instances w !! op_object op = Some p end.
Proof using Type.
  destruct op; cbn; intros Hok%bool_decide_eq_true; first [by apply elem_of_dom in Hok as [p Hp]; exists p|by apply not_elem_of_dom].
Qed.

Lemma run_poll_op_inv op w :
  polls_inv w -> few_polls w -> poll_op_ok op (dom (iw_instances w)) = true ->
  runs (run_poll_op op) w (fun _ w' => polls_inv w' /\ dom (iw_instances w') = op_objects op (dom (iw_instances w))).
Proof.
  intros Hw Hfew Hx%poll_op_ok_lookup. destruct op as [x s e|x|x rs kernel|x|x|x sock key type|x sock key type|x sock type|x b];
    cbn [op_object] in Hx; [|destruct Hx as [p Hx]..]; cbn [run_poll_op op_objects]; unfold forget.
  - apply runs_wp. eapply WinPoll_new_spec; [done..|]. intros w' p Hw' -> _ _. split; [done|]. by rewrite dom_insert_L.
  - apply runs_wp. eapply WinPoll_dtor_spec; [done..|]. intros w' Hw' -> _. split; [done|]. by rewrite dom_delete_L.
  - apply runs_bind. eapply first_on_iocp_spec; [exact Hw|exact Hx|intros; by apply IocpThread_Init_spec|..].
    + intros _ e w' Hw' [Ei _]. apply runs_wp, wp_ret. by rewrite Ei.
    + intros _. by apply runs_wp, wp_ret.
  - apply runs_bind. eapply first_on_iocp_spec; [exact Hw|exact Hx|intros; by apply IocpThread_Start_spec|..].
    + intros _ e w' Hw' [Ei _]. apply runs_wp, wp_ret. by rewrite Ei.
    + intros _. by apply runs_wp, wp_ret.
  - apply runs_wp. eapply WinPoll_Shutdown_spec; [done..|]. intros w' Hw' -> _. split; [done|].
    rewrite dom_insert_L. apply elem_of_dom_2 in Hx. set_solver.
  - apply runs_bind_wp. eapply WinPoll_Add_spec; [done..|]. intros r w' (Hw' & [Ei _] & _). apply runs_wp, wp_ret. by rewrite Ei.
  - apply runs_bind_wp. unfold WinPoll_Modify. apply wp_bind. eapply WinPoll_Add_spec; [done..|]. intros r w' (Hw' & [Ei _] & _).
    apply wp_ret, runs_wp, wp_ret. by rewrite Ei.
  - apply runs_bind_wp. eapply WinPoll_Delete_spec; [done..|]. intros r w' (Hw' & [Ei _] & _). apply runs_wp, wp_ret. by rewrite Ei.
  - apply runs_wp. eapply WinPoll_Enable_spec; [done..|]. by intros w' (Hw' & [-> _] & _).
Qed.

Definition few_ops (ops : list poll_op) : Prop := (Z.of_nat (length ops) < 2 ^ 31 - 1)%Z.

Lemma run_poll_ops_inv ops : forall w,
  polls_inv w -> (Z.of_nat (size (iw_instances w) + length ops) < 2 ^ 31 - 1)%Z -> poll_ops_ok ops (dom (iw_instances w)) = true ->
  runs (run_poll_ops ops) w (fun _ w' => polls_inv w' /\ (size (iw_instances w') <= size (iw_instances w) + length ops)%nat).
Proof.
  induction ops as [|op ops IH]; intros w Hw Hfew Hok; cbn [run_poll_ops].
  { apply runs_wp, wp_ret. split; [done|lia]. }
  cbn [poll_ops_ok length] in Hok, Hfew. apply andb_true_iff in Hok as [Hop Hok]. apply runs_bind.
  eapply runs_mono; [apply run_poll_op_inv; [done|unfold few_polls; lia|done]|]. intros _ w1 [Hw1 Ed].
  assert (size (iw_instances w1) <= S (size (iw_instances w)))%nat as Hsz.
  { rewrite <- !(size_dom (D := gset nat)), Ed. destruct op; cbn [op_objects]; try lia.
    - rewrite size_union_alt. assert (size ({[x]} : gset nat) = 1)%nat as Hs1 by apply size_singleton.
      pose proof (subseteq_size (dom (iw_instances w) ∖ {[x]}) (dom (iw_instances w)) ltac:(set_solver)). lia.
    - pose proof (subseteq_size (dom (iw_instances w) ∖ {[x]}) (dom (iw_instances w)) ltac:(set_solver)). lia. }
  eapply runs_mono; [apply IH; [done|lia|by rewrite Ed]|]. cbn. intros _ w2 [Hw2 Hle]. split; [done|lia].
Qed.

Lemma no_polls_inv (o : os K) ov : os_trace o = [] -> polls_inv (no_polls o ov).
Proof using Type.
  intros Ht. split; [done| |done]. cbn. split; [done|]. unfold iw_trace. cbn. rewrite Ht. by split.
Qed.

(** What a process still holds. *)
Definition held_ports w : list Z := match iw_adaptor w with Some a => it_port (ad_iocp a) | None => [] end.
Definition held_pthreads w : list Z := match iw_adaptor w with Some a => it_pthreads (ad_iocp a) | None => [] end.

(** C23. The polling threads of a process leak nothing.  However many [PollingThread] objects
    are created, initialised, started, shut down and destroyed, in any order and whatever
    the calls answer, what runs returns or hits the assertion that a thread is not
    started twice; the shared adaptor exists exactly while an object does, and the
    completion ports and pthreads created are those closed and joined, each once, and
    those the adaptor holds. *)
Theorem iocp_ledger (ops : list poll_op) (o : os K) (overlapped : gmap Z OverLappedEx) :
  os_trace o = [] -> poll_ops_ok ops ∅ = true -> few_ops ops ->
  runs (run_poll_ops ops) (no_polls o overlapped) (fun _ w =>
    iw_count w = Z.of_nat (size (iw_instances w)) /\
    (iw_adaptor w = None <-> iw_instances w = ∅) /\
    ports_opened (iw_trace w) = ports_closed (iw_trace w) ++ held_ports w /\
    created (iw_trace w) = joined (iw_trace w) ++ held_pthreads w).
Proof.
  intros Ht Hok Hfew. eapply runs_mono; [apply run_poll_ops_inv; [by apply no_polls_inv|exact Hfew|exact Hok]|].
  intros _ w [[Hc Ha _] _]. split; [done|]. unfold held_ports, held_pthreads. case_bool_decide as He.
  - destruct Ha as [-> [Hp Hh]]. done.
  - destruct Ha as (a & Ha & _). rewrite (av_adaptor _ _ Ha). split; [done|]. apply (av_settled _ _ Ha).
Qed.

Lemma event_calls d w (Q : unit -> iocp_world K -> Prop) :
  (forall w', iw_calls w' = iw_calls w \/ (exists service detail, iw_calls w' = iw_calls w ++ [ServiceEvent service detail]) -> Q tt w') ->
  ends (Adaptor_OnEventProcess d) w Q.
Proof using Type.
  intros HQ. unfold Adaptor_OnEventProcess, the_adaptor. apply ends_bind, ends_bind, ends_gets, ends_of_option. intros a _.
  destruct (FindEventService d a) as [[s d']|]; [apply ends_modify|apply ends_ret]; apply HQ; [right; by exists s, d'|by left].
Qed.

Lemma IocpWork_round_calls shutdown w a : iw_adaptor w = Some a -> it_enable_timeout_check (ad_iocp a) = false ->
  ends (IocpWork_round shutdown) w (fun _ w' =>
    iw_calls w' = iw_calls w \/ exists service detail, iw_calls w' = iw_calls w ++ [ServiceEvent service detail]).
Proof using Type.
  intros Ha Ht. unfold IocpWork_round, the_adaptor. apply ends_bind, ends_bind, ends_gets, ends_of_option. unfold id.
  rewrite Ha. intros ? [= <-]. unfold IocpThread_WorkThread. rewrite Ht. destruct shutdown; [by apply ends_ret; left|].
  apply ends_bind, ends_ret, ends_bind. unfold iw_sys. apply ends_zoom, ends_any. intros [[[ret bytes] key] ov] o1.
  destruct (negb ret).
  - apply ends_bind. destruct (_ && _); [|by apply ends_ret, ends_ret; left].
    apply ends_bind, ends_bind, ends_gets, ends_of_option. intros olex _. apply ends_bind, ends_zoom, ends_any. intros err o2.
    apply event_calls. intros w' Hw'. by apply ends_ret.
  - destruct (_ =? _); [by apply ends_ret; left|]. apply ends_bind, ends_bind, ends_gets, ends_of_option. intros olex _.
    apply ends_bind, event_calls. intros w' Hw'. by apply ends_ret.
Qed.

(** Nothing makes the workers check for timeouts.  [EnableTimeoutCheck] registers a service
    with the adaptor, but never switches the workers' own flag on: after any operations, a
    turn of a worker calls no service's [OnTimeoutCheck], and delivers at most one event. *)
Theorem win_no_timeout_check (ops : list poll_op) (o : os K) (overlapped : gmap Z OverLappedEx) (shutdown b : bool) w w' :
  os_trace o = [] -> poll_ops_ok ops ∅ = true -> few_ops ops ->
  run_poll_ops ops (no_polls o overlapped) = Ret (tt, w) -> IocpWork_round shutdown w = Ret (b, w') ->
  iw_calls w' = iw_calls w \/ exists service detail, iw_calls w' = iw_calls w ++ [ServiceEvent service detail].
Proof.
  intros Ht Hok Hfew Hrun Hround. pose proof (run_poll_ops_inv ops (no_polls o overlapped)) as Hinv.
  unfold runs in Hinv. rewrite Hrun in Hinv. destruct Hinv as [[_ Ha _] _]; [by apply no_polls_inv|exact Hfew|exact Hok|].
  refine (_ b w' Hround). change (ends (IocpWork_round shutdown) w (fun _ w' =>
    iw_calls w' = iw_calls w \/ exists service detail, iw_calls w' = iw_calls w ++ [ServiceEvent service detail])).
  case_bool_decide as He.
  - destruct Ha as [Ha _]. unfold IocpWork_round, the_adaptor. apply ends_bind, ends_bind, ends_gets, ends_of_option. unfold id. by rewrite Ha.
  - destruct Ha as (a & Ha & _). apply IocpWork_round_calls with a; apply Ha.
Qed.

(** The workers are gone and no object can start others; [y] keeps the adaptor alive. *)
Record stopped (y : nat) w : Prop := {
  sp_inv : polls_inv w;
  sp_shutdown : workers_stopped w;
  sp_first x p : iw_instances w !! x = Some p -> pi_instance_id p <> 1;
  sp_alive : is_Some (iw_instances w !! y);
}.

Lemma stopped_insert y w w' x p : stopped y w -> polls_inv w' -> workers_stopped w' ->
  iw_instances w' = <[x := p]> (iw_instances w) -> pi_instance_id p <> 1 -> stopped y w'.
Proof using Type.
  intros [_ _ Hf Hy] Hw' Hs Ei Hp. split; [done..| |].
  - intros z q. rewrite Ei, lookup_insert_Some. intros [[_ <-]|[_ Hz]]; [done|by eapply Hf].
  - rewrite Ei. apply lookup_insert_is_Some'. by right.
Qed.

Lemma stopped_op y op w : stopped y w -> few_polls w -> poll_op_ok op (dom (iw_instances w)) = true -> op <> PollDtor y ->
  wp (run_poll_op op) w (fun _ w' => stopped y w').
Proof.
  intros Hs Hfew Hx%poll_op_ok_lookup Hn. pose proof Hs as [Hw Hst Hf Hy].
  assert (iw_instances w <> ∅) as Hne by (intros E; rewrite E in Hy; by destruct Hy).
  assert (forall w', quiet_step w w' -> stopped y w') as Hquiet.
  { intros w' (Hw' & [Ei _] & _ & Ha). destruct Hst as (a & Ea & Es). destruct (Ha a Ea) as (a' & Ea' & Eq).
    split; [done|exists a'; by rewrite Eq|by rewrite Ei..]. }
  assert (forall x p (m : IocpThread -> M (os K) (raptor_error * IocpThread)), iw_instances w !! x = Some p ->
    wp (forget (p ← instance x; if pi_instance_id p =? 1 then on_iocp m else mret RAPTOR_ERROR_NONE)) w (fun _ w' => stopped y w')) as Hnot.
  { intros x p m Hp. unfold forget. apply wp_bind, wp_bind. eapply instance_wp; [exact Hp|].
    rewrite (proj2 (Z.eqb_neq _ _) (Hf _ _ Hp)). by apply wp_ret, wp_ret. }
  destruct op as [x s e|x|x rs kernel|x|x|x sock key type|x sock key type|x sock type|x b];
    cbn [op_object] in Hx; [|destruct Hx as [p Hx]..]; cbn [run_poll_op].
  - eapply WinPoll_new_spec; [done..|]. intros w' p Hw' Ei _ Hsame. destruct (Hsame Hne) as (Hp & a & a' & Ea & Ea' & Eq).
    eapply stopped_insert; [done..| |exact Ei|done]. destruct Hst as (a0 & Ea0 & Es). rewrite Ea in Ea0. injection Ea0 as <-.
    exists a'. by rewrite Eq.
  - eapply WinPoll_dtor_spec; [done..|]. intros w' Hw' Ei Hs'.
    assert (iw_instances w' !! y = iw_instances w !! y) as Ey by (rewrite Ei; apply lookup_delete_ne; congruence).
    split; [done| | |by rewrite Ey].
    + apply Hs'; [by right|]. rewrite <- Ei. intros E. rewrite <- Ey, E in Hy. by destruct Hy.
    + intros z q. rewrite Ei, lookup_delete_Some. intros [_ Hz]. by eapply Hf.
  - by eapply Hnot.
  - by eapply Hnot.
  - eapply WinPoll_Shutdown_spec; [done..|]. intros w' Hw' Ei Hs'. eapply stopped_insert; [done..|by apply Hs'; right|exact Ei|done].
  - apply wp_bind. eapply WinPoll_Add_spec; [done..|]. intros r w' Hq. by apply wp_ret, Hquiet.
  - apply wp_bind. unfold WinPoll_Modify. apply wp_bind. eapply WinPoll_Add_spec; [done..|]. intros r w' Hq. by apply wp_ret, wp_ret, Hquiet.
  - apply wp_bind. eapply WinPoll_Delete_spec; [done..|]. intros r w' Hq. by apply wp_ret, Hquiet.
  - eapply WinPoll_Enable_spec; [done..|]. exact Hquiet.
Qed.

Lemma stopped_ops y ops : forall w,
  stopped y w -> (Z.of_nat (size (iw_instances w) + length ops) < 2 ^ 31 - 1)%Z -> poll_ops_ok ops (dom (iw_instances w)) = true ->
  PollDtor y ∉ ops -> wp (run_poll_ops ops) w (fun _ w' => stopped y w').
Proof.
  induction ops as [|op ops IH]; intros w Hs Hfew Hok Hn; cbn [run_poll_ops]; [by apply wp_ret|].
  pose proof Hok as Hok0. cbn [poll_ops_ok length] in Hok, Hfew. apply andb_true_iff in Hok as [Hop Hok]. apply not_elem_of_cons in Hn as [Hn1 Hn].
  assert (few_polls w) as Hfew1 by (unfold few_polls; lia).
  pose proof (run_poll_ops_inv [op] w (sp_inv _ _ Hs) ltac:(cbn [length]; lia) ltac:(cbn [poll_ops_ok]; by rewrite Hop)) as Hsz.
  pose proof (run_poll_op_inv op w (sp_inv _ _ Hs) Hfew1 Hop) as Hd.
  pose proof (stopped_op y op w Hs Hfew1 Hop ltac:(congruence)) as H1'. apply wp_bind.
  cbn [run_poll_ops] in Hsz. unfold wp, runs, mbind, M_bind in *. destruct (run_poll_op op w) as [[[] w1]| | |]; [|done..].
  cbn in Hsz. destruct Hsz as [_ Hsz], Hd as [_ Hd]. apply IH; [done|cbn [length] in Hsz; lia|by rewrite Hd|done].
Qed.

(** The first object's end is the end of the workers.  The threads belong to the first
    [PollingThread]: when it is destroyed while another object [y] lives, they are
    joined, and whatever is done afterwards, as long as [y] is not destroyed, no worker
    exists; [Start] of every object, new ones included, answers success. *)
Theorem win_first_stops_all (ops ops' : list poll_op) (o : os K) (overlapped : gmap Z OverLappedEx) (x y : nat) p w :
  os_trace o = [] -> poll_ops_ok ops ∅ = true -> few_ops (ops ++ ops') -> run_poll_ops ops (no_polls o overlapped) = Ret (tt, w) ->
  iw_instances w !! x = Some p -> pi_instance_id p = 1 -> is_Some (iw_instances w !! y) -> x <> y ->
  poll_ops_ok ops' (dom (iw_instances w) ∖ {[x]}) = true -> PollDtor y ∉ ops' ->
  exists w1 w2, WinPoll_dtor x w = Ret (tt, w1) /\ run_poll_ops ops' w1 = Ret (tt, w2) /\
    created (iw_trace w2) = joined (iw_trace w2) /\
    forall z q, iw_instances w2 !! z = Some q -> WinPoll_Start z w2 = Ret (RAPTOR_ERROR_NONE, w2).
Proof.
  intros Ht Hok Hfew Hrun Hx H1' Hy Hne Hok' Hn. unfold few_ops in Hfew. rewrite length_app in Hfew.
  pose proof (run_poll_ops_inv ops (no_polls o overlapped) (no_polls_inv _ _ Ht)) as Hinv. unfold runs in Hinv. rewrite Hrun in Hinv.
  destruct Hinv as [Hw Hsz]; [change (few_ops ops); unfold few_ops; lia|exact Hok|].
  change (size (iw_instances w) <= length ops)%nat in Hsz.
  assert (wp (WinPoll_dtor x) w (fun _ w1 => stopped y w1 /\ iw_instances w1 = delete x (iw_instances w))) as Hd.
  { assert (delete x (iw_instances w) !! y = iw_instances w !! y) as Ey by (by apply lookup_delete_ne).
    eapply WinPoll_dtor_spec; [exact Hw|unfold few_polls; lia|exact Hx|]. intros w1 Hw1 Ei Hs1. split; [|done]. split; [done| | |].
    - apply Hs1; [by left|]. intros E. rewrite <- Ey, E in Hy. by destruct Hy.
    - intros z q. rewrite Ei, lookup_delete_Some. intros [Hz Hq] Hq1. apply Hz. by eapply (pv_first _ Hw).
    - by rewrite Ei, Ey. }
  unfold wp in Hd. destruct (WinPoll_dtor x w) as [[[] w1]| | |]; [|done..]. destruct Hd as [Hs1 Ei]. exists w1.
  assert (size (iw_instances w1) <= size (iw_instances w))%nat as Hsz1.
  { rewrite Ei, map_size_delete_Some by by eexists. lia. }
  pose proof (stopped_ops y ops' w1 Hs1 ltac:(lia) ltac:(by rewrite Ei, dom_delete_L) Hn) as Hr. unfold wp in Hr.
  destruct (run_poll_ops ops' w1) as [[[] w2]| | |]; [|done..]. exists w2. split; [done|]. split; [done|].
  destruct Hr as [Hw2 (a & Ea & Es) Hf2 [q Hq]]. split.
  - destruct (polls_inv_adaptor _ _ _ Hw2 Hq) as (a' & [Ea' [_ Hth] _ [_ Hset]] & _).
    rewrite Ea in Ea'. injection Ea' as <-. rewrite Es in Hth. unfold it_pthreads in Hset. rewrite Hth in Hset. cbn in Hset.
    by rewrite app_nil_r in Hset.
  - intros z q' Hz. unfold WinPoll_Start, instance, mbind, M_bind, gets, id, of_option. rewrite Hz. cbn.
    by rewrite (proj2 (Z.eqb_neq _ _) (Hf2 _ _ Hz)).
Qed.

(** The types of the operations the components start. *)
Definition operation_types : list Z := [kSendEvent; kRecvEvent; kConnectEvent; kAcceptEvent].

Lemma operation_type_kept ty : ty ∈ operation_types ->
  (ty <? kErrorEvent) || (kMaxEventValue <? ty) = false /\ has ty kErrorEvent = false.
Proof using Type.
  intros Hty. repeat (apply elem_of_cons in Hty as [->|Hty]; [done|]). by apply not_elem_of_nil in Hty.
Qed.

(** The event a service gets for a failed operation. *)
Definition failed_event (err key bytes ov : Z) (olex : OverLappedEx) (info : IocpSupplementInfo) : WinEventDetail :=
  let d := failed_detail err key bytes ov olex in
  {| wd_ptr := si_CompletionKey info; wd_event_type := ox_event_type olex; wd_error_code := wd_error_code d;
     wd_transferred_bytes := bytes; wd_handle_id := 0; wd_overlaped := ov |}.

Lemma failed_round w a r k key ov olex info :
  iw_adaptor w = Some a -> it_enable_timeout_check (ad_iocp a) = false ->
  sys_call (os_kernel (iw_os w)) (SysGetQueuedCompletionStatus (it_iocp (ad_iocp a)) 1000) = (r, k) ->
  r_ret r < 0 -> r_events r = [(key, ov)] -> key <> 0 -> ov <> 0 ->
  iw_overlapped w !! ov = Some olex -> ox_event_type olex ∈ operation_types -> ad_services a !! key = Some info ->
  exists o', IocpWork_round false w = Ret (true, iw_add_call
    (ServiceEvent (si_service info) (failed_event (r_errno r) key (r_int r) ov olex info)) (iw_with_os o' w)).
Proof using Type.
  intros Ha Ht Ecall Hr Hev Hkey Hov Hol Hty%operation_type_kept Hinfo. destruct Hty as [Hin _].
  enough (wp (IocpWork_round false) w (fun b w' => exists o', (b, w') = (true, iw_add_call
    (ServiceEvent (si_service info) (failed_event (r_errno r) key (r_int r) ov olex info)) (iw_with_os o' w)))) as Hwp.
  { unfold wp in Hwp. destruct (IocpWork_round false w) as [[b w']| | |]; [|done..]. destruct Hwp as (o' & ->). by exists o'. }
  unfold IocpWork_round. apply wp_bind. eapply the_adaptor_wp; [exact Ha|]. unfold IocpThread_WorkThread. rewrite Ht.
  apply wp_bind, wp_ret, wp_bind. unfold iw_sys at 1. apply wp_zoom. unfold Iocp_polling. apply wp_bind. unfold call, wp at 1. rewrite Ecall, Hev.
  cbn [default head from_option]. apply wp_ret. rewrite (proj2 (Z.ltb_ge 0 _)) by lia. cbn [negb].
  rewrite (proj2 (Z.eqb_neq ov 0) Hov), (proj2 (Z.eqb_neq key 0) Hkey). cbn [negb andb].
  apply wp_bind, wp_bind, wp_bind, wp_gets, wp_of_option. exists olex. split; [exact Hol|].
  apply wp_bind. unfold iw_sys. apply wp_zoom, wp_gets. unfold Adaptor_OnEventProcess.
  apply wp_bind. eapply the_adaptor_wp; [exact Ha|]. unfold FindEventService. cbn [wd_ptr failed_detail]. rewrite Hinfo.
  cbn [mbind option_bind wd_event_type failed_detail wd_error_code wd_transferred_bytes wd_handle_id wd_overlaped]. rewrite Hin.
  apply wp_modify, wp_ret. cbn [os_errno iw_os iw_with_os]. rewrite (proj2 (Z.ltb_lt _ 0)) by done. by eexists.
Qed.

End PollTheorems.

(** ** A concrete process *)

(** The port is 7, and what it hands out is an operation of socket 5 that failed. *)
Definition port_kernel : Kernel Z := fun k c =>
  let ret r n evs := {| r_ret := r; r_errno := 64; r_data := []; r_int := n; r_events := evs |} in
  match c with
  | SysPthreadCreate => (ret 0 (100 + Z.abs k) [], k + 1)
  | SysCreateIoCompletionPort _ _ _ _ => (ret 7 0 [], k)
  | SysGetQueuedCompletionStatus _ _ => (ret (-1) 0 [(5, 40)], k)
  | _ => (ret 0 0 [], k)
  end.

Definition no_format : WinLibC := {| FormatMessage := fun _ => None |}.

#[local] Existing Instance port_kernel.
#[local] Existing Instance no_format.

#[local] Instance port_kernel_threads : KernelThreads (K := Z).
Proof. split. intros k _. unfold sys_call, port_kernel. cbn. lia. Qed.

Definition new_process : os Z := {| os_kernel := 0; os_errno := 0; os_trace := [] |}.

(** An acceptor's and a container's polling threads; socket 5 is the container's. *)
Definition two_objects : list poll_op :=
  [PollNew 1 1000 77; PollInit 1 2 1; PollNew 2 2000 78; PollInit 2 4 0; PollEnableTimeoutCheck 2 true;
   PollStart 1; PollStart 2; PollAdd 2 5 1234 6].

(** A read of socket 5 is in flight. *)
Definition read_in_flight : gmap Z OverLappedEx := {[40 := {| ox_event_type := kRecvEvent; ox_HandleId := 3 |}]}.

Lemma iocp_ledger_witness :
  runs (run_poll_ops (two_objects ++ [PollDtor 1; PollDtor 2])) (no_polls new_process read_in_flight) (fun _ w =>
    iw_count w = Z.of_nat (size (iw_instances w)) /\
    (iw_adaptor w = None <-> iw_instances w = ∅) /\
    ports_opened (iw_trace w) = ports_closed (iw_trace w) ++ held_ports w /\
    created (iw_trace w) = joined (iw_trace w) ++ held_pthreads w).
Proof. apply (iocp_ledger (two_objects ++ [PollDtor 1; PollDtor 2]) new_process); reflexivity. Defined.

(** The world after [two_objects]. *)
Definition running : iocp_world Z :=
  match run_poll_ops two_objects (no_polls new_process read_in_flight) with Ret (_, w) => w | _ => no_polls new_process ∅ end.

Definition after_round : iocp_world Z := match IocpWork_round false running with Ret (_, w) => w | _ => running end.

Lemma win_no_timeout_check_witness :
  iw_calls after_round = iw_calls running \/
  exists service detail, iw_calls after_round = iw_calls running ++ [ServiceEvent service detail].
Proof.
  apply (win_no_timeout_check two_objects new_process read_in_flight false true running after_round);
    [reflexivity..|vm_compute; reflexivity|vm_compute; reflexivity].
Defined.

Lemma win_first_stops_all_witness :
  exists w1 w2, WinPoll_dtor 1 running = Ret (tt, w1) /\
    run_poll_ops [PollNew 3 3000 79; PollInit 3 4 0; PollStart 3] w1 = Ret (tt, w2) /\
    created (iw_trace w2) = joined (iw_trace w2) /\
    forall z q, iw_instances w2 !! z = Some q -> WinPoll_Start z w2 = Ret (RAPTOR_ERROR_NONE, w2).
Proof.
  apply (win_first_stops_all two_objects [PollNew 3 3000 79; PollInit 3 4 0; PollStart 3] new_process read_in_flight 1 2
    {| pi_service := 1000; pi_instance_id := 1 |} running); try (vm_compute; reflexivity).
  - vm_compute. by eexists.
  - done.
  - by apply (bool_decide_eq_true_1 (PollDtor 2 ∉ _)).
Defined.
