(* ===== verification/Ledger.v ===== *)
(** * Accounting for descriptors

    The components that own descriptors (the listener, the connector) are states that
    include the process's calls.  A computation is balanced when the descriptors it
    opened and those its state held before are, up to their order, those it closed and
    those its state holds after: nothing is leaked, nothing is closed twice. *)

From S2P Require Import Prelude.
From S2P Require Import OS.
From S2P Require Import PollingThread.

Local Open Scope Z_scope.

Section Ledger.
Context {S : Type}.
Variable trace : S -> list (syscall * sysret).
Variable held : S -> list Z.

(** [m] returns from [s], and [Q] relates its result, the state it leaves, the
    descriptors it opened and those it closed. *)
Definition spends {A} (m : M S A) (s : S) (Q : A -> S -> list Z -> list Z -> Prop) : Prop :=
  wp m s (fun a s' => exists t, trace s' = trace s ++ t /\ Q a s' (opened t) (closed t)).

Definition balanced {A} (m : M S A) (s : S) (Q : A -> S -> Prop) : Prop :=
  spends m s (fun a s' o c => o ++ held s ≡ₚ c ++ held s' /\ Q a s').

Lemma spends_ret {A} (a : A) s (Q : A -> S -> list Z -> list Z -> Prop) :
  Q a s [] [] -> spends (mret a) s Q.
Proof. intros HQ. apply wp_ret. exists []. by rewrite app_nil_r. Qed.

Lemma spends_gets {A} (f : S -> A) s (Q : A -> S -> list Z -> list Z -> Prop) :
  Q (f s) s [] [] -> spends (gets f) s Q.
Proof. intros HQ. apply wp_gets. exists []. by rewrite app_nil_r. Qed.

Lemma spends_modify f s (Q : unit -> S -> list Z -> list Z -> Prop) :
  trace (f s) = trace s -> Q tt (f s) [] [] -> spends (modify f) s Q.
Proof. intros E HQ. apply wp_modify. exists []. by rewrite app_nil_r. Qed.

Lemma spends_of_option {A} (x : option A) s (Q : A -> S -> list Z -> list Z -> Prop) :
  (exists a, x = Some a /\ Q a s [] []) -> spends (of_option x) s Q.
Proof. intros (a & -> & HQ). by apply spends_ret. Qed.

Lemma spends_bind {A B} (m : M S A) (f : A -> M S B) s Q R :
  spends m s R ->
  (forall a s' o c, R a s' o c -> spends (f a) s' (fun b s'' o' c' => Q b s'' (o ++ o') (c ++ c'))) ->
  spends (m ≫= f) s Q.
Proof.
  intros Hm Hf. apply wp_bind. eapply wp_mono; [exact Hm|]. intros a s1 (t1 & E1 & HR).
  eapply wp_mono; [exact (Hf _ _ _ _ HR)|]. intros b s2 (t2 & E2 & HQ).
  exists (t1 ++ t2). by rewrite E2, E1, app_assoc, opened_app, closed_app.
Qed.

Lemma spends_mono {A} (m : M S A) s (Q R : A -> S -> list Z -> list Z -> Prop) :
  spends m s R -> (forall a s' o c, R a s' o c -> Q a s' o c) -> spends m s Q.
Proof. intros Hm HRQ. eapply wp_mono; [exact Hm|]. intros a s' (t & E & HR). eauto. Qed.

Lemma balanced_ret {A} (a : A) s (Q : A -> S -> Prop) : Q a s -> balanced (mret a) s Q.
Proof. intros HQ. by apply spends_ret. Qed.

Lemma balanced_bind {A B} (m : M S A) (f : A -> M S B) s Q R :
  balanced m s R ->
  (forall a s', R a s' -> balanced (f a) s' Q) ->
  balanced (m ≫= f) s Q.
Proof.
  intros Hm Hf. eapply spends_bind; [exact Hm|]. intros a s1 o c [E HR].
  eapply spends_mono; [exact (Hf a s1 HR)|]. intros b s2 o' c' [E' HQ]. split; [|done].
  transitivity (o' ++ (o ++ held s)); [by rewrite !app_assoc, (Permutation_app_comm o o')|].
  rewrite E. transitivity (c ++ (o' ++ held s1)); [by rewrite !app_assoc, (Permutation_app_comm c o')|].
  by rewrite E', app_assoc.
Qed.

Lemma balanced_mono {A} (m : M S A) s (Q R : A -> S -> Prop) :
  balanced m s R -> (forall a s', R a s' -> Q a s') -> balanced m s Q.
Proof. intros Hm HRQ. eapply spends_mono; [exact Hm|]. intros a s' o c [? ?]. auto. Qed.
End Ledger.

(** ** A part of the state *)

(** What a computation on a part spends, the whole spends. *)
Lemma spends_part {S E A} (trace : S -> list (syscall * sysret)) (trace' : E -> list (syscall * sysret))
    (get : S -> E) (set : E -> S -> S) (m : M E A) s Q :
  (forall s, trace s = trace' (get s)) -> (forall e s, get (set e s) = e) ->
  spends trace' m (get s) (fun a e o c => Q a (set e s) o c) ->
  spends trace (zoom get set m) s Q.
Proof.
  intros Ht Hs Hm. apply wp_zoom. eapply wp_mono; [exact Hm|]. intros a e (t & Et & HQ).
  exists t. by rewrite !Ht, Hs.
Qed.

(** ** Calls on the process inside a bigger state *)

Section Zoom.
Context {S K : Type} (get : S -> os K) (set : os K -> S -> S).
Hypothesis get_set : forall o s, get (set o s) = o.

Definition trace_of (s : S) : list (syscall * sysret) := os_trace (get s).

Lemma spends_os_fd {A B} (m : M (os K) A) (f : A -> M S B) s Q R :
  fd_spec m R ->
  (forall a o' o c, R a o c ->
    spends trace_of (f a) (set o' s) (fun b s' oo cc => Q b s' (o ++ oo) (c ++ cc))) ->
  spends trace_of (zoom get set m ≫= f) s Q.
Proof using get_set.
  intros Hm HQ. eapply (spends_bind _ _ _ _ _ (fun a s' o c => exists o', s' = set o' s /\ R a o c)).
  - apply wp_zoom. eapply wp_mono; [apply Hm|]. cbn. intros a o' (t & E & HR).
    exists t. unfold trace_of. rewrite get_set. eauto.
  - intros a s' o c (o' & -> & HR). by apply HQ.
Qed.

Lemma spends_os_resources {A B} (m : M (os K) A) (f : A -> M S B) s Q R :
  resources m (get s) R ->
  (forall a o' o c cr jo, R a o c cr jo ->
    spends trace_of (f a) (set o' s) (fun b s' oo cc => Q b s' (o ++ oo) (c ++ cc))) ->
  spends trace_of (zoom get set m ≫= f) s Q.
Proof using get_set.
  intros Hm HQ.
  eapply (spends_bind _ _ _ _ _ (fun a s' o c => exists o' cr jo, s' = set o' s /\ R a o c cr jo)).
  - apply wp_zoom. eapply wp_mono; [apply Hm|]. cbn. intros a o' (t & E & HR).
    exists t. unfold trace_of. rewrite get_set. eauto 10.
  - intros a s' o c (o' & cr & jo & -> & HR). eapply HQ, HR.
Qed.

Lemma spends_os_quiet {A B} (m : M (os K) A) (f : A -> M S B) s Q :
  quiet m -> (forall a o', spends trace_of (f a) (set o' s) Q) ->
  spends trace_of (zoom get set m ≫= f) s Q.
Proof using get_set.
  intros Hm HQ. eapply spends_os_fd; [exact Hm|]. cbn. intros a o' o c [-> ->]. apply HQ.
Qed.

(** A call that is the last statement. *)
Lemma spends_os_last {A} (m : M (os K) A) s Q :
  spends trace_of (a ← zoom get set m; mret a) s Q -> spends trace_of (zoom get set m) s Q.
Proof using Type.
  clear get_set.
  unfold spends, wp, mbind, M_bind, zoom, mret, M_ret. by destruct (m (get s)) as [[a o]| | |].
Qed.
End Zoom.

Section Steps.
Context {S : Type} (trace : S -> list (syscall * sysret)).

Lemma spends_bind_gets {A B} (g : S -> A) (f : A -> M S B) s Q :
  spends trace (f (g s)) s Q -> spends trace (gets g ≫= f) s Q.
Proof. done. Qed.

Lemma spends_bind_modify {B} g (f : unit -> M S B) s Q :
  trace (g s) = trace s -> spends trace (f tt) (g s) Q -> spends trace (modify g ≫= f) s Q.
Proof.
  intros E Hf. eapply spends_bind.
  - by apply (spends_modify _ _ _ (fun _ s' o c => s' = g s /\ o = [] /\ c = [])).
  - cbn. intros [] s' o c (-> & -> & ->). done.
Qed.

Lemma spends_bind_option {A B} (x : option A) (f : A -> M S B) s Q :
  (exists a, x = Some a /\ spends trace (f a) s Q) -> spends trace (of_option x ≫= f) s Q.
Proof. intros (a & -> & Hf). done. Qed.
End Steps.

(** ** What the kernel's descriptors are like *)

(** The kernel hands out descriptor 0 only to a process that closed its standard
    input, and descriptors are ints. *)
Class KernelSockets {K : Type} `{Kernel K} : Prop := {
  socket_not_0 k f t p :
    r_ret (sys_call k (SysSocket f t p)).1 <> 0 /\ r_ret (sys_call k (SysSocket f t p)).1 < 2 ^ 31;
  accept_result k fd flags :
    r_ret (sys_call k (SysAccept4 fd flags)).1 <> 0 /\ r_ret (sys_call k (SysAccept4 fd flags)).1 < 2 ^ 31;
}.
