(* ===== verification/Options.v ===== *)
(** * Socket options asked for by the user (src/linux/tcp_listener.cc,
      src/linux/tcp_connector.cc)

    What [ProcessProperty] of the listener and of the connector do with the properties
    the user's handler leaves.  Every failure is dropped. *)

From S2P Require Import Prelude.
From S2P Require Import Status.
From S2P Require Import Property.
From S2P Require Import OS.
From S2P Require Import SocketSetting.

Local Open Scope Z_scope.

Section Options.
Context {K : Type} `{Kernel K} `{LibC}.

(** [if (p.CheckValue<T>(key, value) && want(value)) act(value)]. *)
Definition if_property {T} (cast : Z -> T) (key : string) (value : T) (want : T -> bool)
    (act : T -> M (os K) raptor_error) (p : Property) : M (os K) unit :=
  let '(found, value) := CheckValue cast key value p in
  if found && want value then _ ← act value; mret tt else mret tt.

Definition Listener_ProcessProperty (fd : Z) (p : Property) : M (os K) unit :=
  _ ← if_property to_bool "SocketNoSIGPIPE" true id
        (fun _ => raptor_set_socket_no_sigpipe_if_possible fd) p;
  _ ← if_property to_bool "SocketReuseAddress" true negb
        (fun _ => raptor_set_socket_reuse_addr fd 0) p;
  _ ← if_property to_bool "SocketLowLatency" true negb
        (fun _ => raptor_set_socket_low_latency fd 0) p;
  _ ← if_property to_int "SocketSendTimeoutMs" 0 (Z.ltb 0)
        (fun ms => raptor_set_socket_snd_timeout fd ms) p;
  _ ← if_property to_int "SocketRecvTimeoutMs" 0 (Z.ltb 0)
        (fun ms => raptor_set_socket_rcv_timeout fd ms) p;
  if_property to_bool "SocketNonBlocking" true negb
    (fun _ => raptor_set_socket_nonblocking fd 0) p.

Definition Connector_ProcessProperty (fd : Z) (p : Property) : M (os K) unit :=
  _ ← if_property to_bool "SocketNoSIGPIPE" true id
        (fun _ => raptor_set_socket_no_sigpipe_if_possible fd) p;
  _ ← if_property to_bool "SocketReuseAddress" true negb
        (fun _ => raptor_set_socket_reuse_addr fd 0) p;
  _ ← if_property to_bool "SocketLowLatency" true negb
        (fun _ => raptor_set_socket_low_latency fd 0) p;
  _ ← if_property to_int "SocketSendTimeoutMs" 0 (Z.ltb 0)
        (fun ms => raptor_set_socket_snd_timeout fd ms) p;
  _ ← if_property to_int "SocketRecvTimeoutMs" 0 (Z.ltb 0)
        (fun ms => raptor_set_socket_rcv_timeout fd ms) p;
  if_property to_bool "SocketNonBlocking" true negb
    (fun _ => raptor_set_socket_nonblocking fd 0) p.

Lemma quiet_if_property {T} (cast : Z -> T) key value want act p :
  (forall v, quiet (act v)) -> quiet (K := K) (if_property cast key value want act p).
Proof.
  intros Ha. unfold if_property. destruct (CheckValue cast key value p) as [found v].
  destruct (found && want v); [|apply quiet_ret]. apply quiet_bind; [apply Ha|]. intros _. apply quiet_ret.
Qed.

Lemma quiet_snd_timeout fd ms : quiet (K := K) (raptor_set_socket_snd_timeout fd ms).
Proof. unfold raptor_set_socket_snd_timeout. auto 12 using quiet_posix_error with quiet. Qed.

Lemma quiet_rcv_timeout fd ms : quiet (K := K) (raptor_set_socket_rcv_timeout fd ms).
Proof. unfold raptor_set_socket_rcv_timeout. auto 12 using quiet_posix_error with quiet. Qed.

Lemma quiet_Listener_ProcessProperty fd p : quiet (K := K) (Listener_ProcessProperty fd p).
Proof.
  unfold Listener_ProcessProperty.
  repeat (apply quiet_bind; [|intros _]); apply quiet_if_property; intros v;
    auto using quiet_no_sigpipe, quiet_reuse_addr, quiet_low_latency, quiet_nonblocking,
      quiet_snd_timeout, quiet_rcv_timeout.
Qed.

Lemma quiet_Connector_ProcessProperty fd p : quiet (K := K) (Connector_ProcessProperty fd p).
Proof. apply quiet_Listener_ProcessProperty. Qed.
End Options.
