(* ===== verification/TcpListener.v ===== *)
(** * The TCP listener (src/linux/tcp_listener.h, src/linux/tcp_listener.cc)

    The listener's thread, its listening sockets, and what it does with an accepted
    one.  The list of [ListenerObject]s is the contents of the intrusive list
    (ListEntry.v), each object with its address, which epoll hands back.  The user's
    [AcceptorHandler] is a parameter; the endpoints given to it are recorded.  The
    handler may use other components of the process: the listener runs on any
    environment [E] the process is part of. *)

From S2P Require Import Prelude.
From S2P Require Import SockAddr.
From S2P Require Import Status.
From S2P Require Import Property.
From S2P Require Import OS.
From S2P Require Import SocketSetting.
From S2P Require Import Endpoint.
From S2P Require Import Options.
From S2P Require Import Epoll.
From S2P Require Import Thread.
From S2P Require Import PollingThread.
From S2P Require Import Ledger.

Local Open Scope Z_scope.

Record ListenerObject : Type := {
  lo_addr : raptor_resolved_address;
  lo_listen_fd : Z;
  lo_port : Z;
  lo_mode : raptor_dualstack_mode;
}.

(** [tl_next] is the address the next object is allocated at.  [PollingThread_new]
    stands for no [_poll_thread]: its destructor does nothing. *)
Record TcpListener : Type := {
  tl_shutdown : bool;
  tl_head : list (Z * ListenerObject);
  tl_poll_thread : PollingThread;
  tl_next : Z;
}.

Definition TcpListener_new : TcpListener := {|
  tl_shutdown := true;
  tl_head := [];
  tl_poll_thread := PollingThread_new;
  tl_next := 4096;
|}.

(** What the handler makes of the endpoint and of the properties. *)
Class AcceptorHandler (E : Type) : Type :=
  OnAccept : EndpointImpl -> Property -> M E (EndpointImpl * Property).

Record listener_world (E : Type) : Type := {
  lw_env : E;
  lw_listener : TcpListener;
  lw_accepted : list EndpointImpl;
}.
Arguments Build_listener_world {E} _ _ _.
Arguments lw_env {E} _.
Arguments lw_listener {E} _.
Arguments lw_accepted {E} _.

Section Listener.
Context {K : Type} `{Kernel K} {E : Type} `{!InProcess E K} `{LibC} `{AcceptorHandler E}.
Variable somaxconn_file : option (option (list byte)).

Definition lw_with_env (e : E) (w : listener_world E) : listener_world E :=
  {| lw_env := e; lw_listener := lw_listener w; lw_accepted := lw_accepted w |}.
Definition lw_os (w : listener_world E) : os K := env_os (lw_env w).
Definition lw_with_os (o : os K) (w : listener_world E) : listener_world E :=
  lw_with_env (env_with_os o (lw_env w)) w.
Definition lw_with_listener (l : TcpListener) (w : listener_world E) : listener_world E :=
  {| lw_env := lw_env w; lw_listener := l; lw_accepted := lw_accepted w |}.
Definition lw_accept (ep : EndpointImpl) (w : listener_world E) : listener_world E :=
  {| lw_env := lw_env w; lw_listener := lw_listener w; lw_accepted := lw_accepted w ++ [ep] |}.

Definition listener_env {A} (m : M E A) : M (listener_world E) A := zoom lw_env lw_with_env m.
Definition listener_os {A} (m : M (os K) A) : M (listener_world E) A := zoom lw_os lw_with_os m.

(** ** Operations *)

Definition tl_with_poll (p : PollingThread) (l : TcpListener) : TcpListener :=
  {| tl_shutdown := tl_shutdown l; tl_head := tl_head l; tl_poll_thread := p; tl_next := tl_next l |}.
Definition tl_with_shutdown (b : bool) (l : TcpListener) : TcpListener :=
  {| tl_shutdown := b; tl_head := tl_head l; tl_poll_thread := tl_poll_thread l; tl_next := tl_next l |}.

Definition set_listener (f : TcpListener -> TcpListener) : M (listener_world E) unit :=
  modify (fun w => lw_with_listener (f (lw_listener w)) w).

(** The assignment to [_poll_thread] destroys the object of an earlier life. *)
Definition TcpListener_Init (threads : Z) : M (listener_world E) raptor_error :=
  l ← gets lw_listener;
  if negb (tl_shutdown l) then mret (RAPTOR_ERROR_FROM_STATIC_STRING "TcpAcceptor is already running")
  else
    _ ← listener_os (PollingThread_dtor (tl_poll_thread l));
    '(e, p) ← listener_os (PollingThread_Init threads PollingThread_new);
    _ ← set_listener (tl_with_poll p);
    match e with
    | Some _ => mret e
    | None =>
        _ ← set_listener (tl_with_poll (EnableTimeoutCheck false p));
        _ ← set_listener (tl_with_shutdown false);
        mret RAPTOR_ERROR_NONE
    end.

Definition TcpListener_Start : M (listener_world E) raptor_error :=
  l ← gets lw_listener;
  if tl_shutdown l then mret (RAPTOR_ERROR_FROM_STATIC_STRING "TcpAcceptor is not initialized")
  else
    '(e, p) ← listener_os (PollingThread_Start (tl_poll_thread l));
    _ ← set_listener (tl_with_poll p);
    mret e.

Fixpoint close_all (fds : list Z) : M (os K) unit :=
  match fds with
  | [] => mret tt
  | fd :: fds => _ ← call_ret (SysClose fd); close_all fds
  end.

(** The listening descriptors. *)
Definition listen_fds (l : TcpListener) : list Z := (fun x => lo_listen_fd x.2) <$> tl_head l.

Definition TcpListener_Shutdown : M (listener_world E) unit :=
  l ← gets lw_listener;
  if tl_shutdown l then mret tt
  else
    _ ← set_listener (tl_with_shutdown true);
    p ← listener_os (PollingThread_Shutdown (tl_poll_thread l));
    _ ← set_listener (tl_with_poll p);
    _ ← listener_os (close_all (listen_fds l));
    set_listener (fun l =>
      {| tl_shutdown := tl_shutdown l; tl_head := []; tl_poll_thread := tl_poll_thread l; tl_next := tl_next l |}).

(** The destructor: [Shutdown], then [_poll_thread] is released. *)
Definition TcpListener_dtor : M (listener_world E) unit :=
  _ ← TcpListener_Shutdown;
  l ← gets lw_listener;
  listener_os (PollingThread_dtor (tl_poll_thread l)).

(** The result of adding the descriptor to epoll is dropped. *)
Definition TcpListener_AddListeningPort (addr : raptor_resolved_address) : M (listener_world E) raptor_error :=
  l ← gets lw_listener;
  if tl_shutdown l then mret (RAPTOR_ERROR_FROM_STATIC_STRING "tcp listener uninitialized")
  else
    '(e, mode, listen_fd) ← listener_os (raptor_create_dualstack_socket addr SOCK_STREAM 0);
    match e with
    | Some _ => mret e
    | None =>
        '(e, port) ← listener_os (raptor_tcp_server_prepare_socket somaxconn_file listen_fd addr 1);
        match e with
        | Some _ => mret e
        | None =>
            let node := {| lo_addr := addr; lo_listen_fd := listen_fd; lo_port := port; lo_mode := mode |} in
            _ ← set_listener (fun l =>
              {| tl_shutdown := tl_shutdown l; tl_head := tl_head l ++ [(tl_next l, node)];
                 tl_poll_thread := tl_poll_thread l; tl_next := tl_next l + 256 |});
            _ ← listener_os (Poll_Add (pt_epoll (tl_poll_thread l)) (lo_listen_fd node) (tl_next l) EPOLLIN);
            mret e
        end
    end.

(** ** Accepting *)

Definition AcceptEx (sockfd : Z) (nonblock cloexec : bool) : M (os K) (Z * raptor_resolved_address) :=
  let flags := Z.lor (if nonblock then SOCK_NONBLOCK else 0) (if cloexec then SOCK_CLOEXEC else 0) in
  r ← call (SysAccept4 sockfd flags);
  mret (r_ret r, {| ra_addr := r_data r; ra_len := r_int r |}).

Definition TcpListener_OnEventProcess (detail : EventDetail) : M (listener_world E) unit :=
  l ← gets lw_listener;
  sp ← of_option (assoc_find (ed_ptr detail) (tl_head l));
  if negb (has (ed_event_type detail) kErrorEvent) then
    '(sock_fd, client) ← listener_os (AcceptEx (lo_listen_fd sp) true true);
    if 0 <? sock_fd then
      let obj := SetListenPort (u16 (lo_port sp)) (EndpointImpl_new sock_fd (lo_addr sp) client) in
      _ ← modify (lw_accept obj);
      '(obj, property) ← listener_env (OnAccept obj ∅);
      if IsOnline obj then listener_os (Listener_ProcessProperty sock_fd property) else mret tt
    else mret tt
  else mret tt.

#[export] Instance TcpListener_service : EventReceivingService (listener_world E) := {
  OnEventProcess := TcpListener_OnEventProcess;
  OnTimeoutCheck _ := mret tt;
}.

(** ** Runs *)

(** An event is about the [i]-th listening socket: epoll reports the addresses it was given. *)
Inductive listener_op : Type :=
  | ListenerAdd (addr : raptor_resolved_address)
  | ListenerEvent (i : nat) (event_type error_code : Z).

Definition run_listener_op (op : listener_op) : M (listener_world E) unit :=
  match op with
  | ListenerAdd addr => _ ← TcpListener_AddListeningPort addr; mret tt
  | ListenerEvent i event_type error_code =>
      l ← gets lw_listener;
      match tl_head l !! i with
      | Some (ptr, _) =>
          TcpListener_OnEventProcess {| ed_ptr := ptr; ed_event_type := event_type; ed_error_code := error_code |}
      | None => mret tt
      end
  end.

Fixpoint run_listener (ops : list listener_op) : M (listener_world E) unit :=
  match ops with
  | [] => mret tt
  | op :: ops => _ ← run_listener_op op; run_listener ops
  end.

(** A whole life. *)
Definition listener_life (threads : Z) (ops : list listener_op) : M (listener_world E) unit :=
  _ ← TcpListener_Init threads;
  _ ← TcpListener_Start;
  _ ← run_listener ops;
  TcpListener_dtor.

Definition listener_start (e : E) : listener_world E :=
  {| lw_env := e; lw_listener := TcpListener_new; lw_accepted := [] |}.
End Listener.

(** ** Nothing is leaked *)

(** The endpoint of an accepted descriptor. *)
Definition accepted_endpoint (fd : Z) (local remote : raptor_resolved_address) (port : Z) : EndpointImpl :=
  SetListenPort (u16 port) (EndpointImpl_new fd local remote).

(** What a handler promises about the descriptors of the endpoints [accepted] so far:
    [hl_owns] are those the environment still has open, [hl_ok] holds between its runs,
    and a run accounts for the new one. *)
Class HandlerLaws (E : Type) {K : Type} `{InProcess E K} `{AcceptorHandler E} : Type := {
  hl_owns : E -> list EndpointImpl -> list Z;
  hl_ok : E -> Prop;
  hl_owns_os o e accepted : hl_owns (env_with_os o e) accepted = hl_owns e accepted;
  hl_ok_os o e : hl_ok e -> hl_ok (env_with_os o e);
  hl_accept fd local remote port p e accepted :
    0 < fd < 2 ^ 31 -> hl_ok e ->
    let ep := accepted_endpoint fd local remote port in
    spends (trace_of env_os) (OnAccept ep p) e (fun _ e' o c =>
      o ++ fd :: hl_owns e accepted ≡ₚ c ++ hl_owns e' (accepted ++ [ep]) /\ hl_ok e');
}.

Section ListenerLife.
Context {K : Type} `{Kernel K} {E : Type} `{!InProcess E K} `{LibC} `{AcceptorHandler E} `{!KernelThreads} `{!KernelEpoll}.
Variable somaxconn_file : option (option (list byte)).

Context `{Hsock : !KernelSockets} `{!HandlerLaws E}.

(** The descriptors the listener owns, and those of the environment. *)
Definition listener_held (w : listener_world E) : list Z :=
  epoll_fds (pt_epoll (tl_poll_thread (lw_listener w))) ++ listen_fds (lw_listener w) ++
  hl_owns (lw_env w) (lw_accepted w).

Abbreviation lspends := (spends (trace_of lw_os)).
Abbreviation lbalanced := (balanced (trace_of lw_os) listener_held).

Lemma lw_os_with o (w : listener_world E) : lw_os (lw_with_os o w) = o.
Proof using Type. apply env_os_with. Qed.

(** [st]: the states of the threads of the polling object. *)
Definition listener_core (st : thread_state -> Prop) (w : listener_world E) : Prop :=
  pt_wf st (tl_poll_thread (lw_listener w)) /\
  NoDup (fst <$> tl_head (lw_listener w)) /\
  Forall (fun x => x.1 < tl_next (lw_listener w)) (tl_head (lw_listener w)) /\
  Forall (fun ep => IsOnline ep = true) (lw_accepted w) /\
  (tl_shutdown (lw_listener w) = true -> tl_head (lw_listener w) = []).

Definition listener_wf (st : thread_state -> Prop) (w : listener_world E) : Prop :=
  hl_ok (lw_env w) /\ listener_core st w.

Lemma close_all_fds fds : fd_spec (K := K) (close_all fds) (fun _ o c => o = [] /\ c = fds).
Proof using Type.
  induction fds as [|fd fds IH]; cbn; [by apply fd_ret|].
  eapply fd_bind; [by apply (fd_call_ret _ (fun _ o c => o = [] /\ c = [fd]))|].
  intros _ o c [-> ->]. eapply fd_mono; [exact IH|]. by intros _ o c [-> ->].
Qed.

(** The rest of a listener's state is there, in the order of [listener_held]. *)
Ltac lw_split := unfold listener_wf, listener_core; split_and!.
Ltac lw_held := unfold listener_held, listen_fds; cbn; rewrite ?hl_owns_os, ?fmap_app, ?app_nil_r; cbn; try solve_Permutation.
Ltac lw_ok := repeat apply hl_ok_os; try done.

Lemma init_balanced threads e :
  0 <= threads -> hl_ok e ->
  lbalanced (TcpListener_Init threads) (listener_start e) (fun _ w => listener_wf (eq kAlive) w).
Proof.
  intros Hth He. unfold TcpListener_Init, balanced. apply spends_bind_gets. cbn [listener_start lw_listener TcpListener_new tl_shutdown negb].
  eapply spends_os_resources; [apply lw_os_with|by apply dtor_resources|]. intros _ o1 ? ? ? ? (-> & -> & -> & ->).
  eapply spends_os_resources; [apply lw_os_with|by apply init_resources|]. intros [err p] o2 op cl cr jo ([-> ->] & Hp & _).
  apply spends_bind_modify; [done|].
  assert (hl_ok (env_with_os o2 (env_with_os o1 e))) as Hok by lw_ok.
  destruct err as [err|].
  - apply spends_ret. split; [lw_held|by lw_split; [exact Hok|exact Hp|constructor..|]].
  - do 2 (apply spends_bind_modify; [done|]). apply spends_ret.
    split; [lw_held|by lw_split; [exact Hok|exact Hp|constructor..|]].
Qed.

Lemma start_balanced w :
  listener_wf (eq kAlive) w ->
  lbalanced TcpListener_Start w (fun _ w => listener_wf alive_or_active w).
Proof using Type.
  intros (Hok & Hp & Hwf). unfold TcpListener_Start, balanced. apply spends_bind_gets.
  destruct (tl_shutdown (lw_listener w)) eqn:Es.
  - apply spends_ret. split; [done|]. split; [done|]. split; [by apply pt_wf_running|by rewrite Es].
  - eapply spends_os_resources; [apply lw_os_with|by apply start_resources|].
    intros [e p] o1 ? ? ? ? (-> & -> & -> & -> & Hp' & Ep & _).
    apply spends_bind_modify; [done|]. apply spends_ret. split; [lw_held; by rewrite Ep|].
    split; [lw_ok|]. split; [done|cbn; by rewrite Es].
Qed.

Lemma add_balanced addr w :
  listener_wf alive_or_active w ->
  lbalanced (TcpListener_AddListeningPort somaxconn_file addr) w (fun _ w => listener_wf alive_or_active w).
Proof using Type*.
  intros (Hok & Hp & Hnd & Hlt & Hon & Hsd). unfold TcpListener_AddListeningPort, balanced. apply spends_bind_gets.
  destruct (tl_shutdown (lw_listener w)) eqn:Es.
  { apply spends_ret. split; [done|]. lw_split; [done..|]. by rewrite Es. }
  eapply spends_os_fd; [apply lw_os_with|apply (dualstack_fds (fun fd => fd < 2 ^ 31)), socket_not_0|]. unfold one_socket. cbn.
  intros [[e mode] fd] o1 o c HR. destruct e as [e|]; cbn in HR.
  { subst. apply spends_ret. split; [lw_held|]. lw_split; [lw_ok|done..|]. by cbn; rewrite Es. }
  destruct HR as (-> & Hfd & _).
  eapply spends_os_fd; [apply lw_os_with|apply server_prepare_fds; lia|]. unfold closes_on_error. cbn.
  intros [e port] o2 ? ? [-> ->]. destruct e as [e|].
  { apply spends_ret. split; [lw_held|]. lw_split; [lw_ok|done..|]. by cbn; rewrite Es. }
  apply spends_bind_modify; [done|].
  eapply spends_os_quiet; [apply lw_os_with|apply quiet_Poll_Add|]. intros _ o3. apply spends_ret. split; [lw_held|].
  lw_split; cbn; [lw_ok|done| | |done|by rewrite Es].
  - by apply NoDup_new_ptr.
  - apply Forall_app. split; [|by constructor; cbn; [lia|constructor]].
    eapply Forall_impl; [exact Hlt|]. cbn. intros; lia.
Qed.

Lemma accept_fds sockfd :
  fd_spec (K := K) (AcceptEx sockfd true true) (fun '(fd, _) o c =>
    fd <> 0 /\ fd < 2 ^ 31 /\ o = (if 0 <? fd then [fd] else []) /\ c = []).
Proof using Hsock.
  unfold AcceptEx. eapply fd_bind.
  { apply (fd_call _ (fun r o c => r_ret r <> 0 /\ r_ret r < 2 ^ 31 /\
      o = (if 0 <? r_ret r then [r_ret r] else []) /\ c = [])).
    intros k r <-. destruct (accept_result k sockfd (Z.lor SOCK_NONBLOCK SOCK_CLOEXEC)) as [H0' Hlt].
    lw_split; [done|done| |done]. unfold opened, opened_by. cbn.
    set (r := r_ret _) in *. replace (0 <? r) with (0 <=? r) by lia. by destruct (0 <=? r). }
  intros r o c (Hr & Hlt & -> & ->). apply fd_ret. by rewrite !app_nil_r.
Qed.

Lemma event_balanced detail sp w :
  listener_wf alive_or_active w -> assoc_find (ed_ptr detail) (tl_head (lw_listener w)) = Some sp ->
  lbalanced (TcpListener_OnEventProcess detail) w (fun _ w => listener_wf alive_or_active w).
Proof using Type*.
  intros (Hok & Hp & Hnd & Hlt & Hon & Hsd) Hobj. unfold TcpListener_OnEventProcess, balanced. apply spends_bind_gets.
  apply spends_bind_option. exists sp. split; [done|].
  destruct (negb _); [|by apply spends_ret; lw_split].
  eapply spends_os_fd; [apply lw_os_with|apply accept_fds|]. intros [fd client] o1 o c (Hfd & Hfd' & -> & ->).
  destruct (Z.ltb_spec 0 fd) as [Hpos|Hneg].
  2:{ apply spends_ret. split; [lw_held|]. lw_split; [lw_ok|done..]. }
  change (SetListenPort _ _) with (accepted_endpoint fd (lo_addr sp) client (lo_port sp)).
  set (ep := accepted_endpoint _ _ _ _).
  assert (IsOnline ep = true) as Hep.
  { change (IsOnline (EndpointImpl_new fd (lo_addr sp) client) = true). rewrite IsOnline_new by lia. lia. }
  apply spends_bind_modify; [done|]. set (w1 := lw_accept ep _).
  apply (spends_bind _ _ _ _ _ (fun _ w' o c => exists e', w' = lw_with_env e' w1 /\
    o ++ fd :: hl_owns (lw_env w) (lw_accepted w) ≡ₚ c ++ hl_owns e' (lw_accepted w ++ [ep]) /\ hl_ok e')).
  { eapply (spends_part _ (trace_of env_os)); [done|done|].
    assert (hl_ok (lw_env w1)) as Hok1 by (cbn; lw_ok).
    eapply spends_mono; [exact (hl_accept fd (lo_addr sp) client (lo_port sp) ∅ (lw_env w1) (lw_accepted w) (conj Hpos Hfd') Hok1)|].
    cbn beta. intros _ e' o c [Hbal Hok']. exists e'. split; [done|]. split; [|done]. cbn in Hbal. by rewrite hl_owns_os in Hbal. }
  intros [obj prop] w2 o c (e' & -> & Hbal & Hok').
  assert (forall e2, hl_owns e2 (lw_accepted w ++ [ep]) = hl_owns e' (lw_accepted w ++ [ep]) -> hl_ok e2 ->
    ([fd] ++ o) ++ listener_held w ≡ₚ ([] ++ c) ++ listener_held (lw_with_env e2 w1) /\
    listener_wf alive_or_active (lw_with_env e2 w1)) as Hdone.
  { intros e2 E2 Hok2. split.
    - unfold listener_held. cbn. rewrite E2. unfold listen_fds.
      transitivity ((o ++ fd :: hl_owns (lw_env w) (lw_accepted w)) ++ epoll_fds (pt_epoll (tl_poll_thread (lw_listener w))) ++
        (lo_listen_fd ∘ snd <$> tl_head (lw_listener w))); [solve_Permutation|]. rewrite Hbal. solve_Permutation.
    - lw_split; cbn; [done..| |done]. apply Forall_app. split; [done|]. by constructor. }
  destruct (IsOnline obj); [|apply spends_ret; rewrite !app_nil_r; by apply Hdone].
  apply spends_os_last. eapply spends_os_quiet; [apply lw_os_with|apply quiet_Listener_ProcessProperty|]. intros [] o3.
  apply spends_ret. rewrite !app_nil_r. apply Hdone; [apply hl_owns_os|lw_ok].
Qed.

Lemma run_listener_op_balanced op w :
  listener_wf alive_or_active w ->
  lbalanced (run_listener_op somaxconn_file op) w (fun _ w => listener_wf alive_or_active w).
Proof using Type*.
  intros Hw. destruct op as [addr|i ty code]; cbn [run_listener_op].
  - eapply balanced_bind; [by apply add_balanced|]. intros e w' Hw'. by apply balanced_ret.
  - apply spends_bind_gets. destruct (tl_head (lw_listener w) !! i) as [[ptr sp]|] eqn:Ei; [|by apply balanced_ret].
    eapply event_balanced; [done|]. destruct Hw as (_ & _ & Hnd & _). apply (assoc_find_lookup _ _ _ Hnd Ei).
Qed.

Lemma run_listener_balanced ops w :
  listener_wf alive_or_active w ->
  lbalanced (run_listener somaxconn_file ops) w (fun _ w => listener_wf alive_or_active w).
Proof using Type*.
  revert w. induction ops as [|op ops IH]; intros w Hw; [by apply balanced_ret|].
  cbn [run_listener]. eapply balanced_bind; [by apply run_listener_op_balanced|]. by intros [] w'; apply IH.
Qed.

(** [Shutdown] joins the thread, and closes the listening descriptors. *)
Lemma shutdown_balanced w :
  listener_wf alive_or_active w ->
  lbalanced TcpListener_Shutdown w (fun _ w' => listener_wf alive_or_active w' /\ lw_accepted w' = lw_accepted w /\
    tl_shutdown (lw_listener w') = true /\ tl_head (lw_listener w') = []).
Proof using Type.
  intros (Hok & Hp & Hnd & Hlt & Hon & Hsd). unfold TcpListener_Shutdown, balanced. apply spends_bind_gets.
  destruct (tl_shutdown (lw_listener w)) eqn:Es.
  { apply spends_ret. split; [done|]. lw_split; auto. }
  apply spends_bind_modify; [done|].
  eapply spends_os_resources; [apply lw_os_with|by apply shutdown_resources|].
  intros p o1 ? ? ? ? (-> & Hcl & -> & -> & Hj & Hs). apply spends_bind_modify; [done|].
  eapply spends_os_fd; [apply lw_os_with|apply close_all_fds|]. intros _ o2 ? ? [-> ->].
  apply spends_modify; [done|]. split.
  - lw_held. rewrite <- Hcl. solve_Permutation.
  - lw_split; cbn; [lw_ok|unfold pt_wf; by rewrite Hs|constructor|constructor|done..].
Qed.

(** The destructor of a listener that was shut down closes the epoll descriptor it has left. *)
Lemma dtor_after_shutdown (w : listener_world E) :
  tl_shutdown (lw_listener w) = true -> pt_wf alive_or_active (tl_poll_thread (lw_listener w)) ->
  lspends TcpListener_dtor w (fun _ w' o c =>
    o = [] /\ c = epoll_fds (pt_epoll (tl_poll_thread (lw_listener w))) /\ exists o', w' = lw_with_os o' w).
Proof using Type.
  intros Hs Hp. unfold TcpListener_dtor, TcpListener_Shutdown.
  eapply (spends_bind _ _ _ _ _ (fun _ w' o c => w' = w /\ o = [] /\ c = [])).
  { apply spends_bind_gets. rewrite Hs. by apply spends_ret. }
  intros _ w' ? c (-> & -> & ->). apply spends_bind_gets, spends_os_last.
  eapply spends_os_resources; [apply lw_os_with|by apply dtor_resources|]. intros [] o3 ? ? ? ? (-> & -> & -> & ->).
  apply spends_ret. rewrite !app_nil_r. split_and!; [done|done|by exists o3].
Qed.

(** What is left at the end is what the environment owns. *)
Lemma dtor_balanced w :
  listener_wf alive_or_active w ->
  lspends TcpListener_dtor w (fun _ w' o c =>
    o ++ listener_held w ≡ₚ c ++ hl_owns (lw_env w') (lw_accepted w') /\ hl_ok (lw_env w') /\
    tl_head (lw_listener w') = [] /\ lw_accepted w' = lw_accepted w).
Proof using Type.
  intros Hw. assert (TcpListener_dtor w = (_ ← TcpListener_Shutdown; TcpListener_dtor) w) as Edtor.
  { unfold TcpListener_dtor, TcpListener_Shutdown, mbind, M_bind, gets. destruct (tl_shutdown (lw_listener w)) eqn:Es; [cbn; rewrite ?Es; reflexivity|].
    unfold set_listener, modify, listener_os, zoom, mret, M_ret. cbn. destruct (PollingThread_Shutdown _ _) as [[p o]| | |]; [|done..].
    cbn. by destruct (close_all _ _) as [[[] o']| | |]. }
  assert (forall Q, lspends (_ ← TcpListener_Shutdown; TcpListener_dtor) w Q -> lspends TcpListener_dtor w Q) as Hgo
    by (intros Q; unfold spends, wp; by rewrite Edtor).
  apply Hgo. eapply spends_bind; [by apply shutdown_balanced|].
  intros _ w' ? c (Hc & (Hok & Hp & _) & Hacc & Hs & Hh).
  eapply spends_mono; [by apply dtor_after_shutdown|]. intros _ w2 ? ? (-> & -> & o' & ->).
  split_and!; [|cbn; lw_ok|done|done].
  rewrite app_nil_r, Hc. unfold listener_held, listen_fds. cbn. rewrite Hh, hl_owns_os. cbn. solve_Permutation.
Qed.

(** Over a whole life, what was opened and not closed is what the environment owns. *)
Lemma listener_life_owned (threads : Z) (ops : list listener_op) (e : E) :
  0 <= threads -> hl_ok e ->
  lspends (listener_life somaxconn_file threads ops) (listener_start e) (fun _ w op cl =>
    op ++ hl_owns e [] ≡ₚ cl ++ hl_owns (lw_env w) (lw_accepted w) /\
    Forall (fun ep => IsOnline ep = true) (lw_accepted w) /\ tl_head (lw_listener w) = []).
Proof using Type*.
  intros Hth He. unfold listener_life.
  eapply spends_bind; [by apply init_balanced|]. intros err w1 o1 c1 [E1 Hw1].
  eapply spends_bind; [by apply start_balanced|]. intros err' w2 o2 c2 [E2 Hw2].
  eapply spends_bind; [by apply run_listener_balanced|]. intros [] w3 o3 c3 [E3 Hw3].
  eapply spends_mono; [by apply dtor_balanced|]. intros [] w4 o4 c4 (E4 & _ & Hh & Hacc).
  split; [|split; [rewrite Hacc; apply Hw3|done]]. change (listener_held (listener_start e)) with (hl_owns e []) in E1.
  transitivity (o4 ++ o3 ++ o2 ++ (o1 ++ hl_owns e [])); [solve_Permutation|]. rewrite E1.
  transitivity (c1 ++ (o2 ++ listener_held w1) ++ o3 ++ o4); [solve_Permutation|]. rewrite E2.
  transitivity (c1 ++ c2 ++ (o3 ++ listener_held w2) ++ o4); [solve_Permutation|]. rewrite E3.
  transitivity (c1 ++ c2 ++ c3 ++ (o4 ++ listener_held w3)); [solve_Permutation|]. rewrite E4.
  solve_Permutation.
Qed.
End ListenerLife.

(** ** A handler of its own *)

Section QuietHandler.
Context {K : Type} `{Kernel K} `{AcceptorHandler (os K)}.

(** The handler hands the endpoint on, and neither opens nor closes descriptors. *)
Hypothesis handler_quiet : forall ep p, quiet (OnAccept ep p).

(** Every endpoint it was given is still open. *)
Program Definition quiet_handler_laws : HandlerLaws (os K) := {|
  hl_owns _ accepted := fd_int <$> accepted;
  hl_ok _ := True;
|}.
Next Obligation. done. Qed.
Next Obligation. done. Qed.
Next Obligation.
  intros fd local remote port p o accepted Hfd _. cbn zeta. set (ep := accepted_endpoint _ _ _ _).
  assert (fd_int ep = fd) as Efd by (apply (fd_int_new fd local remote); lia).
  eapply wp_mono; [apply handler_quiet|]. cbn. intros [obj q] o' (t & Et & Ot & Ct). exists t. split; [done|]. split; [|done]. rewrite Ot, Ct.
  rewrite fmap_app. cbn. rewrite Efd. solve_Permutation.
Qed.
End QuietHandler.

Section LeaksNothing.
Context {K : Type} `{Kernel K} `{LibC} `{AcceptorHandler (os K)} `{!KernelThreads} `{!KernelEpoll} `{!KernelSockets}.
Variable somaxconn_file : option (option (list byte)).
Hypothesis handler_quiet : forall ep p, quiet (OnAccept ep p).

(** C24. A listener leaks no descriptor over its whole life: initialised with any number of
    threads, started, asked to listen on any addresses and served any events of its
    sockets in any order, then destroyed, it has closed, each once, the epoll
    descriptor and all the sockets it opened, but those it accepted and gave to the
    handler, with every failing path included.  The endpoints given to the handler are
    online.  Assumed are: new sockets are ints and not descriptor 0 ([KernelSockets]:
    standard input is open), which the code takes for a failure (accepted_zero_leaks);
    epoll_create gives a descriptor or -1, and new threads have names; and the handler
    itself opens and closes nothing.  Else the kernel answers what it likes. *)
Theorem listener_life_closes_all (threads : Z) (ops : list listener_op) (o : os K) :
  0 <= threads ->
  spends (trace_of lw_os) (listener_life somaxconn_file threads ops) (listener_start o) (fun _ w op cl =>
    op ≡ₚ cl ++ (fd_int <$> lw_accepted w) /\ Forall (fun ep => IsOnline ep = true) (lw_accepted w) /\
    tl_head (lw_listener w) = []).
Proof.
  intros Hth. set (laws := quiet_handler_laws handler_quiet).
  eapply spends_mono; [by apply (listener_life_owned somaxconn_file threads ops o)|].
  intros [] w op cl (Hbal & Hon & Hh). unfold laws in Hbal. cbn in Hbal. by rewrite app_nil_r in Hbal.
Qed.
End LeaksNothing.

(** A kernel that opens descriptors from 3 on, and a handler that keeps the endpoint and
    asks for Nagle's algorithm. *)
Definition serving_kernel : Kernel Z := fun k c =>
  let ret x n := {| r_ret := x; r_errno := 0; r_data := []; r_int := n; r_events := [] |} in
  match c with
  | SysSocket _ _ _ | SysAccept4 _ _ | SysEpollCreate _ =>
      (ret (3 + Z.abs k mod 1000) 0, k + 1)
  | SysPthreadCreate => (ret 0 (1000 + Z.abs k), k + 1)
  | SysGetsockopt _ _ _ => (ret 0 1, k)
  | _ => (ret 0 0, k)
  end.

Definition keep_endpoint : AcceptorHandler (os Z) := fun ep p =>
  mret (ep, Property_set (PropertyEntry_bool "SocketLowLatency" false) p).

#[local] Existing Instance serving_kernel.
#[local] Existing Instance quiet_libc.
#[local] Existing Instance keep_endpoint.

#[local] Instance serving_kernel_threads : KernelThreads (K := Z).
Proof. split. intros k _. unfold sys_call, serving_kernel. cbn. lia. Qed.

#[local] Instance serving_kernel_epoll : KernelEpoll (K := Z).
Proof.
  split. intros k n. unfold sys_call, serving_kernel. cbn [r_ret fst].
  pose proof (Z.mod_pos_bound (Z.abs k) 1000). lia.
Qed.

#[local] Instance serving_kernel_sockets : KernelSockets (K := Z).
Proof.
  split; intros k ?; intros; unfold sys_call, serving_kernel; cbn [r_ret fst];
    pose proof (Z.mod_pos_bound (Z.abs k) 1000); lia.
Qed.

Definition serving_start : os Z := {| os_kernel := 0; os_errno := 0; os_trace := [] |}.

Definition serving_ops : list listener_op :=
  [ListenerAdd (loopback4 80); ListenerAdd (loopback4 81); ListenerEvent 1 kRecvEvent 0; ListenerEvent 0 kErrorEvent 0].

(** The epoll descriptor is 3, the two listening sockets are 5 and 6, and 7 was accepted. *)
Example serving_run :
  match listener_life None 1 serving_ops (listener_start serving_start) with
  | Ret (_, w) => opened (os_trace (lw_os w)) = [3; 5; 6; 7] /\ closed (os_trace (lw_os w)) = [3; 5; 6] /\
      fd_int <$> lw_accepted w = [7]
  | _ => False
  end.
Proof. vm_compute. done. Qed.

Lemma listener_life_closes_all_witness :
  spends (trace_of lw_os) (listener_life None 1 serving_ops) (listener_start serving_start) (fun _ w op cl =>
    op ≡ₚ cl ++ (fd_int <$> lw_accepted w) /\ Forall (fun ep => IsOnline ep = true) (lw_accepted w) /\
    tl_head (lw_listener w) = []).
Proof. apply (listener_life_closes_all None); [intros ep p; apply quiet_ret|lia]. Defined.

(** Without standard input the accepted descriptor can be 0: it is not given to the handler
    and not closed. *)
Definition zero_accept_kernel : Kernel Z := fun k c =>
  match c with
  | SysAccept4 _ _ => ({| r_ret := 0; r_errno := 0; r_data := []; r_int := 0; r_events := [] |}, k)
  | _ => serving_kernel k c
  end.

Example accepted_zero_leaks :
  match @listener_life Z zero_accept_kernel _ _ _ _ None 1 serving_ops (listener_start serving_start) with
  | Ret (_, w) => opened (os_trace (lw_os w)) = [3; 5; 6; 0] /\ closed (os_trace (lw_os w)) = [3; 5; 6] /\ lw_accepted w = []
  | _ => False
  end.
Proof. vm_compute. done. Qed.
