(* ===== verification/TcpConnector.v ===== *)
(** * The TCP connector (src/linux/tcp_connector.h, src/linux/tcp_connector.cc)

    The connector's thread, the connections it is waiting for, and what it does when
    one is established or fails.  The records are kept by address, as in the code's
    set; the user's [ConnectorHandler] is a parameter and its calls are recorded. *)

From S2P Require Import Prelude.
From S2P Require Import SockAddr.
From S2P Require Import HostPort.
From S2P Require Import Slice.
From S2P Require Import Status.
From S2P Require Import Property.
From S2P Require Import OS.
From S2P Require Import SocketSetting.
From S2P Require Import Resolve.
From S2P Require Import Endpoint.
From S2P Require Import Options.
From S2P Require Import Epoll.
From S2P Require Import Thread.
From S2P Require Import PollingThread.
From S2P Require Import Ledger.

Local Open Scope Z_scope.

Record async_connect_record_entry : Type := {
  ac_fd : Z;
  ac_user_value : Z;
  ac_addr : raptor_resolved_address;
}.

(** [tc_next] is the address the next record is allocated at: addresses grow, so that
    the order of the list is that of the set. *)
Record TcpConnector : Type := {
  tc_shutdown : bool;
  tc_tcp_user_timeout_ms : Z;
  tc_records : list (Z * async_connect_record_entry);
  tc_poll_thread : option PollingThread;
  tc_next : Z;
}.

Definition TcpConnector_new : TcpConnector := {|
  tc_shutdown := true;
  tc_tcp_user_timeout_ms := 0;
  tc_records := [];
  tc_poll_thread := None;
  tc_next := 4096;
|}.

(** What the handler makes of the endpoint, and of the properties. *)
Class ConnectorHandler (E : Type) : Type := {
  OnConnect : EndpointImpl -> Property -> M E (EndpointImpl * Property);
  OnErrorOccurred : EndpointImpl -> raptor_error -> M E EndpointImpl;
}.

Inductive connector_call : Type :=
  | CalledOnConnect (ep : EndpointImpl) (property : Property)
  | CalledOnErrorOccurred (ep : EndpointImpl) (err : raptor_error).

Record connector_world (E : Type) : Type := {
  cw_env : E;
  cw_connector : TcpConnector;
  cw_calls : list connector_call;
}.
Arguments Build_connector_world {E} _ _ _.
Arguments cw_env {E} _.
Arguments cw_connector {E} _.
Arguments cw_calls {E} _.

Section Connector.
Context {K : Type} `{Kernel K} {E : Type} `{!InProcess E K} `{LibC} `{Resolver K} `{ConnectorHandler E}.
(** How often connect(2) is tried again after a signal. *)
Variable connect_fuel : nat.

Definition cw_with_env (e : E) (w : connector_world E) : connector_world E :=
  {| cw_env := e; cw_connector := cw_connector w; cw_calls := cw_calls w |}.
Definition cw_os (w : connector_world E) : os K := env_os (cw_env w).
Definition cw_with_os (o : os K) (w : connector_world E) : connector_world E :=
  cw_with_env (env_with_os o (cw_env w)) w.
Definition cw_with_connector (c : TcpConnector) (w : connector_world E) : connector_world E :=
  {| cw_env := cw_env w; cw_connector := c; cw_calls := cw_calls w |}.
Definition cw_call (c : connector_call) (w : connector_world E) : connector_world E :=
  {| cw_env := cw_env w; cw_connector := cw_connector w; cw_calls := cw_calls w ++ [c] |}.

Lemma cw_os_with o (w : connector_world E) : cw_os (cw_with_os o w) = o.
Proof using Type. apply env_os_with. Qed.

Definition connector_env {A} (m : M E A) : M (connector_world E) A := zoom cw_env cw_with_env m.
Definition connector_os {A} (m : M (os K) A) : M (connector_world E) A := zoom cw_os cw_with_os m.
Definition set_connector (f : TcpConnector -> TcpConnector) : M (connector_world E) unit :=
  modify (fun w => cw_with_connector (f (cw_connector w)) w).

Definition tc_with_poll (p : PollingThread) (c : TcpConnector) : TcpConnector :=
  {| tc_shutdown := tc_shutdown c; tc_tcp_user_timeout_ms := tc_tcp_user_timeout_ms c;
     tc_records := tc_records c; tc_poll_thread := Some p; tc_next := tc_next c |}.
Definition tc_with_shutdown (b : bool) (c : TcpConnector) : TcpConnector :=
  {| tc_shutdown := b; tc_tcp_user_timeout_ms := tc_tcp_user_timeout_ms c;
     tc_records := tc_records c; tc_poll_thread := tc_poll_thread c; tc_next := tc_next c |}.
Definition tc_with_timeout (ms : Z) (c : TcpConnector) : TcpConnector :=
  {| tc_shutdown := tc_shutdown c; tc_tcp_user_timeout_ms := ms;
     tc_records := tc_records c; tc_poll_thread := tc_poll_thread c; tc_next := tc_next c |}.
Definition tc_with_records (r : list (Z * async_connect_record_entry)) (next : Z) (c : TcpConnector) : TcpConnector :=
  {| tc_shutdown := tc_shutdown c; tc_tcp_user_timeout_ms := tc_tcp_user_timeout_ms c;
     tc_records := r; tc_poll_thread := tc_poll_thread c; tc_next := next |}.

(** ** Life *)

(** Releasing the [shared_ptr]: the thread object is destroyed if there is one. *)
Definition release_poll (p : option PollingThread) : M (os K) unit :=
  match p with Some p => PollingThread_dtor p | None => mret tt end.

Definition TcpConnector_Init (threads tcp_user_timeout : Z) : M (connector_world E) raptor_error :=
  c ← gets cw_connector;
  if negb (tc_shutdown c) then mret (RAPTOR_ERROR_FROM_STATIC_STRING "TcpConnector is already running")
  else
    _ ← connector_os (release_poll (tc_poll_thread c));
    '(e, p) ← connector_os (PollingThread_Init threads PollingThread_new);
    _ ← set_connector (tc_with_poll p);
    match e with
    | Some _ => mret e
    | None =>
        _ ← set_connector (tc_with_poll (EnableTimeoutCheck false p));
        _ ← set_connector (tc_with_timeout tcp_user_timeout);
        _ ← set_connector (tc_with_shutdown false);
        mret RAPTOR_ERROR_NONE
    end.

Definition TcpConnector_Start : M (connector_world E) raptor_error :=
  c ← gets cw_connector;
  if tc_shutdown c then mret (RAPTOR_ERROR_FROM_STATIC_STRING "TcpConnector is not initialized")
  else
    p ← of_option (tc_poll_thread c);
    '(e, p) ← connector_os (PollingThread_Start p);
    _ ← set_connector (tc_with_poll p);
    mret e.

(** [close(entry->fd)] for each record. *)
Fixpoint close_records (records : list (Z * async_connect_record_entry)) : M (os K) unit :=
  match records with
  | [] => mret tt
  | (_, entry) :: records => _ ← call_ret (SysClose (ac_fd entry)); close_records records
  end.

Definition TcpConnector_Shutdown : M (connector_world E) unit :=
  c ← gets cw_connector;
  if tc_shutdown c then mret tt
  else
    _ ← set_connector (tc_with_shutdown true);
    p ← of_option (tc_poll_thread c);
    p ← connector_os (PollingThread_Shutdown p);
    _ ← set_connector (tc_with_poll p);
    _ ← connector_os (close_records (tc_records c));
    set_connector (fun c => tc_with_records [] (tc_next c) c).

(** The destructor: [Shutdown], then [_poll_thread] is released. *)
Definition TcpConnector_dtor : M (connector_world E) unit :=
  _ ← TcpConnector_Shutdown;
  c ← gets cw_connector;
  connector_os (release_poll (tc_poll_thread c)).

(** ** Connecting *)

(** [do err = connect(...) while (err < 0 && errno == EINTR)]. *)
Fixpoint connect_loop (fuel : nat) (sock_fd : Z) (addr : list byte) : M (os K) Z :=
  match fuel with
  | O => no_fuel
  | S fuel =>
      err ← call_ret (SysConnect sock_fd addr);
      e ← errno;
      if (err <? 0) && (e =? EINTR) then connect_loop fuel sock_fd addr else mret err
  end.

Definition connect_events : Z := Z.lor (Z.lor (Z.lor EPOLLIN EPOLLOUT) EPOLLET) EPOLLRDHUP.

(** [errno] is tested whatever connect(2) returned; a null [_poll_thread] is followed. *)
Definition AsyncConnect (addr : raptor_resolved_address) (user timeout_ms : Z) : M (connector_world E) raptor_error :=
  '(result, mapped_addr, sock_fd) ← connector_os (raptor_tcp_client_prepare_socket addr timeout_ms);
  match result with
  | Some _ => mret result
  | None =>
      _ ← connector_os (connect_loop connect_fuel sock_fd
            (take (Z.to_nat (ra_len mapped_addr)) (ra_addr mapped_addr)));
      e ← connector_os errno;
      if negb (e =? EWOULDBLOCK) && negb (e =? EINPROGRESS) then
        _ ← connector_os (raptor_set_socket_shutdown sock_fd);
        connector_os (RAPTOR_POSIX_ERROR "connect")
      else
        c ← gets cw_connector;
        let entry := {| ac_fd := sock_fd; ac_user_value := user; ac_addr := mapped_addr |} in
        _ ← set_connector (tc_with_records (tc_records c ++ [(tc_next c, entry)]) (tc_next c + 256));
        p ← of_option (tc_poll_thread c);
        _ ← connector_os (Poll_Add (pt_epoll p) sock_fd (tc_next c) connect_events);
        mret RAPTOR_ERROR_NONE
  end.

Definition TcpConnector_Connect (addr : list byte) (user : Z) : M (connector_world E) raptor_error :=
  '(e, addrs) ← connector_os (raptor_blocking_resolve_address addr None);
  match e with
  | Some _ => mret e
  | None =>
      addrs ← of_option addrs;
      match addrs with
      | [] =>
          st ← of_option (AppendMessage addr (Status_msg (str "Invalid address: ")));
          mret (Some st)
      | first :: _ =>
          c ← gets cw_connector;
          AsyncConnect first user (tc_tcp_user_timeout_ms c)
      end
  end.

(** ** Established or failed *)

(** getsockname into a buffer that was zeroed. *)
Definition local_address (fd : Z) : M (os K) raptor_resolved_address :=
  g ← call (SysGetsockname fd);
  mret (if r_ret g <? 0 then {| ra_addr := replicate 128 x00; ra_len := 128 |}
        else {| ra_addr := r_data g; ra_len := r_int g |}).

Definition TcpConnector_OnEventProcess (detail : EventDetail) : M (connector_world E) unit :=
  c ← gets cw_connector;
  entry ← of_option (assoc_find (ed_ptr detail) (tc_records c));
  local ← connector_os (local_address (ac_fd entry));
  let endpoint := EndpointImpl_new (ac_fd entry) local (ac_addr entry) in
  p ← of_option (tc_poll_thread c);
  _ ← connector_os (Poll_Delete (pt_epoll p) (ac_fd entry) connect_events);
  _ ← (if has (ed_event_type detail) kSendEvent then
         let property := Property_entry (PropertyEntry_ptr "UserCustomValue" (ac_user_value entry)) in
         _ ← modify (cw_call (CalledOnConnect endpoint property));
         '(endpoint, property) ← connector_env (OnConnect endpoint property);
         if IsOnline endpoint
         then connector_os (Connector_ProcessProperty (ac_fd entry) property) else mret tt
       else
         error_code ← connector_os (raptor_get_socket_error (ac_fd entry));
         let err := Some (Status_code_msg error_code (str "getsockopt(SO_ERROR)")) in
         _ ← modify (cw_call (CalledOnErrorOccurred endpoint err));
         _ ← connector_env (OnErrorOccurred endpoint err);
         _ ← connector_os (call_ret (SysClose (ac_fd entry)));
         mret tt);
  set_connector (fun c => tc_with_records (assoc_remove (ed_ptr detail) (tc_records c)) (tc_next c) c).

#[export] Instance TcpConnector_service : EventReceivingService (connector_world E) := {
  OnEventProcess := TcpConnector_OnEventProcess;
  OnTimeoutCheck _ := mret tt;
}.

(** ** Runs *)

(** An event is about the [i]-th pending connection. *)
Inductive connector_op : Type :=
  | ConnectorConnect (addr : list byte) (user : Z)
  | ConnectorEvent (i : nat) (event_type error_code : Z).

Definition run_connector_op (op : connector_op) : M (connector_world E) unit :=
  match op with
  | ConnectorConnect addr user => _ ← TcpConnector_Connect addr user; mret tt
  | ConnectorEvent i event_type error_code =>
      c ← gets cw_connector;
      match tc_records c !! i with
      | Some (ptr, _) =>
          TcpConnector_OnEventProcess {| ed_ptr := ptr; ed_event_type := event_type; ed_error_code := error_code |}
      | None => mret tt
      end
  end.

Fixpoint run_connector (ops : list connector_op) : M (connector_world E) unit :=
  match ops with
  | [] => mret tt
  | op :: ops => _ ← run_connector_op op; run_connector ops
  end.

(** A whole life; the connector is used only when it was initialised. *)
Definition connector_life (threads timeout_ms : Z) (ops : list connector_op) : M (connector_world E) unit :=
  e ← TcpConnector_Init threads timeout_ms;
  _ ← match e with
      | None => _ ← TcpConnector_Start; run_connector ops
      | Some _ => mret tt
      end;
  TcpConnector_dtor.

Definition connector_start (e : E) : connector_world E :=
  {| cw_env := e; cw_connector := TcpConnector_new; cw_calls := [] |}.
End Connector.

(** ** Nothing is leaked *)

(** What a handler promises about the descriptors of the endpoints it was given so far:
    [cl_owns] are those the environment still has open, [cl_ok] holds between its runs,
    and a run accounts for the new one. *)
Class ConnectorLaws (E : Type) {K : Type} `{InProcess E K} `{ConnectorHandler E} : Type := {
  cl_owns : E -> list connector_call -> list Z;
  cl_ok : E -> Prop;
  cl_owns_os o e calls : cl_owns (env_with_os o e) calls = cl_owns e calls;
  cl_ok_os o e : cl_ok e -> cl_ok (env_with_os o e);
  cl_connect fd local remote p e calls :
    0 < fd < 2 ^ 31 -> cl_ok e ->
    let ep := EndpointImpl_new fd local remote in
    spends (trace_of env_os) (OnConnect ep p) e (fun _ e' o c =>
      o ++ fd :: cl_owns e calls ≡ₚ c ++ cl_owns e' (calls ++ [CalledOnConnect ep p]) /\ cl_ok e');
  cl_error fd local remote err e calls :
    cl_ok e ->
    let ep := EndpointImpl_new fd local remote in
    spends (trace_of env_os) (OnErrorOccurred ep err) e (fun _ e' o c =>
      o ++ cl_owns e calls ≡ₚ c ++ cl_owns e' (calls ++ [CalledOnErrorOccurred ep err]) /\ cl_ok e');
}.

Section ConnectorLife.
Context {K : Type} `{Kernel K} {E : Type} `{!InProcess E K} `{LibC} `{Resolver K} `{ConnectorHandler E}.
Context `{!KernelThreads} `{!KernelEpoll} `{Hsock : !KernelSockets}.
Variable connect_fuel : nat.

(** The kernel's state when a call was answered [n] times. *)
Fixpoint kernel_after (n : nat) (k : K) (c : syscall) : K :=
  match n with O => k | S n => kernel_after n (sys_call k c).2 c end.

Definition interrupted (r : sysret) : bool := (r_ret r <? 0) && (r_errno r =? EINTR).

(** Signals interrupt a call to connect(2) fewer than [connect_fuel] times in a row; what
    the resolver finds fits an address buffer, and it neither opens nor closes
    descriptors. *)
Hypothesis connect_ends : forall k fd addr, exists n, (n < connect_fuel)%nat /\
  interrupted (sys_call (kernel_after n k (SysConnect fd addr)) (SysConnect fd addr)).1 = false.
Context `{!ResolverLaws (K := K)}.
Context `{!ConnectorLaws E}.

Definition connected (call : connector_call) : option Z :=
  match call with CalledOnConnect ep _ => Some (fd_int ep) | CalledOnErrorOccurred _ _ => None end.

(** The epoll descriptor of the thread object, if there is one. *)
Definition poll_fds (p : option PollingThread) : list Z :=
  match p with Some p => epoll_fds (pt_epoll p) | None => [] end.

Definition record_fds (c : TcpConnector) : list Z := (fun x => ac_fd x.2) <$> tc_records c.

(** The descriptors the connector owns, and those of the environment. *)
Definition connector_held (w : connector_world E) : list Z :=
  poll_fds (tc_poll_thread (cw_connector w)) ++ record_fds (cw_connector w) ++ cl_owns (cw_env w) (cw_calls w).

Abbreviation cspends := (spends (trace_of cw_os)).
Abbreviation cbalanced := (balanced (trace_of cw_os) connector_held).
Definition poll_wf (st : thread_state -> Prop) (p : option PollingThread) : Prop :=
  match p with Some p => pt_wf st p | None => True end.

Definition connector_wf (st : thread_state -> Prop) (w : connector_world E) : Prop :=
  cl_ok (cw_env w) /\
  poll_wf st (tc_poll_thread (cw_connector w)) /\
  (tc_shutdown (cw_connector w) = false -> tc_poll_thread (cw_connector w) <> None) /\
  NoDup (fst <$> tc_records (cw_connector w)) /\
  Forall (fun x => x.1 < tc_next (cw_connector w) /\ 0 < ac_fd x.2 < 2 ^ 31) (tc_records (cw_connector w)) /\
  (tc_shutdown (cw_connector w) = true -> tc_records (cw_connector w) = []).

Lemma release_poll_resources p o :
  poll_wf alive_or_active p ->
  resources (release_poll p) o (fun _ op cl cr jo => op = [] /\ cl = poll_fds p).
Proof using Type.
  intros Hp. destruct p as [p|]; unfold release_poll; [|by apply resources_ret].
  eapply resources_mono; [by apply dtor_resources|]. intros _ ? ? ? ? (-> & -> & _). done.
Qed.

Lemma close_records_fds records :
  fd_spec (K := K) (close_records records) (fun _ o c => o = [] /\ c = (fun x => ac_fd x.2) <$> records).
Proof using Type.
  induction records as [|[ptr entry] records IH]; cbn; [by apply fd_ret|].
  eapply fd_bind; [by apply (fd_call_ret _ (fun _ o c => o = [] /\ c = [ac_fd entry]))|].
  intros _ o c [-> ->]. eapply fd_mono; [exact IH|]. by intros _ o c [-> ->].
Qed.

(** connect(2) is tried until it is not interrupted. *)
Lemma connect_loop_quiet fuel fd addr o n :
  (n < fuel)%nat ->
  interrupted (sys_call (kernel_after n (os_kernel o) (SysConnect fd addr)) (SysConnect fd addr)).1 = false ->
  wp (connect_loop fuel fd addr) o (fun _ o' => exists t, os_trace o' = os_trace o ++ t /\ opened t = [] /\ closed t = []).
Proof using Type.
  clear. revert o n. induction fuel as [|fuel IH]; intros o n Hn Hi; [lia|]. cbn [connect_loop].
  destruct (sys_call (os_kernel o) (SysConnect fd addr)) as [r k] eqn:E.
  unfold call_ret, call, errno, gets, wp, mbind, M_bind, mret, M_ret. rewrite E. cbn [os_errno].
  destruct n as [|n].
  - cbn [kernel_after] in Hi. rewrite E in Hi. cbn in Hi.
    destruct (r_ret r <? 0) eqn:Er; cbn [andb]; [|by exists [(SysConnect fd addr, r)]].
    unfold interrupted in Hi. rewrite Er in Hi. cbn in Hi. rewrite Hi. by exists [(SysConnect fd addr, r)].
  - destruct ((r_ret r <? 0) && _); [|by exists [(SysConnect fd addr, r)]].
    cbn [kernel_after] in Hi. rewrite E in Hi. cbn [snd] in Hi.
    eapply wp_mono; [eapply (IH _ n); [lia|exact Hi]|]. cbn. intros a o' (t & -> & Ho & Hc).
    exists ((SysConnect fd addr, r) :: t). by rewrite <- app_assoc.
Qed.

Lemma connect_quiet fd addr : quiet (K := K) (connect_loop connect_fuel fd addr).
Proof using connect_ends.
  intros o. destruct (connect_ends (os_kernel o) fd addr) as (n & Hn & Hi).
  eapply wp_mono; [by eapply connect_loop_quiet|]. done.
Qed.

Ltac cw_wf := unfold connector_wf; split_and!.
Ltac cw_held := unfold connector_held, record_fds; cbn; rewrite ?cl_owns_os, ?fmap_app, ?app_nil_r; cbn; try solve_Permutation.
Ltac cw_ok := repeat apply cl_ok_os; try done.

Lemma connector_init_balanced threads timeout_ms e :
  0 <= threads -> cl_ok e ->
  cbalanced (TcpConnector_Init threads timeout_ms) (connector_start e) (fun err w =>
    connector_wf (eq kAlive) w /\ (err = None -> tc_shutdown (cw_connector w) = false)).
Proof using H3 H4.
  intros Hth He. unfold TcpConnector_Init, balanced. apply spends_bind_gets.
  cbn [connector_start cw_connector TcpConnector_new tc_shutdown negb tc_poll_thread].
  eapply spends_os_resources; [apply cw_os_with|by apply release_poll_resources|]. intros _ o1 ? ? ? ? (-> & ->).
  eapply spends_os_resources; [apply cw_os_with|by apply init_resources|]. intros [err p] o2 op cl ? ? ([-> ->] & Hp & _).
  apply spends_bind_modify; [done|].
  assert (cl_ok (env_with_os o2 (env_with_os o1 e))) as Hok by cw_ok.
  destruct err as [err|]; [|do 3 (apply spends_bind_modify; [done|])]; apply spends_ret;
    (split; [cw_held|]); (split; [cw_wf; [exact Hok|exact Hp|done|constructor..|done]|done]).
Qed.

Lemma connector_start_balanced w :
  connector_wf (eq kAlive) w -> tc_shutdown (cw_connector w) = false ->
  cbalanced TcpConnector_Start w (fun _ w => connector_wf alive_or_active w /\ tc_shutdown (cw_connector w) = false).
Proof using Type.
  intros (Hok & Hp & Hsome & Hwf) Es. unfold TcpConnector_Start, balanced. apply spends_bind_gets. rewrite Es.
  destruct (tc_poll_thread (cw_connector w)) as [p|] eqn:Ep; [|by destruct Hsome].
  apply spends_bind_option. exists p. split; [done|].
  eapply spends_os_resources; [apply cw_os_with|by apply start_resources|].
  intros [e p'] o1 ? ? ? ? (-> & -> & -> & -> & Hp' & E' & _).
  apply spends_bind_modify; [done|]. apply spends_ret. split.
  - unfold connector_held, poll_fds. cbn. by rewrite Ep, E', cl_owns_os.
  - split; [|done]. split; [cw_ok|]. split; [done|]. split; [done|exact Hwf].
Qed.

Lemma raptor_shutdown_fds fd :
  0 < fd -> fd_spec (K := K) (raptor_set_socket_shutdown fd) (fun _ o c => o = [] /\ c = [fd]).
Proof using Type.
  intros Hfd. unfold raptor_set_socket_shutdown. rewrite (proj2 (Z.ltb_ge _ _)) by lia.
  apply fd_quiet_bind; [auto with quiet|]. intros _.
  eapply fd_bind; [by apply (fd_call_ret _ (fun _ o c => o = [] /\ c = [fd]))|].
  intros _ ? ? [-> ->]. by apply fd_ret.
Qed.

(** The process went on, and that is all. *)
Lemma connector_wf_os st o w : connector_wf st w -> connector_wf st (cw_with_os o w).
Proof using Type. intros (Hok & Hwf). split; [cbn; cw_ok|exact Hwf]. Qed.

Lemma connector_held_os o w : connector_held (cw_with_os o w) = connector_held w.
Proof using Type. unfold connector_held. cbn. by rewrite cl_owns_os. Qed.

Lemma async_connect_balanced addr user timeout_ms w :
  connector_wf alive_or_active w -> tc_shutdown (cw_connector w) = false ->
  cbalanced (AsyncConnect connect_fuel addr user timeout_ms) w (fun _ w =>
    connector_wf alive_or_active w /\ tc_shutdown (cw_connector w) = false).
Proof using Type*.
  intros Hwf Es. pose proof Hwf as (Hok & Hp & Hsome & Hnd & Hrec & Hsd). unfold AsyncConnect, balanced.
  eapply spends_os_fd; [apply cw_os_with|apply (tcp_client_fds (fun fd => fd < 2 ^ 31)), socket_not_0|]. unfold one_socket. cbn [fst snd].
  intros [[e mapped] fd] o1 o c HR. destruct e as [e|]; cbn [fst snd] in HR.
  { subst. apply spends_ret. rewrite connector_held_os, !app_nil_r. split; [done|]. by split; [apply connector_wf_os|]. }
  destruct HR as (-> & Hfd & Hfd').
  eapply spends_os_quiet; [apply cw_os_with|apply connect_quiet|]. intros _ o2.
  eapply spends_os_quiet; [apply cw_os_with|apply quiet_errno|]. intros e o3.
  destruct (negb (e =? EWOULDBLOCK) && negb (e =? EINPROGRESS)).
  { eapply spends_os_fd; [apply cw_os_with|by apply raptor_shutdown_fds|]. intros _ o4 ? ? [-> ->].
    apply spends_os_last. eapply spends_os_quiet; [apply cw_os_with|apply quiet_posix_error|]. intros r o5.
    apply spends_ret. rewrite !connector_held_os, !app_nil_r. split; [done|]. split; [|done].
    by repeat apply connector_wf_os. }
  apply spends_bind_gets. cbn [cw_connector cw_with_os cw_with_env].
  destruct (tc_poll_thread (cw_connector w)) as [p|] eqn:Ep; [|by destruct Hsome].
  apply spends_bind_modify; [done|]. apply spends_bind_option. exists p. split; [done|].
  eapply spends_os_quiet; [apply cw_os_with|apply quiet_Poll_Add|]. intros _ o4. apply spends_ret.
  split; [cw_held|split; [|done]].
  cw_wf; cbn; [cw_ok|by rewrite Ep|by rewrite Ep| | |by rewrite Es].
  - apply NoDup_new_ptr; [done|]. eapply Forall_impl; [exact Hrec|]. cbn. intros ? ?. lia.
  - apply Forall_app. split; [|by constructor; cbn; [lia|constructor]].
    eapply Forall_impl; [exact Hrec|]. cbn. intros; lia.
Qed.

Lemma connect_balanced addr user w :
  connector_wf alive_or_active w -> tc_shutdown (cw_connector w) = false ->
  cbalanced (TcpConnector_Connect connect_fuel addr user) w (fun _ w =>
    connector_wf alive_or_active w /\ tc_shutdown (cw_connector w) = false).
Proof using Type*.
  intros Hwf Es. unfold TcpConnector_Connect, balanced.
  eapply spends_os_fd; [apply cw_os_with|by apply resolve_fds|]. intros [e addrs] o1 ? ? (-> & -> & Ha).
  pose proof (connector_wf_os _ o1 _ Hwf) as Hwf1.
  destruct e as [e|]; [apply spends_ret; by rewrite connector_held_os, !app_nil_r|].
  destruct (Ha eq_refl) as [l ->]. apply spends_bind_option. exists l. split; [done|].
  destruct l as [|first l].
  - apply spends_bind_option.
    destruct (AppendMessage_some addr (Status_msg (str "Invalid address: "))) as (st & Hst & _); [apply Slice_ctor_wf|].
    exists st. split; [done|]. apply spends_ret. by rewrite connector_held_os, !app_nil_r.
  - apply spends_bind_gets. eapply spends_mono; [exact (async_connect_balanced _ _ _ (cw_with_os o1 w) Hwf1 Es)|].
    intros r w' o c. by rewrite connector_held_os.
Qed.

Lemma quiet_local_address fd : quiet (K := K) (local_address fd).
Proof using Type. unfold local_address. auto with quiet. Qed.

Lemma quiet_socket_error fd : quiet (K := K) (raptor_get_socket_error fd).
Proof using Type. unfold raptor_get_socket_error. auto with quiet. Qed.

(** A call of the handler, with the descriptor it is given if it was connected. *)
Lemma handler_spends {A} (m : M E A) call (new : list Z) w :
  spends (trace_of env_os) m (cw_env w) (fun _ e' o c =>
    o ++ new ++ cl_owns (cw_env w) (cw_calls w) ≡ₚ c ++ cl_owns e' (cw_calls w ++ [call]) /\ cl_ok e') ->
  cspends (connector_env m) (cw_call call w) (fun _ w' o c => exists e',
    w' = cw_with_env e' (cw_call call w) /\ cl_ok e' /\
    o ++ new ++ cl_owns (cw_env w) (cw_calls w) ≡ₚ c ++ cl_owns e' (cw_calls w ++ [call])).
Proof using Type.
  intros Hm. eapply (spends_part _ (trace_of env_os)); [done|done|].
  eapply spends_mono; [exact Hm|]. cbn beta. intros _ e' o c [Hbal Hok]. by exists e'.
Qed.

Lemma connector_event_balanced i ty code ptr entry w :
  connector_wf alive_or_active w -> tc_shutdown (cw_connector w) = false ->
  tc_records (cw_connector w) !! i = Some (ptr, entry) ->
  cbalanced (TcpConnector_OnEventProcess {| ed_ptr := ptr; ed_event_type := ty; ed_error_code := code |}) w
    (fun _ w => connector_wf alive_or_active w /\ tc_shutdown (cw_connector w) = false).
Proof using Type*.
  intros Hwf Es Hi. pose proof Hwf as (Hok & Hp & Hsome & Hnd & Hrec & Hsd).
  unfold TcpConnector_OnEventProcess, balanced.
  apply spends_bind_gets, spends_bind_option. exists entry. split; [by apply (assoc_find_lookup _ i (ptr, entry))|].
  eapply spends_os_quiet; [apply cw_os_with|apply quiet_local_address|]. intros local o1.
  destruct (tc_poll_thread (cw_connector w)) as [p|] eqn:Ep; [|by destruct Hsome].
  apply spends_bind_option. exists p. split; [done|].
  eapply spends_os_quiet; [apply cw_os_with|apply quiet_Poll_Delete|]. intros _ o2.
  assert (0 < ac_fd entry < 2 ^ 31) as Hfd.
  { rewrite Forall_forall in Hrec. apply (Hrec (ptr, entry)). by eapply list_elem_of_lookup_2. }
  set (w2 := cw_with_os o2 _).
  apply (spends_bind _ _ _ _ _ (fun _ w' o c => exists e' calls, w' = cw_with_env e' (Build_connector_world (cw_env w) (cw_connector w) calls) /\
    cl_ok e' /\ o ++ ac_fd entry :: cl_owns (cw_env w) (cw_calls w) ≡ₚ c ++ cl_owns e' calls)).
  { assert (cl_ok (cw_env w2)) as Hok2 by (cbn; cw_ok).
    assert (cl_owns (cw_env w2) (cw_calls w2) = cl_owns (cw_env w) (cw_calls w)) as Hown2 by (cbn; by rewrite !cl_owns_os).
    destruct (has _ kSendEvent).
    - apply spends_bind_modify; [done|].
      eapply spends_bind.
      { apply (handler_spends _ (CalledOnConnect _ _) [ac_fd entry] w2). by apply cl_connect. }
      cbn beta. intros [ep' prop] w' o c (e' & -> & Hok' & Hbal). rewrite Hown2 in Hbal.
      destruct (IsOnline ep').
      + apply spends_os_last. eapply spends_os_quiet; [apply cw_os_with|apply quiet_Connector_ProcessProperty|]. intros [] o4.
        apply spends_ret. eexists _, _. split; [reflexivity|]. rewrite cl_owns_os, !app_nil_r. by split; [cw_ok|].
      + apply spends_ret. eexists _, _. split; [reflexivity|]. by rewrite !app_nil_r.
    - eapply spends_os_quiet; [apply cw_os_with|apply quiet_socket_error|]. intros err o3.
      apply spends_bind_modify; [done|].
      eapply spends_bind.
      { apply (handler_spends _ (CalledOnErrorOccurred _ _) [] (cw_with_os o3 w2)). apply cl_error. cbn; cw_ok. }
      cbn beta. intros ep' w' o c (e' & -> & Hok' & Hbal).
      change (cw_env (cw_with_os o3 w2)) with (env_with_os o3 (cw_env w2)) in Hbal.
      change (cw_calls (cw_with_os o3 w2)) with (cw_calls w2) in Hbal. rewrite cl_owns_os, Hown2 in Hbal. cbn [app] in Hbal.
      eapply spends_os_fd; [apply cw_os_with|by apply (fd_call_ret _ (fun _ o c => o = [] /\ c = [ac_fd entry]))|].
      intros _ o5 ? ? [-> ->]. apply spends_ret. eexists _, _. split; [reflexivity|].
      rewrite cl_owns_os, !app_nil_r. split; [cw_ok|].
      transitivity (ac_fd entry :: o ++ cl_owns (cw_env w) (cw_calls w)); [solve_Permutation|]. rewrite Hbal. solve_Permutation. }
  intros [] w' o c (e' & calls & -> & Hok' & Hbal). apply spends_modify; [done|].
  destruct (assoc_remove_wf _ _ ptr Hnd Hrec) as [Hnd' Hrec'].
  split; [|split; [cw_wf; cbn; rewrite ?Es, ?Ep; done|done]].
  unfold connector_held, record_fds. cbn. rewrite !app_nil_r.
  rewrite (assoc_remove_fmap ac_fd _ i ptr entry Hnd Hi).
  transitivity ((o ++ ac_fd entry :: cl_owns (cw_env w) (cw_calls w)) ++ poll_fds (tc_poll_thread (cw_connector w)) ++
    ((fun x => ac_fd x.2) <$> assoc_remove ptr (tc_records (cw_connector w)))); [solve_Permutation|].
  rewrite Hbal. solve_Permutation.
Qed.

Lemma run_connector_op_balanced op w :
  connector_wf alive_or_active w -> tc_shutdown (cw_connector w) = false ->
  cbalanced (run_connector_op connect_fuel op) w (fun _ w =>
    connector_wf alive_or_active w /\ tc_shutdown (cw_connector w) = false).
Proof using Type*.
  intros Hw Hs. destruct op as [addr user|i ty code]; cbn [run_connector_op].
  - eapply balanced_bind; [by apply connect_balanced|]. intros e w' Hw'. by apply balanced_ret.
  - apply spends_bind_gets. destruct (tc_records (cw_connector w) !! i) as [[ptr entry]|] eqn:Ei; [|by apply balanced_ret].
    by eapply connector_event_balanced.
Qed.

Lemma run_connector_balanced ops w :
  connector_wf alive_or_active w -> tc_shutdown (cw_connector w) = false ->
  cbalanced (run_connector connect_fuel ops) w (fun _ w =>
    connector_wf alive_or_active w /\ tc_shutdown (cw_connector w) = false).
Proof using Type*.
  revert w. induction ops as [|op ops IH]; intros w Hw Hs; [by apply balanced_ret|].
  cbn [run_connector]. eapply balanced_bind; [by apply run_connector_op_balanced|]. intros [] w' [? ?]. by apply IH.
Qed.

Lemma connector_shutdown_balanced w :
  connector_wf alive_or_active w ->
  cbalanced TcpConnector_Shutdown w (fun _ w' => connector_wf alive_or_active w' /\
    tc_shutdown (cw_connector w') = true /\ cw_calls w' = cw_calls w /\ tc_records (cw_connector w') = []).
Proof using Type.
  intros Hwf. pose proof Hwf as (Hok & Hp & Hsome & _ & _ & Hsd). unfold TcpConnector_Shutdown, balanced. apply spends_bind_gets.
  destruct (tc_shutdown (cw_connector w)) eqn:Es.
  { apply spends_ret. by split_and!; auto. }
  apply spends_bind_modify; [done|].
  destruct (tc_poll_thread (cw_connector w)) as [p|] eqn:Ep; [|by destruct Hsome].
  apply spends_bind_option. exists p. split; [done|].
  eapply spends_os_resources; [apply cw_os_with|by apply shutdown_resources|].
  intros p' o1 ? ? ? ? (-> & Hcl & -> & -> & Hj & Hs). apply spends_bind_modify; [done|].
  eapply spends_os_fd; [apply cw_os_with|apply close_records_fds|]. intros _ o2 ? ? [-> ->].
  apply spends_modify; [done|]. split.
  - cw_held. rewrite Ep. cbn. rewrite <- Hcl. solve_Permutation.
  - split; [|done]. cw_wf; cbn; [cw_ok|unfold pt_wf; by rewrite Hs|done|constructor|constructor|done].
Qed.

(** The destructor of a connector that was shut down closes the epoll descriptor it has left. *)
Lemma connector_dtor_after (w : connector_world E) :
  tc_shutdown (cw_connector w) = true -> poll_wf alive_or_active (tc_poll_thread (cw_connector w)) ->
  cspends TcpConnector_dtor w (fun _ w' o c =>
    o = [] /\ c = poll_fds (tc_poll_thread (cw_connector w)) /\ exists o', w' = cw_with_os o' w).
Proof using Type.
  intros Hs Hp. unfold TcpConnector_dtor, TcpConnector_Shutdown.
  eapply (spends_bind _ _ _ _ _ (fun _ w' o c => w' = w /\ o = [] /\ c = [])).
  { apply spends_bind_gets. rewrite Hs. by apply spends_ret. }
  intros _ w' ? c (-> & -> & ->). apply spends_bind_gets, spends_os_last.
  eapply spends_os_resources; [apply cw_os_with|by apply release_poll_resources|]. intros [] o3 ? ? ? ? (-> & ->).
  apply spends_ret. rewrite !app_nil_r. split_and!; [done|done|by exists o3].
Qed.

(** What is left at the end is what the environment owns. *)
Lemma connector_dtor_spends w :
  connector_wf alive_or_active w ->
  cspends TcpConnector_dtor w (fun _ w' o c =>
    o ++ connector_held w ≡ₚ c ++ cl_owns (cw_env w') (cw_calls w') /\ cl_ok (cw_env w') /\
    tc_records (cw_connector w') = [] /\ cw_calls w' = cw_calls w).
Proof using Type.
  intros Hwf. unfold TcpConnector_dtor. eapply spends_bind; [by apply connector_shutdown_balanced|].
  intros _ w' o c (Hc & (Hok & Hp' & _) & Hs & Hcalls & Hr). apply spends_bind_gets, spends_os_last.
  eapply spends_os_resources; [apply cw_os_with|by apply release_poll_resources|]. intros [] o3 ? ? ? ? (-> & ->).
  apply spends_ret. rewrite !app_nil_r, Hc. split_and!; [|cbn; cw_ok|done|done].
  unfold connector_held, record_fds. cbn. rewrite Hr, cl_owns_os. cbn. solve_Permutation.
Qed.

(** Over a whole life, what was opened and not closed is what the environment owns. *)
Lemma connector_life_owned (threads timeout_ms : Z) (ops : list connector_op) (e : E) :
  0 <= threads -> cl_ok e ->
  cspends (connector_life connect_fuel threads timeout_ms ops) (connector_start e)
    (fun _ w op cl => op ++ cl_owns e [] ≡ₚ cl ++ cl_owns (cw_env w) (cw_calls w) /\
      tc_records (cw_connector w) = []).
Proof using Type*.
  intros Hth Hok. unfold connector_life.
  eapply spends_bind; [by apply connector_init_balanced|]. intros err w1 o1 c1 [E1 [Hw1 He]].
  apply spends_bind with (R := fun _ w2 o2 c2 =>
    o2 ++ connector_held w1 ≡ₚ c2 ++ connector_held w2 /\ connector_wf alive_or_active w2).
  { destruct err as [err|].
    - apply spends_ret. split; [done|]. destruct Hw1 as (Hok1 & Hp & Hrest). split; [done|]. split; [|done].
      destruct (tc_poll_thread (cw_connector w1)); [by apply pt_wf_running|done].
    - specialize (He eq_refl). eapply balanced_bind; [by apply connector_start_balanced|].
      intros r w2 [Hw2 Hs2]. eapply balanced_mono; [by apply run_connector_balanced|]. by intros [] ? [? _]. }
  intros [] w2 o2 c2 [E2 Hw2].
  eapply spends_mono; [by apply connector_dtor_spends|]. intros [] w3 o3 c3 (E3 & _ & Hr & _). split; [|done].
  change (connector_held (connector_start e)) with (cl_owns e []) in E1.
  transitivity (o3 ++ o2 ++ (o1 ++ cl_owns e [])); [solve_Permutation|]. rewrite E1.
  transitivity (c1 ++ (o2 ++ connector_held w1) ++ o3); [solve_Permutation|]. rewrite E2.
  transitivity (c1 ++ c2 ++ (o3 ++ connector_held w2)); [solve_Permutation|]. rewrite E3.
  solve_Permutation.
Qed.
End ConnectorLife.

(** ** Handlers of their own *)

Section QuietHandlers.
Context {K : Type} `{Kernel K} `{LibC} `{Resolver K} `{ConnectorHandler (os K)}.
Context `{!KernelThreads} `{!KernelEpoll} `{!KernelSockets} `{!ResolverLaws (K := K)}.
Variable connect_fuel : nat.
Hypothesis connect_ends : forall k fd addr, exists n, (n < connect_fuel)%nat /\
  interrupted (sys_call (kernel_after n k (SysConnect fd addr)) (SysConnect fd addr)).1 = false.

(** The handlers hand the endpoint on, and neither open nor close descriptors. *)
Hypothesis on_connect_quiet : forall ep p, quiet (OnConnect ep p).
Hypothesis on_error_quiet : forall ep err, quiet (OnErrorOccurred ep err).

(** Every endpoint that was connected is still open. *)
Lemma quiet_connect_laws : exists laws : ConnectorLaws (os K),
  (forall e calls, cl_owns e calls = omap connected calls) /\ (forall e, cl_ok e).
Proof using on_connect_quiet on_error_quiet.
  unshelve eexists {| cl_owns _ calls := omap connected calls; cl_ok _ := True |}; try done.
  - intros fd local remote p o calls Hfd _ ep.
    assert (fd_int ep = fd) as Efd by (apply fd_int_new; lia).
    eapply wp_mono; [apply on_connect_quiet|]. cbn. intros [obj q] o' (t & Et & Ot & Ct).
    exists t. split; [done|]. split; [|done]. rewrite Ot, Ct, omap_app. cbn. rewrite Efd. solve_Permutation.
  - intros fd local remote err o calls _ ep.
    eapply wp_mono; [apply on_error_quiet|]. cbn. intros obj o' (t & Et & Ot & Ct).
    exists t. split; [done|]. split; [|done]. rewrite Ot, Ct, omap_app. cbn. by rewrite app_nil_r.
Qed.

(** C25. A connector leaks no descriptor over its whole life: initialised, started, asked to
    connect to any names and served any events of its pending connections in any order,
    then destroyed, it has closed, each once, the epoll descriptor and all the sockets
    it opened, but those it gave to the handler as connected, with every failing path
    included.  Assumed are: the resolver leaves no descriptor open and its addresses fit in
    128 bytes ([ResolverLaws]); new sockets are ints and not descriptor 0
    ([KernelSockets]: standard input is open); epoll_create gives a descriptor or -1, and
    new threads have names; signals interrupt a connect fewer than [connect_fuel] times in
    a row; and the handlers themselves open and close nothing: when [OnErrorOccurred]
    closes the endpoint it is given, the descriptor is closed twice
    (closing_handler_closes_twice).  Else resolver and kernel answer what they like. *)
Theorem connector_life_closes_all (threads timeout_ms : Z) (ops : list connector_op) (o : os K) :
  0 <= threads ->
  spends (trace_of cw_os) (connector_life connect_fuel threads timeout_ms ops) (connector_start o)
    (fun _ w op cl => op ≡ₚ cl ++ omap connected (cw_calls w) /\ tc_records (cw_connector w) = []).
Proof using Type*.
  intros Hth. destruct quiet_connect_laws as (laws & Hown & Hok).
  eapply spends_mono; [apply (connector_life_owned connect_fuel connect_ends threads timeout_ms ops o Hth (Hok o))|].
  intros [] w op cl (Hbal & Hr). by rewrite !Hown, app_nil_r in Hbal.
Qed.
End QuietHandlers.

(** ** What connect(2) answers and what the caller is told *)

Section ConnectErrors.
Context {K : Type} `{Kernel K} {E : Type} `{!InProcess E K} `{LibC} `{Resolver K} `{ConnectorHandler E}.
Variable connect_fuel : nat.

(** [errno] says that the connection is not in progress: the socket is shut down and closed. *)
Lemma connect_abandoned addr user timeout_ms (w : connector_world E) mapped fd o1 r k1 r2 k2 r3 k3 :
  (0 < connect_fuel)%nat -> 0 <= fd ->
  raptor_tcp_client_prepare_socket addr timeout_ms (cw_os w) = Ret ((None, mapped, fd), o1) ->
  sys_call (os_kernel o1) (SysConnect fd (take (Z.to_nat (ra_len mapped)) (ra_addr mapped))) = (r, k1) ->
  sys_call k1 (SysShutdown fd SHUT_RDWR) = (r2, k2) -> sys_call k2 (SysClose fd) = (r3, k3) ->
  let e := if r_ret r <? 0 then r_errno r else os_errno o1 in
  e <> EINTR -> e <> EWOULDBLOCK -> e <> EINPROGRESS ->
  let e2 := if r_ret r2 <? 0 then r_errno r2 else e in
  let e3 := if r_ret r3 <? 0 then r_errno r3 else e2 in
  exists st w', AsyncConnect connect_fuel addr user timeout_ms w = Ret (Some st, w') /\
    ErrorCode st = e3 /\ cw_connector w' = cw_connector w /\ cw_calls w' = cw_calls w /\
    os_trace (cw_os w') = os_trace o1 ++
      [(SysConnect fd (take (Z.to_nat (ra_len mapped)) (ra_addr mapped)), r);
       (SysShutdown fd SHUT_RDWR, r2); (SysClose fd, r3)].
Proof using Type.
  intros Hfuel Hfd Hprep Hc Hs Hcl e Hintr Hwb Hip e2 e3. destruct connect_fuel as [|n]; [lia|].
  unfold AsyncConnect, connector_os, zoom, mbind, M_bind. rewrite Hprep, ?cw_os_with. cbn [connect_loop].
  unfold call_ret, call, errno, gets, mbind, M_bind, mret, M_ret. rewrite Hc. cbn [r_ret os_errno]. fold e.
  rewrite (proj2 (Z.eqb_neq _ EINTR) Hintr), andb_false_r, ?cw_os_with. cbn [os_errno].
  rewrite (proj2 (Z.eqb_neq _ EWOULDBLOCK) Hwb), (proj2 (Z.eqb_neq _ EINPROGRESS) Hip), ?cw_os_with. cbn [negb andb].
  unfold raptor_set_socket_shutdown. rewrite (proj2 (Z.ltb_ge fd 0)) by lia.
  unfold call_ret, call, mbind, M_bind, mret, M_ret. rewrite ?cw_os_with. cbn [os_kernel]. rewrite Hs. cbn [os_kernel]. rewrite Hcl, ?cw_os_with.
  unfold RAPTOR_POSIX_ERROR, errno, gets, mbind, M_bind, mret, M_ret. cbn [os_errno os_trace].
  eexists _, _. split; [reflexivity|]. split_and!; [done..|]. rewrite cw_os_with. cbn. by rewrite <- !app_assoc.
Qed.

(** A connection that is established at once is thrown away: when connect(2) succeeds
    without blocking, the value [errno] has kept from an earlier call decides, and
    unless that happens to be EAGAIN or EINPROGRESS the connected socket is shut down
    and closed and the caller is told that connect failed with a stale code. *)
Theorem immediate_connect_dropped (addr : raptor_resolved_address) (user timeout_ms : Z) (w : connector_world E)
    (mapped : raptor_resolved_address) (fd : Z) (o1 : os K) :
  (0 < connect_fuel)%nat -> 0 <= fd ->
  raptor_tcp_client_prepare_socket addr timeout_ms (cw_os w) = Ret ((None, mapped, fd), o1) ->
  (forall k a, r_ret (sys_call k (SysConnect fd a)).1 = 0) ->
  (forall k, r_ret (sys_call k (SysShutdown fd SHUT_RDWR)).1 = 0 /\ r_ret (sys_call k (SysClose fd)).1 = 0) ->
  os_errno o1 ∉ [EINTR; EWOULDBLOCK; EINPROGRESS] ->
  exists st w', AsyncConnect connect_fuel addr user timeout_ms w = Ret (Some st, w') /\
    ErrorCode st = os_errno o1 /\ tc_records (cw_connector w') = tc_records (cw_connector w) /\
    exists t, os_trace (cw_os w') = os_trace o1 ++ t /\ closed t = [fd].
Proof using Type.
  intros Hfuel Hfd Hprep Hok Hcl He.
  destruct (sys_call (os_kernel o1) (SysConnect fd (take (Z.to_nat (ra_len mapped)) (ra_addr mapped)))) as [r k1] eqn:E1.
  destruct (sys_call k1 (SysShutdown fd SHUT_RDWR)) as [r2 k2] eqn:E2.
  destruct (sys_call k2 (SysClose fd)) as [r3 k3] eqn:E3.
  assert (r_ret r = 0) as Hr by (by rewrite <- (Hok (os_kernel o1) (take (Z.to_nat (ra_len mapped)) (ra_addr mapped))), E1).
  assert (r_ret r2 = 0) as Hr2 by (by rewrite <- (proj1 (Hcl k1)), E2).
  assert (r_ret r3 = 0) as Hr3 by (by rewrite <- (proj2 (Hcl k2)), E3).
  pose proof (connect_abandoned addr user timeout_ms w mapped fd o1 r k1 r2 k2 r3 k3 Hfuel Hfd Hprep E1 E2 E3) as Habs.
  rewrite Hr, Hr2, Hr3 in Habs. cbn -[EINTR EWOULDBLOCK EINPROGRESS] in Habs. rewrite !not_elem_of_cons in He.
  destruct Habs as (st & w' & Hrun & Hst & Hc & _ & Ht); [naive_solver..|].
  exists st, w'. rewrite Hc. split_and!; [done..|]. eexists. split; [exact Ht|done].
Qed.

(** The reason of a refused connection is lost: shutdown(2) on the socket that never
    connected fails too, and its code is the one the caller gets. *)
Theorem connect_error_code_lost (addr : raptor_resolved_address) (user timeout_ms e e2 : Z) (w : connector_world E)
    (mapped : raptor_resolved_address) (fd : Z) (o1 : os K) :
  (0 < connect_fuel)%nat -> 0 <= fd ->
  raptor_tcp_client_prepare_socket addr timeout_ms (cw_os w) = Ret ((None, mapped, fd), o1) ->
  (forall k a, r_ret (sys_call k (SysConnect fd a)).1 = -1 /\ r_errno (sys_call k (SysConnect fd a)).1 = e) ->
  (forall k, r_ret (sys_call k (SysShutdown fd SHUT_RDWR)).1 = -1 /\
    r_errno (sys_call k (SysShutdown fd SHUT_RDWR)).1 = e2) ->
  (forall k, r_ret (sys_call k (SysClose fd)).1 = 0) ->
  e ∉ [EINTR; EWOULDBLOCK; EINPROGRESS] ->
  exists st w', AsyncConnect connect_fuel addr user timeout_ms w = Ret (Some st, w') /\ ErrorCode st = e2.
Proof using Type.
  intros Hfuel Hfd Hprep Hc Hs Hcl He.
  destruct (sys_call (os_kernel o1) (SysConnect fd (take (Z.to_nat (ra_len mapped)) (ra_addr mapped)))) as [r k1] eqn:E1.
  destruct (sys_call k1 (SysShutdown fd SHUT_RDWR)) as [r2 k2] eqn:E2.
  destruct (sys_call k2 (SysClose fd)) as [r3 k3] eqn:E3.
  destruct (Hc (os_kernel o1) (take (Z.to_nat (ra_len mapped)) (ra_addr mapped))) as [Hr Hre].
  destruct (Hs k1) as [Hr2 Hre2]. pose proof (Hcl k2) as Hr3.
  rewrite E1 in Hr, Hre. rewrite E2 in Hr2, Hre2. rewrite E3 in Hr3. cbn [fst] in *.
  pose proof (connect_abandoned addr user timeout_ms w mapped fd o1 r k1 r2 k2 r3 k3 Hfuel Hfd Hprep E1 E2 E3) as Habs.
  rewrite Hr, Hr2, Hr3, Hre, Hre2 in Habs. cbn -[EINTR EWOULDBLOCK EINPROGRESS] in Habs. rewrite !not_elem_of_cons in He.
  destruct Habs as (st & w' & Hrun & Hst & _); [naive_solver..|]. eauto.
Qed.
End ConnectErrors.

(** ** A kernel to run it on *)

(** Sockets are opened from 3 on; connect(2) is interrupted once, then in progress,
    except at once on descriptor 70, and refused on 80. *)
Definition connecting_kernel : Kernel Z := fun k c =>
  let ret x n := {| r_ret := x; r_errno := 0; r_data := []; r_int := n; r_events := [] |} in
  let fail e := {| r_ret := -1; r_errno := e; r_data := []; r_int := 0; r_events := [] |} in
  match c with
  | SysSocket _ _ _ | SysAccept4 _ _ | SysEpollCreate _ => (ret (3 + Z.abs k mod 1000) 0, k + 1)
  | SysPthreadCreate => (ret 0 (1000 + Z.abs k), k + 1)
  | SysGetsockopt _ _ _ => (ret 0 1, k)
  | SysConnect fd _ =>
      if fd =? 70 then (ret 0 0, k) else if fd =? 80 then (fail 111, k)
      else (fail (if Z.odd k then EINTR else EINPROGRESS), k + 1)
  | SysShutdown fd _ => (if fd =? 80 then fail 107 else ret 0 0, k)
  | _ => (ret 0 0, k)
  end.

Definition some_resolver : Resolver Z := fun host port =>
  if decide (host = str "nowhere") then mret (-2, []) else mret (0, [take 16 (ra_addr (loopback4 80))]).

Definition keep_connection : ConnectorHandler (os Z) :=
  {| OnConnect ep p := mret (ep, p); OnErrorOccurred ep _ := mret ep |}.

#[local] Existing Instance connecting_kernel.
#[local] Existing Instance quiet_libc.
#[local] Existing Instance some_resolver.
#[local] Existing Instance keep_connection.

#[local] Instance connecting_kernel_threads : KernelThreads (K := Z).
Proof. split. intros k _. unfold sys_call, connecting_kernel. cbn. lia. Qed.

#[local] Instance some_resolver_laws : ResolverLaws (K := Z).
Proof.
  intros host port. cbn. unfold getaddrinfo, some_resolver.
  destruct (decide _); apply fd_ret; split_and!; try done; repeat constructor; vm_compute; lia.
Qed.

#[local] Instance connecting_kernel_epoll : KernelEpoll (K := Z).
Proof.
  split. intros k n. unfold sys_call, connecting_kernel. cbn [r_ret fst].
  pose proof (Z.mod_pos_bound (Z.abs k) 1000). lia.
Qed.

#[local] Instance connecting_kernel_sockets : KernelSockets (K := Z).
Proof.
  split; intros k ?; intros; unfold sys_call, connecting_kernel; cbn [r_ret fst];
    pose proof (Z.mod_pos_bound (Z.abs k) 1000); lia.
Qed.

Definition process_at (k : Z) : os Z := {| os_kernel := k; os_errno := 0; os_trace := [] |}.

Definition connecting_ops : list connector_op :=
  [ConnectorConnect (str "localhost:80") 1; ConnectorConnect (str "localhost:80") 2;
   ConnectorConnect (str "nowhere:80") 3; ConnectorEvent 0 kSendEvent 0; ConnectorEvent 0 kErrorEvent 0].

(** The epoll descriptor is 3; 5 was connected and 8 failed. *)
Example connecting_run :
  match connector_life 2 1 0 connecting_ops (connector_start (process_at 0)) with
  | Ret (_, w) => omap connected (cw_calls w) = [5] /\ closed (os_trace (cw_os w)) = [8; 3]
  | _ => False
  end.
Proof. vm_compute. done. Qed.

(** A handler that closes the descriptor of a connection that failed: the connector closes
    it again. *)
Definition close_failed : ConnectorHandler (os Z) :=
  {| OnConnect ep p := mret (ep, p);
     OnErrorOccurred ep _ := _ ← call (SysClose (fd_int ep)); mret ep |}.

Example closing_handler_closes_twice :
  match connector_life (H2 := close_failed) 2 1 0 connecting_ops (connector_start (process_at 0)) with
  | Ret (_, w) => closed (os_trace (cw_os w)) = [8; 8; 3]
  | _ => False
  end.
Proof. vm_compute. done. Qed.

Lemma connecting_kernel_ends k fd addr : exists n, (n < 2)%nat /\
  interrupted (sys_call (kernel_after n k (SysConnect fd addr)) (SysConnect fd addr)).1 = false.
Proof.
  unfold sys_call, connecting_kernel, interrupted.
  destruct (Z.odd k) eqn:Ek; [exists 1%nat|exists 0%nat]; (split; [lia|]); cbn [kernel_after];
    unfold sys_call; cbn [snd]; destruct (fd =? 70) eqn:E7; [done|..|done|]; destruct (fd =? 80) eqn:E8; [done|..|done|];
    cbn [snd fst r_ret r_errno]; [|by rewrite Ek].
  replace (Z.odd (k + 1)) with false; [done|]. symmetry. by rewrite Z.odd_add, Ek.
Qed.

Lemma connector_life_closes_all_witness :
  spends (trace_of cw_os) (connector_life 2 1 0 connecting_ops) (connector_start (process_at 0))
    (fun _ w op cl => op ≡ₚ cl ++ omap connected (cw_calls w) /\ tc_records (cw_connector w) = []).
Proof.
  apply (connector_life_closes_all 2).
  - apply connecting_kernel_ends.
  - intros ep p. apply quiet_ret.
  - intros ep err. apply quiet_ret.
  - lia.
Defined.

(** A socket prepared for the loopback address, by a process about to open descriptor
    [3 + k]. *)
Definition prepared (k : Z) : raptor_resolved_address * Z * os Z :=
  match raptor_tcp_client_prepare_socket (loopback4 80) 0 (process_at k) with
  | Ret ((_, m, fd), o) => (m, fd, o)
  | _ => (ra_zero, 0, process_at k)
  end.

Definition connecting_world (k : Z) : connector_world (os Z) := connector_start (process_at k).

Lemma immediate_connect_dropped_witness :
  exists st w', AsyncConnect 1 (loopback4 80) 0 0 (connecting_world 67) = Ret (Some st, w') /\
    ErrorCode st = 0 /\ tc_records (cw_connector w') = [] /\
    exists t, os_trace (cw_os w') = os_trace (prepared 67).2 ++ t /\ closed t = [70].
Proof.
  apply (immediate_connect_dropped 1 (loopback4 80) 0 0 (connecting_world 67) (prepared 67).1.1 70 (prepared 67).2);
    [lia|lia|vm_compute; reflexivity|intros k a; reflexivity|intros k; split; reflexivity|].
  rewrite !not_elem_of_cons. split_and!; [vm_compute; discriminate..|apply not_elem_of_nil].
Defined.

Lemma connect_error_code_lost_witness :
  exists st w', AsyncConnect 1 (loopback4 80) 0 0 (connecting_world 77) = Ret (Some st, w') /\ ErrorCode st = 107.
Proof.
  apply (connect_error_code_lost 1 (loopback4 80) 0 0 111 107 (connecting_world 77) (prepared 77).1.1 80 (prepared 77).2);
    [lia|lia|vm_compute; reflexivity|intros k a; split; reflexivity|intros k; split; reflexivity|intros k; reflexivity|].
  rewrite !not_elem_of_cons. split_and!; [discriminate..|apply not_elem_of_nil].
Defined.
