(* ===== verification/WinTcpConnector.v ===== *)
(** * The TCP connector on Windows (src/windows/tcp_connector.h, src/windows/tcp_connector.cc)

    The records of the connections in flight are a store by address; the overlapped
    structure of a record is its first member, so that the address of one is that of the
    other.  The connector is the service [self] of its [PollingThread] (Iocp.v); the user's
    [ConnectorHandler] is a parameter and its calls are recorded. *)

From S2P Require Import Prelude.
From S2P Require Import SockAddr.
From S2P Require Import Status.
From S2P Require Import Property.
From S2P Require Import OS.
From S2P Require Import SocketSetting.
From S2P Require Import WinSocketSetting.
From S2P Require Import Resolve.
From S2P Require Import Endpoint.
From S2P Require Import Options.
From S2P Require Import Thread.
From S2P Require Import PollingThread.
From S2P Require Import Iocp.
From S2P Require Import TcpConnector.
From stdpp Require Import sorting.

Local Open Scope Z_scope.

(** The overlapped structure of an entry is in [iw_overlapped], at the entry's address. *)
Record win_record_entry : Type := {
  wr_addr : raptor_resolved_address;
  wr_fd : Z;
  wr_user_value : Z;
}.

(** [wt_connectex]: whether [_connectex] was found. *)
Record WinTcpConnector : Type := {
  wt_shutdown : bool;
  wt_connectex : bool;
  wt_tcp_user_timeout_ms : Z;
  wt_counter : Z;
  wt_records : gset Z;
  wt_poll_thread : option nat;
}.

Definition WinTcpConnector_new : WinTcpConnector := {|
  wt_shutdown := true; wt_connectex := false; wt_tcp_user_timeout_ms := 0; wt_counter := 0;
  wt_records := ∅; wt_poll_thread := None |}.

(** [ww_next]: the address of the next entry; [ww_next_poll]: the next [PollingThread]. *)
Record win_connector_world (K : Type) : Type := {
  ww_polls : iocp_world K;
  ww_connector : WinTcpConnector;
  ww_entries : gmap Z win_record_entry;
  ww_calls : list connector_call;
  ww_next : Z;
  ww_next_poll : nat;
}.
Arguments Build_win_connector_world {K}. Arguments ww_polls {K}. Arguments ww_connector {K}. Arguments ww_entries {K}.
Arguments ww_calls {K}. Arguments ww_next {K}. Arguments ww_next_poll {K}.

Definition SO_UPDATE_CONNECT_CONTEXT : Z := 0x7010.
Definition ERROR_IO_PENDING : Z := 997.

Section WinProcessProperty.
Context {K : Type} `{Kernel K} `{WinLibC}.

Definition win_ProcessProperty (fd : Z) (p : Property) : M (os K) unit :=
  _ ← if_property to_bool "SocketNoSIGPIPE" true id
        (fun _ => win_set_socket_no_sigpipe_if_possible fd) p;
  _ ← if_property to_bool "SocketReuseAddress" true negb
        (fun _ => win_set_socket_reuse_addr fd 0) p;
  _ ← if_property to_bool "SocketLowLatency" true negb
        (fun _ => win_set_socket_low_latency fd 0) p;
  _ ← if_property to_int "SocketSendTimeoutMs" 0 (Z.ltb 0)
        (fun ms => win_set_socket_snd_timeout fd ms) p;
  _ ← if_property to_int "SocketRecvTimeoutMs" 0 (Z.ltb 0)
        (fun ms => win_set_socket_rcv_timeout fd ms) p;
  if_property to_bool "SocketNonBlocking" true negb
    (fun _ => win_set_socket_nonblocking fd 0) p.
End WinProcessProperty.

Section WinConnector.
Context {K : Type} `{Kernel K} `{LibC} `{WinLibC} `{Resolver K} `{ConnectorHandler (os K)}.
(** The connector's own address. *)
Variable self : Z.
Implicit Types w : win_connector_world K.

Definition wt_with_polls (p : iocp_world K) w : win_connector_world K :=
  Build_win_connector_world p (ww_connector w) (ww_entries w) (ww_calls w) (ww_next w) (ww_next_poll w).
Definition wt_with_connector (c : WinTcpConnector) w : win_connector_world K :=
  Build_win_connector_world (ww_polls w) c (ww_entries w) (ww_calls w) (ww_next w) (ww_next_poll w).
Definition wt_with_entries (l : gmap Z win_record_entry) w : win_connector_world K :=
  Build_win_connector_world (ww_polls w) (ww_connector w) l (ww_calls w) (ww_next w) (ww_next_poll w).
Definition wt_call (c : connector_call) w : win_connector_world K :=
  Build_win_connector_world (ww_polls w) (ww_connector w) (ww_entries w) (ww_calls w ++ [c]) (ww_next w) (ww_next_poll w).
Definition wt_allocated w : win_connector_world K :=
  Build_win_connector_world (ww_polls w) (ww_connector w) (ww_entries w) (ww_calls w) (ww_next w + 256) (ww_next_poll w).
Definition wt_new_poll w : win_connector_world K :=
  Build_win_connector_world (ww_polls w) (ww_connector w) (ww_entries w) (ww_calls w) (ww_next w) (S (ww_next_poll w)).

Definition wt_polls {A} : M (iocp_world K) A -> M (win_connector_world K) A := zoom ww_polls wt_with_polls.
Definition wt_os {A} (m : M (os K) A) : M (win_connector_world K) A := wt_polls (iw_sys m).
Definition wt_set (f : WinTcpConnector -> WinTcpConnector) : M (win_connector_world K) unit :=
  modify (fun w => wt_with_connector (f (ww_connector w)) w).
Definition set_overlapped (m : gmap Z OverLappedEx) (p : iocp_world K) : iocp_world K :=
  Build_iocp_world (iw_os p) (iw_adaptor p) (iw_count p) (iw_instances p) m (iw_calls p).

Definition wt_shut (b : bool) (c : WinTcpConnector) : WinTcpConnector := {|
  wt_shutdown := b; wt_connectex := wt_connectex c; wt_tcp_user_timeout_ms := wt_tcp_user_timeout_ms c;
  wt_counter := wt_counter c; wt_records := wt_records c; wt_poll_thread := wt_poll_thread c |}.
Definition wt_with_timeout (ms : Z) (c : WinTcpConnector) : WinTcpConnector := {|
  wt_shutdown := wt_shutdown c; wt_connectex := wt_connectex c; wt_tcp_user_timeout_ms := ms;
  wt_counter := wt_counter c; wt_records := wt_records c; wt_poll_thread := wt_poll_thread c |}.
Definition wt_with_connectex (b : bool) (c : WinTcpConnector) : WinTcpConnector := {|
  wt_shutdown := wt_shutdown c; wt_connectex := b; wt_tcp_user_timeout_ms := wt_tcp_user_timeout_ms c;
  wt_counter := wt_counter c; wt_records := wt_records c; wt_poll_thread := wt_poll_thread c |}.
Definition wt_with_counter (n : Z) (c : WinTcpConnector) : WinTcpConnector := {|
  wt_shutdown := wt_shutdown c; wt_connectex := wt_connectex c; wt_tcp_user_timeout_ms := wt_tcp_user_timeout_ms c;
  wt_counter := n; wt_records := wt_records c; wt_poll_thread := wt_poll_thread c |}.
Definition wt_with_records (l : gset Z) (c : WinTcpConnector) : WinTcpConnector := {|
  wt_shutdown := wt_shutdown c; wt_connectex := wt_connectex c; wt_tcp_user_timeout_ms := wt_tcp_user_timeout_ms c;
  wt_counter := wt_counter c; wt_records := l; wt_poll_thread := wt_poll_thread c |}.
Definition wt_with_poll (p : option nat) (c : WinTcpConnector) : WinTcpConnector := {|
  wt_shutdown := wt_shutdown c; wt_connectex := wt_connectex c; wt_tcp_user_timeout_ms := wt_tcp_user_timeout_ms c;
  wt_counter := wt_counter c; wt_records := wt_records c; wt_poll_thread := p |}.

(** Releasing the [shared_ptr] to the polling thread. *)
Definition wt_release (p : option nat) : M (win_connector_world K) unit :=
  match p with Some x => wt_polls (WinPoll_dtor x) | None => mret tt end.

(** ** Life *)

(** The new polling thread is made before the assignment destroys the old one; [exit] is the
    address of [_exit] in a new adaptor. *)
Definition WinTcpConnector_Init (exit threads tcp_user_timeout : Z) : M (win_connector_world K) raptor_error :=
  w ← gets id;
  let c := ww_connector w in
  if negb (wt_shutdown c) then mret (RAPTOR_ERROR_FROM_STATIC_STRING "TcpConnector is already running")
  else
    let x := ww_next_poll w in
    _ ← modify wt_new_poll;
    _ ← wt_polls (WinPoll_new x self exit);
    _ ← wt_set (wt_with_poll (Some x));
    _ ← wt_release (wt_poll_thread c);
    e ← wt_polls (WinPoll_Init x threads 1);
    match e with
    | Some _ => mret e
    | None =>
        _ ← wt_polls (WinPoll_EnableTimeoutCheck x false);
        _ ← wt_set (wt_with_timeout tcp_user_timeout);
        _ ← wt_set (wt_shut false);
        mret RAPTOR_ERROR_NONE
    end.

Definition WinTcpConnector_Start : M (win_connector_world K) raptor_error :=
  c ← gets ww_connector;
  if wt_shutdown c then mret (RAPTOR_ERROR_FROM_STATIC_STRING "TcpConnector is not initialized")
  else x ← of_option (wt_poll_thread c); wt_polls (WinPoll_Start x).

(** The loop of [Shutdown] over the records, in the order of their addresses. *)
Fixpoint wt_close_records (x : nat) (records : list Z) : M (win_connector_world K) unit :=
  match records with
  | [] => mret tt
  | record :: records =>
      w ← gets id;
      entry ← of_option (ww_entries w !! record);
      _ ← wt_os (call_ret (SysClose (wr_fd entry)));
      _ ← wt_polls (WinPoll_Delete x (wr_fd entry) 0);
      wt_close_records x records
  end.

Definition WinTcpConnector_Shutdown : M (win_connector_world K) unit :=
  c ← gets ww_connector;
  if wt_shutdown c then mret tt
  else
    _ ← wt_set (wt_shut true);
    x ← of_option (wt_poll_thread c);
    _ ← wt_close_records x (merge_sort Z.le (elements (wt_records c)));
    _ ← wt_set (wt_with_records ∅);
    wt_polls (WinPoll_Shutdown x).

Definition WinTcpConnector_dtor : M (win_connector_world K) unit :=
  _ ← WinTcpConnector_Shutdown;
  c ← gets ww_connector;
  wt_release (wt_poll_thread c).

(** ** Connecting *)

Definition GetConnectExIfNecessary (s : Z) : M (win_connector_world K) raptor_error :=
  c ← gets ww_connector;
  if wt_connectex c then mret RAPTOR_ERROR_NONE
  else
    status ← wt_os (call_ret (SysWSAIoctl s SIO_GET_EXTENSION_FUNCTION_POINTER 0));
    if negb (status =? 0) then wt_os (last_error "WSAIoctl(SIO_GET_EXTENSION_FUNCTION_POINTER)")
    else _ ← wt_set (wt_with_connectex true); mret RAPTOR_ERROR_NONE.

(** Allocating and deleting the entry at [a], and writing its overlapped structure. *)
Definition new_entry (a : Z) (entry : win_record_entry) (olex : OverLappedEx) : M (win_connector_world K) unit :=
  modify (fun w => wt_with_polls (set_overlapped (<[a := olex]> (iw_overlapped (ww_polls w))) (ww_polls w))
                     (wt_with_entries (<[a := entry]> (ww_entries w)) w)).
Definition delete_entry (a : Z) : M (win_connector_world K) unit :=
  modify (fun w => wt_with_polls (set_overlapped (delete a (iw_overlapped (ww_polls w))) (ww_polls w))
                     (wt_with_entries (delete a (ww_entries w)) w)).

Definition zero_addr : raptor_resolved_address := {| ra_addr := replicate 128 x00; ra_len := 0 |}.

(** The statements from the recorded socket on. *)
Definition start_connect (a fd user : Z) (mapped_addr : raptor_resolved_address) : M (win_connector_world K) raptor_error :=
  c ← gets ww_connector;
  _ ← wt_set (wt_with_counter (i32 (wt_counter c + 1)));
  _ ← new_entry a {| wr_addr := mapped_addr; wr_fd := fd; wr_user_value := user |}
        {| ox_event_type := kConnectEvent; ox_HandleId := u32 (wt_counter c) |};
  _ ← wt_set (fun c => wt_with_records ({[a]} ∪ wt_records c) c);
  x ← of_option (wt_poll_thread c);
  _ ← wt_polls (WinPoll_Add x fd (u64 fd) kConnectEvent);
  ret ← wt_os (call_ret (SysConnectEx fd (take (Z.to_nat (ra_len mapped_addr)) (ra_addr mapped_addr))));
  if negb (0 <? ret) then
    last ← wt_os errno;
    if negb (last =? ERROR_IO_PENDING) then wt_os (last_error "ConnectEx") else mret RAPTOR_ERROR_NONE
  else mret RAPTOR_ERROR_NONE.

(** The statements up to the label [failure], for the socket [fd]. *)
Definition connect_body (a fd user timeout : Z) (mapped_addr : raptor_resolved_address) : M (win_connector_world K) raptor_error :=
  error ← wt_os (win_tcp_prepare_socket fd timeout);
  match error with Some _ => mret error | None =>
  error ← GetConnectExIfNecessary fd;
  match error with Some _ => mret error | None =>
  local_address ← of_option (raptor_sockaddr_make_wildcard6 0);
  status ← wt_os (call_ret (SysBind fd (take (Z.to_nat (ra_len local_address)) (ra_addr local_address))));
  if negb (status =? 0) then wt_os (last_error "bind")
  else start_connect a fd user mapped_addr
  end end.

Definition InternalConnect (addr : raptor_resolved_address) (user timeout : Z) : M (win_connector_world K) raptor_error :=
  a ← gets ww_next;
  _ ← modify wt_allocated;
  _ ← new_entry a {| wr_addr := zero_addr; wr_fd := 0; wr_user_value := 0 |} {| ox_event_type := 0; ox_HandleId := 0 |};
  '(error, mapped_addr, fd, mode) ← wt_os (win_create_socket addr);
  _ ← new_entry a {| wr_addr := zero_addr; wr_fd := fd; wr_user_value := 0 |} {| ox_event_type := 0; ox_HandleId := 0 |};
  error ← match error with Some _ => mret error | None => connect_body a fd user timeout mapped_addr end;
  match error with
  | None => mret RAPTOR_ERROR_NONE
  | Some _ =>
      _ ← (if negb (fd =? INVALID_SOCKET) then wt_os (call_ret (SysClose fd)) else mret 0);
      _ ← delete_entry a;
      mret error
  end.

Definition WinTcpConnector_Connect (addr : list byte) (user : Z) : M (win_connector_world K) raptor_error :=
  '(e, addrs) ← wt_os (raptor_blocking_resolve_address addr None);
  match e with
  | Some _ => mret e
  | None =>
      addrs ← of_option addrs;
      match addrs with
      | [] =>
          st ← of_option (AppendMessage addr (Status_msg (str "Invalid address: ")));
          mret (Some st)
      | first :: _ =>
          c ← gets ww_connector;
          InternalConnect first user (wt_tcp_user_timeout_ms c)
      end
  end.

(** ** Established or failed *)

Definition WinTcpConnector_OnEventProcess (detail : WinEventDetail) : M (win_connector_world K) unit :=
  _ ← raptor_assert (has (wd_event_type detail) kConnectEvent);
  let a := wd_overlaped detail in
  w ← gets id;
  entry ← of_option (ww_entries w !! a);
  local ← wt_os (local_address (wr_fd entry));
  let endpoint := EndpointImpl_new (wr_fd entry) local (wr_addr entry) in
  _ ← (if has (wd_event_type detail) kErrorEvent then
         let err := MakeStatusFromWindowsError (wd_error_code detail) (str "IOCP_WAIT") in
         _ ← modify (wt_call (CalledOnErrorOccurred endpoint err));
         _ ← wt_os (OnErrorOccurred endpoint err);
         mret tt
       else
         _ ← wt_os (call_ret (SysSetsockopt (wr_fd entry) SOL_SOCKET SO_UPDATE_CONNECT_CONTEXT []));
         let property := Property_entry (PropertyEntry_ptr "UserCustomValue" (wr_user_value entry)) in
         _ ← modify (wt_call (CalledOnConnect endpoint property));
         '(endpoint, property) ← wt_os (OnConnect endpoint property);
         if IsOnline endpoint then wt_os (win_ProcessProperty (wr_fd entry) property) else mret tt);
  c ← gets ww_connector;
  if bool_decide (a ∈ wt_records c) then
    _ ← wt_set (fun c => wt_with_records (wt_records c ∖ {[a]}) c);
    delete_entry a
  else mret tt.

(** A worker's turn: the event it takes from the port, if it is the connector's, is
    processed by the connector. *)
Definition connector_turn : M (win_connector_world K) bool :=
  n ← gets (fun w => length (iw_calls (ww_polls w)));
  b ← wt_polls (IocpWork_round false);
  calls ← gets (fun w => drop n (iw_calls (ww_polls w)));
  _ ← match calls with
      | [ServiceEvent service detail] => if service =? self then WinTcpConnector_OnEventProcess detail else mret tt
      | _ => mret tt
      end;
  mret b.
End WinConnector.

(** ** A refused connection leaves a dangling record *)

Section WinConnectorTheorems.
Context {K : Type} `{Kernel K} `{LibC} `{WinLibC} `{Resolver K} `{ConnectorHandler (os K)}.
Variable self : Z.
Implicit Types w : win_connector_world K.

(** *** What a computation adds to the trace *)

Definition wt_trace w : list (syscall * sysret) := os_trace (iw_os (ww_polls w)).

(** Whenever [m] returns, [Q] holds of its result, the state and the calls it made. *)
Definition makes {S A} (tr : S -> list (syscall * sysret)) (m : M S A) (s : S) (Q : A -> S -> list (syscall * sysret) -> Prop) : Prop :=
  ends m s (fun a s' => exists t, tr s' = tr s ++ t /\ Q a s' t).

Lemma makes_ret {S A} tr (a : A) (s : S) Q : Q a s [] -> makes tr (mret a) s Q.
Proof using Type. intros HQ. apply ends_ret. exists []. by rewrite app_nil_r. Qed.

Lemma makes_bind {S A B} tr (m : M S A) (f : A -> M S B) (s : S) R Q :
  makes tr m s R -> (forall a s' t, R a s' t -> makes tr (f a) s' (fun b s2 t2 => Q b s2 (t ++ t2))) -> makes tr (m ≫= f) s Q.
Proof using Type.
  intros Hm Hf. apply ends_bind. intros a s' E b s2 E2. destruct (Hm a s' E) as (t & Et & HR).
  destruct (Hf a s' t HR b s2 E2) as (t2 & Et2 & HQ). exists (t ++ t2). split; [by rewrite Et2, Et, app_assoc|done].
Qed.

Lemma makes_mono {S A} tr (m : M S A) (s : S) (Q R : A -> S -> list (syscall * sysret) -> Prop) :
  makes tr m s R -> (forall a s' t, R a s' t -> Q a s' t) -> makes tr m s Q.
Proof using Type. intros Hm HQ a s' E. destruct (Hm a s' E) as (t & Et & HR). exists t. auto. Qed.

Lemma makes_gets {S A B} tr (g : S -> A) (f : A -> M S B) (s : S) Q : makes tr (f (g s)) s Q -> makes tr (gets g ≫= f) s Q.
Proof using Type. done. Qed.

Lemma makes_modify {S B} tr (g : S -> S) (f : unit -> M S B) (s : S) Q :
  tr (g s) = tr s -> makes tr (f tt) (g s) Q -> makes tr (modify g ≫= f) s Q.
Proof using Type. intros Eg Hf b s' E. destruct (Hf b s' E) as (t & Et & HQ). exists t. by rewrite Et, Eg. Qed.

Lemma makes_of_option {S A B} tr (x : option A) (f : A -> M S B) (s : S) Q :
  (forall a, x = Some a -> makes tr (f a) s Q) -> makes tr (of_option x ≫= f) s Q.
Proof using Type. intros Hf. apply ends_bind, ends_of_option. exact Hf. Qed.

(** *** Computations that call no ConnectEx *)

Definition no_connect_call (e : syscall * sysret) : Prop := match e.1 with SysConnectEx _ _ => False | _ => True end.
Abbreviation no_connect := (Forall no_connect_call).

Definition unconnecting {A} (m : M (os K) A) : Prop := forall o, makes os_trace m o (fun _ _ t => no_connect t).

Lemma uc_ret {A} (a : A) : unconnecting (mret a).
Proof using Type. intros o. apply makes_ret. constructor. Qed.
Lemma uc_bind {A B} (m : M (os K) A) (f : A -> M (os K) B) : unconnecting m -> (forall a, unconnecting (f a)) -> unconnecting (m ≫= f).
Proof using Type.
  intros Hm Hf o. eapply makes_bind; [apply Hm|]. intros a o' t Ht. eapply makes_mono; [apply Hf|].
  intros b o2 t2 Ht2. by apply Forall_app.
Qed.
Lemma uc_errno : unconnecting errno.
Proof using Type. intros o. apply ends_gets. exists []. by rewrite app_nil_r. Qed.
Lemma uc_abort {A} : unconnecting (@abort (os K) A).
Proof using Type. by intros o a s'. Qed.
Lemma uc_call c : (forall r, no_connect_call (c, r)) -> unconnecting (call c).
Proof using Type.
  intros Hc o r o'. unfold call. destruct (sys_call _ _) as [x k]. intros [= <- <-]. exists [(c, x)]. split; [done|]. by repeat constructor.
Qed.
Lemma uc_call_ret c : (forall r, no_connect_call (c, r)) -> unconnecting (call_ret c).
Proof using Type. intros Hc. apply uc_bind; [by apply uc_call|]. intros r. apply uc_ret. Qed.
Lemma uc_on_ok (m k : M (os K) raptor_error) : unconnecting m -> unconnecting k -> unconnecting (on_ok m k).
Proof using Type. intros Hm Hk. apply uc_bind; [done|]. intros [e|]; [apply uc_ret|done]. Qed.
Lemma uc_last_error api : unconnecting (last_error api).
Proof using Type. apply uc_bind; [apply uc_errno|]. intros e. apply uc_ret. Qed.

Ltac uc := repeat (first [apply uc_ret | apply uc_errno | apply uc_abort | apply uc_last_error
  | apply uc_call_ret; done | apply uc_call; done | apply uc_on_ok | apply uc_bind; [|intros ?] | case_match]).

Lemma uc_create_socket addr : unconnecting (win_create_socket addr).
Proof using Type.
  unfold win_create_socket, win_create_dualstack_socket, win_create_family_socket, ws2_socket, win_set_socket_ipv6_only. uc.
Qed.

Lemma uc_prepare fd timeout : unconnecting (win_tcp_prepare_socket fd timeout).
Proof using Type.
  unfold win_tcp_prepare_socket, win_set_socket_nonblocking, win_set_socket_ipv6_only, win_set_socket_low_latency,
    win_set_socket_tcp_user_timeout. uc.
Qed.

(** In the connector's world: the connector and its entries stay, and no ConnectEx is called. *)
Definition keeps_records {A} (m : M (win_connector_world K) A) : Prop := forall w,
  makes wt_trace m w (fun _ w' t => ww_connector w' = ww_connector w /\ ww_entries w' = ww_entries w /\ no_connect t).

Lemma keeps_os {A} (m : M (os K) A) : unconnecting m -> keeps_records (wt_os m).
Proof using Type.
  intros Hm w a w'. unfold wt_os, wt_polls, iw_sys, zoom. destruct (m (iw_os (ww_polls w))) as [[x o']| | |] eqn:E; [|done..].
  intros [= <- <-]. destruct (Hm _ _ _ E) as (t & Et & Ht). by exists t.
Qed.

Lemma keeps_add x fd key type : keeps_records (wt_polls (WinPoll_Add x fd key type)).
Proof using Type.
  intros w a w'. unfold wt_polls, zoom. destruct (WinPoll_Add x fd key type (ww_polls w)) as [[b p]| | |] eqn:E; [|done..].
  intros [= <- <-]. enough (makes (fun p => os_trace (iw_os p)) (WinPoll_Add x fd key type) (ww_polls w) (fun _ _ t => no_connect t)) as Hadd.
  { destruct (Hadd _ _ E) as (t & Et & Ht). by exists t. }
  set (tr := fun p : iocp_world K => os_trace (iw_os p)). unfold WinPoll_Add, instance. apply ends_bind, ends_bind, ends_gets, ends_of_option. intros p0 _.
  destruct (_ =? 0); [apply (makes_ret tr); constructor|]. unfold Adaptor_Add, the_adaptor.
  apply ends_bind, ends_bind, ends_gets, ends_of_option. intros ad _. eapply (makes_bind tr _ _ _ (fun _ _ t => no_connect t)).
  - assert (unconnecting (IocpThread_Add fd fd (ad_iocp ad))) as Huc by (unfold IocpThread_Add, Iocp_add; uc).
    intros r p1. unfold iw_sys, zoom. destruct (IocpThread_Add _ _ _ _) as [[y o']| | |] eqn:E1; [|done..].
    intros [= <- <-]. destruct (Huc _ _ _ E1) as (t & Et & Ht). by exists t.
  - intros r p1 t Ht. unfold on_adaptor, the_adaptor. apply ends_bind, ends_bind, ends_bind, ends_gets, ends_of_option. intros ad' _.
    apply ends_modify, ends_ret. exists []. rewrite !app_nil_r. done.
Qed.

Lemma makes_keeps {A B} (m : M (win_connector_world K) A) (f : A -> M (win_connector_world K) B) w Q :
  keeps_records m ->
  (forall a w' t, ww_connector w' = ww_connector w -> ww_entries w' = ww_entries w -> no_connect t ->
     makes wt_trace (f a) w' (fun b w2 t2 => Q b w2 (t ++ t2))) ->
  makes wt_trace (m ≫= f) w Q.
Proof using Type. intros Hm Hf. eapply makes_bind; [apply Hm|]. intros a w' t (E1 & E2 & Ht). by apply Hf. Qed.

(** *** What connecting does to the connector *)

(** Either ConnectEx is not called and nothing is recorded; or it is called once, with the
    entry recorded, and what it refuses is answered with an error. *)
Definition connecting (a : Z) w (e : raptor_error) w' (t : list (syscall * sysret)) : Prop :=
  wt_shutdown (ww_connector w') = wt_shutdown (ww_connector w) /\
  (no_connect t /\ wt_records (ww_connector w') = wt_records (ww_connector w) \/
   exists t1 fd addr r t2, t = t1 ++ (SysConnectEx fd addr, r) :: t2 /\ no_connect t1 /\ no_connect t2 /\
     wt_records (ww_connector w') = {[a]} ∪ wt_records (ww_connector w) /\
     (r_ret r < 0 -> r_errno r <> ERROR_IO_PENDING -> e <> None)).

Lemma connecting_not a w e w' t :
  wt_shutdown (ww_connector w') = wt_shutdown (ww_connector w) -> wt_records (ww_connector w') = wt_records (ww_connector w) ->
  no_connect t -> connecting a w e w' t.
Proof using Type. intros Hs Hr Ht. split; [done|by left]. Qed.

Lemma connecting_after a w w1 e w' t t' :
  wt_shutdown (ww_connector w1) = wt_shutdown (ww_connector w) -> wt_records (ww_connector w1) = wt_records (ww_connector w) ->
  no_connect t -> connecting a w1 e w' t' -> connecting a w e w' (t ++ t').
Proof using Type.
  intros Hs Hr Ht [Hs' [[Ht' Hr']|(t1 & fd & addr & r & t2 & -> & H1' & H2' & Hr' & He)]]; (split; [congruence|]).
  - left. split; [by apply Forall_app|congruence].
  - right. exists (t ++ t1), fd, addr, r, t2. split; [by rewrite <- app_assoc|]. split; [by apply Forall_app|].
    split; [done|]. split; [by rewrite Hr', Hr|done].
Qed.

Lemma connecting_before a w e w1 w' t t' :
  connecting a w e w1 t -> ww_connector w' = ww_connector w1 -> no_connect t' -> connecting a w e w' (t ++ t').
Proof using Type.
  intros [Hs [[Ht Hr]|(t1 & fd & addr & r & t2 & -> & H1' & H2' & Hr & He)]] E Ht'; (split; [by rewrite E|]).
  - left. split; [by apply Forall_app|by rewrite E].
  - right. exists t1, fd, addr, r, (t2 ++ t'). split; [by rewrite <- app_assoc|]. split; [done|]. split; [by apply Forall_app|].
    split; [by rewrite E|done].
Qed.

(** The call itself, and what is made of its answer. *)
Lemma connectex_answer a fd addr w0 w :
  wt_shutdown (ww_connector w) = wt_shutdown (ww_connector w0) -> wt_records (ww_connector w) = {[a]} ∪ wt_records (ww_connector w0) ->
  makes wt_trace (ret ← wt_os (call_ret (SysConnectEx fd addr));
    if negb (0 <? ret) then
      last ← wt_os errno;
      if negb (last =? ERROR_IO_PENDING) then wt_os (last_error "ConnectEx") else mret RAPTOR_ERROR_NONE
    else mret RAPTOR_ERROR_NONE) w (fun e w' t => connecting a w0 e w' t).
Proof using Type.
  intros Hs Hr e w'. unfold wt_os, wt_polls, iw_sys, zoom, call_ret, call, errno, last_error, gets, mbind, M_bind, mret, M_ret.
  destruct (sys_call (os_kernel (iw_os (ww_polls w))) (SysConnectEx fd addr)) as [r k] eqn:Ec.
  assert (forall w' e, wt_trace w' = wt_trace w ++ [(SysConnectEx fd addr, r)] -> ww_connector w' = ww_connector w ->
    (r_ret r < 0 -> r_errno r <> ERROR_IO_PENDING -> e <> None) ->
    exists t, wt_trace w' = wt_trace w ++ t /\ connecting a w0 e w' t) as Hdone.
  { intros w1 e1 Et Ew He. eexists. split; [exact Et|]. split; [by rewrite Ew|]. right.
    exists [], fd, addr, r, []. split; [done|]. do 2 (split; [constructor|]). split; [by rewrite Ew|done]. }
  destruct (Z.ltb_spec 0 (r_ret r)) as [Hpos|Hneg]; cbn [negb].
  { intros [= <- <-]. apply Hdone; [done|done|lia]. }
  cbn. destruct (Z.eqb_spec (if r_ret r <? 0 then r_errno r else os_errno (iw_os (ww_polls w))) ERROR_IO_PENDING) as [Hp|Hp]; cbn;
    intros [= <- <-]; (apply Hdone; [done|done|]).
  - intros Hlt Hne. rewrite (proj2 (Z.ltb_lt _ _) Hlt) in Hp. done.
  - done.
Qed.

Lemma start_connect_makes a fd user mapped w :
  makes wt_trace (start_connect a fd user mapped) w (fun e w' t => connecting a w e w' t).
Proof using Type.
  unfold start_connect. apply makes_gets. apply makes_modify; [done|]. apply makes_modify; [done|]. apply makes_modify; [done|].
  apply makes_of_option. intros x _. apply makes_keeps; [apply keeps_add|]. intros _ w1 t E1 _ Ht.
  eapply makes_mono; [apply (connectex_answer a fd _ w w1); by rewrite E1|]. intros e w' t' Hc. by apply (connecting_after a w w).
Qed.

Lemma connect_body_makes a fd user timeout mapped w :
  makes wt_trace (connect_body a fd user timeout mapped) w (fun e w' t => connecting a w e w' t).
Proof using Type.
  unfold connect_body. apply makes_keeps; [apply keeps_os, uc_prepare|]. intros error w1 t1 E1 _ Ht1.
  destruct error; [apply makes_ret, connecting_not; by rewrite ?E1, ?app_nil_r|].
  eapply (makes_bind _ _ _ _ (fun _ w' t => wt_shutdown (ww_connector w') = wt_shutdown (ww_connector w) /\
    wt_records (ww_connector w') = wt_records (ww_connector w) /\ no_connect t)).
  { unfold GetConnectExIfNecessary. apply makes_gets. destruct (wt_connectex _); [apply makes_ret; rewrite E1; by split_and!|].
    apply makes_keeps; [apply keeps_os; uc|]. intros status w2 t2 E2 _ Ht2. destruct (negb _).
    - eapply makes_mono; [apply keeps_os, uc_last_error|]. intros ? w3 t3 (E3 & _ & Ht3). rewrite E3, E2, E1.
      split_and!; [done..|by apply Forall_app].
    - apply makes_modify; [done|]. apply makes_ret. cbn. rewrite E2, E1, app_nil_r. by split_and!. }
  intros error w2 t2 (Es & Er & Ht2). assert (no_connect (t1 ++ t2)) as Ht12 by (by apply Forall_app).
  eapply makes_mono with (R := fun e w' t => connecting a w2 e w' t).
  2:{ intros e w' t Hc. rewrite app_assoc. by apply (connecting_after a w w2). }
  destruct error; [apply makes_ret, connecting_not; [done..|constructor]|]. apply makes_of_option. intros local _.
  apply makes_keeps; [apply keeps_os; uc|]. intros status w3 t3 E3 _ Ht3. destruct (negb _).
  - eapply makes_mono; [apply keeps_os, uc_last_error|]. intros e w4 t4 (E4 & _ & Ht4).
    apply connecting_not; [by rewrite E4, E3..|by apply Forall_app].
  - eapply makes_mono; [apply start_connect_makes|]. intros e w4 t4 Hc.
    apply (connecting_after a w2 w3); [by rewrite E3..|done|done].
Qed.

Lemma InternalConnect_makes addr user timeout w :
  makes wt_trace (InternalConnect addr user timeout) w (fun e w' t =>
    connecting (ww_next w) w e w' t /\ (e <> None -> ww_entries w' !! ww_next w = None)).
Proof using Type.
  unfold InternalConnect. apply makes_gets. apply makes_modify; [done|]. apply makes_modify; [done|].
  apply makes_keeps; [apply keeps_os, uc_create_socket|]. intros [[[error mapped] fd] mode] w1 t1 E1 _ Ht1.
  apply makes_modify; [done|]. eapply (makes_bind _ _ _ _ (fun e w' t => connecting (ww_next w) w1 e w' t)).
  { destruct error; [apply makes_ret, connecting_not; [done..|constructor]|].
    eapply makes_mono; [apply connect_body_makes|]. intros e w2 t2 Hc. rewrite <- (app_nil_l t2).
    eapply connecting_after; [..|exact Hc]; [done..|constructor]. }
  intros [error'|] w2 t2 Hc.
  2:{ apply makes_ret. rewrite app_nil_r. split; [|done]. apply (connecting_after _ w w1); [by rewrite E1..|done|done]. }
  eapply (makes_bind _ _ _ _ (fun _ w' t => ww_connector w' = ww_connector w2 /\ no_connect t)).
  { destruct (negb _); [|apply makes_ret; split; [done|constructor]].
    eapply makes_mono; [apply keeps_os; uc|]. intros ? w3 t3 (E3 & _ & Ht3). done. }
  intros _ w3 t3 [E3 Ht3]. apply makes_modify; [done|]. apply makes_ret. rewrite app_nil_r. split; [|intros _; apply lookup_delete_eq].
  apply (connecting_after _ w w1); [by rewrite E1..|done|]. by apply (connecting_before _ w1 _ w2).
Qed.

Lemma undef_bind {S A B} (m : M S A) (f : A -> M S B) s :
  m s = Undef \/ (exists a s', m s = Ret (a, s') /\ f a s' = Undef) -> (m ≫= f) s = Undef.
Proof using Type. unfold mbind, M_bind. by intros [->|(a & s' & -> & ?)]. Qed.

Lemma wt_call_ret c w : exists r w', wt_os (call_ret c) w = Ret (r, w') /\ ww_entries w' = ww_entries w.
Proof using Type.
  unfold wt_os, wt_polls, iw_sys, zoom, call_ret, call, mbind, M_bind. destruct (sys_call _ c) as [r k]. by eexists _, _.
Qed.

Lemma wt_delete x fd type w : wt_polls (WinPoll_Delete x fd type) w = Undef \/
  exists r w', wt_polls (WinPoll_Delete x fd type) w = Ret (r, w') /\ ww_entries w' = ww_entries w.
Proof using Type.
  unfold wt_polls, zoom, WinPoll_Delete, instance, on_adaptor, the_adaptor, mbind, M_bind, gets, id, of_option, mret, M_ret, modify.
  destruct (iw_instances (ww_polls w) !! x); [|by left]. destruct (_ =? 0); [right; by eexists _, _|].
  destruct (iw_adaptor (ww_polls w)); [right; by eexists _, _|by left].
Qed.

(** A record whose entry is gone makes the loop of [Shutdown] follow a dangling pointer. *)
Lemma close_dangling x record records : forall w,
  record ∈ records -> ww_entries w !! record = None -> wt_close_records x records w = Undef.
Proof using Type.
  induction records as [|r records IH]; intros w Hr He; [by apply not_elem_of_nil in Hr|]. cbn [wt_close_records].
  apply undef_bind. right. exists w, w. split; [done|]. apply undef_bind.
  destruct (ww_entries w !! r) as [entry|] eqn:Ee; [|by left]. right. exists entry, w. split; [done|].
  apply elem_of_cons in Hr as [->|Hr]; [by rewrite He in Ee|].
  destruct (wt_call_ret (SysClose (wr_fd entry)) w) as (c & w1 & E1 & Ew1). apply undef_bind. right. exists c, w1. split; [exact E1|].
  apply undef_bind. destruct (wt_delete x (wr_fd entry) 0 w1) as [?|(d & w2 & E2 & Ew2)]; [by left|].
  right. exists d, w2. split; [exact E2|]. apply IH; [done|by rewrite Ew2, Ew1].
Qed.

(** C26. A connection that ConnectEx refuses at once destroys the connector.  When a run of
    [InternalConnect] has made a call of ConnectEx that failed with another error than
    that the connection is under way, it answers an error and deletes the entry, but the
    entry's address stays in [_records], and [Shutdown] reads the freed memory. *)
Theorem win_connect_failure_dangles addr (user timeout : Z) w e w' t fd name r :
  InternalConnect addr user timeout w = Ret (e, w') -> wt_shutdown (ww_connector w) = false ->
  wt_trace w' = wt_trace w ++ t -> (SysConnectEx fd name, r) ∈ t -> r_ret r < 0 -> r_errno r <> ERROR_IO_PENDING ->
  e <> None /\ wt_records (ww_connector w') = {[ww_next w]} ∪ wt_records (ww_connector w) /\
  ww_entries w' !! ww_next w = None /\ WinTcpConnector_Shutdown w' = Undef.
Proof using Type.
  intros Hc Hs Ht Hin Hret Herr. destruct (InternalConnect_makes addr user timeout w _ _ Hc) as (t' & Et & [Es Hcase] & Hent).
  rewrite Ht in Et. apply app_inv_head in Et as <-. destruct Hcase as [[Hno _]|(t1 & fd' & name' & r' & t2 & -> & H1' & H2' & Er & He)].
  { rewrite Forall_forall in Hno. by destruct (Hno _ Hin). }
  assert (r' = r) as ->.
  { apply elem_of_app in Hin as [Hin|[[= _ _ ->]|Hin]%elem_of_cons]; [|done|];
      rewrite Forall_forall in H1', H2'; [by destruct (H1' _ Hin)|by destruct (H2' _ Hin)]. }
  specialize (He Hret Herr). specialize (Hent He). split; [done|]. split; [done|]. split; [done|].
  unfold WinTcpConnector_Shutdown. apply undef_bind. right. eexists _, _. split; [reflexivity|]. cbn beta. rewrite Es, Hs.
  apply undef_bind. right. eexists _, _. split; [reflexivity|].
  apply undef_bind. destruct (wt_poll_thread (ww_connector w')) as [x|]; [|by left]. right. eexists _, _. split; [reflexivity|].
  apply undef_bind. left. apply (close_dangling x (ww_next w)); [|exact Hent].
  rewrite merge_sort_Permutation, elem_of_elements, Er. set_solver.
Qed.

Lemma quiet_win_ProcessProperty fd p : quiet (K := K) (win_ProcessProperty fd p).
Proof using Type.
  unfold win_ProcessProperty. repeat (apply quiet_bind; [|intros _]); apply quiet_if_property; intros v.
  - apply quiet_ret.
  - unfold win_set_socket_reuse_addr. by apply quiet_win_option, quiet_syscall_ret.
  - unfold win_set_socket_low_latency. by apply quiet_win_option, quiet_syscall_ret.
  - unfold win_set_socket_snd_timeout. by apply quiet_win_option, quiet_syscall_ret.
  - unfold win_set_socket_rcv_timeout. by apply quiet_win_option, quiet_syscall_ret.
  - unfold win_set_socket_nonblocking. by apply quiet_win_option, quiet_syscall_ret.
Qed.

Lemma wp_wt_os {A} (m : M (os K) A) w (Q : A -> win_connector_world K -> Prop) :
  (forall o, wp m o (fun _ _ => True)) ->
  (forall a w', ww_calls w' = ww_calls w -> ww_entries w' = ww_entries w -> Q a w') -> wp (wt_os m) w Q.
Proof using Type.
  intros Hm HQ. unfold wt_os, wt_polls. apply wp_zoom. unfold iw_sys. apply wp_zoom.
  eapply wp_mono; [apply Hm|]. intros a o' _. by apply HQ.
Qed.

Lemma call_returns c (o : os K) : wp (call_ret c) o (fun _ _ => True).
Proof using Type. unfold call_ret, call, wp, mbind, M_bind. by destruct (sys_call _ c). Qed.

Lemma local_address_returns fd (o : os K) : wp (local_address fd) o (fun _ _ => True).
Proof using Type. unfold local_address, call, wp, mbind, M_bind. by destruct (sys_call _ (SysGetsockname fd)). Qed.

(** A failed connection is announced as an established one.  The operation of a pending
    connection fails, the port hands it to a worker, and the user's handler is told
    [OnConnect] with the socket that is not connected; [OnErrorOccurred] is not called. *)
Theorem win_failed_connect_reported w a r k key ov olex info entry :
  iw_adaptor (ww_polls w) = Some a -> it_enable_timeout_check (ad_iocp a) = false ->
  sys_call (os_kernel (iw_os (ww_polls w))) (SysGetQueuedCompletionStatus (it_iocp (ad_iocp a)) 1000) = (r, k) ->
  r_ret r < 0 -> r_events r = [(key, ov)] -> key <> 0 -> ov <> 0 ->
  iw_overlapped (ww_polls w) !! ov = Some olex -> ox_event_type olex = kConnectEvent ->
  ad_services a !! key = Some info -> si_service info = self -> ww_entries w !! ov = Some entry ->
  (forall ep p o, wp (OnConnect ep p) o (fun _ _ => True)) ->
  exists w' ep p, connector_turn self w = Ret (true, w') /\ ww_calls w' = ww_calls w ++ [CalledOnConnect ep p] /\
    ei_fd ep = u64 (wr_fd entry).
Proof using Type.
  intros Ha Ht Ecall Hr Hev Hkey Hov Hol Hty Hinfo Hself Hent Hconn.
  destruct (failed_round (ww_polls w) a r k key ov olex info Ha Ht Ecall Hr Hev Hkey Hov Hol) as (o' & Er);
    [rewrite Hty; set_solver|exact Hinfo|].
  enough (wp (connector_turn self) w (fun b w' => b = true /\ exists ep p, ww_calls w' = ww_calls w ++ [CalledOnConnect ep p] /\
    ei_fd ep = u64 (wr_fd entry))) as Hwp.
  { unfold wp in Hwp. destruct (connector_turn self w) as [[b w']| | |]; [|done..]. destruct Hwp as [-> (ep & p & Hd)]. by exists w', ep, p. }
  unfold connector_turn. apply wp_bind, wp_gets, wp_bind. unfold wt_polls at 1. apply wp_zoom. unfold wp at 1. rewrite Er.
  apply wp_bind, wp_gets. cbn [ww_polls wt_with_polls iw_calls iw_add_call iw_with_os]. rewrite drop_app_length. rewrite Hself, Z.eqb_refl.
  set (w1 := wt_with_polls _ w). apply wp_bind. unfold WinTcpConnector_OnEventProcess.
  cbn [failed_event wd_event_type wd_overlaped]. rewrite Hty. apply wp_bind, wp_assert; [done|]. cbv zeta.
  apply wp_bind, wp_gets, wp_bind, wp_of_option. unfold id. exists entry. split; [exact Hent|].
  apply wp_bind, wp_wt_os.
  { intros o. apply local_address_returns. }
  intros local w2 Ec2 Ee2. change (has kConnectEvent kErrorEvent) with false. cbn [wd_event_type].
  apply wp_bind, wp_bind, wp_wt_os; [apply call_returns|]. intros ? w3 Ec3 _. apply wp_bind, wp_modify.
  set (ep := EndpointImpl_new _ _ _). set (p := Property_entry _).
  apply wp_bind, wp_wt_os; [apply Hconn|]. intros [ep' p'] w4 Ec4 _.
  assert (ww_calls w4 = ww_calls w ++ [CalledOnConnect ep p]) as Hcalls by (rewrite Ec4; cbn; by rewrite Ec3, Ec2).
  assert (forall w5, ww_calls w5 = ww_calls w4 -> wp (c ← gets ww_connector;
    if bool_decide (ov ∈ wt_records c) then _ ← wt_set (fun c => wt_with_records (wt_records c ∖ {[ov]}) c); delete_entry ov
    else mret tt) w5 (fun _ w' => wp (mret true) w' (fun b w' => b = true /\ exists ep p, ww_calls w' = ww_calls w ++ [CalledOnConnect ep p] /\
    ei_fd ep = u64 (wr_fd entry)))) as Hend.
  { intros w5 E5. apply wp_bind, wp_gets. case_bool_decide; [apply wp_bind, wp_modify, wp_modify|apply wp_ret];
      (apply wp_ret; split; [done|]; exists ep, p; split; [by cbn; rewrite E5, Hcalls|done]). }
  destruct (IsOnline ep'); [|by apply wp_ret, Hend]. apply wp_wt_os.
  - intros o. eapply wp_mono; [apply quiet_win_ProcessProperty|done].
  - intros _ w5 Ec5 _. by apply Hend.
Qed.
End WinConnectorTheorems.

(** ** Concrete connectors *)

(** The port is 7, sockets are 9; ConnectEx is pending, or refused at once when the state
    says so, and a pending connection fails with error 10061. *)
Definition refusing_kernel : Kernel bool := fun refuse c =>
  let ret r errno n evs := {| r_ret := r; r_errno := errno; r_data := []; r_int := n; r_events := evs |} in
  match c with
  | SysPthreadCreate => (ret 0 0 100 [], refuse)
  | SysCreateIoCompletionPort _ _ _ _ => (ret 7 0 0 [], refuse)
  | SysSocket _ _ _ => (ret 9 0 0 [], refuse)
  | SysConnectEx _ _ => (ret (-1) (if refuse then 10061 else ERROR_IO_PENDING) 0 [], refuse)
  | SysGetQueuedCompletionStatus _ _ => (ret (-1) 10061 0 [(9, 4096)], refuse)
  | _ => (ret 0 0 0 [], refuse)
  end.

Definition accept_all : ConnectorHandler (os bool) :=
  {| OnConnect ep p := mret (ep, p); OnErrorOccurred ep _ := mret ep |}.

#[local] Existing Instance refusing_kernel.
#[local] Existing Instance no_format.
#[local] Existing Instance quiet_libc.
#[local] Existing Instance accept_all.

Definition new_connector (refuse : bool) : win_connector_world bool := {|
  ww_polls := no_polls {| os_kernel := refuse; os_errno := 0; os_trace := [] |} ∅;
  ww_connector := WinTcpConnector_new; ww_entries := ∅; ww_calls := []; ww_next := 4096; ww_next_poll := 1 |}.

Definition initialised (refuse : bool) : win_connector_world bool :=
  match WinTcpConnector_Init 1000 77 1 0 (new_connector refuse) with Ret (_, w) => w | _ => new_connector refuse end.

Definition connect_result (refuse : bool) : raptor_error * win_connector_world bool :=
  match InternalConnect (loopback4 80) 5 0 (initialised refuse) with Ret r => r | _ => (None, new_connector refuse) end.

Lemma win_connect_failure_dangles_witness :
  let w := initialised true in let e := (connect_result true).1 in let w' := (connect_result true).2 in
  e <> None /\ wt_records (ww_connector w') = {[ww_next w]} ∪ wt_records (ww_connector w) /\
  ww_entries w' !! ww_next w = None /\ WinTcpConnector_Shutdown w' = Undef.
Proof.
  cbv zeta. set (n := length (wt_trace (initialised true))).
  eapply (win_connect_failure_dangles (loopback4 80) 5 0 (initialised true) _ (connect_result true).2
    (drop n (wt_trace (connect_result true).2)) 9 (take 28 (ra_addr (default zero_addr (raptor_sockaddr_to_v4mapped (loopback4 80)))))
    {| r_ret := -1; r_errno := 10061; r_data := []; r_int := 0; r_events := [] |}).
  - vm_compute. reflexivity.
  - vm_compute. reflexivity.
  - vm_compute. reflexivity.
  - vm_compute. repeat (first [apply list_elem_of_here|apply list_elem_of_further]).
  - cbn. lia.
  - discriminate.
Defined.

Lemma win_failed_connect_reported_witness :
  let w := (connect_result false).2 in
  exists w' ep p, connector_turn 1000 w = Ret (true, w') /\ ww_calls w' = ww_calls w ++ [CalledOnConnect ep p] /\ ei_fd ep = u64 9.
Proof.
  intros w. refine (win_failed_connect_reported 1000 w (default (IocpThreadAdaptor_new 0) (iw_adaptor (ww_polls w)))
    {| r_ret := -1; r_errno := 10061; r_data := []; r_int := 0; r_events := [(9, 4096)] |} false 9 4096
    {| ox_event_type := kConnectEvent; ox_HandleId := 0 |}
    {| si_CompletionKey := 9; si_service := 1000; si_event_types := kConnectEvent |}
    {| wr_addr := default zero_addr (wr_addr <$> ww_entries w !! 4096); wr_fd := 9; wr_user_value := 5 |} _ _ _ _ _ _ _ _ _ _ _ _ _);
    try (vm_compute; reflexivity); try lia.
Defined.
