(* ===== verification/WinTcpListener.v ===== *)
(** * The TCP listener on Windows (src/windows/tcp_listener.h, src/windows/tcp_listener.cc)

    The listener keeps several accepts in flight per listening socket.  Their
    [AcceptObject]s are in an intrusive list (ListEntry.v) whose head is an element of a
    vector; [entry] is the first member of an object, so that the address of one is that
    of the other, and the overlapped structure is found under the same address.  The
    elements of the vector move when it grows, and [Shutdown] works on a copy of each. *)

From S2P Require Import Prelude.
From S2P Require Import ListEntry.
From S2P Require Import SockAddr.
From S2P Require Import Status.
From S2P Require Import Property.
From S2P Require Import OS.
From S2P Require Import SocketSetting.
From S2P Require Import WinSocketSetting.
From S2P Require Import Endpoint.
From S2P Require Import Thread.
From S2P Require Import PollingThread.
From S2P Require Import TcpListener.
From S2P Require Import Iocp.
From S2P Require Import TcpConnector.
From S2P Require Import WinTcpConnector.

Local Open Scope Z_scope.

Record AcceptObject : Type := {
  ao_new_socket : Z;
  ao_listen_port : Z;
  ao_mode : raptor_dualstack_mode;
  ao_addr_buffer : list byte;
}.

Definition AcceptObject_new : AcceptObject := {|
  ao_new_socket := INVALID_SOCKET; ao_listen_port := 0; ao_mode := RAPTOR_DSMODE_NONE;
  ao_addr_buffer := replicate 88 x00 |}.

Definition ao_with_socket (s : Z) (x : AcceptObject) : AcceptObject := {|
  ao_new_socket := s; ao_listen_port := ao_listen_port x; ao_mode := ao_mode x; ao_addr_buffer := ao_addr_buffer x |}.

Definition AcceptBaseHandleId : Z := 9527.

(** [wl_heads]: the elements of the vector, each the address of its list head and its
    listening socket.  [wl_AcceptEx], [wl_GetAcceptExSockAddrs]: whether they were found. *)
Record WinTcpListener : Type := {
  wl_shutdown : bool;
  wl_AcceptEx : bool;
  wl_GetAcceptExSockAddrs : bool;
  wl_threads : Z;
  wl_heads : list (nat * Z);
  wl_poll_thread : option nat;
}.

Definition WinTcpListener_new : WinTcpListener := {|
  wl_shutdown := true; wl_AcceptEx := false; wl_GetAcceptExSockAddrs := false; wl_threads := 1;
  wl_heads := []; wl_poll_thread := None |}.

(** [wx_next]: the next address to be allocated. *)
Record win_listener_world (K : Type) : Type := {
  wx_polls : iocp_world K;
  wx_listener : WinTcpListener;
  wx_entries : entry_heap;
  wx_objects : gmap nat AcceptObject;
  wx_accepted : list EndpointImpl;
  wx_next : nat;
  wx_next_poll : nat;
}.
Arguments Build_win_listener_world {K}. Arguments wx_polls {K}. Arguments wx_listener {K}. Arguments wx_entries {K}.
Arguments wx_objects {K}. Arguments wx_accepted {K}. Arguments wx_next {K}. Arguments wx_next_poll {K}.

(** [GetAcceptExSockaddrs]: the local and the remote address in an accept's buffer. *)
Class WinSockAddrs : Type :=
  GetAcceptExSockAddrs : list byte -> option (list byte) * option (list byte).

Section AcceptSocket.
Context {K : Type} `{Kernel K} `{WinLibC}.

(** The error of [StartAcceptEx] and the object's [new_socket] after it. *)
Definition start_accept (listen_fd : Z) (addr : raptor_resolved_address) : M (os K) (raptor_error * Z) :=
  sock ← ws2_socket (sa_family (ra_addr addr)) SOCK_STREAM IPPROTO_TCP;
  error ←
    (if sock =? INVALID_SOCKET then last_error "WSASocket"
     else
       on_ok (win_tcp_prepare_socket sock 0)
       (success ← call_ret (SysAcceptEx listen_fd sock);
        if negb (0 <? success) then
          last ← errno;
          if negb (last =? ERROR_IO_PENDING) then last_error "AcceptEx" else mret RAPTOR_ERROR_NONE
        else mret RAPTOR_ERROR_NONE));
  match error with
  | None => mret (RAPTOR_ERROR_NONE, sock)
  | Some _ =>
      _ ← (if negb (sock =? INVALID_SOCKET) then call_ret (SysClose sock) else mret 0);
      mret (error, INVALID_SOCKET)
  end.

Context `{!KernelWinSockets}.

(** A socket is left in the object or closed. *)
Lemma start_accept_fds listen_fd addr :
  fd_spec (K := K) (start_accept listen_fd addr) (fun '(e, fd) o c => if e is Some _ then o = c else o = (if 0 <=? fd then [fd] else []) /\ c = []).
Proof.
  unfold start_accept. eapply fd_bind; [apply ws2_socket_fds|]. cbn. intros fd o c (Hfd & -> & ->).
  eapply (fd_bind _ _ _ (fun e o c => o = [] /\ c = [])).
  { destruct (_ =? _); [apply quiet_last_error|].
    apply quiet_on_ok; [apply quiet_win_prepare|]. auto 10 using quiet_last_error with quiet. }
  intros e o c [-> ->]. destruct e as [e|]; [|by apply fd_ret; rewrite app_nil_r].
  eapply (fd_bind _ _ _ (fun _ o c => o = [] /\ c = if 0 <=? fd then [fd] else [])).
  { destruct (Z.eqb_spec fd INVALID_SOCKET) as [->|Hne]; cbn [negb]; [by apply fd_ret|].
    apply fd_call_ret. intros k ? _. unfold INVALID_SOCKET in Hne. by rewrite (proj2 (Z.leb_le 0 fd)) by lia. }
  intros _ o c [-> ->]. apply fd_ret. by rewrite !app_nil_r.
Qed.
End AcceptSocket.

(** The listener's [ProcessProperty] is, word for word, the connector's. *)
Definition win_Listener_ProcessProperty {K} `{Kernel K} `{WinLibC} (fd : Z) (p : Property) : M (os K) unit :=
  win_ProcessProperty fd p.

Section WinListener.
Context {K : Type} `{Kernel K} `{WinLibC} `{AcceptorHandler (os K)} `{WinSockAddrs}.
(** The listener's own address; whether the vector of that many elements moves to grow. *)
Variable self : Z.
Variable moves : nat -> bool.
Implicit Types w : win_listener_world K.

Definition wl_with_polls (p : iocp_world K) w : win_listener_world K :=
  Build_win_listener_world p (wx_listener w) (wx_entries w) (wx_objects w) (wx_accepted w) (wx_next w) (wx_next_poll w).
Definition wl_with_listener (l : WinTcpListener) w : win_listener_world K :=
  Build_win_listener_world (wx_polls w) l (wx_entries w) (wx_objects w) (wx_accepted w) (wx_next w) (wx_next_poll w).
Definition wl_with_entries (h : entry_heap) w : win_listener_world K :=
  Build_win_listener_world (wx_polls w) (wx_listener w) h (wx_objects w) (wx_accepted w) (wx_next w) (wx_next_poll w).
Definition wl_with_objects (m : gmap nat AcceptObject) w : win_listener_world K :=
  Build_win_listener_world (wx_polls w) (wx_listener w) (wx_entries w) m (wx_accepted w) (wx_next w) (wx_next_poll w).
Definition wl_accept (ep : EndpointImpl) w : win_listener_world K :=
  Build_win_listener_world (wx_polls w) (wx_listener w) (wx_entries w) (wx_objects w) (wx_accepted w ++ [ep]) (wx_next w) (wx_next_poll w).
Definition wl_new_poll w : win_listener_world K :=
  Build_win_listener_world (wx_polls w) (wx_listener w) (wx_entries w) (wx_objects w) (wx_accepted w) (wx_next w) (S (wx_next_poll w)).
Definition wl_bump w : win_listener_world K :=
  Build_win_listener_world (wx_polls w) (wx_listener w) (wx_entries w) (wx_objects w) (wx_accepted w) (S (wx_next w)) (wx_next_poll w).

Definition wl_polls {A} : M (iocp_world K) A -> M (win_listener_world K) A := zoom wx_polls wl_with_polls.
Definition wl_os {A} (m : M (os K) A) : M (win_listener_world K) A := wl_polls (iw_sys m).
Definition wl_ring {A} : M entry_heap A -> M (win_listener_world K) A := zoom wx_entries wl_with_entries.
Definition wl_set (f : WinTcpListener -> WinTcpListener) : M (win_listener_world K) unit :=
  modify (fun w => wl_with_listener (f (wx_listener w)) w).

Definition wl_shut (b : bool) (l : WinTcpListener) : WinTcpListener := {|
  wl_shutdown := b; wl_AcceptEx := wl_AcceptEx l; wl_GetAcceptExSockAddrs := wl_GetAcceptExSockAddrs l;
  wl_threads := wl_threads l; wl_heads := wl_heads l; wl_poll_thread := wl_poll_thread l |}.
Definition wl_with_functions (a g : bool) (l : WinTcpListener) : WinTcpListener := {|
  wl_shutdown := wl_shutdown l; wl_AcceptEx := a; wl_GetAcceptExSockAddrs := g;
  wl_threads := wl_threads l; wl_heads := wl_heads l; wl_poll_thread := wl_poll_thread l |}.
Definition wl_with_threads (n : Z) (l : WinTcpListener) : WinTcpListener := {|
  wl_shutdown := wl_shutdown l; wl_AcceptEx := wl_AcceptEx l; wl_GetAcceptExSockAddrs := wl_GetAcceptExSockAddrs l;
  wl_threads := n; wl_heads := wl_heads l; wl_poll_thread := wl_poll_thread l |}.
Definition wl_with_heads (h : list (nat * Z)) (l : WinTcpListener) : WinTcpListener := {|
  wl_shutdown := wl_shutdown l; wl_AcceptEx := wl_AcceptEx l; wl_GetAcceptExSockAddrs := wl_GetAcceptExSockAddrs l;
  wl_threads := wl_threads l; wl_heads := h; wl_poll_thread := wl_poll_thread l |}.
Definition wl_with_poll (p : option nat) (l : WinTcpListener) : WinTcpListener := {|
  wl_shutdown := wl_shutdown l; wl_AcceptEx := wl_AcceptEx l; wl_GetAcceptExSockAddrs := wl_GetAcceptExSockAddrs l;
  wl_threads := wl_threads l; wl_heads := wl_heads l; wl_poll_thread := p |}.

(** ** Memory *)

(** A fresh address, holding a copy of the list entry at [from] (or null pointers). *)
Definition alloc_entry (from : option nat) : M (win_listener_world K) nat :=
  n ← gets wx_next;
  _ ← modify wl_bump;
  '(p, nx) ← match from with
             | Some a => wl_ring (p ← get_prev a; nx ← get_next a; mret (p, nx))
             | None => mret (0%nat, 0%nat)
             end;
  _ ← wl_ring (modify (fun h => {| eh_prev := <[n := p]> (eh_prev h); eh_next := <[n := nx]> (eh_next h) |}));
  mret n.

Definition free_list_entry (a : nat) : M (win_listener_world K) unit :=
  wl_ring (modify (fun h => {| eh_prev := delete a (eh_prev h); eh_next := delete a (eh_next h) |})).

Definition set_olex (a : nat) (olex : option OverLappedEx) (p : iocp_world K) : iocp_world K :=
  set_overlapped (partial_alter (fun _ => olex) (Z.of_nat a) (iw_overlapped p)) p.

(** [new AcceptObject] and the members its creator sets. *)
Definition new_object (x : AcceptObject) (olex : OverLappedEx) : M (win_listener_world K) nat :=
  n ← alloc_entry None;
  _ ← modify (fun w => wl_with_objects (<[n := x]> (wx_objects w)) (wl_with_polls (set_olex n (Some olex) (wx_polls w)) w));
  mret n.

(** [delete] of an [AcceptObject]; of anything else it is undefined. *)
Definition delete_accept (a : nat) : M (win_listener_world K) unit :=
  w ← gets id;
  x ← of_option (wx_objects w !! a);
  _ ← (if negb (ao_new_socket x =? INVALID_SOCKET) then wl_os (call_ret (SysClose (ao_new_socket x))) else mret 0);
  _ ← free_list_entry a;
  modify (fun w => wl_with_objects (delete a (wx_objects w)) (wl_with_polls (set_olex a None (wx_polls w)) w)).

(** The vector's elements move to fresh addresses, bit by bit. *)
Fixpoint move_heads (heads : list (nat * Z)) : M (win_listener_world K) (list (nat * Z)) :=
  match heads with
  | [] => mret []
  | (a, fd) :: heads =>
      n ← alloc_entry (Some a);
      heads ← move_heads heads;
      _ ← free_list_entry a;
      mret ((n, fd) :: heads)
  end.

(** ** Life *)

Definition wl_release (p : option nat) : M (win_listener_world K) unit :=
  match p with Some x => wl_polls (WinPoll_dtor x) | None => mret tt end.

Definition WinTcpListener_Init (exit threads : Z) : M (win_listener_world K) raptor_error :=
  w ← gets id;
  let l := wx_listener w in
  if negb (wl_shutdown l) then mret (RAPTOR_ERROR_FROM_STATIC_STRING "TcpListener is already running")
  else
    let x := wx_next_poll w in
    _ ← modify wl_new_poll;
    _ ← wl_polls (WinPoll_new x self exit);
    _ ← wl_set (wl_with_poll (Some x));
    _ ← wl_release (wl_poll_thread l);
    e ← wl_polls (WinPoll_Init x threads 1);
    match e with
    | Some _ => mret e
    | None =>
        _ ← wl_polls (WinPoll_EnableTimeoutCheck x false);
        _ ← wl_set (wl_shut false);
        _ ← wl_set (wl_with_threads threads);
        mret RAPTOR_ERROR_NONE
    end.

Definition WinTcpListener_Start : M (win_listener_world K) raptor_error :=
  l ← gets wx_listener;
  if wl_shutdown l then mret (RAPTOR_ERROR_FROM_STATIC_STRING "TcpListener is not initialized")
  else x ← of_option (wl_poll_thread l); wl_polls (WinPoll_Start x).

(** [do { entry = pop_back(&info.head); delete entry } while (entry)]; [fuel] bounds the
    number of rounds. *)
Fixpoint delete_entries (fuel : nat) (head : nat) : M (win_listener_world K) unit :=
  match fuel with
  | O => no_fuel
  | S fuel =>
      entry ← wl_ring (raptor_list_pop_back head);
      match entry with
      | None => mret tt
      | Some a => _ ← delete_accept a; delete_entries fuel head
      end
  end.

(** [auto info = _heads[i]] copies the element. *)
Fixpoint shutdown_heads (fuel x : nat) (heads : list (nat * Z)) : M (win_listener_world K) unit :=
  match heads with
  | [] => mret tt
  | (a, listen_fd) :: heads =>
      info ← alloc_entry (Some a);
      _ ← delete_entries fuel info;
      _ ← wl_polls (WinPoll_Delete x listen_fd 0);
      _ ← wl_os (call_ret (SysClose listen_fd));
      _ ← free_list_entry info;
      shutdown_heads fuel x heads
  end.

Definition WinTcpListener_Shutdown (fuel : nat) : M (win_listener_world K) unit :=
  l ← gets wx_listener;
  if wl_shutdown l then mret tt
  else
    _ ← wl_set (wl_shut true);
    x ← of_option (wl_poll_thread l);
    _ ← shutdown_heads fuel x (wl_heads l);
    _ ← wl_polls (WinPoll_Shutdown x);
    wl_set (wl_with_heads []).

Definition WinTcpListener_dtor (fuel : nat) : M (win_listener_world K) unit :=
  _ ← WinTcpListener_Shutdown fuel;
  l ← gets wx_listener;
  wl_release (wl_poll_thread l).

(** ** Listening *)

Definition get_function (fd : Z) : M (win_listener_world K) raptor_error :=
  status ← wl_os (call_ret (SysWSAIoctl fd SIO_GET_EXTENSION_FUNCTION_POINTER 0));
  if negb (status =? 0) then wl_os (last_error "WSAIoctl") else mret RAPTOR_ERROR_NONE.

Definition GetExtensionFunction (fd : Z) : M (win_listener_world K) raptor_error :=
  l ← gets wx_listener;
  e ← (if wl_AcceptEx l then mret RAPTOR_ERROR_NONE else get_function fd);
  match e with
  | Some _ => mret e
  | None =>
      _ ← wl_set (wl_with_functions true (wl_GetAcceptExSockAddrs l));
      if wl_GetAcceptExSockAddrs l then mret RAPTOR_ERROR_NONE
      else
        e ← get_function fd;
        match e with
        | Some _ => mret e
        | None => _ ← wl_set (wl_with_functions true true); mret RAPTOR_ERROR_NONE
        end
  end.

Definition StartAcceptEx (listen_fd : Z) (addr : raptor_resolved_address) (a : nat) : M (win_listener_world K) raptor_error :=
  '(e, s) ← wl_os (start_accept listen_fd addr);
  _ ← modify (fun w => wl_with_objects (alter (ao_with_socket s) a (wx_objects w)) w);
  mret e.

(** The loop that starts the accepts. *)
Fixpoint start_accepts (n : nat) (head : nat) (listen_fd port index : Z) (mode : raptor_dualstack_mode)
    (mapped_addr : raptor_resolved_address) : M (win_listener_world K) raptor_error :=
  match n with
  | O => mret RAPTOR_ERROR_NONE
  | S n =>
      node ← new_object {| ao_new_socket := INVALID_SOCKET; ao_listen_port := port; ao_mode := mode; ao_addr_buffer := replicate 88 x00 |}
               {| ox_event_type := kAcceptEvent; ox_HandleId := u32 (AcceptBaseHandleId + u32 index) |};
      _ ← wl_ring (raptor_list_push_back head node);
      e ← StartAcceptEx listen_fd mapped_addr node;
      match e with
      | Some _ =>
          _ ← wl_ring (raptor_list_remove_entry node);
          _ ← delete_accept node;
          mret e
      | None => start_accepts n head listen_fd port index mode mapped_addr
      end
  end.

(** [_heads.emplace_back(tmp)]: the address of the new element. *)
Definition emplace_head (listen_fd : Z) : M (win_listener_world K) nat :=
  l ← gets wx_listener;
  heads ← (if moves (length (wl_heads l)) then move_heads (wl_heads l) else mret (wl_heads l));
  head ← alloc_entry None;
  _ ← wl_set (wl_with_heads (heads ++ [(head, listen_fd)]));
  _ ← wl_ring (RAPTOR_LIST_INIT head);
  mret head.

Definition WinTcpListener_AddListeningPort (addr : raptor_resolved_address) : M (win_listener_world K) raptor_error :=
  l ← gets wx_listener;
  if wl_shutdown l then mret (RAPTOR_ERROR_FROM_STATIC_STRING "TcpListener has been shutdown")
  else
    '(e, mapped_addr, listen_fd, mode) ← wl_os (win_create_socket addr);
    match e with
    | Some _ => mret e
    | None =>
        e ← (if negb (wl_AcceptEx l) || negb (wl_GetAcceptExSockAddrs l) then GetExtensionFunction listen_fd else mret RAPTOR_ERROR_NONE);
        match e with
        | Some _ => _ ← wl_os (call_ret (SysClose listen_fd)); mret e
        | None =>
            '(e, port) ← wl_os (win_tcp_server_prepare_socket listen_fd mapped_addr 1);
            match e with
            | Some _ => mret e
            | None =>
                let index := Z.of_nat (length (wl_heads l)) in
                head ← emplace_head listen_fd;
                x ← of_option (wl_poll_thread l);
                _ ← wl_polls (WinPoll_Add x listen_fd (u64 listen_fd) kAcceptEvent);
                start_accepts (Z.to_nat (i32 (wl_threads l + 1))) head listen_fd port index mode mapped_addr
            end
        end
    end.

(** ** Accepting *)

(** [memcpy] over a zeroed address. *)
Definition copied_address (bytes : option (list byte)) : raptor_resolved_address :=
  match bytes with
  | None => {| ra_addr := replicate 128 x00; ra_len := 0 |}
  | Some b => {| ra_addr := b ++ drop (length b) (replicate 128 x00); ra_len := Z.of_nat (length b) |}
  end.

(** The server's and the client's address. *)
Definition ParsingNewConnectionAddress (x : AcceptObject) : raptor_resolved_address * raptor_resolved_address :=
  let '(local, remote) := GetAcceptExSockAddrs (ao_addr_buffer x) in (copied_address local, copied_address remote).

Definition WinTcpListener_OnEventProcess (fuel : nat) (detail : WinEventDetail) : M (win_listener_world K) unit :=
  _ ← raptor_assert (has (wd_event_type detail) kAcceptEvent);
  let a := Z.to_nat (wd_overlaped detail) in
  w ← gets id;
  object ← of_option (wx_objects w !! a);
  let listen_fd := wd_ptr detail in
  if negb (wl_GetAcceptExSockAddrs (wx_listener w)) then undef
  else
    let '(server, client) := ParsingNewConnectionAddress object in
    let ep := SetListenPort (u16 (ao_listen_port object)) (EndpointImpl_new (ao_new_socket object) server client) in
    _ ← modify (wl_accept ep);
    '(ep, property) ← wl_os (OnAccept ep ∅);
    _ ← wl_os (win_Listener_ProcessProperty (ao_new_socket object) property);
    _ ← modify (fun w => wl_with_objects (alter (ao_with_socket INVALID_SOCKET) a (wx_objects w)) w);
    e ← StartAcceptEx listen_fd server a;
    match e with
    | Some _ => WinTcpListener_Shutdown fuel
    | None => mret tt
    end.
End WinListener.

(** ** Shutting down *)

Section WinListenerTheorems.
Context {K : Type} `{Kernel K} `{WinLibC} `{AcceptorHandler (os K)} `{WinSockAddrs}.
Implicit Types w : win_listener_world K.

(** The [prev] pointers lead from each of [l] to the one before, and to [head] at last. *)
Definition chained (h : entry_heap) (head : nat) (l : list nat) : Prop :=
  forall l1 x l2, l = l1 ++ x :: l2 -> eh_prev h !! x = Some (end_of head l1).

Lemma ring_chained h head l : ring h head l -> chained h head l.
Proof using Type.
  intros [Hp _] l1 x l2 ->. rewrite <- app_assoc in Hp. apply path_app in Hp as [_ Hp]. cbn in Hp. by destruct Hp as [[_ ?] _].
Qed.

(** [m] returns with [Q], or is undefined. *)
Definition may {S A} (m : M S A) (s : S) (Q : A -> S -> Prop) : Prop :=
  match m s with Ret (a, s') => Q a s' | Undef => True | _ => False end.

Lemma may_ret {S A} (a : A) (s : S) (Q : A -> S -> Prop) : Q a s -> may (mret a) s Q.
Proof using Type. done. Qed.
Lemma may_bind {S A B} (m : M S A) (f : A -> M S B) s Q : may m s (fun a s' => may (f a) s' Q) -> may (m ≫= f) s Q.
Proof using Type. unfold may, mbind, M_bind. by destruct (m s) as [[]| | |]. Qed.
Lemma may_mono {S A} (m : M S A) s (Q R : A -> S -> Prop) : may m s R -> (forall a s', R a s' -> Q a s') -> may m s Q.
Proof using Type. unfold may. destruct (m s) as [[]| | |]; auto. Qed.
Lemma may_of_option {S A} (x : option A) (s : S) (Q : A -> S -> Prop) : (forall a, x = Some a -> Q a s) -> may (of_option x) s Q.
Proof using Type. intros HQ. destruct x; [by apply HQ|done]. Qed.
Lemma may_gets {S A} (f : S -> A) (s : S) (Q : A -> S -> Prop) : Q (f s) s -> may (gets f) s Q.
Proof using Type. done. Qed.
Lemma may_modify {S} (f : S -> S) (s : S) (Q : unit -> S -> Prop) : Q tt (f s) -> may (modify f) s Q.
Proof using Type. done. Qed.
Lemma may_zoom {S T A} (get : S -> T) set (m : M T A) s (Q : A -> S -> Prop) :
  may m (get s) (fun a t => Q a (set t s)) -> may (zoom get set m) s Q.
Proof using Type. unfold may, zoom. by destruct (m (get s)) as [[]| | |]. Qed.
Lemma may_false {S A} (m : M S A) s : may m s (fun _ _ => False) -> m s = Undef.
Proof using Type. unfold may. by destruct (m s) as [[]| | |]. Qed.

(** Reading and writing the entries, allocated or not. *)
Lemma may_get_prev e h Q : (forall v, eh_prev h !! e = Some v -> Q v h) -> may (get_prev e) h Q.
Proof using Type. intros HQ. by apply may_bind, may_gets, may_of_option. Qed.
Lemma may_get_next e h Q : (forall v, eh_next h !! e = Some v -> Q v h) -> may (get_next e) h Q.
Proof using Type. intros HQ. by apply may_bind, may_gets, may_of_option. Qed.
Lemma may_set_next e v h (Q : unit -> entry_heap -> Prop) :
  Q tt {| eh_prev := eh_prev h; eh_next := <[e := v]> (eh_next h) |} -> may (set_next e v) h Q.
Proof using Type. intros HQ. apply may_bind, may_get_next. intros ? _. by apply may_modify. Qed.
Lemma may_set_prev e v h (Q : unit -> entry_heap -> Prop) :
  Q tt {| eh_prev := <[e := v]> (eh_prev h); eh_next := eh_next h |} -> may (set_prev e v) h Q.
Proof using Type. intros HQ. apply may_bind, may_get_prev. intros ? _. by apply may_modify. Qed.

(** Popping from a head [c] that is not its own next. *)
Lemma may_pop_back c h r n (Q : option nat -> entry_heap -> Prop) :
  eh_prev h !! c = Some r -> eh_next h !! c = Some n -> n <> c ->
  (forall p, eh_prev h !! r = Some p -> Q (Some r) {| eh_prev := <[c := p]> (eh_prev h); eh_next := <[p := c]> (eh_next h) |}) ->
  may (raptor_list_pop_back c) h Q.
Proof using Type.
  intros Hp Hn Hne HQ. unfold raptor_list_pop_back, RAPTOR_LIST_IS_EMPTY. apply may_bind, may_bind, may_get_next. intros v Hv.
  rewrite Hn in Hv. injection Hv as <-. apply may_ret. rewrite (proj2 (Nat.eqb_neq _ _) Hne).
  apply may_bind, may_get_prev. intros r' Hr. rewrite Hp in Hr. injection Hr as <-.
  apply may_bind, may_get_prev. intros p Hpr. apply may_bind, may_set_next, may_bind, may_set_prev, may_ret. by apply HQ.
Qed.

(** Deleting an object, as far as the entries are concerned. *)
Lemma may_delete_accept a w (Q : unit -> win_listener_world K -> Prop) :
  (forall x w', wx_objects w !! a = Some x -> wx_objects w' = delete a (wx_objects w) ->
    wx_entries w' = {| eh_prev := delete a (eh_prev (wx_entries w)); eh_next := delete a (eh_next (wx_entries w)) |} -> Q tt w') ->
  may (delete_accept a) w Q.
Proof using Type.
  intros HQ. unfold delete_accept. apply may_bind, may_gets, may_bind, may_of_option. intros x Hx. apply may_bind.
  apply (may_mono _ _ _ (fun _ w' => wx_objects w' = wx_objects w /\ wx_entries w' = wx_entries w)).
  { destruct (negb _); [|done]. unfold wl_os, wl_polls, iw_sys. apply may_zoom, may_zoom. unfold call_ret, call, may, mbind, M_bind.
    by destruct (sys_call _ _). }
  intros ? w1 [Eo Ee]. apply may_bind. unfold free_list_entry, wl_ring. apply may_zoom, may_modify, may_modify.
  apply (HQ x); [done|cbn; by rewrite Eo|cbn; by rewrite Ee].
Qed.

(** Popping from a copy [c] of the head never finds the list empty: after the entries it
    hands out the head itself, which is no object. *)
Lemma delete_entries_undefined c head l : forall fuel w,
  (length l < fuel)%nat -> NoDup l -> c <> head -> c ∉ l -> wx_objects w !! head = None -> head ∉ l ->
  chained (wx_entries w) head l ->
  eh_prev (wx_entries w) !! c = Some (end_of head l) -> (exists n, eh_next (wx_entries w) !! c = Some n /\ n <> c) ->
  delete_entries fuel c w = Undef.
Proof using Type.
  induction l as [|x l IH] using rev_ind; intros fuel w Hfuel Hnd Hch Hcl Hobj Hhl Hchain Hprev (n & Hnext & Hnc); apply may_false.
  all: destruct fuel as [|fuel]; [cbn in Hfuel; lia|]; cbn [delete_entries]; apply may_bind; unfold wl_ring; apply may_zoom;
    (eapply may_pop_back; [exact Hprev|exact Hnext|exact Hnc|]); intros p Hp.
  - apply may_bind, may_delete_accept. intros y w' Hy. cbn in Hy. by rewrite Hobj in Hy.
  - rewrite end_of_snoc in *. assert (p = end_of head l) as ->.
    { specialize (Hchain l x [] eq_refl). rewrite Hp in Hchain. by injection Hchain. }
    apply NoDup_app in Hnd as (Hnd & Hx & _). rewrite length_app in Hfuel. cbn in Hfuel.
    assert (x ∉ l) as Hxl by (intros Hin; apply (Hx x Hin); by left).
    assert (c <> x) as Hcx by (intros ->; apply Hcl, elem_of_app; right; by left).
    assert (c ∉ l) as Hcl' by (intros Hin; apply Hcl, elem_of_app; by left).
    assert (head ∉ l) as Hhl' by (intros Hin; apply Hhl, elem_of_app; by left).
    assert (end_of head l <> c) as Hec.
    { intros E. pose proof (end_of_in head l) as Hin. rewrite E in Hin. apply elem_of_cons in Hin as [?|?]; done. }
    apply may_bind, may_delete_accept. intros y w' Hy Eo Ee. cbn in Eo, Ee.
    unfold may. rewrite (IH fuel w'); try done; [lia|by rewrite Eo; apply lookup_delete_None; right| | |].
    + rewrite Ee. intros l1 z l2 ->. cbn. assert (z <> x) by (intros ->; apply Hxl, elem_of_app; right; by left).
      assert (z <> c) by (intros ->; apply Hcl', elem_of_app; right; by left).
      rewrite lookup_delete_ne, lookup_insert_ne by done. apply (Hchain l1 z (l2 ++ [x])). by rewrite <- app_assoc.
    + rewrite Ee. cbn. rewrite lookup_delete_ne by done. apply lookup_insert_eq.
    + exists n. rewrite Ee. cbn. rewrite lookup_delete_ne by done. by rewrite lookup_insert_ne.
Qed.

(** Shutting a listener down that listens on a port is undefined.  The loop pops from a
    copy of the list head, so that the test for the empty list never succeeds: after the
    accepts in flight have been deleted, it deletes the list head in the vector. *)
Theorem win_listener_shutdown_undefined (fuel : nat) w head listen_fd heads l :
  wl_shutdown (wx_listener w) = false -> wl_heads (wx_listener w) = (head, listen_fd) :: heads ->
  ring (wx_entries w) head l -> wx_objects w !! head = None -> wx_next w ∉ head :: l -> (length l < fuel)%nat ->
  WinTcpListener_Shutdown fuel w = Undef.
Proof using Type.
  intros Hs Hh Hr Hobj Hfresh Hfuel. apply not_elem_of_cons in Hfresh as [Hfh Hfl]. pose proof Hr as [Hpath Hnd].
  apply NoDup_cons in Hnd as [Hhl Hnd].
  apply may_false. unfold WinTcpListener_Shutdown. apply may_bind, may_gets. rewrite Hs.
  apply may_bind, may_modify, may_bind, may_of_option. intros x _. apply may_bind. cbn [wl_shut wl_heads wx_listener wl_with_listener]. rewrite Hh.
  cbn [shutdown_heads]. apply may_bind. unfold alloc_entry. apply may_bind, may_gets, may_bind, may_modify, may_bind.
  cbn [wx_next wx_entries wl_with_listener wl_bump]. unfold wl_ring. apply may_zoom, may_bind, may_get_prev. intros p Hp.
  apply may_bind, may_get_next. intros nx Hnx. apply may_ret, may_bind, may_zoom, may_modify, may_ret.
  apply may_bind. unfold may at 1. cbn [wx_entries wl_with_entries wl_with_listener wl_bump] in *.
  assert (nx ∈ head :: l /\ p = end_of head l) as [Hnin ->].
  { destruct l as [|y l] using rev_ind; cbn in Hpath; [destruct Hpath as [[E1 E2] _]; rewrite E1 in Hnx; rewrite E2 in Hp|].
    - injection Hnx as <-. split; [by left|by injection Hp].
    - clear IHl. rewrite end_of_snoc. apply path_app in Hpath as [Hpath1 Hlast]. rewrite end_of_snoc in Hlast. cbn in Hlast.
      destruct Hlast as [[_ E2] _]. rewrite E2 in Hp. split; [|by injection Hp].
      destruct l as [|z l]; cbn in Hpath1; destruct Hpath1 as [[E1 _] _]; rewrite E1 in Hnx; injection Hnx as <-; right; by left. }
  rewrite (delete_entries_undefined (wx_next w) head l); try done; cbn [eh_prev eh_next wx_entries wl_with_entries].
  - intros l1 y l2 E. cbn. rewrite lookup_insert_ne; [by apply (ring_chained _ _ _ Hr l1 y l2)|]. intros <-. apply Hfl. rewrite E.
    apply elem_of_app. right. by left.
  - apply lookup_insert_eq.
  - exists nx. split; [apply lookup_insert_eq|]. cbn. intros ->. apply elem_of_cons in Hnin as [?|?]; done.
Qed.
End WinListenerTheorems.

(** ** A concrete listener *)

(** The port is 7, sockets are 9, accepts are pending. *)
Definition accepting_kernel : Kernel unit := fun k c =>
  let ret r errno n := {| r_ret := r; r_errno := errno; r_data := []; r_int := n; r_events := [] |} in
  match c with
  | SysPthreadCreate => (ret 0 0 100, k)
  | SysCreateIoCompletionPort _ _ _ _ => (ret 7 0 0, k)
  | SysSocket _ _ _ => (ret 9 0 0, k)
  | SysGetsockname _ => ({| r_ret := 0; r_errno := 0; r_data := ra_addr (loopback4 80); r_int := 16; r_events := [] |}, k)
  | SysAcceptEx _ _ => (ret (-1) ERROR_IO_PENDING 0, k)
  | _ => (ret 0 0 0, k)
  end.

#[local] Existing Instance accepting_kernel.
#[local] Existing Instance no_format.

Definition new_listener : win_listener_world unit := {|
  wx_polls := no_polls {| os_kernel := tt; os_errno := 0; os_trace := [] |} ∅;
  wx_listener := WinTcpListener_new; wx_entries := {| eh_prev := ∅; eh_next := ∅ |}; wx_objects := ∅; wx_accepted := [];
  wx_next := 1; wx_next_poll := 1 |}.

(** Initialised with one thread, and listening on one port. *)
Definition listening : win_listener_world unit :=
  match (_ ← WinTcpListener_Init 1000 77 1; WinTcpListener_AddListeningPort (fun _ => false) (loopback4 80)) new_listener with
  | Ret (_, w) => w
  | _ => new_listener
  end.

(** The head is at 1, the two accepts in flight at 2 and 3. *)
Lemma win_listener_shutdown_undefined_witness : WinTcpListener_Shutdown 3 listening = Undef.
Proof.
  apply (win_listener_shutdown_undefined 3 listening 1 9 [] [2; 3]%nat).
  - vm_compute. reflexivity.
  - vm_compute. reflexivity.
  - split; [vm_compute; repeat split|apply (bool_decide_eq_true_1 (NoDup _)); vm_compute; reflexivity].
  - vm_compute. reflexivity.
  - apply (bool_decide_eq_true_1 (wx_next listening ∉ _)). vm_compute. reflexivity.
  - cbn. lia.
Defined.
