(* ===== verification/Timer.v ===== *)
(** * Timers (include/raptor-lite/utils/timer.h, src/utils/timer.cc)

    The timer thread moves nodes from its queue to its table, one per round, and fires
    those that are due.  The queue is used through its contract (Mpscq.v): first in,
    first out, and a [pop] that meets a push in progress gives nothing.  The handler is
    the client's: a computation on the state, which includes the timer, since handlers
    set timers. *)

From S2P Require Import Prelude.
From S2P Require Import OS.
From S2P Require Import Time.
From S2P Require Import Thread.
From S2P Require Import Status.
From S2P Require Import SocketSetting.
From S2P Require Import Multimap.

Local Open Scope Z_scope.

Record TimerNode : Type := {
  tn_tid : Z;
  tn_dead_line : Z;
}.

Record Timer : Type := {
  tm_shutdown : bool;
  tm_tbls : list (Z * Z);
  tm_mq : list TimerNode;
  tm_thd : Thread;
}.

Definition Timer_new : Timer :=
  {| tm_shutdown := true; tm_tbls := []; tm_mq := []; tm_thd := Thread_null |}.

Definition set_tbls (tbls : list (Z * Z)) (t : Timer) : Timer :=
  {| tm_shutdown := tm_shutdown t; tm_tbls := tbls; tm_mq := tm_mq t; tm_thd := tm_thd t |}.
Definition set_mq (mq : list TimerNode) (t : Timer) : Timer :=
  {| tm_shutdown := tm_shutdown t; tm_tbls := tm_tbls t; tm_mq := mq; tm_thd := tm_thd t |}.

Definition Timer_tid (tid1 tid2 : Z) : Z := Z.lor (u64 (Z.shiftl tid1 32)) tid2.

Section Timers.
Context {K : Type} `{Kernel K}.

Definition Timer_Init (t : Timer) : M (os K) (raptor_error * Timer) :=
  if negb (tm_shutdown t) then mret (RAPTOR_ERROR_FROM_STATIC_STRING "Timer is already running", t)
  else
    '(thd, success) ← Thread_new;
    let t := {| tm_shutdown := false; tm_tbls := tm_tbls t; tm_mq := tm_mq t; tm_thd := thd |} in
    if (success : bool) then mret (RAPTOR_ERROR_NONE, t)
    else mret (RAPTOR_ERROR_FROM_STATIC_STRING "Timer: Failed to create timer thread", t).

Definition Timer_Start (t : Timer) : M (os K) Timer :=
  thd ← Thread_Start (tm_thd t);
  mret {| tm_shutdown := tm_shutdown t; tm_tbls := tm_tbls t; tm_mq := tm_mq t; tm_thd := thd |}.

Definition Timer_Shutdown (t : Timer) : M (os K) Timer :=
  if tm_shutdown t then mret t
  else
    thd ← Thread_Join (tm_thd t);
    mret {| tm_shutdown := true; tm_tbls := tm_tbls t; tm_mq := []; tm_thd := thd |}.

Definition Timer_SetTimer (tid1 tid2 delay_ms : Z) (t : Timer) : M (os K) Timer :=
  if tm_shutdown t then mret t
  else
    now ← GetCurrentMilliseconds;
    mret (set_mq (tm_mq t ++ [{| tn_tid := Timer_tid tid1 tid2; tn_dead_line := now + delay_ms |}]) t).

(** ** The timer thread *)

(** The queue's [pop]: nothing when empty or [blocked] by a push in progress. *)
Definition take_node (blocked : bool) (t : Timer) : Timer :=
  if blocked then t
  else
    match tm_mq t with
    | [] => t
    | n :: mq => set_mq mq (set_tbls (mm_insert (tn_dead_line n) (tn_tid n) (tm_tbls t)) t)
    end.

Section WorkThread.
Context {S : Type}.
Variable on_os : forall A, M (os K) A -> M S A.
Variable timer_of : S -> Timer.
Variable with_timer : Timer -> S -> S.
Variable OnTimer : Z -> Z -> M S unit.

(** The loop over the due timers: at most three, and the loop ends once 300 ms passed.
    Returns those fired, and the last [current_millseconds]. *)
Fixpoint fire_loop (budget : nat) (begin current : Z) : M S (list (Z * Z) * Z) :=
  match budget with
  | O => mret ([], current)
  | Datatypes.S budget =>
      t ← gets timer_of;
      match tm_tbls t with
      | [] => mret ([], current)
      | (dead_line, tid) :: tbls =>
          if begin <? dead_line then mret ([], current)
          else
            _ ← modify (with_timer (set_tbls tbls t));
            _ ← OnTimer (u32 (Z.shiftr tid 32)) (u32 (Z.land tid 0xffffffff));
            current ← on_os _ GetCurrentMilliseconds;
            if 300 <? current - begin then mret ([(dead_line, tid)], current)
            else
              '(fired, current) ← fire_loop budget begin current;
              mret ((dead_line, tid) :: fired, current)
      end
  end.

(** The first part of a round. *)
Definition WorkThread_fire (blocked : bool) : M S (list (Z * Z) * Z * Z) :=
  t ← gets timer_of;
  _ ← modify (with_timer (take_node blocked t));
  begin ← on_os _ GetCurrentMilliseconds;
  '(fired, current) ← fire_loop 3 begin 0;
  mret (fired, begin, current).

(** The pause; arithmetic on [int] that overflows is undefined. *)
Definition WorkThread_sleep (timer_count : nat) (begin current : Z) : M (os K) unit :=
  if (timer_count <? 3)%nat then
    let interval := i32 (current - begin) in
    if interval <? 300 then
      let ms := 300 - interval in
      if (ms <? 2 ^ 31) && (ms * 1000 <? 2 ^ 31) then
        _ ← call (SysUsleep (u32 (ms * 1000))); mret tt
      else undef
    else mret tt
  else mret tt.

Definition WorkThread_round (blocked : bool) : M S (list (Z * Z)) :=
  '(fired, begin, current) ← WorkThread_fire blocked;
  _ ← on_os _ (WorkThread_sleep (length fired) begin current);
  mret fired.
End WorkThread.
End Timers.

(** ** What fires *)

Section Firing.
Context {K : Type} `{Kernel K}.

(** A state made of a process, a timer, a client's own state and the calls of [OnTimer] made so far. *)
Record timer_state (U : Type) : Type := {
  ts_os : os K;
  ts_timer : Timer;
  ts_user : U;
  ts_calls : list (Z * Z);
}.
Arguments ts_os {U} _.
Arguments ts_timer {U} _.
Arguments ts_user {U} _.
Arguments ts_calls {U} _.
Arguments Build_timer_state {U} _ _ _ _.

Context {U : Type}.

Definition ts_with_os (o : os K) (s : timer_state U) : timer_state U :=
  {| ts_os := o; ts_timer := ts_timer s; ts_user := ts_user s; ts_calls := ts_calls s |}.
Definition ts_on_os {A} (m : M (os K) A) : M (timer_state U) A := zoom ts_os ts_with_os m.
Definition ts_with (t : Timer) (s : timer_state U) : timer_state U :=
  {| ts_os := ts_os s; ts_timer := t; ts_user := ts_user s; ts_calls := ts_calls s |}.

(** The handler, with its call recorded. *)
Definition recorded (OnTimer : Z -> Z -> M (timer_state U) unit) (tid1 tid2 : Z) : M (timer_state U) unit :=
  _ ← modify (fun s => {| ts_os := ts_os s; ts_timer := ts_timer s; ts_user := ts_user s; ts_calls := ts_calls s ++ [(tid1, tid2)] |});
  OnTimer tid1 tid2.

(** What a handler may do: it returns, makes system calls, changes its state and adds to the
    queue, but does not touch the table; the record of its calls is not its own. *)
Definition well_behaved (OnTimer : Z -> Z -> M (timer_state U) unit) : Prop :=
  forall a b s, wp (OnTimer a b) s (fun _ s' =>
    tm_tbls (ts_timer s') = tm_tbls (ts_timer s) /\ ts_calls s' = ts_calls s /\
    (exists new, tm_mq (ts_timer s') = tm_mq (ts_timer s) ++ new) /\
    exists more, os_trace (ts_os s') = os_trace (ts_os s) ++ more).

(** The milliseconds of a reading of the clock. *)
Definition milliseconds (r : sysret) : Z := (timeval_of r).1 * 1000 + Z.quot (timeval_of r).2 1000.

Lemma wp_now (s : timer_state U) Q :
  (forall r o, os_trace o = os_trace (ts_os s) ++ [(SysGettimeofday, r)] -> Q (milliseconds r) (ts_with_os o s)) ->
  wp (ts_on_os GetCurrentMilliseconds) s Q.
Proof.
  intros HQ. unfold ts_on_os. apply wp_zoom. unfold GetCurrentMilliseconds, wp, call, mbind, M_bind.
  destruct (sys_call _ _) as [r k]. by apply HQ.
Qed.

Definition node_entry (n : TimerNode) : Z * Z := (tn_dead_line n, tn_tid n).

(** Everything the timer still holds. *)
Definition pending (t : Timer) : list (Z * Z) := tm_tbls t ++ (node_entry <$> tm_mq t).

(** The call that an entry of the table stands for. *)
Definition timer_call (e : Z * Z) : Z * Z := (u32 (Z.shiftr e.2 32), u32 (Z.land e.2 0xffffffff)).

(** It is made with the two numbers that [SetTimer] was given. *)
Lemma timer_call_tid d tid1 tid2 : is_u32 tid1 -> is_u32 tid2 -> timer_call (d, Timer_tid tid1 tid2) = (tid1, tid2).
Proof using Type.
  unfold is_u32. intros H1 H2. unfold timer_call, Timer_tid. cbn [snd].
  assert (Z.shiftl tid1 32 = tid1 * 2 ^ 32) as E by (by rewrite Z.shiftl_mul_pow2 by lia).
  unfold u64. rewrite (wrap_small 64) by lia. rewrite lor_shiftl_add by lia. change 0xffffffff with (Z.ones 32).
  rewrite Z.land_ones, Z.shiftr_div_pow2 by lia. unfold u32.
  rewrite Z.div_add_l, Z.div_small, Z.add_0_r by lia. rewrite (Z.add_comm _ tid2), Z.mod_add, Z.mod_small by lia.
  by rewrite !wrap_small by lia.
Qed.

Variable OnTimer : Z -> Z -> M (timer_state U) unit.
Hypothesis Hbehaved : well_behaved OnTimer.

(** What the loop leaves: what fired was at the front of the table and due, and its calls
    were made; if it had neither its fill nor its time, nothing that is left is due. *)
Definition fired_spec (budget : nat) (begin : Z) (s : timer_state U) (fired : list (Z * Z)) (current : Z) (s' : timer_state U) : Prop :=
  tm_tbls (ts_timer s) = fired ++ tm_tbls (ts_timer s') /\
  ts_calls s' = ts_calls s ++ (timer_call <$> fired) /\
  (exists new, tm_mq (ts_timer s') = tm_mq (ts_timer s) ++ new) /\
  (exists more, os_trace (ts_os s') = os_trace (ts_os s) ++ more) /\
  Forall (fun e => e.1 <= begin) fired /\ (length fired <= budget)%nat /\
  ((length fired < budget)%nat -> current - begin <= 300 -> Forall (fun e => begin < e.1) (tm_tbls (ts_timer s'))).

Lemma fired_none budget begin s current :
  (budget = 0%nat \/ Forall (fun e => begin < e.1) (tm_tbls (ts_timer s))) -> fired_spec budget begin s [] current s.
Proof using Type.
  intros Hb. split_and!; [done|by rewrite app_nil_r|exists []; by rewrite app_nil_r..|constructor|cbn; lia|].
  cbn. intros Hl _. destruct Hb as [->|Hb]; [lia|done].
Qed.

Lemma fire_loop_spec budget : forall begin current s,
  mm_sorted (tm_tbls (ts_timer s)) ->
  wp (fire_loop (@ts_on_os) ts_timer ts_with (recorded OnTimer) budget begin current) s (fun '(fired, current) s' =>
    fired_spec budget begin s fired current s').
Proof using Hbehaved.
  induction budget as [|budget IH]; intros begin current s Hs; cbn [fire_loop].
  { apply wp_ret, fired_none. by left. }
  apply wp_bind, wp_gets. destruct (tm_tbls (ts_timer s)) as [|[dl tid] tbls] eqn:Et.
  { apply wp_ret, fired_none. right. by rewrite Et. }
  destruct (Z.ltb_spec begin dl) as [Hlt|Hge].
  { apply wp_ret, fired_none. right. rewrite Et. constructor; [done|].
    eapply Forall_impl; [by apply mm_sorted_head|]. intros [k v]. unfold key_le. cbn. lia. }
  apply wp_bind, wp_modify, wp_bind. unfold recorded at 1. apply wp_bind, wp_modify.
  eapply wp_mono; [apply Hbehaved|]. cbn. intros _ s1 (Htb & Hca & (new & Hmq) & more & Htr).
  apply wp_bind, wp_now. intros r o Ho. destruct (Z.ltb_spec 300 (milliseconds r - begin)) as [Hlate|Htime].
  { apply wp_ret. split_and!; cbn; [by rewrite Htb|by rewrite Hca|by exists new| |by repeat constructor|lia|lia].
    eexists. rewrite Ho, Htr, <- app_assoc. reflexivity. }
  apply wp_bind. eapply wp_mono; [apply IH; cbn; rewrite Htb; by eapply mm_sorted_tail|].
  cbn. intros [fired c] s2 (Htb2 & Hca2 & (new2 & Hmq2) & (more2 & Htr2) & Hf & Hl & Hrest). cbn in Htb2, Hca2, Hmq2, Htr2.
  apply wp_ret. split_and!; cbn.
  - by rewrite Et, <- Htb, Htb2.
  - rewrite Hca2, Hca, <- app_assoc. done.
  - exists (new ++ new2). by rewrite Hmq2, Hmq, app_assoc.
  - eexists. rewrite Htr2, Ho, Htr, <- !app_assoc. reflexivity.
  - by constructor.
  - lia.
  - intros Hn. apply Hrest. lia.
Qed.

(** C31. Timers fire once, in order, and never early.  Whatever the clock reads and whatever
    the handler adds, one round of the timer thread reads the clock and calls [OnTimer] for
    at most three timers, once for each and with the numbers it was set with, in the order
    of their deadlines, each due at that reading; what it fired together with what the
    timer still holds is exactly what the timer held before and the nodes added to its
    queue meanwhile: no timer is lost and none fires twice.  If it fires fewer than three
    in less than 300 ms, no timer in the table is due.  The handler returns, and leaves the
    table alone. *)
Theorem timer_fires_once (blocked : bool) (s : timer_state U) :
  mm_sorted (tm_tbls (ts_timer s)) ->
  exists fired r more current s' new,
    let begin := milliseconds r in
    WorkThread_fire (@ts_on_os) ts_timer ts_with (recorded OnTimer) blocked s = Ret ((fired, begin, current), s') /\
    os_trace (ts_os s') = os_trace (ts_os s) ++ (SysGettimeofday, r) :: more /\
    ts_calls s' = ts_calls s ++ (timer_call <$> fired) /\
    (forall d tid1 tid2, is_u32 tid1 -> is_u32 tid2 -> timer_call (d, Timer_tid tid1 tid2) = (tid1, tid2)) /\
    fired ++ pending (ts_timer s') ≡ₚ pending (ts_timer s) ++ (node_entry <$> new) /\
    tm_mq (ts_timer s') = tm_mq (take_node blocked (ts_timer s)) ++ new /\
    Forall (fun e => e.1 <= begin) fired /\ mm_sorted (fired ++ tm_tbls (ts_timer s')) /\ (length fired <= 3)%nat /\
    ((length fired < 3)%nat -> current - begin <= 300 -> Forall (fun e => begin < e.1) (tm_tbls (ts_timer s'))).
Proof using Hbehaved.
  intros Hs. set (t := take_node blocked (ts_timer s)).
  assert (mm_sorted (tm_tbls t) /\ pending t ≡ₚ pending (ts_timer s)) as [Ht Hp].
  { unfold t, take_node, pending. destruct blocked; [done|]. destruct (tm_mq (ts_timer s)) as [|n mq] eqn:Em; [by rewrite Em|].
    cbn. split; [by apply mm_insert_sorted|]. rewrite mm_insert_perm. cbn. by rewrite Permutation_middle. }
  assert (wp (WorkThread_fire (@ts_on_os) ts_timer ts_with (recorded OnTimer) blocked) s (fun '(fired, begin, current) s' =>
    exists r o, begin = milliseconds r /\ os_trace o = os_trace (ts_os s) ++ [(SysGettimeofday, r)] /\
      fired_spec 3 begin (ts_with_os o (ts_with t s)) fired current s')) as Hwp.
  { unfold WorkThread_fire. apply wp_bind, wp_gets, wp_bind, wp_modify. fold t. apply wp_bind, wp_now.
    intros r o Ho. apply wp_bind. eapply wp_mono; [by apply fire_loop_spec|]. cbn.
    intros [fired c] s' Hf. apply wp_ret. by exists r, o. }
  unfold wp in Hwp. destruct (WorkThread_fire _ _ _ _ _ s) as [[[[fired begin] current] s']| | |]; [|done..].
  destruct Hwp as (r & o & -> & Ho & Htb & Hca & (new & Hmq) & (more & Htr) & Hf & Hl & Hrest). cbn in Htb, Hca, Hmq, Htr.
  exists fired, r, more, current, s', new. rewrite Htb in Ht. split; [done|]. split; [by rewrite Htr, Ho, <- app_assoc|].
  split; [done|]. split; [apply timer_call_tid|]. split; [|done].
  rewrite <- Hp. unfold pending. by rewrite Htb, Hmq, fmap_app, <- !app_assoc.
Qed.
End Firing.
Arguments ts_os {K U} _.
Arguments ts_timer {K U} _.
Arguments ts_calls {K U} _.

(** The pause of a round that fires nothing is computed from a [current_millseconds] that
    was never read: on any clock past 300 ms the thread asks for the low 32 bits of
    [300 + begin] milliseconds, so it does not sleep, or sleeps for another time than
    the 300 ms meant, or overflows an [int]. *)
Theorem timer_idle_pause {K : Type} `{Kernel K} (begin : Z) (o : os K) :
  let interval := i32 (0 - begin) in
  WorkThread_sleep 0 begin 0 o =
    (if 300 <=? interval then Ret (tt, o)
     else if 2147484 <=? 300 - interval then Undef
     else (_ ← call (SysUsleep ((300 - interval) * 1000)); mret tt) o).
Proof.
  intros interval. unfold WorkThread_sleep. cbn [Nat.ltb Nat.leb]. fold interval.
  destruct (Z.ltb_spec interval 300) as [Hlt|Hge]; [|by rewrite (proj2 (Z.leb_le _ _)) by lia].
  rewrite (proj2 (Z.leb_gt 300 interval)) by lia.
  destruct (Z.leb_spec 2147484 (300 - interval)) as [H1|H1].
  - rewrite (proj2 (Z.ltb_ge (_ * 1000) _)) by lia. by rewrite andb_false_r.
  - rewrite !(proj2 (Z.ltb_lt _ _)) by lia. cbn [andb].
    assert (u32 ((300 - interval) * 1000) = (300 - interval) * 1000) as ->; [|done].
    apply wrap_small. lia.
Qed.

(** In November 2023 the thread spun, in December the pause overflowed. *)
Example idle_pause_2023 : @WorkThread_sleep unit zero_fd_kernel 0 1702000000000 0 fresh_process = Undef.
Proof. reflexivity. Qed.

(** ** Life of the timer thread *)

(** A clock that advances by 100 ms at each reading. *)
Definition ticking_kernel : Kernel Z := fun k c =>
  match c with
  | SysGettimeofday => ({| r_ret := 0; r_errno := 0; r_data := []; r_int := 0; r_events := [(k / 10, k mod 10 * 100000)] |}, k + 1)
  | _ => ({| r_ret := 0; r_errno := 0; r_data := []; r_int := 0; r_events := [] |}, k)
  end.

Definition three_timers : Timer :=
  set_mq [{| tn_tid := 7; tn_dead_line := 200 |}] (set_tbls [(100, 1); (300, 2); (900000, 3)] Timer_new).

Definition timers_at (k : Z) : timer_state (K := Z) unit :=
  {| ts_os := {| os_kernel := k; os_errno := 0; os_trace := [] |}; ts_timer := three_timers; ts_user := tt; ts_calls := [] |}.

Lemma timer_fires_once_witness :
  exists fired r more current s' new,
    let begin := milliseconds r in
    @WorkThread_fire Z ticking_kernel _ (@ts_on_os Z unit) ts_timer (ts_with) (recorded (fun _ _ => mret tt)) false (timers_at 5) =
      Ret ((fired, begin, current), s') /\
    os_trace (ts_os s') = os_trace (ts_os (timers_at 5)) ++ (SysGettimeofday, r) :: more /\
    ts_calls s' = ts_calls (timers_at 5) ++ (timer_call <$> fired) /\
    (forall d tid1 tid2, is_u32 tid1 -> is_u32 tid2 -> timer_call (d, Timer_tid tid1 tid2) = (tid1, tid2)) /\
    fired ++ pending (ts_timer s') ≡ₚ pending (ts_timer (timers_at 5)) ++ (node_entry <$> new) /\
    tm_mq (ts_timer s') = tm_mq (take_node false (ts_timer (timers_at 5))) ++ new /\
    Forall (fun e => e.1 <= begin) fired /\ mm_sorted (fired ++ tm_tbls (ts_timer s')) /\ (length fired <= 3)%nat /\
    ((length fired < 3)%nat -> current - begin <= 300 -> Forall (fun e => begin < e.1) (tm_tbls (ts_timer s'))).
Proof.
  apply (@timer_fires_once Z ticking_kernel unit (fun _ _ => mret tt)).
  - intros a b s. apply wp_ret. split_and!; [done|done|exists []; by rewrite app_nil_r..].
  - repeat constructor; vm_compute; discriminate.
Defined.

(** At 500 ms the timers due at 100, 200 and 300 have fired, and their calls were made in
    this order. *)
Example three_fired :
  match @WorkThread_fire Z ticking_kernel _ (@ts_on_os Z unit) ts_timer (ts_with) (recorded (fun _ _ => mret tt)) false (timers_at 5) with
  | Ret (_, s) => ts_calls s = [(0, 1); (0, 7); (0, 2)] /\ tm_tbls (ts_timer s) = [(900000, 3)]
  | _ => False
  end.
Proof. vm_compute. done. Qed.
