(* ===== verification/SlotTable.v ===== *)
(** * The connection slots of a container (src/common/container_impl.h:107-121,
      src/common/container_impl.cc)

    The members [_conn_mtx] protects: the vector [_mgr] of connections and their
    timeout records, the multimap [_timeout_records] and the list of free indices.  A
    connection is its address; an iterator of the multimap is the identity of its
    record, [None] the past-the-end one.  What the code does out of range (an index the
    vector does not have, erasing through an iterator that names no record, the front of
    an empty list) is undefined. *)

From S2P Require Import Prelude.
From S2P Require Import Multimap.

Local Open Scope Z_scope.

Abbreviation ConnectionInfo := (option nat * option nat)%type.

Record SlotTable : Type := {
  st_mgr : list ConnectionInfo;
  st_records : list (Z * (nat * Z));
  st_free : list Z;
  st_next : nat;
}.

Definition SlotTable_empty : SlotTable := {| st_mgr := []; st_records := []; st_free := []; st_next := 0 |}.

(** The indices [from, from + n), as the loops append them. *)
Definition indices (from n : nat) : list Z := Z.of_nat <$> seq from n.

(** [Init]: [default_container_size] free slots. *)
Definition st_init (default_size : nat) (t : SlotTable) : SlotTable :=
  {| st_mgr := take default_size (st_mgr t) ++ replicate (default_size - length (st_mgr t)) (None, None);
     st_records := st_records t;
     st_free := st_free t ++ indices 0 default_size;
     st_next := st_next t |}.

Definition st_clear (t : SlotTable) : SlotTable :=
  {| st_mgr := []; st_records := []; st_free := []; st_next := st_next t |}.

(** [AttachEndpointImpl]: no slot is free and no more are allowed. *)
Definition st_full (max_size : Z) (t : SlotTable) : bool :=
  match st_free t with [] => max_size <=? Z.of_nat (length (st_mgr t)) | _ => false end.

(** ... the table doubles when no slot is free, up to the maximum. *)
Definition st_expand (max_size : Z) (t : SlotTable) : SlotTable :=
  match st_free t with
  | [] =>
      let count := length (st_mgr t) in
      let expand := if Z.of_nat count * 2 <? max_size then (count * 2)%nat else Z.to_nat max_size in
      {| st_mgr := take expand (st_mgr t) ++ replicate (expand - count) (None, None);
         st_records := st_records t;
         st_free := indices count (expand - count);
         st_next := st_next t |}
  | _ => t
  end.

(** ... the oldest free index. *)
Definition st_pop_free (t : SlotTable) : outcome (Z * SlotTable) :=
  match st_free t with
  | [] => Undef
  | index :: free =>
      Ret (index, {| st_mgr := st_mgr t; st_records := st_records t; st_free := free; st_next := st_next t |})
  end.

(** [_mgr[index]]. *)
Definition st_slot (index : Z) (t : SlotTable) : outcome ConnectionInfo :=
  match st_mgr t !! Z.to_nat index with Some s => Ret s | None => Undef end.

Definition st_set_slot (index : Z) (s : ConnectionInfo) (t : SlotTable) : SlotTable :=
  {| st_mgr := <[Z.to_nat index := s]> (st_mgr t); st_records := st_records t;
     st_free := st_free t; st_next := st_next t |}.

(** [_mgr[index].first = con]. *)
Definition st_set_first (index : Z) (con : option nat) (t : SlotTable) : outcome SlotTable :=
  match st_slot index t with
  | Ret (_, it) => Ret (st_set_slot index (con, it) t)
  | _ => Undef
  end.

(** [_mgr[index].second = _timeout_records.insert({deadline, index})]. *)
Definition st_insert_record (deadline index : Z) (t : SlotTable) : outcome SlotTable :=
  match st_slot index t with
  | Ret (con, _) =>
      Ret {| st_mgr := <[Z.to_nat index := (con, Some (st_next t))]> (st_mgr t);
             st_records := mm_insert deadline (st_next t, index) (st_records t);
             st_free := st_free t; st_next := S (st_next t) |}
  | _ => Undef
  end.

(** [_timeout_records.erase(it)]. *)
Definition st_erase_record (it : option nat) (t : SlotTable) : outcome SlotTable :=
  match it with
  | None => Undef
  | Some it =>
      match mm_erase (fun v => (v.1 =? it)%nat) (st_records t) with
      | None => Undef
      | Some records =>
          Ret {| st_mgr := st_mgr t; st_records := records; st_free := st_free t; st_next := st_next t |}
      end
  end.

(** What [DeleteConnection] and the timeout check do to an occupied slot. *)
Definition st_release (index : Z) (t : SlotTable) : outcome SlotTable :=
  match st_slot index t with
  | Ret (_, it) =>
      match st_erase_record it t with
      | Ret t => Ret {| st_mgr := <[Z.to_nat index := (None, None)]> (st_mgr t); st_records := st_records t;
                        st_free := st_free t ++ [index]; st_next := st_next t |}
      | _ => Undef
      end
  | _ => Undef
  end.

(** [RefreshTime] on an occupied slot. *)
Definition st_refresh (deadline index : Z) (t : SlotTable) : outcome SlotTable :=
  match st_slot index t with
  | Ret (_, it) =>
      match st_erase_record it t with
      | Ret t => st_insert_record deadline index t
      | _ => Undef
      end
  | _ => Undef
  end.

(** The records from an iterator on. *)
Fixpoint st_from (it : nat) (l : list (Z * (nat * Z))) : option (list (Z * (nat * Z))) :=
  match l with
  | [] => None
  | (d, (i, x)) :: l' => if (i =? it)%nat then Some l else st_from it l'
  end.

Definition record_id (e : Z * (nat * Z)) : nat := e.2.1.
Definition st_begin (l : list (Z * (nat * Z))) : option nat := record_id <$> head l.

(** ** Invariant *)

(** Slot [i] holds connection [c], whose record [it] has deadline [d]. *)
Definition st_holds (t : SlotTable) (i : nat) (c it : nat) (d : Z) : Prop :=
  st_mgr t !! i = Some (Some c, Some it) /\ (d, (it, Z.of_nat i)) ∈ st_records t.

(** Each slot is either free, once, with nothing in it, or holds a connection with
    exactly one record; records are sorted, and each is that of its slot. *)
Record slots_wf (t : SlotTable) : Prop := {
  wf_free_nodup : NoDup (st_free t);
  wf_free i : i ∈ st_free t <-> exists n, i = Z.of_nat n /\ st_mgr t !! n = Some (None, None);
  wf_slot n s : st_mgr t !! n = Some s -> s = (None, None) \/ exists c it d, s = (Some c, Some it) /\ (d, (it, Z.of_nat n)) ∈ st_records t;
  wf_record d it i : (d, (it, i)) ∈ st_records t -> exists n c, i = Z.of_nat n /\ st_mgr t !! n = Some (Some c, Some it);
  wf_ids : NoDup (record_id <$> st_records t);
  wf_next : Forall (fun e => (record_id e < st_next t)%nat) (st_records t);
  wf_sorted : mm_sorted (st_records t);
}.

Lemma elem_of_indices i from n : i ∈ indices from n <-> exists m, i = Z.of_nat m /\ (from <= m < from + n)%nat.
Proof.
  unfold indices. rewrite list_elem_of_fmap. split.
  - intros (m & -> & Hm%elem_of_seq). by exists m.
  - intros (m & -> & Hm). exists m. split; [done|]. by apply elem_of_seq.
Qed.

Lemma NoDup_indices from n : NoDup (indices from n).
Proof. apply NoDup_fmap_2; [|apply NoDup_seq]. intros a b. lia. Qed.

Lemma SlotTable_empty_wf : slots_wf SlotTable_empty.
Proof.
  split; cbn; [constructor| | | |constructor|constructor|constructor].
  - intros i. split; [by intros ?%elem_of_nil|]. intros (n & _ & Hn). by rewrite lookup_nil in Hn.
  - intros n s Hn. by rewrite lookup_nil in Hn.
  - by intros d it i ?%elem_of_nil.
Qed.

(** Adding free slots at the end. *)
Lemma st_grow_wf t n :
  slots_wf t ->
  slots_wf {| st_mgr := st_mgr t ++ replicate n (None, None); st_records := st_records t;
              st_free := st_free t ++ indices (length (st_mgr t)) n; st_next := st_next t |}.
Proof.
  intros [H1 H2 H3 H4 H5 H6 H7]. split; cbn; try done.
  - apply NoDup_app. split; [done|]. split; [|apply NoDup_indices].
    intros i (m & -> & Hm)%H2 (m' & E & Hm')%elem_of_indices.
    apply lookup_lt_Some in Hm. lia.
  - intros i. rewrite elem_of_app, H2, elem_of_indices. split.
    + intros [(m & -> & Hm)|(m & -> & Hm)]; exists m; (split; [done|]).
      * by apply lookup_app_l_Some.
      * rewrite lookup_app_r by lia. apply lookup_replicate. split; [done|lia].
    + intros (m & -> & Hm). destruct (decide (m < length (st_mgr t))%nat) as [Hl|Hl].
      * left. exists m. by rewrite lookup_app_l in Hm by done.
      * right. exists m. split; [done|]. apply lookup_lt_Some in Hm. rewrite length_app, length_replicate in Hm. lia.
  - intros m s Hm. destruct (decide (m < length (st_mgr t))%nat) as [Hl|Hl].
    + rewrite lookup_app_l in Hm by done. by apply H3.
    + rewrite lookup_app_r in Hm by lia. apply lookup_replicate in Hm as [-> _]. by left.
  - intros d it i (m & c & -> & Hm)%H4. exists m, c. split; [done|]. by apply lookup_app_l_Some.
Qed.

Lemma st_init_wf n : slots_wf (st_init n SlotTable_empty).
Proof.
  pose proof (st_grow_wf _ n SlotTable_empty_wf) as Hw. unfold st_init. cbn in *.
  by rewrite take_nil, Nat.sub_0_r.
Qed.

(** ** The operations on a well-formed table *)

(** The connection and the deadline of slot [n]. *)
Definition st_conn (t : SlotTable) (n : nat) : option nat := st_mgr t !! n ≫= fst.

Lemma st_conn_Some t n c :
  slots_wf t -> st_conn t n = Some c <-> exists it d, st_holds t n c it d.
Proof.
  intros Hw. unfold st_conn, st_holds. split.
  - destruct (st_mgr t !! n) as [s|] eqn:E; [|done]. cbn. intros Hs.
    destruct (wf_slot t Hw n s E) as [->|(c' & it & d & -> & Hr)]; [done|]. injection Hs as ->. eauto.
  - intros (it & d & -> & _). done.
Qed.

(** Growing. *)
Lemma st_expand_spec max t :
  slots_wf t -> st_full max t = false -> 0 < Z.of_nat (length (st_mgr t)) ->
  slots_wf (st_expand max t) /\ st_free (st_expand max t) <> [] /\
  (forall n, st_conn (st_expand max t) n = st_conn t n) /\
  st_records (st_expand max t) = st_records t /\
  (length (st_mgr t) <= length (st_mgr (st_expand max t)))%nat /\
  (Z.of_nat (length (st_mgr t)) <= max -> Z.of_nat (length (st_mgr (st_expand max t))) <= max).
Proof.
  intros Hw Hf Hl. unfold st_expand, st_full in *. destruct (st_free t) as [|i free] eqn:Ef; [|by rewrite Ef].
  apply Z.leb_gt in Hf. set (expand := if _ <? _ then _ else _).
  assert (length (st_mgr t) < expand)%nat as Hexp by (unfold expand; destruct (Z.ltb_spec (Z.of_nat (length (st_mgr t)) * 2) max); lia).
  pose proof (st_grow_wf t (expand - length (st_mgr t)) Hw) as Hg. rewrite Ef in Hg. cbn [app] in Hg.
  rewrite take_ge by lia. split; [done|]. cbn. split.
  { destruct (expand - length (st_mgr t))%nat eqn:E; [lia|]. done. }
  split; [|split; [done|]].
  - intros n. unfold st_conn. cbn. destruct (decide (n < length (st_mgr t))%nat).
    + by rewrite lookup_app_l by done.
    + rewrite lookup_app_r by lia. rewrite (lookup_ge_None_2 (st_mgr t)) by lia.
      destruct (replicate _ _ !! _) as [s|] eqn:E; [|done]. by apply lookup_replicate in E as [-> _].
  - rewrite length_app, length_replicate. split; [lia|].
    unfold expand. destruct (Z.ltb_spec (Z.of_nat (length (st_mgr t)) * 2) max); lia.
Qed.

(** Putting a connection into the oldest free slot, as [AttachEndpointImpl] does. *)
Definition st_attach (con : nat) (deadline : Z) (t : SlotTable) : outcome (Z * SlotTable) :=
  match st_pop_free t with
  | Ret (index, t) =>
      match st_set_first index (Some con) t with
      | Ret t => match st_insert_record deadline index t with Ret t => Ret (index, t) | _ => Undef end
      | _ => Undef
      end
  | _ => Undef
  end.

Lemma st_attach_spec con deadline t i free :
  slots_wf t -> st_free t = i :: free ->
  exists n t', i = Z.of_nat n /\ st_conn t n = None /\ (n < length (st_mgr t))%nat /\
    st_attach con deadline t = Ret (i, t') /\ slots_wf t' /\
    st_mgr t' = <[n := (Some con, Some (st_next t))]> (st_mgr t) /\
    st_free t' = free /\ st_records t' = mm_insert deadline (st_next t, i) (st_records t).
Proof.
  intros [H1 H2 H3 H4 H5 H6 H7] Ef.
  destruct (proj1 (H2 i) ltac:(rewrite Ef; by left)) as (n & -> & Hn).
  pose proof (lookup_lt_Some _ _ _ Hn) as Hlt.
  exists n. eexists. split; [done|]. split; [unfold st_conn; by rewrite Hn|]. split; [done|]. split.
  { unfold st_attach, st_pop_free, st_set_first, st_insert_record, st_slot, st_set_slot. rewrite Ef. cbn.
    rewrite Nat2Z.id, Hn. cbn. rewrite ?Nat2Z.id, list_lookup_insert_eq, list_insert_insert_eq by done. done. }
  rewrite Ef in *. apply NoDup_cons in H1 as [Hni Hnd].
  split; [|done]. split; cbn; try done.
  - intros j. split.
    + intros Hj. destruct (proj1 (H2 j) ltac:(by right)) as (m & -> & Hm). exists m. split; [done|].
      rewrite list_lookup_insert_ne; [done|]. intros ->. done.
    + intros (m & -> & Hm). destruct (decide (m = n)) as [->|Hne].
      { rewrite list_lookup_insert_eq in Hm by done. done. }
      rewrite list_lookup_insert_ne in Hm by done.
      pose proof (proj2 (H2 (Z.of_nat m)) ltac:(by exists m)) as [E|Hin]%elem_of_cons; [lia|done].
  - intros m s Hm. destruct (decide (m = n)) as [->|Hne].
    + rewrite list_lookup_insert_eq in Hm by done. injection Hm as <-. right. exists con, (st_next t), deadline.
      split; [done|]. rewrite mm_insert_perm. by left.
    + rewrite list_lookup_insert_ne in Hm by done. destruct (H3 m s Hm) as [->|(c & it & d & -> & Hd)]; [by left|].
      right. exists c, it, d. split; [done|]. rewrite mm_insert_perm. by right.
  - intros d it j. rewrite mm_insert_perm. intros [[= -> -> ->]|Hin]%elem_of_cons.
    + exists n, con. split; [done|]. by rewrite list_lookup_insert_eq by done.
    + destruct (H4 _ _ _ Hin) as (m & c & -> & Hm). exists m, c. split; [done|].
      rewrite list_lookup_insert_ne; [done|]. intros ->. by rewrite Hn in Hm.
  - rewrite mm_insert_perm. cbn. constructor; [|done]. intros ([d [it j]] & E & Hin)%list_elem_of_fmap.
    rewrite Forall_forall in H6. specialize (H6 _ Hin). unfold record_id in *. cbn in *. lia.
  - rewrite mm_insert_perm. constructor; [unfold record_id; cbn; lia|].
    eapply Forall_impl; [exact H6|]. cbn. intros. lia.
  - by apply mm_insert_sorted.
Qed.

(** Erasing the record of an occupied slot. *)
Lemma erase_spec t d it i :
  slots_wf t -> (d, (it, i)) ∈ st_records t ->
  exists r, mm_erase (fun v => (v.1 =? it)%nat) (st_records t) = Some r /\
    st_records t ≡ₚ (d, (it, i)) :: r /\ mm_sorted r /\ NoDup (record_id <$> r) /\
    (forall e, e ∈ r <-> e ∈ st_records t /\ record_id e <> it).
Proof.
  intros Hw Hin. destruct (mm_erase_is_Some (fun v => (v.1 =? it)%nat) (st_records t) d (it, i) Hin) as [r Er].
  { cbn. apply Nat.eqb_refl. }
  exists r. split; [done|]. destruct (mm_erase_perm _ _ _ Er) as (d0 & [it0 i0] & Hp & Hperm).
  cbn in Hp. apply Nat.eqb_eq in Hp as ->. pose proof (wf_ids t Hw) as Hnd. rewrite Hperm in Hnd.
  cbn in Hnd. apply NoDup_cons in Hnd as [Hni Hnd].
  assert (forall e, e ∈ r -> record_id e <> it) as Hne.
  { intros e He E. apply Hni. apply list_elem_of_fmap. by exists e. }
  assert ((d, (it, i)) = (d0, (it, i0))) as E.
  { rewrite Hperm in Hin. apply elem_of_cons in Hin as [E|Hin]; [done|]. by destruct (Hne _ Hin). }
  injection E as <- <-. split; [done|]. split; [eapply mm_erase_sorted; [done|apply (wf_sorted t Hw)]|].
  split; [done|]. intros e. rewrite Hperm, elem_of_cons. split.
  - intros He. split; [by right|by apply Hne].
  - intros [[->|He] Hid]; [done|done].
Qed.

(** The record of a slot is its own. *)
Lemma holds_unique t n c it d m :
  slots_wf t -> st_holds t n c it d -> forall d', (d', (it, Z.of_nat m)) ∈ st_records t -> m = n /\ d' = d.
Proof.
  intros Hw [Hn Hr] d' Hr'. pose proof (wf_ids t Hw) as Hnd.
  destruct (proj1 (list_elem_of_lookup _ _) Hr) as [a Ha], (proj1 (list_elem_of_lookup _ _) Hr') as [b Hb].
  assert (a = b) as <-.
  { eapply (NoDup_lookup _ a b it Hnd); rewrite list_lookup_fmap, ?Ha, ?Hb; done. }
  rewrite Ha in Hb. injection Hb as -> E. lia.
Qed.

Lemma st_release_spec t n c it d :
  slots_wf t -> st_holds t n c it d ->
  exists t', st_release (Z.of_nat n) t = Ret t' /\ slots_wf t' /\
    st_mgr t' = <[n := (None, None)]> (st_mgr t) /\ st_free t' = st_free t ++ [Z.of_nat n] /\
    st_records t ≡ₚ (d, (it, Z.of_nat n)) :: st_records t' /\
    mm_erase (fun v => (v.1 =? it)%nat) (st_records t) = Some (st_records t').
Proof.
  intros Hw [Hn Hr]. destruct (erase_spec t d it _ Hw Hr) as (r & Er & Hp & Hs & Hnd & Hel).
  pose proof (lookup_lt_Some _ _ _ Hn) as Hlt. pose proof Hw as [H1 H2 H3 H4 H5 H6 H7].
  eexists. split.
  { unfold st_release, st_slot, st_erase_record. rewrite Nat2Z.id, Hn, Er. cbn. done. }
  cbn. split; [|done]. split; cbn; try done.
  - apply NoDup_app. split; [done|]. split; [|apply NoDup_singleton].
    intros j Hj ->%list_elem_of_singleton. apply H2 in Hj as (m & E & Hm).
    assert (m = n) as -> by lia. by rewrite Hn in Hm.
  - intros j. rewrite elem_of_app, H2, list_elem_of_singleton. split.
    + intros [(m & -> & Hm)| ->].
      * exists m. split; [done|]. rewrite list_lookup_insert_ne; [done|]. intros ->. by rewrite Hn in Hm.
      * exists n. by rewrite list_lookup_insert_eq.
    + intros (m & -> & Hm). destruct (decide (m = n)) as [->|Hne]; [by right|]. left. exists m.
      by rewrite list_lookup_insert_ne in Hm.
  - intros m s Hm. destruct (decide (m = n)) as [->|Hne].
    + rewrite list_lookup_insert_eq in Hm by done. injection Hm as <-. by left.
    + rewrite list_lookup_insert_ne in Hm by done. destruct (H3 m s Hm) as [->|(c' & it' & d' & -> & Hd')]; [by left|].
      right. exists c', it', d'. split; [done|]. apply Hel. split; [done|]. unfold record_id. cbn. intros ->.
      by destruct (holds_unique t n c it d m Hw (conj Hn Hr) d' Hd').
  - intros d' it' j [Hin Hid]%Hel. destruct (H4 _ _ _ Hin) as (m & c' & -> & Hm). exists m, c'. split; [done|].
    rewrite list_lookup_insert_ne; [done|]. intros ->. rewrite Hn in Hm. by injection Hm as ->.
  - rewrite Forall_forall in *. intros e [He _]%Hel. by apply H6.
Qed.

(** What the other slots hold stays. *)
Lemma st_release_holds t n c it d t' :
  slots_wf t -> st_holds t n c it d -> st_mgr t' = <[n := (None, None)]> (st_mgr t) ->
  st_records t ≡ₚ (d, (it, Z.of_nat n)) :: st_records t' ->
  forall m c' it' d', st_holds t' m c' it' d' <-> st_holds t m c' it' d' /\ m <> n.
Proof.
  intros Hw [Hn Hr] Em Hp m c' it' d'. unfold st_holds. rewrite Em, Hp. split.
  - intros [Hm Hin]. destruct (decide (m = n)) as [->|Hne].
    + by rewrite list_lookup_insert_eq in Hm by (by eapply lookup_lt_Some).
    + rewrite list_lookup_insert_ne in Hm by done. split; [|done]. split; [done|]. by right.
  - intros [[Hm Hin] Hne]. rewrite list_lookup_insert_ne by done. split; [done|].
    apply elem_of_cons in Hin as [E|Hin]; [|done]. injection E as -> -> E. by apply Nat2Z.inj in E.
Qed.

(** The records that stay, and the one that is new. *)
Lemma st_release_records index t t' e : st_release index t = Ret t' -> e ∈ st_records t' -> e ∈ st_records t.
Proof.
  unfold st_release, st_erase_record. destruct (st_slot index t) as [[? [it|]]| | |]; try done.
  destruct (mm_erase _ _) as [r|] eqn:Er; [|done]. intros [= <-]. cbn. intros He.
  destruct (mm_erase_perm _ _ _ Er) as (d & v & _ & ->). by right.
Qed.

Lemma st_refresh_records deadline index t t' e :
  st_refresh deadline index t = Ret t' -> e ∈ st_records t' -> e.1 = deadline \/ e ∈ st_records t.
Proof.
  unfold st_refresh, st_erase_record. destruct (st_slot index t) as [[? [it|]]| | |]; try done.
  destruct (mm_erase _ _) as [r|] eqn:Er; [|done]. unfold st_insert_record.
  destruct (st_slot index _) as [[? ?]| | |]; try done. intros [= <-]. cbn. rewrite mm_insert_perm.
  intros [->|He]%elem_of_cons; [by left|right]. destruct (mm_erase_perm _ _ _ Er) as (d & v & _ & ->). by right.
Qed.

Lemma st_refresh_spec t n c it d d' :
  slots_wf t -> st_holds t n c it d ->
  exists t', st_refresh d' (Z.of_nat n) t = Ret t' /\ slots_wf t' /\
    st_mgr t' = <[n := (Some c, Some (st_next t))]> (st_mgr t) /\ st_free t' = st_free t /\
    st_holds t' n c (st_next t) d' /\
    (forall m c' it' d0, m <> n -> st_holds t' m c' it' d0 <-> st_holds t m c' it' d0).
Proof.
  intros Hw [Hn Hr]. destruct (erase_spec t d it _ Hw Hr) as (r & Er & Hp & Hs & Hnd & Hel).
  pose proof (lookup_lt_Some _ _ _ Hn) as Hlt. pose proof Hw as [H1 H2 H3 H4 H5 H6 H7].
  eexists. split.
  { unfold st_refresh, st_insert_record, st_slot, st_erase_record. rewrite Nat2Z.id, Hn, Er. cbn.
    rewrite ?Nat2Z.id, Hn. done. }
  assert (forall m c' it' d0, m <> n ->
    (<[n := (Some c, Some (st_next t))]> (st_mgr t) !! m = Some (Some c', Some it') /\
     (d0, (it', Z.of_nat m)) ∈ mm_insert d' (st_next t, Z.of_nat n) r) <-> st_holds t m c' it' d0) as Hoth.
  { intros m c' it' d0 Hne. unfold st_holds. rewrite list_lookup_insert_ne by done.
    rewrite mm_insert_perm, elem_of_cons, Hel. split.
    - intros [Hm [[= _ _ E]|[Hin _]]]; [lia|done].
    - intros [Hm Hin]. split; [done|]. right. split; [done|]. unfold record_id. cbn. intros ->.
      by destruct (holds_unique t n c it d m Hw (conj Hn Hr) d0 Hin). }
  split; [|split; [done|split; [done|split; [|exact Hoth]]]].
  2: { split; cbn; [by rewrite list_lookup_insert_eq|]. rewrite mm_insert_perm. by left. }
  split; cbn; try done.
  - intros j. rewrite H2. split; intros (m & -> & Hm); exists m; (split; [done|]).
    + rewrite list_lookup_insert_ne; [done|]. intros ->. by rewrite Hn in Hm.
    + destruct (decide (m = n)) as [->|Hne]; [by rewrite list_lookup_insert_eq in Hm|].
      by rewrite list_lookup_insert_ne in Hm.
  - intros m s Hm. destruct (decide (m = n)) as [->|Hne].
    + rewrite list_lookup_insert_eq in Hm by done. injection Hm as <-. right. exists c, (st_next t), d'.
      split; [done|]. rewrite mm_insert_perm. by left.
    + pose proof Hm as Hm'. rewrite list_lookup_insert_ne in Hm' by done.
      destruct (H3 m s Hm') as [->|(c' & it' & d0 & -> & Hd0)]; [by left|].
      right. exists c', it', d0. split; [done|]. apply (Hoth m c' it' d0 Hne). done.
  - intros d0 it' j. rewrite mm_insert_perm. intros [[= -> -> ->]|[Hin Hid]%Hel]%elem_of_cons.
    + exists n, c. split; [done|]. by rewrite list_lookup_insert_eq.
    + destruct (H4 _ _ _ Hin) as (m & c' & -> & Hm). exists m, c'. split; [done|].
      rewrite list_lookup_insert_ne; [done|]. intros ->. rewrite Hn in Hm. by injection Hm as ->.
  - rewrite mm_insert_perm. cbn. constructor; [|done]. intros ([d0 [it0 j]] & E & [Hin _]%Hel)%list_elem_of_fmap.
    rewrite Forall_forall in H6. specialize (H6 _ Hin). unfold record_id in *. cbn in *. lia.
  - rewrite mm_insert_perm. constructor; [unfold record_id; cbn; lia|]. rewrite Forall_forall in *.
    intros e [He _]%Hel. specialize (H6 e He). lia.
  - by apply mm_insert_sorted.
Qed.

(** ** The operations of the container, and what they mean *)

(** The slot part of [AttachEndpointImpl]: the index, or [None] when refused. *)
Definition st_alloc (max_size : Z) (con : nat) (deadline : Z) (t : SlotTable) : outcome (option Z * SlotTable) :=
  if st_full max_size t then Ret (None, t)
  else
    match st_attach con deadline (st_expand max_size t) with
    | Ret (index, t) => Ret (Some index, t)
    | _ => Undef
    end.

(** [DeleteConnection]: the connection that was dropped. *)
Definition st_delete (index : Z) (t : SlotTable) : outcome (option nat * SlotTable) :=
  match st_slot index t with
  | Ret (None, _) => Ret (None, t)
  | Ret (Some con, _) => match st_release index t with Ret t => Ret (Some con, t) | _ => Undef end
  | _ => Undef
  end.

(** [RefreshTime]. *)
Definition st_touch (deadline index : Z) (t : SlotTable) : outcome SlotTable :=
  match st_slot index t with
  | Ret (None, _) => Ret t
  | Ret (Some _, _) => st_refresh deadline index t
  | _ => Undef
  end.

(** The table as a map from indices to connections and deadlines. *)
Definition is_map (t : SlotTable) (m : gmap nat (nat * Z)) : Prop :=
  forall n c d, m !! n = Some (c, d) <-> exists it, st_holds t n c it d.

Lemma is_map_None t m n : slots_wf t -> is_map t m -> m !! n = None <-> st_conn t n = None.
Proof.
  intros Hw Hm. split; intros Hn.
  - destruct (st_conn t n) as [c|] eqn:E; [|done]. apply st_conn_Some in E as (it & d & Hh); [|done].
    rewrite (proj2 (Hm n c d)) in Hn by eauto. done.
  - destruct (m !! n) as [[c d]|] eqn:E; [|done]. apply Hm in E as (it & [Hs _]).
    unfold st_conn in Hn. by rewrite Hs in Hn.
Qed.

Lemma st_slot_in_range t n :
  slots_wf t -> (n < length (st_mgr t))%nat ->
  (st_slot (Z.of_nat n) t = Ret (None, None) /\ st_conn t n = None) \/
  exists c it d, st_slot (Z.of_nat n) t = Ret (Some c, Some it) /\ st_holds t n c it d.
Proof.
  intros Hw Hn. apply lookup_lt_is_Some in Hn as [s Hs]. unfold st_slot, st_conn, st_holds. rewrite Nat2Z.id, Hs.
  destruct (wf_slot t Hw n s Hs) as [->|(c & it & d & -> & Hr)]; [by left|]. right. by exists c, it, d.
Qed.

Lemma holds_fun t n c c' it it' d d' :
  slots_wf t -> st_holds t n c it d -> st_holds t n c' it' d' -> c' = c /\ it' = it /\ d' = d.
Proof.
  intros Hw H1 H2. pose proof (proj1 H1) as E1. pose proof (proj1 H2) as E2. rewrite E1 in E2. injection E2 as <- <-.
  split; [done|]. split; [done|]. by destruct (holds_unique t n c it d n Hw H1 d' (proj2 H2)).
Qed.

(** A table with the same records and connections holds the same. *)
Lemma holds_ext t t1 n c it d :
  slots_wf t -> slots_wf t1 -> (forall k, st_conn t1 k = st_conn t k) -> st_records t1 = st_records t ->
  st_holds t n c it d -> st_holds t1 n c it d.
Proof.
  intros Hw Hw1 Hc Hr [Hs Hd]. split; [|by rewrite Hr]. rewrite <- Hr in Hd.
  destruct (wf_record t1 Hw1 _ _ _ Hd) as (k & c2 & E & Hk). assert (k = n) as -> by lia. rewrite Hk.
  pose proof (Hc n) as Hn. unfold st_conn in Hn. rewrite Hk, Hs in Hn. cbn in Hn. congruence.
Qed.

Lemma st_expand_map max t m :
  slots_wf t -> is_map t m -> st_full max t = false -> 0 < Z.of_nat (length (st_mgr t)) ->
  is_map (st_expand max t) m.
Proof.
  intros Hw Hm Hf Hl n c d. destruct (st_expand_spec max t Hw Hf Hl) as (Hw1 & _ & Hc & Hr & _).
  rewrite (Hm n c d). split; intros (it & Hh); exists it.
  - by apply (holds_ext t).
  - by apply (holds_ext (st_expand max t)).
Qed.

Lemma st_attach_map con deadline t m n t' :
  slots_wf t' -> is_map t m -> (n < length (st_mgr t))%nat ->
  st_mgr t' = <[n := (Some con, Some (st_next t))]> (st_mgr t) ->
  st_records t' = mm_insert deadline (st_next t, Z.of_nat n) (st_records t) ->
  is_map t' (<[n := (con, deadline)]> m).
Proof.
  intros Hw' Hm Hn Emgr Erec k c d. destruct (decide (k = n)) as [->|Hne].
  - assert (st_holds t' n con (st_next t) deadline) as Hh'.
    { split; [by rewrite Emgr, list_lookup_insert_eq|]. rewrite Erec, mm_insert_perm. by left. }
    rewrite lookup_insert_eq. split; [intros [= <- <-]; eauto|]. intros (it & Hh).
    by destruct (holds_fun t' n _ _ _ _ _ _ Hw' Hh' Hh) as (-> & _ & ->).
  - rewrite lookup_insert_ne by done. rewrite (Hm k c d). unfold st_holds.
    rewrite Emgr, Erec, list_lookup_insert_ne by done. split; intros (it & Hs & Hd); exists it; (split; [done|]).
    + rewrite mm_insert_perm. by right.
    + rewrite mm_insert_perm in Hd. apply elem_of_cons in Hd as [[= _ _ E]|Hd]; [lia|done].
Qed.

Lemma st_full_spec max t m :
  slots_wf t -> is_map t m -> st_full max t = true -> forall n, Z.of_nat n < max -> is_Some (m !! n).
Proof.
  intros Hw Hm Ef n Hn. unfold st_full in Ef. destruct (st_free t) eqn:Efr; [|done]. apply Z.leb_le in Ef.
  destruct (m !! n) eqn:E; [by eexists|]. apply (is_map_None t m n Hw Hm) in E. exfalso.
  destruct (st_slot_in_range t n Hw ltac:(lia)) as [[Hs _]|(c & it & d & _ & [Hh _])].
  - unfold st_slot in Hs. rewrite Nat2Z.id in Hs.
    assert (Z.of_nat n ∈ st_free t) as Hin.
    { apply (wf_free t Hw). exists n. split; [done|]. destruct (st_mgr t !! n); [by injection Hs as ->|done]. }
    rewrite Efr in Hin. by inversion Hin.
  - unfold st_conn in E. by rewrite Hh in E.
Qed.

Lemma st_alloc_spec max con deadline t m :
  slots_wf t -> is_map t m -> 0 < Z.of_nat (length (st_mgr t)) <= max ->
  exists r t', st_alloc max con deadline t = Ret (r, t') /\ slots_wf t' /\
    0 < Z.of_nat (length (st_mgr t')) <= max /\ (length (st_mgr t) <= length (st_mgr t'))%nat /\
    match r with
    | Some i => exists n, i = Z.of_nat n /\ Z.of_nat n < max /\ m !! n = None /\ is_map t' (<[n := (con, deadline)]> m)
    | None => is_map t' m /\ forall n, Z.of_nat n < max -> is_Some (m !! n)
    end.
Proof.
  intros Hw Hm Hl. unfold st_alloc. destruct (st_full max t) eqn:Ef.
  { exists None, t. do 5 (split; [done|]). by apply (st_full_spec max t). }
  destruct (st_expand_spec max t Hw Ef ltac:(lia)) as (Hw1 & Hne & Hc1 & Hr1 & Hle & Hmax).
  pose proof (st_expand_map max t m Hw Hm Ef ltac:(lia)) as Hm1.
  set (t1 := st_expand max t) in *. destruct (st_free t1) as [|i free] eqn:Efr; [done|].
  destruct (st_attach_spec con deadline t1 i free Hw1 Efr) as (n & t' & -> & Hn & Hlt & Ea & Hw' & Emgr & Efree & Erec).
  rewrite Ea. exists (Some (Z.of_nat n)), t'. split; [done|]. split; [done|].
  rewrite Emgr, length_insert. split; [lia|]. split; [lia|].
  exists n. split; [done|]. split; [lia|]. split; [by apply (is_map_None t1 m n Hw1 Hm1)|].
  by apply (st_attach_map _ _ t1).
Qed.

Lemma st_delete_spec n t m :
  slots_wf t -> is_map t m -> (n < length (st_mgr t))%nat ->
  exists t', st_delete (Z.of_nat n) t = Ret (fst <$> m !! n, t') /\ slots_wf t' /\
    length (st_mgr t') = length (st_mgr t) /\ is_map t' (delete n m).
Proof.
  intros Hw Hm Hn. unfold st_delete. destruct (st_slot_in_range t n Hw Hn) as [[-> Hc]|(c & it & d & -> & Hh)].
  { apply (is_map_None t m n Hw Hm) in Hc. rewrite Hc. exists t. rewrite delete_id by done. done. }
  assert (m !! n = Some (c, d)) as Emn by (apply Hm; eauto). rewrite Emn.
  destruct (st_release_spec t n c it d Hw Hh) as (t' & -> & Hw' & Emgr & _ & Hp & Er). exists t'. split; [done|].
  split; [done|]. split; [by rewrite Emgr, length_insert|].
  destruct (erase_spec t d it _ Hw (proj2 Hh)) as (r & Er' & _ & _ & _ & Hel).
  rewrite Er in Er'. injection Er' as <-.
  intros k c' d'. destruct (decide (k = n)) as [->|Hne].
  - rewrite lookup_delete_eq. split; [done|]. intros (it' & Hs & _). rewrite Emgr, list_lookup_insert_eq in Hs by done. done.
  - rewrite lookup_delete_ne by done. rewrite (Hm k c' d'). unfold st_holds. rewrite Emgr, list_lookup_insert_ne by done.
    split; intros (it' & Hs & Hd); exists it'; (split; [done|]); apply Hel in Hd || apply Hel; [|by destruct Hd].
    split; [done|]. unfold record_id. cbn. intros ->. by destruct (holds_unique t n c it d k Hw Hh d' Hd).
Qed.

Lemma st_touch_spec n d' t m :
  slots_wf t -> is_map t m -> (n < length (st_mgr t))%nat ->
  exists t', st_touch d' (Z.of_nat n) t = Ret t' /\ slots_wf t' /\
    length (st_mgr t') = length (st_mgr t) /\ is_map t' (alter (fun x => (x.1, d')) n m).
Proof.
  intros Hw Hm Hn. unfold st_touch. destruct (st_slot_in_range t n Hw Hn) as [[-> Hc]|(c & it & d & -> & Hh)].
  { apply (is_map_None t m n Hw Hm) in Hc. exists t. rewrite alter_id; [done|]. intros x Hx. by rewrite Hc in Hx. }
  assert (m !! n = Some (c, d)) as Emn by (apply Hm; eauto).
  destruct (st_refresh_spec t n c it d d' Hw Hh) as (t' & -> & Hw' & Emgr & _ & Hh' & Hoth). exists t'. split; [done|].
  split; [done|]. split; [by rewrite Emgr, length_insert|].
  intros k c' d0. destruct (decide (k = n)) as [->|Hne].
  - rewrite lookup_alter_eq, Emn. cbn. split; [intros [= <- <-]; eauto|]. intros (it' & Hh2).
    by destruct (holds_fun t' n _ _ _ _ _ _ Hw' Hh' Hh2) as (-> & _ & ->).
  - rewrite lookup_alter_ne by done. rewrite (Hm k c' d0). split; intros (it' & Hh2); exists it'; by apply Hoth.
Qed.

(** ** Refinement *)

Inductive slot_op : Type :=
  | SlotAlloc (con : nat) (deadline : Z)
  | SlotDelete (n : nat)
  | SlotTouch (n : nat) (deadline : Z).

Definition slot_step (max_size : Z) (op : slot_op) (t : SlotTable) : outcome (option Z * SlotTable) :=
  match op with
  | SlotAlloc con deadline => st_alloc max_size con deadline t
  | SlotDelete n =>
      match st_delete (Z.of_nat n) t with Ret (con, t) => Ret (Z.of_nat <$> con, t) | _ => Undef end
  | SlotTouch n deadline =>
      match st_touch deadline (Z.of_nat n) t with Ret t => Ret (None, t) | _ => Undef end
  end.

(** What a map of at most [max_size] connections does. *)
Inductive slot_spec (max_size : Z) : slot_op -> gmap nat (nat * Z) -> option Z -> gmap nat (nat * Z) -> Prop :=
  | spec_alloc con deadline m n :
      Z.of_nat n < max_size -> m !! n = None ->
      slot_spec max_size (SlotAlloc con deadline) m (Some (Z.of_nat n)) (<[n := (con, deadline)]> m)
  | spec_refuse con deadline m :
      (forall n, Z.of_nat n < max_size -> is_Some (m !! n)) ->
      slot_spec max_size (SlotAlloc con deadline) m None m
  | spec_delete n m : slot_spec max_size (SlotDelete n) m (Z.of_nat <$> (fst <$> m !! n)) (delete n m)
  | spec_touch n deadline m :
      slot_spec max_size (SlotTouch n deadline) m None (alter (fun x => (x.1, deadline)) n m).

Definition op_in_range (size : nat) (op : slot_op) : Prop :=
  match op with SlotAlloc _ _ => True | SlotDelete n | SlotTouch n _ => (n < size)%nat end.

(** Operations one after the other, on indices the table has at that time. *)
Inductive slot_run (max_size : Z) : list slot_op -> SlotTable -> list (option Z) -> SlotTable -> Prop :=
  | run_nil t : slot_run max_size [] t [] t
  | run_cons op ops t r t1 rs t2 :
      op_in_range (length (st_mgr t)) op ->
      slot_step max_size op t = Ret (r, t1) -> slot_run max_size ops t1 rs t2 ->
      slot_run max_size (op :: ops) t (r :: rs) t2.

Inductive spec_run (max_size : Z) : list slot_op -> gmap nat (nat * Z) -> list (option Z) -> gmap nat (nat * Z) -> Prop :=
  | srun_nil m : spec_run max_size [] m [] m
  | srun_cons op ops m r m1 rs m2 :
      slot_spec max_size op m r m1 -> spec_run max_size ops m1 rs m2 ->
      spec_run max_size (op :: ops) m (r :: rs) m2.

Lemma slot_step_refines max op t m :
  slots_wf t -> is_map t m -> 0 < Z.of_nat (length (st_mgr t)) <= max ->
  op_in_range (length (st_mgr t)) op ->
  exists r t' m', slot_step max op t = Ret (r, t') /\ slot_spec max op m r m' /\ slots_wf t' /\ is_map t' m' /\
    0 < Z.of_nat (length (st_mgr t')) <= max /\ (length (st_mgr t) <= length (st_mgr t'))%nat.
Proof.
  intros Hw Hm Hl Hop. destruct op as [con d|n|n d]; cbn in Hop; unfold slot_step.
  - destruct (st_alloc_spec max con d t m Hw Hm Hl) as (r & t' & E & Hw' & Hl' & Hle & Hr).
    exists r, t'. destruct r as [i|].
    + destruct Hr as (n & -> & Hn & Hmn & Hm'). eexists. split; [done|]. split; [by constructor|]. done.
    + destruct Hr as [Hm' Hfull]. exists m. split; [done|]. split; [by constructor|]. done.
  - destruct (st_delete_spec n t m Hw Hm Hop) as (t' & -> & Hw' & Hlen & Hm').
    eexists _, t', _. split; [done|]. split; [constructor|]. rewrite Hlen. done.
  - destruct (st_touch_spec n d t m Hw Hm Hop) as (t' & -> & Hw' & Hlen & Hm').
    eexists _, t', _. split; [done|]. split; [constructor|]. rewrite Hlen. done.
Qed.

Lemma slot_run_refines max ops t rs t' :
  slot_run max ops t rs t' -> forall m,
  slots_wf t -> is_map t m -> 0 < Z.of_nat (length (st_mgr t)) <= max ->
  exists m', spec_run max ops m rs m' /\ slots_wf t' /\ is_map t' m' /\ 0 < Z.of_nat (length (st_mgr t')) <= max.
Proof.
  induction 1 as [t|op ops t r t1 rs t2 Hop Hs Hr IH]; intros m Hw Hm Hl.
  { exists m. split; [constructor|]. done. }
  destruct (slot_step_refines max op t m Hw Hm Hl Hop) as (r' & t1' & m1 & Hs' & Hsp & Hw1 & Hm1 & Hl1 & _).
  rewrite Hs in Hs'. injection Hs' as <- <-. destruct (IH m1 Hw1 Hm1 Hl1) as (m2 & Hsr & Hrest).
  exists m2. split; [by econstructor|done].
Qed.

Lemma st_init_map n : is_map (st_init n SlotTable_empty) ∅.
Proof.
  intros k c d. rewrite lookup_empty. split; [done|]. intros (it & Hs & _). cbn in Hs. rewrite take_nil in Hs. cbn in Hs.
  by apply lookup_replicate in Hs as [? _].
Qed.

Lemma st_init_length n : length (st_mgr (st_init n SlotTable_empty)) = n.
Proof. cbn. rewrite take_nil, length_app, length_replicate. cbn. lia. Qed.

(** C10. The slots of a container are a map of at most [max_container_size] connections.
    However the table [Init] builds was used (attaching, deleting, refreshing, in any
    order, on indices it has), the answers it gave are, operation by operation, those of
    the map: an attached connection got an index below the maximum that no other held, and
    was refused only when every index was taken; the table is well formed (every slot free
    exactly once or holding one connection with one timeout record, the records sorted by
    deadline); and every further operation is defined. *)
Theorem slot_table_refines_map (max_size : Z) (default_size : nat) (ops : list slot_op) (rs : list (option Z)) (t : SlotTable) :
  0 < Z.of_nat default_size <= max_size ->
  slot_run max_size ops (st_init default_size SlotTable_empty) rs t ->
  (exists m, spec_run max_size ops ∅ rs m /\ slots_wf t /\ is_map t m) /\
  forall op, op_in_range (length (st_mgr t)) op -> exists r t', slot_step max_size op t = Ret (r, t').
Proof.
  intros Hd Hrun. destruct (slot_run_refines _ _ _ _ _ Hrun ∅) as (m & Hs & Hw & Hm & Hl).
  { apply st_init_wf. } { apply st_init_map. } { by rewrite st_init_length. }
  split; [by exists m|]. intros op Hop.
  destruct (slot_step_refines max_size op t m Hw Hm Hl Hop) as (r & t' & m' & Hs' & _). by exists r, t'.
Qed.

(** Three slots at most, two at first; the fourth connection is refused until one leaves. *)
Definition example_ops : list slot_op :=
  [SlotAlloc 10 500; SlotAlloc 11 400; SlotTouch 0 900; SlotAlloc 12 1; SlotAlloc 13 2; SlotDelete 1; SlotAlloc 14 3].

Definition example_table : SlotTable :=
  {| st_mgr := [(Some 10%nat, Some 2%nat); (Some 14%nat, Some 4%nat); (Some 12%nat, Some 3%nat)];
     st_records := [(1, (3%nat, 2)); (3, (4%nat, 1)); (900, (2%nat, 0))]; st_free := []; st_next := 5 |}.

Lemma slot_table_refines_map_witness :
  let rs := [Some 0; Some 1; None; Some 2; None; Some 11; Some 1] in
  (exists m, spec_run 3 example_ops ∅ rs m /\ slots_wf example_table /\ is_map example_table m) /\
  forall op, op_in_range (length (st_mgr example_table)) op -> exists r t', slot_step 3 op example_table = Ret (r, t').
Proof.
  apply (slot_table_refines_map 3 2).
  - cbn. lia.
  - repeat (eapply run_cons; [cbn; (exact I || lia)|vm_compute; reflexivity|]). apply run_nil.
Defined.

(** A container configured with no slots takes the front of an empty list. *)
Example default_size_zero : st_alloc 8 0 100 (st_init 0 SlotTable_empty) = Undef.
Proof. reflexivity. Qed.
