(* ===== verification/Container.v ===== *)
(** * The container (src/common/container_impl.h, src/common/container_impl.cc; the
      methods of EndpointImpl that go through it, src/common/endpoint_impl.cc)

    The world of a container: the process, the endpoints and connections by address, the
    shared pointers to connections that running calls hold, the container itself, and the
    calls it made on the user's handlers.  Each method is one computation on the world;
    Races.v cuts the event handlers where other threads can run.  The message queue is
    used through its contract (Mpscq.v).  [_cv] and the mutexes have no state here. *)

From S2P Require Import Prelude.
From S2P Require Import Cid.
From S2P Require Import OS.
From S2P Require Import Status.
From S2P Require Import Slice.
From S2P Require Import SliceBuffer.
From S2P Require Import SocketSetting.
From S2P Require Import Endpoint.
From S2P Require Import Epoll.
From S2P Require Import Connection.
From S2P Require Import Time.
From S2P Require Import Thread.
From S2P Require Import PollingThread.
From S2P Require Import Timer.
From S2P Require Import SlotTable.

Local Open Scope Z_scope.

Inductive TcpMessageType : Type :=
  | kRecvAMessage
  | kCloseEvent
  | kHeartbeatEvent
  | kEndpointNotify.

Record TcpMessageNode : Type := {
  mn_type : TcpMessageType;
  mn_ep : nat;
  mn_slice : Slice;
  mn_event : Event;
}.

Definition TcpMessageNode_new (t : TcpMessageType) (ep : nat) (s : Slice) (ev : Event) : TcpMessageNode :=
  {| mn_type := t; mn_ep := ep; mn_slice := s; mn_event := ev |}.

Definition InvalidIndex : Z := u32 (-1).

(** The handlers are given by their presence; the heartbeat handler by its interval. *)
Record ContainerOption : Type := {
  op_mq_consumer_threads : Z;
  op_recv_send_threads : Z;
  op_default_container_size : Z;
  op_max_container_size : Z;
  op_connection_timeoutms : Z;
  op_not_check_connection_timeout : bool;
  op_msg_handler : bool;
  op_proto_handler : bool;
  op_heartbeat_handler : option Z;
  op_closed_handler : bool;
  op_notify_handler : bool;
}.

Record ContainerImpl : Type := {
  ct_shutdown : bool;
  ct_option : ContainerOption;
  ct_mpscq : list TcpMessageNode;
  ct_count : Z;
  ct_mq_threads : list Thread;
  ct_running_threads : nat;
  ct_poll_thread : PollingThread;
  ct_back_thread : PollingThread;
  ct_timer_thread : option Timer;
  ct_slots : SlotTable;
  ct_magic_number : Z;
  ct_last_check_time : Z;
}.

Definition ContainerImpl_new (option : ContainerOption) : ContainerImpl := {|
  ct_shutdown := true;
  ct_option := option;
  ct_mpscq := [];
  ct_count := 0;
  ct_mq_threads := [];
  ct_running_threads := 0;
  ct_poll_thread := PollingThread_new;
  ct_back_thread := PollingThread_new;
  ct_timer_thread := None;
  ct_slots := SlotTable_empty;
  ct_magic_number := 0;
  ct_last_check_time := 0;
|}.

(** Calls on the user's handlers. *)
Inductive handler_call : Type :=
  | OnMessage (ep : nat) (s : Slice)
  | HandleClosed (ep : nat) (ev : Event)
  | OnHeartbeat (ep : nat)
  | HandleNotify (ep : nat).

(** ** Setters *)

Definition ct_with_queue (q : list TcpMessageNode) (count : Z) (c : ContainerImpl) : ContainerImpl := {|
  ct_shutdown := ct_shutdown c; ct_option := ct_option c; ct_mpscq := q; ct_count := count;
  ct_mq_threads := ct_mq_threads c; ct_running_threads := ct_running_threads c;
  ct_poll_thread := ct_poll_thread c; ct_back_thread := ct_back_thread c; ct_timer_thread := ct_timer_thread c;
  ct_slots := ct_slots c; ct_magic_number := ct_magic_number c; ct_last_check_time := ct_last_check_time c |}.

Definition ct_with_slots (s : SlotTable) (c : ContainerImpl) : ContainerImpl := {|
  ct_shutdown := ct_shutdown c; ct_option := ct_option c; ct_mpscq := ct_mpscq c; ct_count := ct_count c;
  ct_mq_threads := ct_mq_threads c; ct_running_threads := ct_running_threads c;
  ct_poll_thread := ct_poll_thread c; ct_back_thread := ct_back_thread c; ct_timer_thread := ct_timer_thread c;
  ct_slots := s; ct_magic_number := ct_magic_number c; ct_last_check_time := ct_last_check_time c |}.

Definition ct_with_threads (sd : bool) (mq : list Thread) (running : nat) (poll back : PollingThread)
    (timer : option Timer) (c : ContainerImpl) : ContainerImpl := {|
  ct_shutdown := sd; ct_option := ct_option c; ct_mpscq := ct_mpscq c; ct_count := ct_count c;
  ct_mq_threads := mq; ct_running_threads := running;
  ct_poll_thread := poll; ct_back_thread := back; ct_timer_thread := timer;
  ct_slots := ct_slots c; ct_magic_number := ct_magic_number c; ct_last_check_time := ct_last_check_time c |}.

Definition ct_with_times (magic last : Z) (c : ContainerImpl) : ContainerImpl := {|
  ct_shutdown := ct_shutdown c; ct_option := ct_option c; ct_mpscq := ct_mpscq c; ct_count := ct_count c;
  ct_mq_threads := ct_mq_threads c; ct_running_threads := ct_running_threads c;
  ct_poll_thread := ct_poll_thread c; ct_back_thread := ct_back_thread c; ct_timer_thread := ct_timer_thread c;
  ct_slots := ct_slots c; ct_magic_number := magic; ct_last_check_time := last |}.

(** ** The world

    [C] is the class of the connections, which is the port's. *)

Record gworld (C K : Type) : Type := {
  w_os : os K;
  w_eps : gmap nat EndpointImpl;
  w_conns : gmap nat C;
  w_held : list nat;
  w_global_counter : Z;
  w_next : nat;
  w_ct : ContainerImpl;
  w_calls : list handler_call;
}.
Arguments Build_gworld {C K} _ _ _ _ _ _ _ _.
Arguments w_os {C K} _.
Arguments w_eps {C K} _.
Arguments w_conns {C K} _.
Arguments w_held {C K} _.
Arguments w_global_counter {C K} _.
Arguments w_next {C K} _.
Arguments w_ct {C K} _.
Arguments w_calls {C K} _.

Abbreviation world := (gworld Connection).

Section World.
Context {C K : Type}.
Implicit Types w : gworld C K.

Definition w_with_os (o : os K) w : gworld C K :=
  {| w_os := o; w_eps := w_eps w; w_conns := w_conns w; w_held := w_held w;
     w_global_counter := w_global_counter w; w_next := w_next w; w_ct := w_ct w; w_calls := w_calls w |}.
Definition w_with_eps (e : gmap nat EndpointImpl) w : gworld C K :=
  {| w_os := w_os w; w_eps := e; w_conns := w_conns w; w_held := w_held w;
     w_global_counter := w_global_counter w; w_next := w_next w; w_ct := w_ct w; w_calls := w_calls w |}.
Definition w_with_conns (c : gmap nat C) (held : list nat) w : gworld C K :=
  {| w_os := w_os w; w_eps := w_eps w; w_conns := c; w_held := held;
     w_global_counter := w_global_counter w; w_next := w_next w; w_ct := w_ct w; w_calls := w_calls w |}.
Definition w_with_ct (c : ContainerImpl) w : gworld C K :=
  {| w_os := w_os w; w_eps := w_eps w; w_conns := w_conns w; w_held := w_held w;
     w_global_counter := w_global_counter w; w_next := w_next w; w_ct := c; w_calls := w_calls w |}.
Definition w_with_slots (s : SlotTable) w : gworld C K := w_with_ct (ct_with_slots s (w_ct w)) w.
Definition w_call (c : handler_call) w : gworld C K :=
  {| w_os := w_os w; w_eps := w_eps w; w_conns := w_conns w; w_held := w_held w;
     w_global_counter := w_global_counter w; w_next := w_next w; w_ct := w_ct w; w_calls := w_calls w ++ [c] |}.

Definition w_slots w : SlotTable := ct_slots (w_ct w).

(** [_mpscq.push], [_count.FetchAdd], [_cv.Signal]. *)
Definition push_message (m : TcpMessageNode) (c : ContainerImpl) : ContainerImpl :=
  ct_with_queue (ct_mpscq c ++ [m]) (u32 (ct_count c + 1)) c.

(** [NotificationTransferService] *)
Definition Container_OnDataReceived (ep : nat) (s : Slice) (c : ContainerImpl) : ContainerImpl :=
  push_message (TcpMessageNode_new kRecvAMessage ep s Event_default) c.

Definition Container_OnClosed (ep : nat) (ev : Event) (c : ContainerImpl) : ContainerImpl :=
  if op_closed_handler (ct_option c)
  then push_message (TcpMessageNode_new kCloseEvent ep Slice_default ev) c
  else c.

Definition Container_OnTimerEvent (ep : nat) (c : ContainerImpl) : ContainerImpl :=
  match op_heartbeat_handler (ct_option c) with
  | Some _ => push_message (TcpMessageNode_new kHeartbeatEvent ep Slice_default Event_default) c
  | None => c
  end.

Definition Container_OnNotify (ep : nat) (c : ContainerImpl) : ContainerImpl :=
  push_message (TcpMessageNode_new kEndpointNotify ep Slice_default Event_default) c.

(** The calls a connection made on its service. *)
Definition serve (ep : nat) (call : service_call) (c : ContainerImpl) : ContainerImpl :=
  match call with
  | CallDataReceived s => Container_OnDataReceived ep s c
  | CallClosed ev => Container_OnClosed ep ev c
  end.

Definition serve_all (ep : nat) (calls : list service_call) (c : ContainerImpl) : ContainerImpl :=
  foldl (fun c call => serve ep call c) c calls.
End World.

(** ** What both ports share *)

Section Shared.
Context {C K : Type} `{Kernel K} `{LibC}.

Definition on_os {A} (m : M (os K) A) : M (gworld C K) A := zoom w_os w_with_os m.
Definition modify_ct (f : ContainerImpl -> ContainerImpl) : M (gworld C K) unit :=
  modify (fun w => w_with_ct (f (w_ct w)) w).

(** A computation on the slots. *)
Definition on_slots {A} (f : SlotTable -> outcome (A * SlotTable)) : M (gworld C K) A := fun w =>
  match f (w_slots w) with
  | Ret (a, t) => Ret (a, w_with_slots t w)
  | Undef => Undef
  | Abort => Abort
  | NoFuel => NoFuel
  end.

(** ** Shared pointers to connections *)

Definition in_slots (c : nat) (t : SlotTable) : bool :=
  existsb (fun s => match s.1 with Some c' => (c' =? c)%nat | None => false end) (st_mgr t).

(** The copy of [_mgr[index].first] is held until [release]. *)
Definition GetConnection (index : Z) : M (gworld C K) (option nat) :=
  obj ← on_slots (fun t => match st_slot index t with Ret s => Ret (s.1, t) | _ => Undef end);
  match obj with
  | None => mret None
  | Some c => _ ← modify (fun w => w_with_conns (w_conns w) (c :: w_held w) w); mret (Some c)
  end.

Definition remove_one (c : nat) (l : list nat) : list nat :=
  match list_find (eq c) l with Some (i, _) => base.delete i l | None => l end.

Definition deadline_now : M (gworld C K) Z :=
  now ← on_os GetCurrentMilliseconds;
  w ← gets id;
  mret (i64 (now + op_connection_timeoutms (ct_option (w_ct w)))).

Definition RefreshTime (index : Z) : M (gworld C K) unit :=
  obj ← on_slots (fun t => match st_slot index t with Ret s => Ret (s.1, t) | _ => Undef end);
  match obj with
  | None => mret tt
  | Some _ =>
      deadline_line ← deadline_now;
      on_slots (fun t => match st_refresh deadline_line index t with Ret t => Ret (tt, t) | _ => Undef end)
  end.

Definition CheckConnectionId (cid : Z) (c : ContainerImpl) : option Z :=
  if cid =? InvalidConnectionId then None
  else if negb (GetMagicNumber cid =? ct_magic_number c) then None
  else
    let idx := GetUserId cid in
    if (idx =? InvalidIndex) || (op_max_container_size (ct_option c) <=? idx) then None
    else Some idx.

Definition SetTimer (index handle_id delay : Z) : M (gworld C K) unit :=
  w ← gets id;
  match ct_timer_thread (w_ct w) with
  | None => mret tt
  | Some t =>
      t ← on_os (Timer_SetTimer index handle_id delay t);
      modify_ct (fun c => ct_with_threads (ct_shutdown c) (ct_mq_threads c) (ct_running_threads c)
                            (ct_poll_thread c) (ct_back_thread c) (Some t) c)
  end.

Definition modify_endpoint (ep : nat) (f : EndpointImpl -> EndpointImpl) : M (gworld C K) unit :=
  modify (fun w => w_with_eps (alter f ep (w_eps w)) w).

(** ** The message queue *)

Definition Dispatch (msg : TcpMessageNode) : M (gworld C K) unit :=
  w ← gets id;
  let option := ct_option (w_ct w) in
  let '(present, call) :=
    match mn_type msg with
    | kRecvAMessage => (op_msg_handler option, OnMessage (mn_ep msg) (mn_slice msg))
    | kCloseEvent => (op_closed_handler option, HandleClosed (mn_ep msg) (mn_event msg))
    | kHeartbeatEvent => (bool_decide (is_Some (op_heartbeat_handler option)), OnHeartbeat (mn_ep msg))
    | kEndpointNotify => (op_notify_handler option, HandleNotify (mn_ep msg))
    end in
  if (present : bool) then modify (w_call call) else undef.

(** One round of [MessageQueueThread]; [blocked] when the pop meets a push in progress.
    False when the thread waits on [_cv]. *)
Definition MessageQueue_round (blocked : bool) : M (gworld C K) bool :=
  w ← gets id;
  if ct_count (w_ct w) =? 0 then mret false
  else
    match ct_mpscq (w_ct w) with
    | msg :: q =>
        if blocked then mret true
        else
          _ ← modify_ct (fun c => ct_with_queue q (u32 (ct_count c - 1)) c);
          _ ← Dispatch msg;
          mret true
    | [] => mret true
    end.

Definition with_timer_thread (t : option Timer) : M (gworld C K) unit :=
  modify_ct (fun c => ct_with_threads (ct_shutdown c) (ct_mq_threads c) (ct_running_threads c) (ct_poll_thread c) (ct_back_thread c) t c).

(** ** Beginning

    [Init] after the polling threads: the timer, the message threads, the slots, the
    times. *)
Definition Container_Init_rest (option : ContainerOption) : M (gworld C K) raptor_error :=
  e ← match op_heartbeat_handler option with
      | Some interval =>
          if 0 <? interval then
            '(e, t) ← on_os (Timer_Init Timer_new);
            _ ← with_timer_thread (Some t); mret e
          else mret RAPTOR_ERROR_NONE
      | None => mret RAPTOR_ERROR_NONE
      end;
  match e with Some _ => mret e | None =>
  '(ts, running) ← on_os (create_threads (Z.to_nat (op_mq_consumer_threads option)));
  _ ← modify_ct (fun c => ct_with_queue (ct_mpscq c) 0
        (ct_with_threads false ts running (ct_poll_thread c) (ct_back_thread c) (ct_timer_thread c) c));
  if (running =? 0)%nat
  then mret (RAPTOR_ERROR_FROM_STATIC_STRING "ContainerImpl: Failed to create mq threads")
  else
    _ ← on_slots (fun t => Ret (tt, st_init (Z.to_nat (op_default_container_size option)) t));
    n ← on_os GetCurrentMilliseconds;
    _ ← modify_ct (ct_with_times (u16 (Z.land (Z.shiftr (Z.quot n 1000) 16) 0xffff)) n);
    mret RAPTOR_ERROR_NONE
  end.

(** [Start] after the polling threads. *)
Definition Container_Start_rest : M (gworld C K) raptor_error :=
  w ← gets id;
  ts ← on_os (start_threads (ct_running_threads (w_ct w)) (ct_mq_threads (w_ct w)));
  _ ← modify_ct (fun c => ct_with_threads (ct_shutdown c) ts (ct_running_threads c)
        (ct_poll_thread c) (ct_back_thread c) (ct_timer_thread c) c);
  _ ← match ct_timer_thread (w_ct w) with
      | Some t => t ← on_os (Timer_Start t); with_timer_thread (Some t)
      | None => mret tt
      end;
  mret RAPTOR_ERROR_NONE.
End Shared.

Section Methods.
Context {K : Type} `{Kernel K} `{LibC}.
(** The user's ProtocolHandler, and the bound on consecutive full reads (Connection.v). *)
Variable OnCheckPackageLength : EndpointImpl -> list cell -> Z.
Variable recv_fuel : nat.

(** Runs a method of connection [c]; what it asked of the service reaches the container. *)
Definition on_conn {A} (c : nat) (m : M (conn_state K) A) : M (world K) A := fun w =>
  match w_conns w !! c with
  | None => Undef
  | Some cn =>
      match w_eps w !! cn_endpoint cn with
      | None => Undef
      | Some ep =>
          match m {| cs_os := w_os w; cs_ep := ep; cs_cn := cn; cs_out := [] |} with
          | Ret (a, s) =>
              Ret (a, w_with_ct (serve_all (cn_endpoint cn) (cs_out s) (w_ct w))
                        (w_with_eps (<[cn_endpoint cn := cs_ep s]> (w_eps w))
                          (w_with_conns (<[c := cs_cn s]> (w_conns w)) (w_held w)
                            (w_with_os (cs_os s) w))))
          | Undef => Undef
          | Abort => Abort
          | NoFuel => NoFuel
          end
      end
  end.

(** A shared pointer to [c] is gone: the last one destroys the connection. *)
Definition drop_connection (c : nat) : M (world K) unit :=
  w ← gets id;
  if bool_decide (c ∈ w_held w) || in_slots c (w_slots w) then mret tt
  else
    _ ← on_conn c Connection_dtor;
    modify (fun w => w_with_conns (base.delete c (w_conns w)) (w_held w) w).

Definition release (c : nat) : M (world K) unit :=
  _ ← modify (fun w => w_with_conns (w_conns w) (remove_one c (w_held w)) w);
  drop_connection c.

Definition DeleteConnection (index : Z) : M (world K) unit :=
  dropped ← on_slots (st_delete index);
  match dropped with
  | None => mret tt
  | Some c => drop_connection c
  end.

(** ** Attaching *)

(** [std::make_shared<Connection>(obj)]: the new connection's address. *)
Definition make_connection (ep : nat) : M (world K) nat := fun w =>
  Ret (w_next w,
    {| w_os := w_os w; w_eps := w_eps w;
       w_conns := <[w_next w := Connection_new (w_global_counter w) ep]> (w_conns w);
       w_held := w_held w;
       w_global_counter := u32 (w_global_counter w + 1); w_next := S (w_next w);
       w_ct := w_ct w; w_calls := w_calls w |}).

Definition AttachEndpointImpl (ep : nat) : M (world K) raptor_error :=
  w ← gets id;
  let option := ct_option (w_ct w) in
  if st_full (op_max_container_size option) (w_slots w) then
    mret (MakeStatusFromFormat (str "The number of connections has exceeded the limit : " ++
                                dec (u32 (op_max_container_size option))))
  else
    obj ← of_option (w_eps w !! ep);
    _ ← on_slots (fun t => Ret (tt, st_expand (op_max_container_size option) t));
    index ← on_slots st_pop_free;
    let listen_port := Endpoint_GetListenPort obj in
    let cid := BuildConnectionId (ct_magic_number (w_ct w)) listen_port index in
    deadline_line ← deadline_now;
    _ ← modify_endpoint ep (fun e => SetContainer true (SetConnection cid e));
    c ← make_connection ep;
    _ ← on_slots (fun t => match st_set_first index (Some c) t with Ret t => Ret (tt, t) | _ => Undef end);
    _ ← on_conn c (modify_cn (SetProtocol (op_proto_handler option)));
    _ ← on_conn c (Connection_Init (pt_epoll (ct_poll_thread (w_ct w))) (pt_epoll (ct_back_thread (w_ct w))));
    _ ← on_slots (fun t => match st_insert_record deadline_line index t with Ret t => Ret (tt, t) | _ => Undef end);
    w ← gets id;
    match ct_timer_thread (w_ct w), op_heartbeat_handler option, w_conns w !! c with
    | Some _, Some interval, Some cn =>
        _ ← SetTimer index (cn_handle_id cn) (u32 interval); mret RAPTOR_ERROR_NONE
    | _, _, _ => mret RAPTOR_ERROR_NONE
    end.

Definition AttachEndpoint (ep : nat) (notify : bool) : M (world K) raptor_error :=
  e ← AttachEndpointImpl ep;
  w ← gets id;
  if negb (bool_decide (is_Some e)) && notify && op_notify_handler (ct_option (w_ct w)) then
    _ ← modify_ct (Container_OnNotify ep); mret e
  else mret e.

(** ** Sending and closing *)

Definition Container_SendMsg (connection_id : Z) (s : Slice) : M (world K) bool :=
  w ← gets id;
  match CheckConnectionId connection_id (w_ct w) with
  | None => mret false
  | Some index =>
      con ← GetConnection index;
      match con with
      | None => mret false
      | Some c => r ← on_conn c (Connection_SendMsg s); _ ← release c; mret r
      end
  end.

Definition CloseEndpoint (ep : nat) (event_notify : bool) : M (world K) unit :=
  w ← gets id;
  obj ← of_option (w_eps w !! ep);
  match CheckConnectionId (ConnectionId obj) (w_ct w) with
  | None => mret tt
  | Some index =>
      con ← GetConnection index;
      match con with
      | None => mret tt
      | Some c =>
          _ ← on_conn c (Connection_Shutdown event_notify Event_default);
          _ ← DeleteConnection index;
          release c
      end
  end.

(** ** Events *)

Definition close_and_delete (c : nat) (index : Z) (err : raptor_error) : M (world K) unit :=
  _ ← on_conn c (Connection_Shutdown true (Event_new kSocketError err));
  DeleteConnection index.

Definition OnErrorEvent (index : Z) (detail : EventDetail) : M (world K) unit :=
  let err := Some (Status_code_msg (ed_error_code detail) (str "ContainerImpl:OnErrorEvent")) in
  con ← GetConnection index;
  match con with
  | None => mret tt
  | Some c => _ ← close_and_delete c index err; release c
  end.

Definition OnRecvEvent (index : Z) (detail : EventDetail) : M (world K) unit :=
  con ← GetConnection index;
  match con with
  | None => mret tt
  | Some c =>
      err ← on_conn c (DoRecvEvent OnCheckPackageLength recv_fuel);
      _ ← match err with
          | None => RefreshTime index
          | Some _ => close_and_delete c index err
          end;
      release c
  end.

Definition OnSendEvent (index : Z) (detail : EventDetail) : M (world K) unit :=
  con ← GetConnection index;
  match con with
  | None => mret tt
  | Some c =>
      err ← on_conn c DoSendEvent;
      _ ← match err with
          | None => RefreshTime index
          | Some _ => close_and_delete c index err
          end;
      release c
  end.

Definition Container_OnEventProcess (detail : EventDetail) : M (world K) unit :=
  w ← gets id;
  match CheckConnectionId (ed_ptr detail) (w_ct w) with
  | None => mret tt
  | Some index =>
      if has (ed_event_type detail) kErrorEvent then OnErrorEvent index detail
      else if has (ed_event_type detail) kRecvEvent then OnRecvEvent index detail
      else if has (ed_event_type detail) kSendEvent then OnSendEvent index detail
      else mret tt
  end.

(** ** Timeouts *)

(** The loop over [_timeout_records] from the iterator [it] on; each round erases a
    record, so as many rounds as records are enough. *)
Fixpoint timeout_loop (fuel : nat) (it : option nat) (current_millseconds : Z) : M (world K) unit :=
  match it, fuel with
  | None, _ => mret tt
  | Some _, O => no_fuel
  | Some it, S fuel =>
      w ← gets id;
      match st_from it (st_records (w_slots w)) with
      | None | Some [] => undef
      | Some ((key, (_, index)) :: rest) =>
          if current_millseconds <? key then mret tt
          else
            slot ← on_slots (fun t => match st_slot index t with Ret s => Ret (s, t) | _ => Undef end);
            c ← of_option slot.1;
            _ ← on_conn c (Connection_Shutdown true
                  (Event_new kConnectionTimeout (RAPTOR_ERROR_FROM_STATIC_STRING "Connection:Heart-beat Timeout")));
            _ ← on_slots (fun t => match st_release index t with Ret t => Ret (tt, t) | _ => Undef end);
            _ ← drop_connection c;
            timeout_loop fuel (st_begin rest) current_millseconds
      end
  end.

Definition Container_OnTimeoutCheck (current_millseconds : Z) : M (world K) unit :=
  w ← gets id;
  if current_millseconds - ct_last_check_time (w_ct w) <? 3000 then mret tt
  else
    _ ← modify_ct (fun c => ct_with_times (ct_magic_number c) current_millseconds c);
    let records := st_records (w_slots w) in
    timeout_loop (length records) (st_begin records) current_millseconds.

Definition Container_OnTimer (tid1 tid2 : Z) : M (world K) unit :=
  conn ← GetConnection tid1;
  match conn with
  | None => mret tt
  | Some c =>
      w ← gets id;
      cn ← of_option (w_conns w !! c);
      online ← on_conn c Connection_IsOnline;
      _ ← (if (cn_handle_id cn =? tid2) && online then
             _ ← modify_ct (Container_OnTimerEvent (cn_endpoint cn));
             interval ← of_option (op_heartbeat_handler (ct_option (w_ct w)));
             SetTimer tid1 tid2 (u32 interval)
           else mret tt);
      release c
  end.

(** ** Life *)

Definition with_poll (p : PollingThread) : M (world K) unit :=
  modify_ct (fun c => ct_with_threads (ct_shutdown c) (ct_mq_threads c) (ct_running_threads c) p (ct_back_thread c) (ct_timer_thread c) c).
Definition with_back (p : PollingThread) : M (world K) unit :=
  modify_ct (fun c => ct_with_threads (ct_shutdown c) (ct_mq_threads c) (ct_running_threads c) (ct_poll_thread c) p (ct_timer_thread c) c).
(** Giving [_poll_thread] or [_back_thread] a new object destroys the one they held; a
    container that was never initialised holds none, which [PollingThread_new] stands
    for: its destructor does nothing. *)
Definition Container_Init : M (world K) raptor_error :=
  w ← gets id;
  let option := ct_option (w_ct w) in
  if negb (ct_shutdown (w_ct w)) then mret (RAPTOR_ERROR_FROM_STATIC_STRING "tcp server already running")
  else
    let half := op_recv_send_threads option / 2 in
    let real_thread := i32 (if half =? 0 then 1 else half) in
    _ ← on_os (PollingThread_dtor (ct_poll_thread (w_ct w)));
    '(e, p) ← on_os (PollingThread_Init real_thread PollingThread_new);
    _ ← with_poll p;
    match e with Some _ => mret e | None =>
    _ ← on_os (PollingThread_dtor (ct_back_thread (w_ct w)));
    '(e, b) ← on_os (PollingThread_Init real_thread PollingThread_new);
    _ ← with_back (EnableTimeoutCheck false b);
    match e with Some _ => mret e | None =>
    _ ← with_poll (EnableTimeoutCheck (negb (op_not_check_connection_timeout option)) p);
    Container_Init_rest option
    end end.

Definition Container_Start : M (world K) raptor_error :=
  w ← gets id;
  '(err, p) ← on_os (PollingThread_Start (ct_poll_thread (w_ct w)));
  _ ← with_poll p;
  match err with
  | Some _ => mret (RAPTOR_ERROR_FROM_STATIC_STRING "ContainerImpl: Failed to start poll thread")
  | None =>
      '(err, b) ← on_os (PollingThread_Start (ct_back_thread (w_ct w)));
      _ ← with_back b;
      match err with
      | Some _ => mret (RAPTOR_ERROR_FROM_STATIC_STRING "ContainerImpl: Failed to start poll thread")
      | None => Container_Start_rest
      end
  end.

(** [obj.first->Shutdown(false); obj.first.reset();] for each slot. *)
Fixpoint shutdown_slots (i n : nat) : M (world K) unit :=
  match n with
  | O => mret tt
  | S n =>
      slot ← on_slots (fun t => match st_slot (Z.of_nat i) t with Ret s => Ret (s, t) | _ => Undef end);
      _ ← match slot.1 with
          | Some c =>
              _ ← on_conn c (Connection_Shutdown false Event_default);
              _ ← on_slots (fun t => Ret (tt, st_set_slot (Z.of_nat i) (None, slot.2) t));
              drop_connection c
          | None => mret tt
          end;
      shutdown_slots (S i) n
  end.

Definition Container_Shutdown : M (world K) unit :=
  w ← gets id;
  if ct_shutdown (w_ct w) then mret tt
  else
    p ← on_os (PollingThread_Shutdown (ct_poll_thread (w_ct w)));
    b ← on_os (PollingThread_Shutdown (ct_back_thread (w_ct w)));
    t ← match ct_timer_thread (w_ct w) with
        | Some t => t ← on_os (Timer_Shutdown t); mret (Some t)
        | None => mret None
        end;
    ts ← on_os (join_threads (ct_running_threads (w_ct w)) (ct_mq_threads (w_ct w)));
    _ ← modify_ct (ct_with_threads true ts (ct_running_threads (w_ct w)) p b t);
    _ ← on_slots (fun t => Ret (tt, {| st_mgr := st_mgr t; st_records := []; st_free := []; st_next := st_next t |}));
    _ ← shutdown_slots 0 (length (st_mgr (w_slots w)));
    _ ← on_slots (fun t => Ret (tt, st_clear t));
    modify_ct (fun c => ct_with_queue [] (u32 (ct_count c - Z.of_nat (length (ct_mpscq c)))) c).

(** ** Endpoints *)

Definition Endpoint_BindWithContainer (ep : nat) (notify : bool) : M (world K) unit :=
  _ ← AttachEndpoint ep notify; mret tt.

Definition Endpoint_SendMsg (ep : nat) (s : Slice) : M (world K) bool :=
  w ← gets id;
  obj ← of_option (w_eps w !! ep);
  if ei_attached obj then Container_SendMsg (ei_connection_id obj) s else mret false.

Definition Endpoint_Close (ep : nat) (notify : bool) : M (world K) bool :=
  w ← gets id;
  obj ← of_option (w_eps w !! ep);
  if ei_attached obj then _ ← CloseEndpoint ep notify; mret true
  else
    _ ← on_os (raptor_set_socket_shutdown (fd_int obj));
    _ ← modify_endpoint ep (SetFd InvalidFd);
    mret true.
End Methods.
