(* ===== verification/Surface.v ===== *)
(** * The public classes (src/surface/endpoint.cc, src/surface/acceptor.cc,
      src/surface/connector.cc, src/surface/container.cc)

    [Endpoint] is a handle on an [EndpointImpl], here its index in the container's
    world; the adaptors own one listener, connector or container, the one of the world.
    The [Create] functions read their options from a [Property] and return the error
    and what [*out] holds. *)

From S2P Require Import Prelude.
From S2P Require Import Slice.
From S2P Require Import SockAddr.
From S2P Require Import Status.
From S2P Require Import Property.
From S2P Require Import OS.
From S2P Require Import SocketSetting.
From S2P Require Import Resolve.
From S2P Require Import Endpoint.
From S2P Require Import Epoll.
From S2P Require Import Thread.
From S2P Require Import PollingThread.
From S2P Require Import Timer.
From S2P Require Import TcpListener.
From S2P Require Import TcpConnector.
From S2P Require Import SlotTable.
From S2P Require Import Container.

Local Open Scope Z_scope.

(** What [*out] is after a call: not written, null, or the new object. *)
Inductive out_ptr : Type := OutUnset | OutNull | OutObject.

#[export] Instance out_ptr_eq_dec : EqDecision out_ptr.
Proof. solve_decision. Defined.

(** ** [Endpoint] *)

Section EndpointHandle.
Context {K : Type} `{Kernel K} `{LibC}.

(** A pointer and a length: the bytes, unless the pointer is null. *)
Abbreviation data_ptr := (option (list cell)).

Definition no_data (data : data_ptr) : bool :=
  match data with None => true | Some d => (length d =? 0)%nat end.

Definition Handle_SendSlice (ep : nat) (s : Slice) : M (world K) bool :=
  if Slice_Empty s then mret false else Endpoint_SendMsg ep s.

(** [EndpointImpl::SendMsg(data, len)] makes the slice. *)
Definition Handle_SendData (ep : nat) (data : data_ptr) : M (world K) bool :=
  if no_data data then mret false else Endpoint_SendMsg ep (Slice_ctor (default [] data)).

(** A method of the [EndpointImpl] that needs no container. *)
Definition on_endpoint {A} (ep : nat) (m : EndpointImpl -> M (os K) A) : M (world K) A :=
  w ← gets id;
  obj ← of_option (w_eps w !! ep);
  on_os (m obj).

Definition Handle_SyncSend (ep : nat) (data : data_ptr) : M (world K) Z :=
  if no_data data then mret 0 else on_endpoint ep (SyncSend (default [] data)).

(** [room] is the length of the buffer, [None] when the pointer is null. *)
Definition Handle_SyncRecv (ep : nat) (room : option Z) : M (world K) (Z * list byte) :=
  match room with
  | Some len => if len =? 0 then mret (0, []) else on_endpoint ep (SyncRecv len)
  | None => mret (0, [])
  end.

Definition Handle_Bind (ep : nat) (notify : bool) : M (world K) unit := Endpoint_BindWithContainer ep notify.
Definition Handle_Close (ep : nat) (notify : bool) : M (world K) unit := _ ← Endpoint_Close ep notify; mret tt.
Definition Handle_SetExtInfo (ep : nat) (info : Z) : M (world K) unit := modify_endpoint ep (SetExtInfo info).

(** The accessors of the object behind the handle. *)
Definition endpoint_field {A} (ep : nat) (f : EndpointImpl -> A) : M (world K) A :=
  w ← gets id;
  obj ← of_option (w_eps w !! ep);
  mret (f obj).

Definition Handle_ConnectionId (ep : nat) : M (world K) Z := endpoint_field ep ConnectionId.
Definition Handle_SocketFd (ep : nat) : M (world K) Z := endpoint_field ep SocketFd.
Definition Handle_GetListenPort (ep : nat) : M (world K) Z := endpoint_field ep Endpoint_GetListenPort.
Definition Handle_PeerString (ep : nat) : M (world K) (list byte) := endpoint_field ep PeerString.
Definition Handle_LocalIp (ep : nat) : M (world K) (list byte) := endpoint_field ep LocalIp.
Definition Handle_LocalPort (ep : nat) : M (world K) Z := endpoint_field ep LocalPort.
Definition Handle_RemoteIp (ep : nat) : M (world K) (list byte) := endpoint_field ep RemoteIp.
Definition Handle_RemotePort (ep : nat) : M (world K) Z := endpoint_field ep RemotePort.
Definition Handle_IsOnline (ep : nat) : M (world K) bool := endpoint_field ep IsOnline.
Definition Handle_GetExtInfo (ep : nat) : M (world K) Z := endpoint_field ep GetExtInfo.

(** ** [Container] *)

Definition ContainerAdaptor_SendMsg (connection_id : Z) (s : Slice) : M (world K) bool :=
  if Slice_Empty s then mret true else Container_SendMsg connection_id s.

(** The interval a heartbeat handler returns, by its address. *)
Variable GetHeartbeatInterval : Z -> Z.

Definition pointer (key : string) (p : Property) : Z := GetValue to_intptr key 0 p.
Definition present (key : string) (p : Property) : bool := nonzero (pointer key p).

(** [size_t] from the [int] read. *)
Definition size_value (key : string) (default_value : Z) (p : Property) : Z :=
  u64 (GetValue to_int key default_value p).

Lemma pointer_present key v p : p !! key = Some (u64 v) -> 0 < v < 2 ^ 63 -> present key p = true.
Proof using Type.
  intros E Hv. unfold present, pointer, GetValue, Property in *. rewrite E, to_intptr_u64 by lia.
  apply negb_true_iff, Z.eqb_neq. lia.
Qed.

Lemma size_value_int key d p n : p !! key = Some (u64 n) -> 0 <= n < 2 ^ 31 -> size_value key d p = n.
Proof using Type.
  intros E Hn. unfold size_value, GetValue, Property in *. rewrite E, to_int_u64 by lia.
  unfold u64. apply wrap_small. lia.
Qed.

Definition option_of (p : Property) : ContainerOption := {|
  op_msg_handler := present "MessageHandler" p;
  op_proto_handler := present "ProtocolHandler" p;
  op_heartbeat_handler :=
    if present "HeartbeatHandler" p then Some (GetHeartbeatInterval (pointer "HeartbeatHandler" p)) else None;
  op_closed_handler := present "EndpointClosedHandler" p;
  op_notify_handler := present "EndpointNotifyHandler" p;
  op_recv_send_threads := size_value "RecvSendThreads" 1 p;
  op_default_container_size := size_value "DefaultContainerSize" 256 p;
  op_max_container_size := size_value "MaxContainerSize" 1048576 p;
  op_not_check_connection_timeout := GetValue to_bool "NotCheckConnectionTimeout" false p;
  op_connection_timeoutms := size_value "ConnectionTimeoutMs" 60000 p;
  op_mq_consumer_threads := size_value "MQConsumerThreads" 1 p;
|}.

(** The adaptor of a failed [Init] is neither returned nor deleted. *)
Definition CreateContainer (p : Property) : M (world K) (raptor_error * out_ptr) :=
  if negb (present "MessageHandler" p)
  then mret (RAPTOR_ERROR_FROM_STATIC_STRING "Missing MessageHandler", OutUnset)
  else
    _ ← modify (w_with_ct (ContainerImpl_new (option_of p)));
    err ← Container_Init;
    match err with
    | None => mret (RAPTOR_ERROR_NONE, OutObject)
    | Some _ => mret (err, OutNull)
    end.

(** The last reference to the container goes with the adaptor: its destructor, then those
    of its threads (a timer that was shut down holds no thread). *)
Definition Container_dtor : M (world K) unit :=
  _ ← Container_Shutdown;
  w ← gets id;
  _ ← on_os (PollingThread_dtor (ct_back_thread (w_ct w)));
  on_os (PollingThread_dtor (ct_poll_thread (w_ct w))).

Definition DestroyContainer (cc : bool) : M (world K) unit :=
  if cc then _ ← Container_Shutdown; Container_dtor else mret tt.
End EndpointHandle.

(** ** [Acceptor] *)

Section Acceptor.
Context {K : Type} `{Kernel K} {E : Type} `{!InProcess E K} `{LibC} `{Resolver K} `{AcceptorHandler E}.
Variable somaxconn_file : option (option (list byte)).

(** The addresses are tried until one fails; those before it stay. *)
Fixpoint add_addresses (addrs : list raptor_resolved_address) : M (listener_world E) raptor_error :=
  match addrs with
  | [] => mret RAPTOR_ERROR_NONE
  | addr :: addrs =>
      e ← TcpListener_AddListeningPort somaxconn_file addr;
      match e with Some _ => mret e | None => add_addresses addrs end
  end.

Definition AddListening (addr : list byte) : M (listener_world E) raptor_error :=
  '(e, addrs) ← listener_os (raptor_blocking_resolve_address addr None);
  match e with
  | Some _ => mret e
  | None => addrs ← of_option addrs; add_addresses addrs
  end.

(** The adaptor of a failed [Init] is neither returned nor deleted. *)
Definition CreateAcceptor (p : Property) : M (listener_world E) (raptor_error * out_ptr) :=
  let handler := GetValue to_intptr "AcceptorHandler" 0 p in
  let ListenThreadNum := GetValue to_int "ListenThreadNum" 1 p in
  if handler =? 0 then mret (RAPTOR_ERROR_FROM_STATIC_STRING "Missing AcceptorHandler", OutNull)
  else
    _ ← set_listener (fun _ => TcpListener_new);
    e ← TcpListener_Init ListenThreadNum;
    match e with
    | None => mret (e, OutObject)
    | Some _ => mret (e, OutNull)
    end.

Definition DestroyAcceptor (a : bool) : M (listener_world E) unit :=
  if a then _ ← TcpListener_Shutdown; TcpListener_dtor else mret tt.
End Acceptor.

(** ** [Connector] *)

Section ConnectorAdaptor.
Context {K : Type} `{Kernel K} {E : Type} `{!InProcess E K} `{LibC} `{Resolver K} `{ConnectorHandler E}.

Definition CreateConnector (p : Property) : M (connector_world E) (raptor_error * out_ptr) :=
  let handler := GetValue to_intptr "ConnectorHandler" 0 p in
  let ConnecThreadNum := GetValue to_int "ConnecThreadNum" 1 p in
  let TcpUserTimeoutMs := GetValue to_int "TcpUserTimeoutMs" 0 p in
  if handler =? 0 then mret (RAPTOR_ERROR_FROM_STATIC_STRING "Missing ConnectorHandler", OutNull)
  else
    _ ← set_connector (fun _ => TcpConnector_new);
    e ← TcpConnector_Init ConnecThreadNum TcpUserTimeoutMs;
    match e with
    | None => mret (e, OutObject)
    | Some _ => mret (e, OutNull)
    end.

Definition DestroyConnector (c : bool) : M (connector_world E) unit :=
  if c then _ ← TcpConnector_Shutdown; TcpConnector_dtor else mret tt.
End ConnectorAdaptor.

(** ** Reading the sizes *)

Lemma u64_range z : is_u64 (u64 z).
Proof. apply wrap_range. lia. Qed.

(** The container's sizes go through [int]: what the user stored as an [int] is read
    back, a size that was never stored has the documented default, and a negative one
    becomes a [size_t] beyond any table (and so never limits the container). *)
Theorem container_sizes_read (interval : Z -> Z) (p : Property) (key : string) (n : Z) :
  - 2 ^ 31 <= n < 2 ^ 31 ->
  let q := Property_set (PropertyEntry_int key n) p in
  (0 <= n -> size_value key 0 q = n) /\
  (n < 0 -> 2 ^ 64 - 2 ^ 31 <= size_value key 0 q < 2 ^ 64) /\
  (forall d, size_value key d q = size_value key 0 q) /\
  (key = "MaxContainerSize"%string -> op_max_container_size (option_of interval q) = size_value key 0 q) /\
  (key <> "MaxContainerSize"%string -> p !! "MaxContainerSize"%string = None ->
    op_max_container_size (option_of interval q) = 1048576).
Proof.
  intros Hn q.
  assert (forall d, size_value key d q = u64 n) as Hq.
  { intros d. unfold size_value, GetValue, q, Property_set, PropertyEntry_int, Entry_Key, Entry_Value. cbn [fst snd].
    unfold Property in *. rewrite lookup_insert_eq. by rewrite to_int_u64. }
  split_and!.
  - intros H0. rewrite Hq. apply wrap_small. lia.
  - intros H0. rewrite Hq. unfold u64, wrap. rewrite <- (Z.mod_unique n (2 ^ 64) (-1) (n + 2 ^ 64)); lia.
  - intros d. by rewrite !Hq.
  - intros Hk. unfold option_of. cbn [op_max_container_size]. rewrite <- Hk. by rewrite !Hq.
  - intros Hk Hp. unfold option_of. cbn [op_max_container_size]. unfold size_value, GetValue, q, Property_set, Property in *.
    cbn [Entry_Key PropertyEntry_int fst]. rewrite lookup_insert_ne by done. by rewrite Hp.
Qed.

Lemma container_sizes_read_witness :
  let q := Property_set (PropertyEntry_int "MaxContainerSize" (-1)) ∅ in
  (0 <= -1 -> size_value "MaxContainerSize" 0 q = -1) /\
  (-1 < 0 -> 2 ^ 64 - 2 ^ 31 <= size_value "MaxContainerSize" 0 q < 2 ^ 64) /\
  (forall d, size_value "MaxContainerSize" d q = size_value "MaxContainerSize" 0 q) /\
  ("MaxContainerSize"%string = "MaxContainerSize"%string ->
    op_max_container_size (option_of (fun _ => 0) q) = size_value "MaxContainerSize" 0 q) /\
  ("MaxContainerSize"%string <> "MaxContainerSize"%string -> (∅ : Property) !! "MaxContainerSize"%string = None ->
    op_max_container_size (option_of (fun _ => 0) q) = 1048576).
Proof. apply (container_sizes_read (fun _ => 0) ∅ "MaxContainerSize" (-1)). lia. Defined.

(** ** A creation that fails *)

Section CreateFails.
Context {K : Type} `{Kernel K} `{LibC} `{Resolver K} `{AcceptorHandler (os K)}.

(** A process that may not create threads: epoll works, pthread_create does not. *)
Class NoThreads : Prop := {
  nt_epoll k : 0 < r_ret (sys_call k (SysEpollCreate MAX_EPOLL_EVENTS)).1;
  nt_fcntl k fd a b : r_ret (sys_call k (SysFcntl fd a b)).1 = 0;
  nt_pthread k : r_ret (sys_call k SysPthreadCreate).1 <> 0;
}.

Context `{!NoThreads}.

Lemma polling_init_no_threads n o :
  0 < n ->
  exists e p o' fd t, PollingThread_Init n PollingThread_new o = Ret ((Some e, p), o') /\
    os_trace o' = os_trace o ++ t /\ opened t = [fd] /\ closed t = [] /\ pt_epoll p = fd.
Proof.
  intros Hn. unfold PollingThread_Init, Epoll_create, call_ret, call, mbind, M_bind. cbn [PollingThread_new pt_shutdown pt_epoll negb].
  change (0 <? -1) with false. cbn [mret M_ret]. unfold mret, M_ret.
  pose proof (nt_epoll (os_kernel o)) as He. destruct (sys_call (os_kernel o) _) as [r1 k1] eqn:E1. cbn [fst] in He.
  rewrite (proj2 (Z.ltb_ge (r_ret r1) 0)) by lia. cbn [os_kernel].
  pose proof (nt_fcntl k1 (r_ret r1) F_SETFD FD_CLOEXEC) as Hf. destruct (sys_call k1 _) as [r2 k2] eqn:E2. cbn [fst] in Hf.
  rewrite Hf. cbn [nonzero Z.eqb negb]. rewrite (proj2 (Z.ltb_ge n 0)) by lia.
  destruct (Z.to_nat n) as [|m] eqn:Em; [lia|]. cbn [create_threads].
  unfold Thread_new, InternalThreadImpl_new, call, mbind, M_bind, mret, M_ret. cbn [os_kernel].
  pose proof (nt_pthread k2) as Hp. destruct (sys_call k2 SysPthreadCreate) as [r3 k3] eqn:E3. cbn [fst] in Hp.
  rewrite (proj2 (Z.eqb_neq _ _) Hp). cbn. rewrite <- !app_assoc. cbn.
  eexists _, _, _, (r_ret r1), _. split; [done|]. split; [done|].
  unfold opened, opened_by, closed. cbn. rewrite (proj2 (Z.leb_le _ _)) by lia. done.
Qed.

(** [CreateAcceptor] leaks when it fails: in a process that may open an epoll descriptor
    and create no thread it reports the error and returns no acceptor, and the
    descriptor it opened stays open, with nobody left who could close it. *)
Theorem create_acceptor_failure_leaks (p : Property) (w : listener_world (os K)) :
  GetValue to_intptr "AcceptorHandler" 0 p <> 0 -> 0 < GetValue to_int "ListenThreadNum" 1 p ->
  exists e w' fd t, CreateAcceptor p w = Ret ((Some e, OutNull), w') /\
    os_trace (lw_os w') = os_trace (lw_os w) ++ t /\ opened t = [fd] /\ closed t = [].
Proof.
  intros Hh Hn. unfold CreateAcceptor. rewrite (proj2 (Z.eqb_neq _ _) Hh).
  destruct (polling_init_no_threads (GetValue to_int "ListenThreadNum" 1 p) (lw_env w) Hn)
    as (e & q & o' & fd & t & E & Et & Ho & Hc & _).
  unfold TcpListener_Init, set_listener, listener_os, zoom, gets, modify, mbind, M_bind, mret, M_ret.
  unfold lw_os, lw_with_os, lw_with_env, env_os, env_with_os, os_in_process.
  cbn [lw_listener lw_with_listener TcpListener_new tl_shutdown negb tl_poll_thread lw_env].
  change (PollingThread_dtor PollingThread_new (lw_env w)) with (Ret (tt, lw_env w)). cbn [lw_env].
  rewrite E. eexists _, _, fd, t. split; [done|]. done.
Qed.
End CreateFails.

(** A process at its limit of threads. *)
Definition no_thread_kernel : Kernel unit := fun _ c =>
  let ret x := ({| r_ret := x; r_errno := 0; r_data := []; r_int := 0; r_events := [] |}, tt) in
  match c with SysEpollCreate _ => ret 7 | SysPthreadCreate => ret 11 | _ => ret 0 end.

#[local] Existing Instance no_thread_kernel.
#[local] Existing Instance quiet_libc.

#[local] Instance no_thread_kernel_fails : NoThreads (K := unit).
Proof. split; done. Qed.

#[local] Instance ignoring_handler : AcceptorHandler (os unit) := fun ep p => mret (ep, p).

Lemma create_acceptor_failure_leaks_witness :
  let p := Property_entry (PropertyEntry_ptr "AcceptorHandler" 4096) in
  exists e w' fd t, CreateAcceptor p (listener_start fresh_process) = Ret ((Some e, OutNull), w') /\
    os_trace (lw_os w') = os_trace fresh_process ++ t /\ opened t = [fd] /\ closed t = [].
Proof.
  apply (create_acceptor_failure_leaks (Property_entry (PropertyEntry_ptr "AcceptorHandler" 4096)) (listener_start fresh_process));
    [vm_compute; discriminate|vm_compute; reflexivity].
Defined.
