(* ===== verification/ContainerSafety.v ===== *)
(** * The container keeps its promises (src/common/container_impl.cc)

    The invariant of the world between the container's methods, what the methods of a
    connection keep, and the theorem that any sequence of the container's methods runs
    without undefined behaviour and closes every attached descriptor exactly once. *)

From S2P Require Import Prelude.
From S2P Require Import Cid.
From S2P Require Import OS.
From S2P Require Import Status.
From S2P Require Import Slice.
From S2P Require Import SliceBuffer.
From S2P Require Import SocketSetting.
From S2P Require Import SockAddr.
From S2P Require Import Endpoint.
From S2P Require Import Epoll.
From S2P Require Import Connection.
From S2P Require Import Time.
From S2P Require Import Thread.
From S2P Require Import PollingThread.
From S2P Require Import Timer.
From S2P Require Import Multimap.
From S2P Require Import SlotTable.
From S2P Require Import Container.

Local Open Scope Z_scope.

(** ** What the methods of a connection keep *)

Section Keeps.
Context {K : Type} `{Kernel K} `{!KernelIO K} `{LibC}.

(** The identity of a connection. *)
Definition same_ids (c c' : Connection) : Prop :=
  cn_endpoint c' = cn_endpoint c /\ cn_handle_id c' = cn_handle_id c.

(** Where [m] returns, it kept the endpoint and the identity, and opened and closed
    nothing. *)
Definition silent {A} (m : M (conn_state K) A) : Prop := forall s a s', m s = Ret (a, s') ->
  cs_ep s' = cs_ep s /\ same_ids (cs_cn s) (cs_cn s') /\
  exists t, os_trace (cs_os s') = os_trace (cs_os s) ++ t /\ opened t = [] /\ closed t = [].

(** [m] returns, and keeps the buffers well formed too. *)
Definition keeps {A} (m : M (conn_state K) A) : Prop :=
  silent m /\ forall s, conn_wf s -> wp m s (fun _ s' => conn_wf s').

Lemma silent_refl (s : conn_state K) :
  cs_ep s = cs_ep s /\ same_ids (cs_cn s) (cs_cn s) /\
  exists t, os_trace (cs_os s) = os_trace (cs_os s) ++ t /\ opened t = [] /\ closed t = [].
Proof using Type. do 2 (split; [done|]). exists []. by rewrite app_nil_r. Qed.

Lemma silent_ret {A} (a : A) : silent (mret a).
Proof using Type. intros s x s' [= <- <-]. apply silent_refl. Qed.

Lemma silent_gets {A} (f : conn_state K -> A) : silent (gets f).
Proof using Type. intros s x s' [= <- <-]. apply silent_refl. Qed.

Lemma silent_no_fuel {A} : silent (A := A) no_fuel.
Proof using Type. done. Qed.

Lemma silent_lift {A} (x : outcome A) : silent (lift x).
Proof using Type. intros s a s'. unfold lift. destruct x; [|done..]. intros [= <- <-]. apply silent_refl. Qed.

Lemma silent_of_option {A} (x : option A) : silent (of_option x).
Proof using Type. intros s a s'. destruct x; [|done]. intros [= <- <-]. apply silent_refl. Qed.

Lemma silent_service c : silent (service c).
Proof using Type.
  intros s a s' [= <- <-]. split; [done|]. split; [done|]. exists []. by rewrite app_nil_r.
Qed.

Lemma silent_modify_cn f : (forall c, same_ids c (f c)) -> silent (modify_cn f).
Proof using Type.
  intros Hf s a s' [= <- <-]. split; [done|]. split; [apply Hf|]. exists []. by rewrite app_nil_r.
Qed.

Lemma silent_sys {A} (m : M (os K) A) : quiet m -> silent (sys m).
Proof using Type.
  intros Hm s a s'. unfold sys, zoom. specialize (Hm (cs_os s)). unfold wp in Hm.
  destruct (m (cs_os s)) as [[x o]| | |]; [|done..]. intros [= <- <-]. destruct Hm as (t & Et & Ho & Hc).
  split; [done|]. split; [done|]. by exists t.
Qed.

Lemma silent_bind {A B} (m : M (conn_state K) A) (f : A -> M (conn_state K) B) :
  silent m -> (forall a, silent (f a)) -> silent (m ≫= f).
Proof using Type.
  intros Hm Hf s b s2. unfold mbind, M_bind. destruct (m s) as [[a s1]| | |] eqn:E; [|done..]. intros E2.
  destruct (Hm _ _ _ E) as (E1 & [I1 J1] & t1 & T1 & O1 & C1).
  destruct (Hf _ _ _ _ E2) as (E2' & [I2 J2] & t2 & T2 & O2 & C2).
  split; [by rewrite E2'|]. split; [split; congruence|]. exists (t1 ++ t2).
  by rewrite T2, T1, app_assoc, opened_app, closed_app, O1, O2, C1, C2.
Qed.

Lemma quiet_poll_add fd a b c : quiet (K := K) (Poll_Add fd a b c).
Proof using Type. unfold Poll_Add, Epoll_add, Epoll_ctl. auto with quiet. Qed.
Lemma quiet_poll_modify fd a b c : quiet (K := K) (Poll_Modify fd a b c).
Proof using Type. unfold Poll_Modify, Epoll_modify, Epoll_ctl. auto with quiet. Qed.
End Keeps.

Create HintDb silent discriminated.
#[export] Hint Resolve silent_ret silent_gets silent_no_fuel silent_lift silent_of_option silent_service : silent.
#[export] Hint Resolve quiet_poll_add quiet_poll_modify : quiet.
#[export] Hint Extern 1 (silent (modify_cn _)) => by apply silent_modify_cn : silent.
#[export] Hint Extern 1 (silent (sys _)) => apply silent_sys; auto with quiet : silent.
#[export] Hint Extern 2 (silent (_ ≫= _)) => apply silent_bind; [|intros ?] : silent.
#[export] Hint Extern 2 (silent (if ?b then _ else _)) => destruct b : silent.
#[export] Hint Extern 2 (silent (match ?x with _ => _ end)) => destruct x : silent.

Section ConnectionKeeps.
Context {K : Type} `{Kernel K} `{!KernelIO K} `{LibC}.
Variable OnCheckPackageLength : EndpointImpl -> list cell -> Z.
Variable recv_fuel : nat.
Hypothesis Hfits : forall ep, header_fits (OnCheckPackageLength ep).
Hypothesis Hshort : forall fd k, short_within recv_fuel fd k.

Lemma keeps_set_protocol p : keeps (K := K) (modify_cn (SetProtocol p)).
Proof using Type. split; [auto with silent|]. intros s Hs. by apply wp_modify. Qed.

Lemma wp_sys_any {A} (m : M (os K) A) (s : conn_state K) Q :
  quiet m -> (forall a o, Q a {| cs_os := o; cs_ep := cs_ep s; cs_cn := cs_cn s; cs_out := cs_out s |}) -> wp (sys m) s Q.
Proof using Type. intros Hm HQ. apply wp_sys. eapply wp_mono; [apply Hm|]. intros a o _. apply HQ. Qed.

Lemma keeps_init t back : keeps (Connection_Init t back).
Proof using Type.
  split; [unfold Connection_Init; auto 10 with silent quiet|]. intros s Hs. unfold Connection_Init.
  apply wp_bind, wp_modify, wp_bind, wp_gets, wp_bind, wp_sys_any; [auto with quiet|]. intros _ o1.
  apply wp_bind, wp_sys_any; [auto with quiet|]. intros _ o2. by apply wp_ret.
Qed.

Lemma keeps_send m : Slice_wf m -> keeps (Connection_SendMsg m).
Proof using Type.
  intros Hm. split; [unfold Connection_SendMsg; auto 10 with silent quiet|]. intros s Hs. unfold Connection_SendMsg.
  apply wp_bind, wp_gets. destruct (negb (IsOnline (cs_ep s))); [by apply wp_ret|].
  apply wp_bind, wp_gets, wp_bind, wp_modify, wp_bind, wp_sys_any; [auto with quiet|]. intros _ o. apply wp_ret.
  split; [apply Hs|]. apply AddSlice_wf; [done|apply Hs].
Qed.

Lemma keeps_is_online : keeps (K := K) Connection_IsOnline.
Proof using Type. split; [apply silent_gets|]. intros s Hs. by apply wp_gets. Qed.

Lemma silent_send_loop n : silent (OnSend_loop n).
Proof using Type. induction n as [|n IH]; cbn [OnSend_loop]; auto 20 with silent quiet. Qed.

Lemma keeps_do_send : keeps DoSendEvent.
Proof using KernelIO0.
  split.
  - unfold DoSendEvent, OnSend. apply silent_bind; [|auto 20 with silent quiet].
    apply silent_bind; [auto with silent|]. intros b. destruct (SliceBuffer_Empty b); [auto with silent|]. apply silent_send_loop.
  - intros s Hs. unfold DoSendEvent. apply wp_bind. eapply wp_mono; [by apply OnSend_spec|].
    intros x s1 (_ & _ & _ & _ & Hs1 & _). destruct (x =? -1); [|by apply wp_ret].
    apply wp_bind, wp_gets, wp_bind, wp_gets, wp_bind, wp_sys_any; [auto with quiet|]. intros _ o. by apply wp_ret.
Qed.

Lemma silent_parse_loop n : forall size counter, silent (K := K) (ParsingProtocol_loop OnCheckPackageLength n size counter).
Proof using Type.
  induction n as [|n IH]; intros size counter; cbn [ParsingProtocol_loop]; [auto with silent|].
  destruct (size =? 0)%nat; [auto with silent|]. apply silent_bind.
  - unfold parse_round, ReadSliceFromRecvBuffer. apply silent_bind; [auto 10 with silent|]. intros [tail package]. auto 20 with silent.
  - intros [r|]; auto with silent.
Qed.

Lemma silent_recv n : silent (OnRecv OnCheckPackageLength n).
Proof using Type.
  induction n as [|n IH]; cbn [OnRecv]; [auto with silent|].
  assert (silent (K := K) (ParsingProtocol OnCheckPackageLength)) as Hp.
  { unfold ParsingProtocol. apply silent_bind; [auto with silent|]. intros size. apply silent_parse_loop. }
  auto 20 with silent quiet.
Qed.

Lemma recv_total n : forall s, conn_wf s -> short_within n (fd_int (cs_ep s)) (os_kernel (cs_os s)) ->
  wp (OnRecv OnCheckPackageLength n) s (fun _ s' => conn_wf s').
Proof using KernelIO0 Hfits.
  induction n as [|n IH]; intros s Hs Hk; [done|]. cbn [OnRecv short_within] in *.
  apply wp_bind, wp_gets, wp_bind, wp_sys, wp_call. intros r k Er. rewrite Er in Hk.
  pose proof (recv_result (os_kernel (cs_os s)) (fd_int (cs_ep s)) buffer_size ltac:(done)) as Hr.
  rewrite Er in Hr. cbn [fst] in Hr.
  assert (i32 (r_ret r) = r_ret r) as -> by (apply swrap_small; unfold buffer_size in *; lia).
  destruct (r_ret r =? 0); [by apply wp_ret|]. destruct (r_ret r <? 0).
  { by apply wp_bind, wp_sys, wp_gets, wp_ret. }
  apply wp_bind, wp_gets. cbn [cs_cn cs_os cs_ep cs_out].
  set (s0 := {| cs_os := _; cs_ep := _; cs_cn := _; cs_out := _ |}).
  assert (forall s1 p, conn_wf s1 -> cs_ep s1 = cs_ep s -> os_kernel (cs_os s1) = k ->
    wp (if cn_proto (cs_cn s) && (p =? -1) then mret (-1)
        else if r_ret r =? buffer_size then OnRecv OnCheckPackageLength n else mret 0) s1 (fun _ s' => conn_wf s')) as Hrest.
  { intros s1 p Hs1 Hep Hk1. destruct (cn_proto (cs_cn s) && (p =? -1)); [by apply wp_ret|].
    destruct (Z.eqb_spec (r_ret r) buffer_size); [|by apply wp_ret].
    apply IH; [done|]. rewrite Hep, Hk1. by destruct Hk. }
  destruct (cn_proto (cs_cn s)); cbn [negb].
  - apply wp_bind, wp_bind, wp_modify. eapply wp_mono.
    { apply ParsingProtocol_spec; [|apply header_fits_spins, Hfits]. split; [|apply Hs]. cbn. apply AddSlice_wf; [apply Slice_ctor_wf|apply Hs]. }
    cbn. intros p s1 [_ Ha]. destruct Ha as (b & calls & -> & Hb & _). apply Hrest; [|done|done].
    split; [done|apply Hs].
  - apply wp_bind, wp_bind, wp_modify, wp_ret. by apply Hrest.
Qed.

Lemma keeps_do_recv : keeps (DoRecvEvent OnCheckPackageLength recv_fuel).
Proof using KernelIO0 Hfits Hshort.
  split.
  - unfold DoRecvEvent. apply silent_bind; [apply silent_recv|]. intros x. unfold RAPTOR_POSIX_ERROR. auto 20 with silent quiet.
  - intros s Hs. unfold DoRecvEvent. apply wp_bind. eapply wp_mono; [by apply recv_total|].
    intros x s1 Hs1. destruct (x =? 0).
    + apply wp_bind, wp_gets, wp_bind, wp_gets, wp_bind, wp_sys_any; [auto with quiet|]. intros _ o. by apply wp_ret.
    + apply wp_sys_any; [unfold RAPTOR_POSIX_ERROR; auto with quiet|]. done.
Qed.
End ConnectionKeeps.

(** ** The invariant of the world *)

Section Invariant.
Context {K : Type}.
Implicit Types w : world K.

(** The handler a message is for is there. *)
Definition handled (o : ContainerOption) (m : TcpMessageNode) : Prop :=
  match mn_type m with
  | kRecvAMessage => op_msg_handler o = true
  | kCloseEvent => op_closed_handler o = true
  | kHeartbeatEvent => is_Some (op_heartbeat_handler o)
  | kEndpointNotify => op_notify_handler o = true
  end.

(** A connection id that passes the check names a slot of the vector. *)
Definition id_in_range (cid : Z) (c : ContainerImpl) : Prop :=
  forall idx, CheckConnectionId cid c = Some idx -> 0 <= idx < Z.of_nat (length (st_mgr (ct_slots c))).

(** The members of endpoints and connections, and the counter of handles, are in the
    ranges of their types. *)
Record objects_typed (eps : gmap nat EndpointImpl) (conns : gmap nat Connection) (counter : Z) : Prop := {
  ot_eps e obj : eps !! e = Some obj ->
    is_u64 (ei_fd obj) /\ is_u64 (ei_connection_id obj) /\ is_u16 (ei_listen_port obj);
  ot_conns c cn : conns !! c = Some cn -> is_u32 (cn_handle_id cn);
  ot_counter : is_u32 counter;
}.

Lemma ot_insert_conn eps conns counter c cn :
  objects_typed eps conns counter -> is_u32 (cn_handle_id cn) -> objects_typed eps (<[c := cn]> conns) counter.
Proof. intros [] Hcn. split; [done| |done]. intros x y [[_ <-]|[_ ?]]%lookup_insert_Some; eauto. Qed.

Lemma ot_delete_conn eps conns counter c :
  objects_typed eps conns counter -> objects_typed eps (base.delete c conns) counter.
Proof. intros []. split; [done| |done]. intros x y [_ ?]%lookup_delete_Some; eauto. Qed.

Lemma ot_insert_ep eps conns counter e obj :
  objects_typed eps conns counter ->
  is_u64 (ei_fd obj) /\ is_u64 (ei_connection_id obj) /\ is_u16 (ei_listen_port obj) ->
  objects_typed (<[e := obj]> eps) conns counter.
Proof. intros [] Hobj. split; [|done..]. intros x y [[_ <-]|[_ ?]]%lookup_insert_Some; eauto. Qed.

(** [held] are the shared pointers running calls hold; [doomed] is a connection about to
    go, which may be neither held nor in a slot.  [fd_ok] says what is known of the
    descriptor of the endpoint of a connection. *)
Record winv_of {fd_ok : option nat -> nat -> EndpointImpl -> Prop} (held : list nat) (doomed : option nat) w : Prop := {
  wi_slots : slots_wf (w_slots w);
  wi_size : 0 < Z.of_nat (length (st_mgr (w_slots w))) <= op_max_container_size (ct_option (w_ct w));
  wi_max : op_max_container_size (ct_option (w_ct w)) < 2 ^ 32;
  wi_held : w_held w = held;
  wi_held_live c : c ∈ held -> is_Some (w_conns w !! c);
  wi_slot n c : st_conn (w_slots w) n = Some c -> is_Some (w_conns w !! c);
  wi_live c cn : w_conns w !! c = Some cn ->
    (exists n, st_conn (w_slots w) n = Some c) \/ c ∈ held \/ doomed = Some c;
  wi_inj n m c : st_conn (w_slots w) n = Some c -> st_conn (w_slots w) m = Some c -> n = m;
  wi_ep c cn : w_conns w !! c = Some cn ->
    exists ep, w_eps w !! cn_endpoint cn = Some ep /\ ei_attached ep = true /\ fd_ok doomed c ep;
  wi_bufs c cn : w_conns w !! c = Some cn -> sb_wf (cn_rcv_buffer cn) /\ sb_wf (cn_snd_buffer cn);
  wi_ep_inj c c' cn cn' : w_conns w !! c = Some cn -> w_conns w !! c' = Some cn' ->
    cn_endpoint cn = cn_endpoint cn' -> c = c';
  wi_next c cn : w_conns w !! c = Some cn -> (c < w_next w)%nat;
  wi_count : ct_count (w_ct w) = u32 (Z.of_nat (length (ct_mpscq (w_ct w))));
  wi_queue : Forall (handled (ct_option (w_ct w))) (ct_mpscq (w_ct w));
  wi_refs m : m ∈ ct_mpscq (w_ct w) -> is_Some (w_eps w !! mn_ep m);
  wi_msg : op_msg_handler (ct_option (w_ct w)) = true;
  wi_magic : 0 <= ct_magic_number (w_ct w) < 2 ^ 16;
  wi_ids e obj : w_eps w !! e = Some obj -> is_u16 (ei_listen_port obj) /\ id_in_range (ei_connection_id obj) (w_ct w);
  wi_typed : objects_typed (w_eps w) (w_conns w) (w_global_counter w);
  wi_deadlines e : e ∈ st_records (w_slots w) -> is_i64 e.1;
}.

(** The descriptors of the connections. *)
Definition conn_fd (eps : gmap nat EndpointImpl) (cn : Connection) : list Z :=
  match eps !! cn_endpoint cn with
  | Some ep => if IsOnline ep then [fd_int ep] else []
  | None => []
  end.

Definition fds_of (eps : gmap nat EndpointImpl) (conns : gmap nat Connection) : list Z :=
  map_to_list conns ≫= (fun x => conn_fd eps x.2).

Definition open_fds w : list Z := fds_of (w_eps w) (w_conns w).

Lemma fds_insert eps conns c cn :
  conns !! c = None -> fds_of eps (<[c := cn]> conns) ≡ₚ conn_fd eps cn ++ fds_of eps conns.
Proof. intros Hc. unfold fds_of. by rewrite map_to_list_insert by done. Qed.

Lemma fds_split eps conns c cn :
  conns !! c = Some cn -> fds_of eps conns ≡ₚ conn_fd eps cn ++ fds_of eps (base.delete c conns).
Proof.
  intros Hc. rewrite <- (insert_delete_id conns c cn Hc) at 1. rewrite fds_insert; [done|apply lookup_delete_eq].
Qed.

Lemma fds_ext eps eps' conns :
  (forall c cn, conns !! c = Some cn -> eps' !! cn_endpoint cn = eps !! cn_endpoint cn) ->
  fds_of eps' conns = fds_of eps conns.
Proof.
  intros He. unfold fds_of.
  assert (forall l : list (nat * Connection), (forall x, x ∈ l -> eps' !! cn_endpoint x.2 = eps !! cn_endpoint x.2) ->
    (l ≫= fun x => conn_fd eps' x.2) = (l ≫= fun x => conn_fd eps x.2)) as Hl.
  { induction l as [|x l IH]; [done|]. intros Hx. cbn. unfold conn_fd at 1. rewrite (Hx x) by by left.
    fold (conn_fd eps x.2). f_equal. apply IH. intros y Hy. apply Hx. by right. }
  apply Hl. intros [c cn] Hx%elem_of_map_to_list. by eapply He.
Qed.

Lemma fds_same_ids eps conns c cn cn' :
  conns !! c = Some cn -> same_ids cn cn' -> fds_of eps (<[c := cn']> conns) ≡ₚ fds_of eps conns.
Proof.
  intros Hc [He _]. rewrite (fds_split eps conns c cn Hc), <- insert_delete_eq, fds_insert by apply lookup_delete_eq.
  unfold conn_fd. by rewrite He.
Qed.

(** ** What a step does outside the invariant *)

(** [gained] are the descriptors a step gave the container: what it closed and what is
    open afterwards is what was open before and what was gained. *)
Record effect (gained : list Z) w w' : Prop := {
  ef_fds : exists t, os_trace (w_os w') = os_trace (w_os w) ++ t /\ opened t = [] /\
    closed t ++ open_fds w' ≡ₚ open_fds w ++ gained;
  ef_option : ct_option (w_ct w') = ct_option (w_ct w);
  ef_size : (length (st_mgr (w_slots w)) <= length (st_mgr (w_slots w')))%nat;
  ef_eps e : is_Some (w_eps w !! e) -> is_Some (w_eps w' !! e);
}.

Lemma effect_refl w : effect [] w w.
Proof. split; [|done..]. exists []. by rewrite !app_nil_r. Qed.

Lemma effect_trans g1 g2 w w1 w2 : effect g1 w w1 -> effect g2 w1 w2 -> effect (g1 ++ g2) w w2.
Proof.
  intros [(t1 & T1 & O1 & P1) E1 S1 G1] [(t2 & T2 & O2 & P2) E2 S2 G2]. split; [|by rewrite E2|lia|by auto].
  exists (t1 ++ t2). split; [by rewrite T2, T1, app_assoc|]. rewrite opened_app, closed_app, O1, O2. split; [done|].
  rewrite <- app_assoc, P2, app_assoc, P1. by rewrite app_assoc.
Qed.

(** A change of the world that leaves the process and the descriptors alone. *)
Lemma effect_pure w w' :
  w_os w' = w_os w -> open_fds w' ≡ₚ open_fds w -> ct_option (w_ct w') = ct_option (w_ct w) ->
  (length (st_mgr (w_slots w)) <= length (st_mgr (w_slots w')))%nat ->
  (forall e, is_Some (w_eps w !! e) -> is_Some (w_eps w' !! e)) -> effect [] w w'.
Proof. intros Ho Hf Hopt Hl He. split; [|done..]. exists []. rewrite Ho, !app_nil_r. done. Qed.

(** A computation that returns, with an effect. *)
Definition steps {A} (m : M (world K) A) (gained : list Z) w (Q : A -> world K -> Prop) : Prop :=
  wp m w (fun a w' => effect gained w w' /\ Q a w').

Lemma steps_bind {A B} (m : M (world K) A) (f : A -> M (world K) B) g w R Q :
  steps m [] w R -> (forall a w1, R a w1 -> steps (f a) g w1 Q) -> steps (m ≫= f) g w Q.
Proof.
  intros Hm Hf. apply wp_bind. eapply wp_mono; [exact Hm|]. intros a w1 [He1 HR].
  eapply wp_mono; [by apply Hf|]. intros b w2 [He2 HQ]. split; [|done]. by apply (effect_trans [] g w w1 w2).
Qed.

(** ... what is gained first. *)
Lemma steps_bind_first {A B} (m : M (world K) A) (f : A -> M (world K) B) g w R Q :
  steps m g w R -> (forall a w1, R a w1 -> steps (f a) [] w1 Q) -> steps (m ≫= f) g w Q.
Proof.
  intros Hm Hf. apply wp_bind. eapply wp_mono; [exact Hm|]. intros a w1 [He1 HR].
  eapply wp_mono; [by apply Hf|]. intros b w2 [He2 HQ]. split; [|done].
  rewrite <- (app_nil_r g). by apply (effect_trans g [] w w1 w2).
Qed.

Lemma steps_ret {A} (a : A) w (Q : A -> world K -> Prop) : Q a w -> steps (mret a) [] w Q.
Proof. intros HQ. apply wp_ret. split; [apply effect_refl|done]. Qed.

Lemma steps_gets {A B} (g : world K -> A) (f : A -> M (world K) B) gn w Q :
  steps (f (g w)) gn w Q -> steps (gets g ≫= f) gn w Q.
Proof. intros Hf. by apply wp_bind, wp_gets. Qed.

Lemma steps_mono {A} (m : M (world K) A) g w (Q R : A -> world K -> Prop) :
  steps m g w R -> (forall a w', R a w' -> Q a w') -> steps m g w Q.
Proof. intros Hm HRQ. eapply wp_mono; [exact Hm|]. intros a w' [He HR]. auto. Qed.

(** ** The queue *)

Lemma u32_succ n : u32 (u32 (Z.of_nat n) + 1) = u32 (Z.of_nat (S n)).
Proof. unfold u32, wrap. rewrite Nat2Z.inj_succ, <- Z.add_1_r. by rewrite Zplus_mod_idemp_l. Qed.

(** The queue of the container changed, and is in order if it was; what is new in it is
    about endpoints of which [P] holds. *)
Definition queue_grows (P : nat -> Prop) (c c' : ContainerImpl) : Prop :=
  exists q n, c' = ct_with_queue q n c /\
    (ct_count c = u32 (Z.of_nat (length (ct_mpscq c))) -> n = u32 (Z.of_nat (length q))) /\
    (Forall (handled (ct_option c)) (ct_mpscq c) -> Forall (handled (ct_option c)) q) /\
    (forall m, m ∈ q -> m ∈ ct_mpscq c \/ P (mn_ep m)).

Lemma queue_grows_refl P c : queue_grows P c c.
Proof. exists (ct_mpscq c), (ct_count c). split; [by destruct c|]. auto. Qed.

Lemma queue_grows_trans P c c1 c2 : queue_grows P c c1 -> queue_grows P c1 c2 -> queue_grows P c c2.
Proof.
  intros (q1 & n1 & -> & H1 & F1 & P1) (q2 & n2 & -> & H2 & F2 & P2). exists q2, n2. split; [done|]. cbn in *.
  split_and!; [auto..|]. intros m Hm. destruct (P2 m Hm); auto.
Qed.

Lemma push_message_grows (P : nat -> Prop) m c : handled (ct_option c) m -> P (mn_ep m) -> queue_grows P c (push_message m c).
Proof.
  intros Hm HP. eexists _, _. split; [reflexivity|]. split; [|split].
  - intros ->. rewrite length_app. cbn [length]. rewrite Nat.add_1_r. apply u32_succ.
  - intros Hq. apply Forall_app. split; [done|]. by constructor.
  - intros x [?| ->%list_elem_of_singleton]%elem_of_app; auto.
Qed.

Lemma serve_all_grows (P : nat -> Prop) ep calls c :
  op_msg_handler (ct_option c) = true -> P ep -> queue_grows P c (serve_all ep calls c).
Proof.
  intros Hm HP. revert c Hm. induction calls as [|call calls IH]; intros c Hm; [apply queue_grows_refl|].
  assert (queue_grows P c (serve ep call c)) as Hs.
  { destruct call as [s|ev]; [by apply push_message_grows|]. cbn. unfold Container_OnClosed.
    destruct (op_closed_handler (ct_option c)) eqn:E; [by apply push_message_grows|apply queue_grows_refl]. }
  eapply queue_grows_trans; [exact Hs|]. cbn. apply IH. by destruct Hs as (q & n & -> & _).
Qed.
End Invariant.

(** [inv_with P]: the invariant, with [P] known of the descriptors.  Between the calls of
    methods that run alone ([winv]), every connection has its descriptor, but the doomed
    one, which was shut down. *)
Abbreviation inv_with P := (winv_of (fd_ok := P)).

Definition alone (doomed : option nat) (c : nat) (ep : EndpointImpl) : Prop :=
  if decide (doomed = Some c) then IsOnline ep = false else holds_fd ep.

Abbreviation winv := (inv_with alone).

Lemma alone_holds c ep : holds_fd ep -> alone None c ep.
Proof. done. Qed.

(** ** Calls on connections *)

Section OnConn.
Context {K : Type} `{Kernel K}.
Implicit Types w : world K.

(** Connection [c] was used without touching its endpoint. *)
Record touched (c : nat) w w' : Prop := {
  to_eps : w_eps w' = w_eps w;
  to_held : w_held w' = w_held w;
  to_counter : w_global_counter w' = w_global_counter w;
  to_next : w_next w' = w_next w;
  to_conns : exists cn cn', w_conns w !! c = Some cn /\ w_conns w' = <[c := cn']> (w_conns w) /\ same_ids cn cn' /\
    sb_wf (cn_rcv_buffer cn') /\ sb_wf (cn_snd_buffer cn');
  to_ct : queue_grows (fun e => is_Some (w_eps w !! e)) (w_ct w) (w_ct w');
  to_trace : exists t, os_trace (w_os w') = os_trace (w_os w) ++ t /\ opened t = [] /\ closed t = [];
}.

Lemma on_conn_touches {A} c cn ep (m : M (conn_state K) A) w :
  w_conns w !! c = Some cn -> w_eps w !! cn_endpoint cn = Some ep ->
  sb_wf (cn_rcv_buffer cn) -> sb_wf (cn_snd_buffer cn) -> op_msg_handler (ct_option (w_ct w)) = true -> keeps m ->
  wp (on_conn c m) w (fun _ w' => touched c w w').
Proof.
  intros Hc He Hr Hs Hmsg [Hsil Htot]. unfold wp, on_conn. rewrite Hc, He.
  set (s := {| cs_os := w_os w; cs_ep := ep; cs_cn := cn; cs_out := [] |}).
  specialize (Htot s (conj Hr Hs)). unfold wp in Htot. specialize (Hsil s). destruct (m s) as [[a s']| | |]; [|done..].
  destruct (Hsil a s' eq_refl) as (Eep & Hids & t & Et & Ho & Hcl). split; cbn; try done.
  - rewrite Eep. cbn. by rewrite insert_id.
  - exists cn, (cs_cn s'). by destruct Htot.
  - apply serve_all_grows; [done|by exists ep].
  - by exists t.
Qed.

Lemma touched_fds c w w' : touched c w w' -> open_fds w' ≡ₚ open_fds w.
Proof.
  intros [E1 _ _ _ (cn & cn' & Hc & E2 & Hi & _) _ _]. unfold open_fds. rewrite E1, E2. by eapply fds_same_ids.
Qed.

Lemma touched_effect c w w' : touched c w w' -> effect [] w w'.
Proof.
  intros Ht. pose proof (touched_fds _ _ _ Ht) as Hf. destruct Ht as [Ee _ _ _ _ (q & n & E & _) (t & Et & Ho & Hc)]. split.
  - exists t. by rewrite Hc, !app_nil_r.
  - by rewrite E.
  - unfold w_slots. by rewrite E.
  - by rewrite Ee.
Qed.

(** The other fields of a touched world. *)
Lemma touched_same c w w' : touched c w w' ->
  w_slots w' = w_slots w /\ ct_option (w_ct w') = ct_option (w_ct w) /\
  ct_magic_number (w_ct w') = ct_magic_number (w_ct w) /\
  (forall e, is_Some (w_conns w' !! e) <-> is_Some (w_conns w !! e)) /\
  (forall e cn', w_conns w' !! e = Some cn' -> exists cn, w_conns w !! e = Some cn /\ same_ids cn cn').
Proof.
  intros [_ _ _ _ (cn & cn' & Hc & E & Hi & _) (q & n & Ect & _) _]. unfold w_slots. rewrite Ect, E.
  do 3 (split; [done|]). split.
  - intros e. destruct (decide (c = e)) as [<-|Hne]; [rewrite lookup_insert_eq, Hc|rewrite lookup_insert_ne by done; done].
    split; by eexists.
  - intros e x. destruct (decide (c = e)) as [<-|Hne].
    + rewrite lookup_insert_eq. intros [= <-]. eauto.
    + rewrite lookup_insert_ne by done. intros Hx. by exists x.
Qed.

Lemma touched_winv {P} h d c w w' : inv_with P h d w -> touched c w w' -> inv_with P h d w'.
Proof.
  intros [] Ht. destruct (touched_same _ _ _ Ht) as (Es & Eo & Em & Hsome & Hget).
  destruct Ht as [Ee Eh Eg En (cn & cn' & Hc & E & Hi & Hb) (q & n & Ect & Hn & Hq & Hr) _].
  split; rewrite ?Es, ?Eo, ?Em, ?Ee, ?Eh, ?En; try done.
  - intros x Hx. apply Hsome. auto.
  - intros m x Hx. apply Hsome. eauto.
  - intros x y Hx. destruct (Hget _ _ Hx) as (z & Hz & _). eauto.
  - intros x y Hx. destruct (Hget _ _ Hx) as (z & Hz & [Ez _]). rewrite Ez. eauto.
  - intros x y. rewrite E. destruct (decide (c = x)) as [<-|Hne]; [rewrite lookup_insert_eq|rewrite lookup_insert_ne by done; eauto].
    by intros [= <-].
  - intros x x' y y' Hx Hx'. destruct (Hget _ _ Hx) as (z & Hz & [Ez _]), (Hget _ _ Hx') as (z' & Hz' & [Ez' _]).
    rewrite Ez, Ez'. eauto.
  - intros x y Hx. destruct (Hget _ _ Hx) as (z & Hz & _). eauto.
  - rewrite Ect. by apply Hn.
  - rewrite Ect. by apply Hq.
  - rewrite Ect. intros m Hm. destruct (Hr m Hm); auto.
  - intros e obj He. destruct (wi_ids0 e obj He) as [Hp Hid]. split; [done|]. unfold id_in_range, CheckConnectionId.
    rewrite Ect. exact Hid.
  - rewrite E, Eg. apply ot_insert_conn; [done|]. rewrite (proj2 Hi). by eapply ot_conns.
Qed.

Lemma steps_on_conn {P A} h d c cn (m : M (conn_state K) A) w :
  inv_with P h d w -> w_conns w !! c = Some cn -> keeps m ->
  steps (on_conn c m) [] w (fun _ w' => inv_with P h d w' /\ w_slots w' = w_slots w /\ is_Some (w_conns w' !! c)).
Proof.
  intros Hw Hc Hm. destruct (wi_ep _ _ _ Hw c cn Hc) as (ep & He & _). destruct (wi_bufs _ _ _ Hw c cn Hc) as [Hr Hs].
  eapply wp_mono; [eapply on_conn_touches; try done; by apply (wi_msg _ _ _ Hw)|]. intros a w' Ht. cbn beta in Ht.
  split; [by eapply touched_effect|]. split; [by eapply touched_winv|].
  destruct (touched_same _ _ _ Ht) as (Es & _ & _ & Hsome & _). split; [done|]. apply Hsome. by eexists.
Qed.

(** The connection was shut down. *)
Definition offline (c : nat) w : Prop :=
  exists cn ep, w_conns w !! c = Some cn /\ w_eps w !! cn_endpoint cn = Some ep /\ IsOnline ep = false.

Lemma steps_shutdown_again c notify ev w :
  offline c w -> steps (on_conn c (Connection_Shutdown notify ev)) [] w (fun _ w' => w' = w).
Proof.
  intros (cn & ep & Hc & He & Hoff). unfold steps, wp, on_conn. rewrite Hc, He, Connection_Shutdown_offline by done.
  cbn. rewrite !insert_id by done.
  assert (w_with_ct (w_ct w) (w_with_eps (w_eps w) (w_with_conns (w_conns w) (w_held w) (w_with_os (w_os w) w))) = w) as ->
    by (by destruct w).
  split; [apply effect_refl|done].
Qed.

(** Shutting a connection down closes its descriptor. *)
Lemma steps_shutdown_online {P} h d d' c cn ep notify ev w :
  inv_with P h d w -> w_conns w !! c = Some cn -> w_eps w !! cn_endpoint cn = Some ep -> holds_fd ep ->
  (forall x, d = Some x -> d' = Some x) ->
  (forall x, IsOnline x = false -> P d' c x) -> (forall y x, y <> c -> P d y x -> P d' y x) ->
  steps (on_conn c (Connection_Shutdown notify ev)) [] w
    (fun _ w' => inv_with P h d' w' /\ w_slots w' = w_slots w /\ offline c w').
Proof.
  intros Hw Hc He Hfd Hd HPc HPo.
  assert (ei_attached ep = true) as Hatt.
  { destruct (wi_ep _ _ _ Hw c cn Hc) as (x & Hx & Ha & _). rewrite He in Hx. by injection Hx as <-. }
  destruct (wi_bufs _ _ _ Hw c cn Hc) as [Hr Hs].
  set (s := {| cs_os := w_os w; cs_ep := ep; cs_cn := cn; cs_out := [] |}).
  pose proof (Connection_Shutdown_online notify ev s Hfd) as Hsh. unfold steps, wp, on_conn in *. rewrite Hc, He. fold s.
  destruct (Connection_Shutdown notify ev s) as [[a s']| | |]; [|done..].
  destruct Hsh as (t & Et & Ho & Hcl & Eep & _ & Ecn). cbn in *.
  destruct (holds_fd_spec ep Hfd) as (Hon & _ & _).
  pose proof (serve_all_grows (fun e => is_Some (w_eps w !! e)) (cn_endpoint cn) (cs_out s') (w_ct w) (wi_msg _ _ _ Hw)
    (mk_is_Some _ _ He)) as (q & n & Ect & Hn & Hq & Hr').
  set (w' := w_with_ct _ _).
  assert (same_ids cn (cs_cn s')) as Hids by (by rewrite Ecn).
  assert (forall x y, w_conns w' !! x = Some y -> exists z, w_conns w !! x = Some z /\ same_ids z y) as Hget.
  { intros x y. cbn. destruct (decide (c = x)) as [<-|Hne]; [rewrite lookup_insert_eq; intros [= <-]; eauto|].
    rewrite lookup_insert_ne by done. intros Hx. by exists y. }
  assert (forall x, is_Some (w_conns w !! x) -> is_Some (w_conns w' !! x)) as Hsome.
  { intros x Hx. cbn. destruct (decide (c = x)) as [<-|Hne]; [rewrite lookup_insert_eq; by eexists|by rewrite lookup_insert_ne by done]. }
  assert (w_slots w' = w_slots w /\ ct_option (w_ct w') = ct_option (w_ct w) /\ ct_magic_number (w_ct w') = ct_magic_number (w_ct w)) as (Es & Eo & Em).
  { unfold w', w_slots. cbn. by rewrite Ect. }
  split; [|split; [|split; [done|]]].
  - split.
    + exists t. split; [done|]. split; [done|]. rewrite Hcl, app_nil_r. unfold open_fds. cbn.
      rewrite (fds_split (w_eps w) (w_conns w) c cn Hc).
      rewrite <- (insert_delete_eq (w_conns w) c (cs_cn s')), fds_insert by apply lookup_delete_eq.
      destruct Hids as [Ei _]. unfold conn_fd at 1 2. rewrite Ei, lookup_insert_eq, Eep, He, Hon, IsOnline_closed. cbn.
      f_equiv. rewrite (fds_ext (w_eps w)); [done|]. intros x y Hx.
      apply lookup_delete_Some in Hx as [Hne Hx]. rewrite lookup_insert_ne; [done|].
      intros E. apply Hne. by eapply (wi_ep_inj _ _ _ Hw).
    + done.
    + by rewrite Es.
    + intros e. cbn. destruct (decide (cn_endpoint cn = e)) as [<-|Hne]; [rewrite lookup_insert_eq; by eexists|].
      by rewrite lookup_insert_ne by done.
  - destruct Hw. split; rewrite ?Es, ?Eo, ?Em; try done.
    + intros x Hx. apply Hsome. auto.
    + intros m x Hx. apply Hsome. eauto.
    + intros x y Hx. destruct (Hget _ _ Hx) as (z & Hz & _).
      destruct (wi_live0 _ _ Hz) as [?|[?|?]]; [by left|by right; left|right; right; by apply Hd].
    + intros x y Hx. destruct (Hget _ _ Hx) as (z & Hz & [Ez _]). rewrite Ez. cbn.
      destruct (decide (c = x)) as [<-|Hne].
      * rewrite Hc in Hz. injection Hz as <-. rewrite lookup_insert_eq, Eep. eexists. split; [done|]. split; [done|].
        apply HPc, IsOnline_closed.
      * destruct (wi_ep0 x z Hz) as (ep' & He' & Ha' & Hf'). exists ep'. rewrite lookup_insert_ne.
        -- split; [done|]. split; [done|]. by apply HPo.
        -- intros E. apply Hne. by eapply wi_ep_inj0.
    + intros x y. cbn. destruct (decide (c = x)) as [<-|Hne]; [rewrite lookup_insert_eq|rewrite lookup_insert_ne by done; eauto].
      intros [= <-]. rewrite Ecn. cbn. by split; apply SliceBuffer_new_wf.
    + intros x x' y y' Hx Hx'. destruct (Hget _ _ Hx) as (z & Hz & [Ez _]), (Hget _ _ Hx') as (z' & Hz' & [Ez' _]).
      rewrite Ez, Ez'. eauto.
    + intros x y Hx. destruct (Hget _ _ Hx) as (z & Hz & _). cbn. eauto.
    + cbn. rewrite Ect. by apply Hn.
    + cbn. rewrite Ect. by apply Hq.
    + cbn. rewrite Ect. intros m Hm. assert (is_Some (w_eps w !! mn_ep m)) as Hsm by (destruct (Hr' m Hm); auto).
      destruct (decide (cn_endpoint cn = mn_ep m)) as [E|Hne]; [rewrite E, lookup_insert_eq; by eexists|].
      by rewrite lookup_insert_ne by done.
    + intros e obj. cbn. intros Hobj. assert (exists o, w_eps w !! e = Some o /\ ei_connection_id obj = ei_connection_id o /\
        ei_listen_port obj = ei_listen_port o) as (o & Hoo & Ei & Ep).
      { destruct (decide (cn_endpoint cn = e)) as [<-|Hne]; [rewrite lookup_insert_eq, Eep in Hobj|rewrite lookup_insert_ne in Hobj by done; eauto].
        injection Hobj as <-. by exists ep. }
      destruct (wi_ids0 e o Hoo) as [Hp Hid]. split; [by rewrite Ep|]. rewrite Ei.
      unfold id_in_range, CheckConnectionId. cbn. rewrite Ect. exact Hid.
    + cbn. rewrite Eep. apply ot_insert_ep; [apply ot_insert_conn; [done|rewrite (proj2 Hids); by eapply ot_conns]|].
      destruct (ot_eps _ _ _ wi_typed0 _ _ He) as (_ & ? & ?). done.
  - exists (cs_cn s'), (cs_ep s'). cbn. rewrite lookup_insert_eq, (proj1 Hids), lookup_insert_eq, Eep.
    split_and!; [done..|apply IsOnline_closed].
Qed.

(** ... and dooms it. *)
Lemma steps_shutdown h c cn notify ev w :
  winv h None w -> w_conns w !! c = Some cn ->
  steps (on_conn c (Connection_Shutdown notify ev)) [] w
    (fun _ w' => winv h (Some c) w' /\ w_slots w' = w_slots w /\ is_Some (w_conns w' !! c)).
Proof.
  intros Hw Hc. destruct (wi_ep _ _ _ Hw c cn Hc) as (ep & He & Hatt & Hfd).
  eapply steps_mono; [eapply (steps_shutdown_online _ _ (Some c)); [exact Hw|done|exact He|exact Hfd|done| |]|].
  - intros x Hx. unfold alone. by rewrite decide_True.
  - intros y x Hy. unfold alone. by rewrite !decide_False by congruence.
  - cbn beta. intros _ w' (Hw' & Es & cn' & _ & Hc' & _). split; [done|]. split; [done|]. by exists cn'.
Qed.
End OnConn.

(** ** Slots and shared pointers *)

Section Slots.
Context {K : Type} `{Kernel K}.
Implicit Types w : world K.

Lemma winv_slots {P} h d w t :
  inv_with P h d w -> slots_wf t ->
  (length (st_mgr (w_slots w)) <= length (st_mgr t))%nat ->
  Z.of_nat (length (st_mgr t)) <= op_max_container_size (ct_option (w_ct w)) ->
  (forall n c, st_conn t n = Some c -> st_conn (w_slots w) n = Some c) ->
  (forall n c, st_conn (w_slots w) n = Some c -> st_conn t n = Some c \/ c ∈ h \/ d = Some c) ->
  (forall e, e ∈ st_records t -> is_i64 e.1) ->
  inv_with P h d (w_with_slots t w).
Proof using Type.
  intros [] Hw Hl Hmax Hsub Hsup Hdl. split; cbn; try done; unfold w_slots in *; cbn in *.
  - lia.
  - eauto.
  - intros c cn Hc. destruct (wi_live0 c cn Hc) as [[n Hn]|[?|?]]; auto.
    destruct (Hsup n c Hn) as [?|[?|?]]; eauto.
  - eauto.
  - intros e obj He. destruct (wi_ids0 e obj He) as [Hp Hid]. split; [done|]. intros idx Hidx. specialize (Hid idx Hidx). cbn. lia.
Qed.

Lemma effect_slots w t : (length (st_mgr (w_slots w)) <= length (st_mgr t))%nat -> effect [] w (w_with_slots t w).
Proof using Type. intros Hl. by apply effect_pure. Qed.

Lemma steps_on_slots {A} (f : SlotTable -> outcome (A * SlotTable)) w (Q : A -> world K -> Prop) :
  (exists a t, f (w_slots w) = Ret (a, t) /\ (length (st_mgr (w_slots w)) <= length (st_mgr t))%nat /\
    Q a (w_with_slots t w)) ->
  steps (on_slots f) [] w Q.
Proof using Type.
  intros (a & t & E & Hl & HQ). unfold steps, wp, on_slots. rewrite E. split; [by apply effect_slots|done].
Qed.

Lemma w_with_slots_id w : w_with_slots (w_slots w) w = w.
Proof using Type. by destruct w as [? ? ? ? ? ? [] ?]. Qed.

(** Reading a slot. *)
Lemma steps_read_slot {A} (g : ConnectionInfo -> A) n w (Q : A -> world K -> Prop) :
  (n < length (st_mgr (w_slots w)))%nat ->
  (forall s, st_slot (Z.of_nat n) (w_slots w) = Ret s -> s.1 = st_conn (w_slots w) n -> Q (g s) w) ->
  steps (on_slots (fun t => match st_slot (Z.of_nat n) t with Ret s => Ret (g s, t) | _ => Undef end)) [] w Q.
Proof using Type.
  intros Hn HQ. apply steps_on_slots.
  destruct (lookup_lt_is_Some_2 _ _ Hn) as [s Hs].
  assert (st_slot (Z.of_nat n) (w_slots w) = Ret s) as E by (unfold st_slot; by rewrite Nat2Z.id, Hs).
  rewrite E. exists (g s), (w_slots w). split; [done|]. split; [done|]. rewrite w_with_slots_id. apply HQ; [done|].
  unfold st_conn. by rewrite Hs.
Qed.

Lemma winv_hold {P} h c d w :
  inv_with P h d w -> is_Some (w_conns w !! c) -> inv_with P (c :: h) d (w_with_conns (w_conns w) (c :: h) w).
Proof using Type.
  intros [] Hc. split; cbn; try done.
  - intros x [->|Hx]%elem_of_cons; auto.
  - intros x y Hx. destruct (wi_live0 x y Hx) as [?|[Hn|?]]; auto. right. left. by right.
Qed.

(** A reference goes; the connection is doomed, or something else still refers to it. *)
Lemma winv_unhold {P} h h' c d w :
  inv_with P h d w -> h ≡ₚ c :: h' ->
  d = Some c \/ (exists n, st_conn (w_slots w) n = Some c) \/ c ∈ h' -> inv_with P h' d (w_with_conns (w_conns w) h' w).
Proof using Type.
  intros [] Hh Hc. split; cbn; try done.
  - intros x Hx. apply wi_held_live0. rewrite Hh. by right.
  - intros x y Hx. destruct (wi_live0 x y Hx) as [?|[Hn|?]]; auto.
    rewrite Hh in Hn. apply elem_of_cons in Hn as [->|?]; [destruct Hc as [?|[?|?]]|]; auto.
Qed.

(** A connection found in a slot is held. *)
Definition hold_found (r : option nat) w : world K :=
  match r with Some c => w_with_conns (w_conns w) (c :: w_held w) w | None => w end.

Lemma GetConnection_spec {P} h d n w :
  inv_with P h d w -> (n < length (st_mgr (w_slots w)))%nat ->
  wp (GetConnection (Z.of_nat n)) w (fun r w' =>
    r = st_conn (w_slots w) n /\ w' = hold_found r w).
Proof using Type.
  intros Hw Hn. unfold GetConnection. apply wp_bind.
  eapply wp_mono; [apply (steps_read_slot fst n w (fun r w' => r = st_conn (w_slots w) n /\ w' = w)); done|].
  intros obj w1 (_ & -> & ->). destruct (st_conn (w_slots w) n) as [c|]; [|by apply wp_ret].
  by apply wp_bind, wp_modify, wp_ret.
Qed.

Lemma steps_GetConnection {P} h d n w :
  inv_with P h d w -> (n < length (st_mgr (w_slots w)))%nat ->
  steps (GetConnection (Z.of_nat n)) [] w (fun r w' =>
    match r with
    | None => inv_with P h d w'
    | Some c => inv_with P (c :: h) d w' /\ st_conn (w_slots w') n = Some c /\ is_Some (w_conns w' !! c)
    end /\ w_slots w' = w_slots w /\ w_ct w' = w_ct w /\ w_conns w' = w_conns w).
Proof using Type.
  intros Hw Hn. eapply wp_mono; [by eapply GetConnection_spec|]. intros r w' [Er ->].
  destruct (st_conn (w_slots w) n) as [c|] eqn:Ec; subst r; [|by split; [apply effect_refl|]].
  split; [by apply effect_pure|]. split; [|done]. pose proof (wi_slot _ _ _ Hw n c Ec) as Hc.
  split; [|done]. cbn. rewrite (wi_held _ _ _ Hw). by apply winv_hold.
Qed.

Lemma in_slots_spec c t : in_slots c t = true <-> exists n, st_conn t n = Some c.
Proof using Type.
  unfold in_slots, st_conn. rewrite existsb_exists. split.
  - intros ([f it] & Hin & E). apply list_elem_of_In, list_elem_of_lookup in Hin as [n Hn]. exists n. rewrite Hn. cbn.
    destruct f; [|done]. cbn in E. by apply Nat.eqb_eq in E as ->.
  - intros [n Hn]. destruct (st_mgr t !! n) as [s|] eqn:E; [|done]. cbn in Hn. exists s. split.
    + apply list_elem_of_In. by eapply list_elem_of_lookup_2.
    + rewrite Hn. apply Nat.eqb_refl.
Qed.

(** Dropping a connection something else still refers to. *)
Lemma steps_drop_shared {P} h d c w :
  inv_with P h d w -> c ∈ h \/ (exists n, st_conn (w_slots w) n = Some c) ->
  steps (drop_connection c) [] w (fun _ w' => w' = w).
Proof using Type.
  intros Hw Hc. unfold drop_connection. apply steps_gets. cbn.
  assert (bool_decide (c ∈ w_held w) || in_slots c (w_slots w) = true) as ->; [|by apply steps_ret].
  rewrite (wi_held _ _ _ Hw). apply orb_true_iff. destruct Hc; [left; by apply bool_decide_eq_true_2|right; by apply in_slots_spec].
Qed.

Lemma winv_undoom {P} h c w :
  inv_with P h (Some c) w -> c ∉ h -> (forall n, st_conn (w_slots w) n <> Some c) ->
  (forall y x, y <> c -> P (Some c) y x -> P None y x) ->
  inv_with P h None (w_with_conns (base.delete c (w_conns w)) h w).
Proof using Type.
  intros [] Hh Hc HP. split; cbn; try done.
  - intros x Hx. rewrite lookup_delete_ne; [auto|]. by intros <-.
  - intros n x Hx. rewrite lookup_delete_ne; [eauto|]. intros <-. by apply (Hc n).
  - intros x y [Hne Hx]%lookup_delete_Some. destruct (wi_live0 x y Hx) as [?|[?|[= ->]]]; auto. done.
  - intros x y [Hne Hx]%lookup_delete_Some. destruct (wi_ep0 x y Hx) as (ep & He & Ha & Hf). eauto 6.
  - intros x y [_ Hx]%lookup_delete_Some. eauto.
  - intros x x' y y' [_ Hx]%lookup_delete_Some [_ Hx']%lookup_delete_Some. eauto.
  - intros x y [_ Hx]%lookup_delete_Some. eauto.
  - by apply ot_delete_conn.
Qed.

(** The memory of a connection that was shut down and that nothing refers to is freed. *)
Lemma steps_forget {P} h c w :
  inv_with P h (Some c) w -> offline c w -> c ∉ h -> (forall n, st_conn (w_slots w) n <> Some c) ->
  (forall y x, y <> c -> P (Some c) y x -> P None y x) ->
  steps (modify (fun w => w_with_conns (base.delete c (w_conns w)) (w_held w) w)) [] w
    (fun _ w' => inv_with P h None w' /\ w_slots w' = w_slots w /\ w_ct w' = w_ct w).
Proof using Type.
  intros Hw (cn & ep & Hc & He & Hoff) Hh Hn HP. unfold steps. apply wp_modify. rewrite (wi_held _ _ _ Hw).
  split; [|split; [by apply winv_undoom|done]]. apply effect_pure; [done| |done..]. unfold open_fds. cbn.
  rewrite (fds_split _ (w_conns w) c cn Hc). unfold conn_fd at 1. by rewrite He, Hoff.
Qed.

(** The last shared pointer to a connection runs its destructor. *)
Lemma drop_connection_last {P} h d c w :
  inv_with P h d w -> c ∉ h -> (forall n, st_conn (w_slots w) n <> Some c) ->
  drop_connection c w = (_ ← on_conn c Connection_dtor;
    modify (fun w => w_with_conns (base.delete c (w_conns w)) (w_held w) w)) w.
Proof using Type.
  intros Hw Hh Hn. unfold drop_connection, mbind at 1, M_bind at 1, gets, id. cbn.
  assert (bool_decide (c ∈ w_held w) || in_slots c (w_slots w) = false) as ->; [|done].
  rewrite (wi_held _ _ _ Hw). apply orb_false_iff. split; [by apply bool_decide_eq_false_2|].
  destruct (in_slots c (w_slots w)) eqn:E; [|done]. apply in_slots_spec in E as [n E]. by destruct (Hn n).
Qed.

(** ... which finds a connection that was shut down offline. *)
Lemma steps_drop_last c w :
  winv [] (Some c) w -> is_Some (w_conns w !! c) -> (forall n, st_conn (w_slots w) n <> Some c) ->
  steps (drop_connection c) [] w (fun _ w' => winv [] None w' /\ w_slots w' = w_slots w /\ w_ct w' = w_ct w).
Proof using Type.
  intros Hw [cn Hc] Hn. destruct (wi_ep _ _ _ Hw c cn Hc) as (ep & He & _ & Hoff). unfold alone in Hoff.
  rewrite decide_True in Hoff by done. assert (offline c w) as Ho by (by exists cn, ep).
  assert (c ∉ []) as Hh by (by intros ?%elem_of_nil).
  unfold steps, wp. rewrite (drop_connection_last [] (Some c) c w Hw Hh Hn).
  eapply (steps_bind _ _ _ _ (fun _ w' => w' = w)); [by apply steps_shutdown_again|]. intros _ w1 ->.
  apply steps_forget; [done..|]. intros y x Hy. unfold alone. by rewrite !decide_False by congruence.
Qed.

Lemma steps_release c w d :
  winv [c] d w -> is_Some (w_conns w !! c) ->
  d = None /\ (exists n, st_conn (w_slots w) n = Some c) \/ d = Some c /\ (forall n, st_conn (w_slots w) n <> Some c) ->
  steps (release c) [] w (fun _ w' => winv [] None w').
Proof using Type.
  intros Hw Hc Hd. unfold release.
  eapply (steps_bind _ _ _ _ (fun _ w' => w' = w_with_conns (w_conns w) [] w)).
  { unfold steps. apply wp_modify. rewrite (wi_held _ _ _ Hw).
    assert (remove_one c [c] = []) as -> by (unfold remove_one; cbn; by rewrite decide_True by done).
    split; [by apply effect_pure|done]. }
  intros _ w1 ->. destruct Hd as [[-> Hn]|[-> Hn]].
  - eapply steps_mono; [eapply steps_drop_shared; [apply (winv_unhold [c] [] c); eauto|by right]|].
    intros _ w' ->. eapply (winv_unhold [c] [] c); eauto.
  - eapply steps_mono; [eapply steps_drop_last; [apply (winv_unhold [c] [] c); eauto|done|done]|]. by intros _ w' [? _].
Qed.

(** Freeing the slot of a connection. *)
Lemma st_release_conn t n c t' :
  st_conn t n = Some c -> st_mgr t' = <[n := (None, None)]> (st_mgr t) ->
  st_conn t' n = None /\ (forall m, m <> n -> st_conn t' m = st_conn t m).
Proof using Type.
  intros Hn E. unfold st_conn in *. rewrite E. destruct (st_mgr t !! n) as [s|] eqn:Es; [|done].
  split; [by rewrite list_lookup_insert_eq by (by eapply lookup_lt_Some)|].
  intros m Hm. by rewrite list_lookup_insert_ne by done.
Qed.

Lemma winv_free {P} h c n w t' it d0 :
  inv_with P h (Some c) w -> st_holds (w_slots w) n c it d0 -> st_release (Z.of_nat n) (w_slots w) = Ret t' -> slots_wf t' ->
  st_mgr t' = <[n := (None, None)]> (st_mgr (w_slots w)) ->
  inv_with P h (Some c) (w_with_slots t' w) /\ (forall m, st_conn t' m <> Some c) /\
  length (st_mgr t') = length (st_mgr (w_slots w)).
Proof using Type.
  intros Hw Hh Hrel Hw' E. assert (st_conn (w_slots w) n = Some c) as Hn.
  { apply st_conn_Some; [apply (wi_slots _ _ _ Hw)|eauto]. }
  destruct (st_release_conn _ _ _ _ Hn E) as [H1 H2].
  assert (length (st_mgr t') = length (st_mgr (w_slots w))) as Hl by (by rewrite E, length_insert).
  split; [|split; [|done]].
  - apply winv_slots; [done|done|lia|rewrite Hl; apply (wi_size _ _ _ Hw)| | |].
    + intros m x Hm. destruct (decide (m = n)) as [->|Hne]; [congruence|]. by rewrite <- H2.
    + intros m x Hm. destruct (decide (m = n)) as [->|Hne]; [right; right; congruence|]. left. by rewrite H2.
    + intros e He. apply (wi_deadlines _ _ _ Hw). by eapply st_release_records.
  - intros m Hm. destruct (decide (m = n)) as [->|Hne]; [congruence|]. rewrite H2 in Hm by done.
    apply Hne. by eapply (wi_inj _ _ _ Hw).
Qed.

Lemma steps_DeleteConnection n c w :
  winv [c] (Some c) w -> st_conn (w_slots w) n = Some c ->
  steps (DeleteConnection (Z.of_nat n)) [] w (fun _ w' =>
    winv [c] (Some c) w' /\ w_conns w' = w_conns w /\ forall m, st_conn (w_slots w') m <> Some c).
Proof using Type.
  intros Hw Hn. pose proof (wi_slots _ _ _ Hw) as Hs. apply st_conn_Some in Hn as (it & d0 & Hh); [|done].
  destruct (st_release_spec _ n c it d0 Hs Hh) as (t' & E & Hw' & Emgr & _).
  destruct (winv_free _ c n w t' it d0 Hw Hh E Hw' Emgr) as (Hinv & Hno & Hl).
  unfold DeleteConnection. eapply (steps_bind _ _ _ _ (fun r w' => r = Some c /\ w' = w_with_slots t' w)).
  { apply steps_on_slots. exists (Some c), t'. split; [|split; [lia|done]]. unfold st_delete.
    destruct Hh as [Hm _]. unfold st_slot. rewrite Nat2Z.id, Hm, E. done. }
  intros r w1 [-> ->]. eapply steps_mono; [eapply steps_drop_shared; [exact Hinv|left; by left]|].
  intros _ w' ->. done.
Qed.
End Slots.

(** ** The methods *)

Section Methods.
Context {K : Type} `{Kernel K} `{!KernelIO K} `{LibC}.
Implicit Types w : world K.
Variable OnCheckPackageLength : EndpointImpl -> list cell -> Z.
Variable recv_fuel : nat.
Hypothesis Hfits : forall ep, header_fits (OnCheckPackageLength ep).
Hypothesis Hshort : forall fd k, short_within recv_fuel fd k.

Lemma winv_os {P} h d o w : inv_with P h d w -> inv_with P h d (w_with_os o w).
Proof using Type. intros []. by split. Qed.

Lemma steps_on_os {A} (m : M (os K) A) w :
  quiet m -> steps (on_os m) [] w (fun _ w' => exists o, w' = w_with_os o w).
Proof using Type.
  intros Hm. unfold steps, on_os. apply wp_zoom. eapply wp_mono; [apply Hm|]. cbn. intros a o (t & Et & Ho & Hc).
  split; [|by exists o]. split; [|done..]. exists t. cbn. rewrite Hc, !app_nil_r. done.
Qed.

Lemma quiet_now : quiet (K := K) GetCurrentMilliseconds.
Proof using Type. unfold GetCurrentMilliseconds. auto with quiet. Qed.

Lemma steps_deadline_now w : steps deadline_now [] w (fun n w' => is_i64 n /\ exists o, w' = w_with_os o w).
Proof using Type.
  unfold deadline_now. eapply steps_bind; [apply steps_on_os, quiet_now|]. cbn beta. intros n w1 [o ->].
  apply steps_gets, steps_ret. split; [apply i64_range|by exists o].
Qed.

Lemma steps_RefreshTime {P} h d n c w :
  inv_with P h d w -> st_conn (w_slots w) n = Some c ->
  steps (RefreshTime (Z.of_nat n)) [] w (fun _ w' =>
    inv_with P h d w' /\ st_conn (w_slots w') n = Some c /\ w_conns w' = w_conns w).
Proof using Type.
  intros Hw Hn. pose proof (wi_slots _ _ _ Hw) as Hs. pose proof Hn as Hn'.
  apply st_conn_Some in Hn' as (it & d0 & Hh); [|done].
  assert (n < length (st_mgr (w_slots w)))%nat as Hlt by (by eapply lookup_lt_Some, Hh).
  unfold RefreshTime. eapply (steps_bind _ _ _ _ (fun r w' => r = Some c /\ w' = w)).
  { eapply (steps_read_slot fst); [done..|]. intros s _ ->. by rewrite Hn. }
  intros r w1 [-> ->]. eapply steps_bind; [apply steps_deadline_now|]. cbn beta. intros dl w1 [Hdl [o ->]].
  destruct (st_refresh_spec _ n c it d0 dl Hs Hh) as (t' & E & Hw' & Emgr & Efree & Hh' & Hoth).
  assert (forall m, st_conn t' m = st_conn (w_slots w) m) as Hsame.
  { intros m. unfold st_conn. rewrite Emgr. destruct (decide (m = n)) as [->|Hne].
    - rewrite list_lookup_insert_eq by done. cbn. by rewrite (proj1 Hh).
    - by rewrite list_lookup_insert_ne by done. }
  apply steps_on_slots. exists tt, t'. cbn. unfold w_slots at 1. cbn. fold (w_slots w). rewrite E.
  assert (length (st_mgr t') = length (st_mgr (w_slots w))) as Hl by (by rewrite Emgr, length_insert).
  split; [done|]. unfold w_slots at 1. cbn. fold (w_slots w). split; [lia|]. split; [|split; [|done]].
  - apply winv_slots; [by apply winv_os|done|cbn; unfold w_slots in *; cbn; lia| | | |].
    + rewrite Hl. apply (wi_size _ _ _ Hw).
    + intros m x. unfold w_slots. cbn. by rewrite Hsame.
    + intros m x. unfold w_slots. cbn. rewrite Hsame. auto.
    + intros e He. destruct (st_refresh_records _ _ _ _ e E He) as [->|?]; [done|by apply (wi_deadlines _ _ _ Hw)].
  - cbn. by rewrite Hsame.
Qed.

Lemma steps_close_and_delete n c err w :
  winv [c] None w -> st_conn (w_slots w) n = Some c ->
  steps (close_and_delete c (Z.of_nat n) err) [] w (fun _ w' =>
    winv [c] (Some c) w' /\ is_Some (w_conns w' !! c) /\ forall m, st_conn (w_slots w') m <> Some c).
Proof using Type.
  intros Hw Hn. destruct (wi_slot _ _ _ Hw n c Hn) as [cn Hc]. unfold close_and_delete.
  eapply steps_bind; [by eapply steps_shutdown|]. cbn beta. intros _ w1 (Hw1 & Es & Hl).
  eapply steps_mono; [apply (steps_DeleteConnection n c); [done|by rewrite Es]|].
  cbn beta. intros _ w2 (Hw2 & Ec & Hno). by rewrite Ec.
Qed.

(** The handlers share their frame: look the connection up, use it, release it. *)
Lemma steps_with_connection {A} n (f : nat -> M (world K) A) (b : A) w :
  winv [] None w -> (n < length (st_mgr (w_slots w)))%nat ->
  (forall c w1, winv [c] None w1 -> st_conn (w_slots w1) n = Some c -> is_Some (w_conns w1 !! c) ->
    w_ct w1 = w_ct w -> steps (f c) [] w1 (fun _ w2 => winv [] None w2)) ->
  steps (con ← GetConnection (Z.of_nat n); match con with None => mret b | Some c => f c end) [] w
    (fun _ w' => winv [] None w').
Proof using Type.
  intros Hw Hn Hf. eapply steps_bind; [by eapply steps_GetConnection|]. cbn beta.
  intros [c|] w1 (Hr & Es & Ect & Ec); [|by apply steps_ret]. destruct Hr as (Hw1 & Hc & Hl). by apply Hf.
Qed.

Lemma steps_close_release n c err w :
  winv [c] None w -> st_conn (w_slots w) n = Some c ->
  steps (_ ← close_and_delete c (Z.of_nat n) err; release c) [] w (fun _ w' => winv [] None w').
Proof using Type.
  intros Hw Hn. eapply steps_bind; [by apply steps_close_and_delete|]. cbn beta. intros _ w1 (Hw1 & Hl & Hno).
  eapply steps_release; [done|done|by right].
Qed.

Lemma steps_keep_release n c w :
  winv [c] None w -> st_conn (w_slots w) n = Some c -> is_Some (w_conns w !! c) ->
  steps (release c) [] w (fun _ w' => winv [] None w').
Proof using Type. intros Hw Hn Hl. eapply steps_release; [done|done|left; eauto]. Qed.

(** After the connection did its part of an event. *)
Lemma steps_event_tail n c (err : raptor_error) w :
  winv [c] None w -> st_conn (w_slots w) n = Some c -> is_Some (w_conns w !! c) ->
  steps (_ ← match err with None => RefreshTime (Z.of_nat n) | Some _ => close_and_delete c (Z.of_nat n) err end;
         release c) [] w (fun _ w' => winv [] None w').
Proof using Type.
  intros Hw Hn Hl. destruct err as [e|]; [by apply steps_close_release|].
  eapply steps_bind; [by eapply steps_RefreshTime|]. cbn beta. intros _ w1 (Hw1 & Hn1 & Ec).
  apply (steps_keep_release n c); [done|done|by rewrite Ec].
Qed.

Lemma steps_event n c (m : M (conn_state K) raptor_error) w :
  keeps m -> winv [c] None w -> st_conn (w_slots w) n = Some c ->
  steps (err ← on_conn c m;
         _ ← match err with None => RefreshTime (Z.of_nat n) | Some _ => close_and_delete c (Z.of_nat n) err end;
         release c) [] w (fun _ w' => winv [] None w').
Proof using Type.
  intros Hm Hw Hn. destruct (wi_slot _ _ _ Hw n c Hn) as [cn Hc].
  eapply steps_bind; [by eapply steps_on_conn|]. cbn beta. intros err w1 (Hw1 & Es & Hl).
  apply steps_event_tail; [done|by rewrite Es|done].
Qed.

(** The index an id names. *)
Lemma check_index {P} cid w h d idx :
  inv_with P h d w -> id_in_range cid (w_ct w) -> CheckConnectionId cid (w_ct w) = Some idx ->
  exists n, idx = Z.of_nat n /\ (n < length (st_mgr (w_slots w)))%nat.
Proof using Type. intros Hw Hid E. specialize (Hid idx E). exists (Z.to_nat idx). unfold w_slots. lia. Qed.

Lemma steps_OnEventProcess detail w :
  winv [] None w -> id_in_range (ed_ptr detail) (w_ct w) ->
  steps (Container_OnEventProcess OnCheckPackageLength recv_fuel detail) [] w (fun _ w' => winv [] None w').
Proof using KernelIO0 Hfits Hshort.
  intros Hw Hid. unfold Container_OnEventProcess. apply steps_gets. cbn.
  destruct (CheckConnectionId (ed_ptr detail) (w_ct w)) as [idx|] eqn:E; [|by apply steps_ret].
  destruct (check_index _ _ _ _ _ Hw Hid E) as (n & -> & Hn).
  destruct (has _ kErrorEvent); [|destruct (has _ kRecvEvent); [|destruct (has _ kSendEvent); [|by apply steps_ret]]].
  - apply steps_with_connection; [done|done|]. intros c w1 Hw1 Hc _ _. by apply steps_close_release.
  - apply steps_with_connection; [done|done|]. intros c w1 Hw1 Hc _ _. apply steps_event; [|done|done].
    by apply keeps_do_recv.
  - apply steps_with_connection; [done|done|]. intros c w1 Hw1 Hc _ _. apply steps_event; [|done|done].
    apply keeps_do_send.
Qed.

Lemma steps_SendMsg cid s w :
  winv [] None w -> id_in_range cid (w_ct w) -> Slice_wf s ->
  steps (Container_SendMsg cid s) [] w (fun _ w' => winv [] None w').
Proof using Type.
  intros Hw Hid Hs. unfold Container_SendMsg. apply steps_gets. cbn.
  destruct (CheckConnectionId cid (w_ct w)) as [idx|] eqn:E; [|by apply steps_ret].
  destruct (check_index _ _ _ _ _ Hw Hid E) as (n & -> & Hn).
  apply steps_with_connection; [done|done|]. intros c w1 Hw1 Hc [cn Hl] _.
  eapply steps_bind; [eapply steps_on_conn; [done|done|by apply keeps_send]|]. cbn beta. intros r w2 (Hw2 & Es & Hl2).
  eapply steps_bind; [apply (steps_keep_release n c); [done|by rewrite Es|done]|]. cbn beta. intros _ w3 Hw3. by apply steps_ret.
Qed.

Lemma steps_CloseEndpoint ep notify obj w :
  winv [] None w -> w_eps w !! ep = Some obj ->
  steps (CloseEndpoint ep notify) [] w (fun _ w' => winv [] None w').
Proof using Type.
  intros Hw He. unfold CloseEndpoint. apply steps_gets. cbn. rewrite He.
  change (of_option (Some obj)) with (mret (M := M (world K)) obj).
  eapply (steps_bind _ _ _ _ (fun o w' => o = obj /\ w' = w)); [by apply steps_ret|]. intros o w0 [-> ->].
  destruct (wi_ids _ _ _ Hw ep obj He) as [_ Hid]. unfold ConnectionId.
  destruct (CheckConnectionId (ei_connection_id obj) (w_ct w)) as [idx|] eqn:E; [|by apply steps_ret].
  destruct (check_index _ _ _ _ _ Hw Hid E) as (n & -> & Hn).
  apply steps_with_connection; [done|done|]. intros c w1 Hw1 Hc [cn Hl] _.
  eapply steps_bind; [by eapply steps_shutdown|]. cbn beta. intros _ w2 (Hw2 & Es & Hl2).
  eapply steps_bind; [apply (steps_DeleteConnection n c); [done|by rewrite Es]|]. cbn beta. intros _ w3 (Hw3 & Ec & Hno).
  eapply steps_release; [done|by rewrite Ec|by right].
Qed.

(** ** Timeouts and timers *)

Lemma st_erase_head key rid index rest :
  mm_erase (fun v : nat * Z => (v.1 =? rid)%nat) ((key, (rid, index)) :: rest) = Some rest.
Proof using Type. cbn. by rewrite Nat.eqb_refl. Qed.

(** The connections whose deadline is after [now] stay where they are, the others are gone. *)
Definition expired (now : Z) (t t' : SlotTable) : Prop :=
  forall n c it d, st_holds t' n c it d <-> st_holds t n c it d /\ now < d.

Lemma none_expired now t : (forall e, e ∈ st_records t -> now < e.1) -> expired now t t.
Proof using Type. intros Hr n c it d. split; [|by intros [? _]]. intros Hh. split; [done|]. by apply (Hr _ (proj2 Hh)). Qed.

Lemma expired_head now n c rid key t t1 t' :
  slots_wf t -> st_holds t n c rid key -> key <= now ->
  (forall m c' it' d', st_holds t1 m c' it' d' <-> st_holds t m c' it' d' /\ m <> n) ->
  expired now t1 t' -> expired now t t'.
Proof using Type.
  intros Hs [Hn Hr] Hk H1 Ht m c' it' d'. rewrite (Ht m c' it' d'), (H1 m c' it' d'). split; [by intros [[? _] ?]|].
  intros [Hh Hd]. split; [|done]. split; [done|]. intros ->. destruct Hh as [Hm Hd'].
  rewrite Hn in Hm. injection Hm as <- <-.
  pose proof (holds_unique t n c rid key n Hs (conj Hn Hr) d' Hd') as E. lia.
Qed.

(** The loop, in any invariant [I] that erasing the first record, with what the source
    does to its connection, keeps. *)
Section TimeoutLoop.
Variable I : world K -> Prop.
Hypothesis I_wf : forall w, I w -> slots_wf (w_slots w).
Hypothesis expire_one : forall n c rid key t' ev w (f : M (world K) unit) Q,
  I w -> st_holds (w_slots w) n c rid key ->
  st_release (Z.of_nat n) (w_slots w) = Ret t' -> slots_wf t' -> st_mgr t' = <[n := (None, None)]> (st_mgr (w_slots w)) ->
  (forall w', I w' -> w_slots w' = t' -> steps f [] w' Q) ->
  steps (_ ← on_conn c (Connection_Shutdown true ev);
         _ ← on_slots (fun t => match st_release (Z.of_nat n) t with Ret t => Ret (tt, t) | _ => Undef end);
         _ ← drop_connection c; f) [] w Q.

Lemma steps_timeout_loop fuel : forall now w,
  I w -> (length (st_records (w_slots w)) <= fuel)%nat ->
  steps (timeout_loop fuel (st_begin (st_records (w_slots w))) now) [] w (fun _ w' =>
    I w' /\ expired now (w_slots w) (w_slots w')).
Proof using I_wf expire_one.
  induction fuel as [|fuel IH]; intros now w Hw Hf;
    destruct (st_records (w_slots w)) as [|[key [rid index]] rest] eqn:Er; cbn [st_begin head fmap option_fmap option_map timeout_loop];
    [|cbn in Hf; lia| |].
  1, 2: by apply steps_ret; split; [done|]; apply none_expired; rewrite Er; intros e ?%elem_of_nil.
  apply steps_gets. cbn. rewrite Er. cbn. unfold record_id. cbn. rewrite Nat.eqb_refl.
  pose proof (I_wf _ Hw) as Hs.
  destruct (Z.ltb_spec now key) as [Hk|Hk].
  { apply steps_ret. split; [done|]. apply none_expired. pose proof (wf_sorted _ Hs) as Hsort. rewrite Er in Hsort |- *.
    apply mm_sorted_head in Hsort. rewrite Forall_forall in Hsort.
    intros e [->|He]%elem_of_cons; [done|]. specialize (Hsort e He). unfold key_le in Hsort. cbn in *. lia. }
  assert ((key, (rid, index)) ∈ st_records (w_slots w)) as Hin by (rewrite Er; by left).
  destruct (wf_record _ Hs _ _ _ Hin) as (n & c & -> & Hn).
  assert (st_holds (w_slots w) n c rid key) as Hh by done.
  assert (n < length (st_mgr (w_slots w)))%nat as Hlt by (by eapply lookup_lt_Some).
  eapply (steps_bind _ _ _ _ (fun r w' => r = (Some c, Some rid) /\ w' = w)).
  { eapply (steps_read_slot (fun s => s)); [done..|]. intros s Es _. unfold st_slot in Es. rewrite Nat2Z.id, Hn in Es. by injection Es as <-. }
  intros r w0 [-> ->]. cbn [fst].
  change (of_option (Some c)) with (mret (M := M (world K)) c).
  eapply (steps_bind _ _ _ _ (fun r w' => r = c /\ w' = w)); [by apply steps_ret|]. intros r w0 [-> ->].
  destruct (st_release_spec _ n c rid key Hs Hh) as (t' & E & Hw' & Emgr & _ & Hperm & Eerase).
  pose proof (st_release_holds _ n c rid key t' Hs Hh Emgr Hperm) as Hholds.
  eapply expire_one; [done..|]. intros w3 Hw3 Es3.
  rewrite Er, st_erase_head in Eerase. injection Eerase as Erest.
  assert (st_records (w_slots w3) = rest) as Er3 by (by rewrite Es3).
  rewrite <- Er3. eapply steps_mono; [apply IH; [done|]; rewrite Er3; cbn in Hf; lia|].
  intros _ w4 [Hw4 He4]. split; [done|]. rewrite Es3 in He4. by eapply expired_head.
Qed.
End TimeoutLoop.

(** Alone, the loop shuts each connection down and destroys it. *)
Lemma expire_alone n c rid key t' ev w (f : M (world K) unit) Q :
  winv [] None w -> st_holds (w_slots w) n c rid key ->
  st_release (Z.of_nat n) (w_slots w) = Ret t' -> slots_wf t' -> st_mgr t' = <[n := (None, None)]> (st_mgr (w_slots w)) ->
  (forall w', winv [] None w' -> w_slots w' = t' -> steps f [] w' Q) ->
  steps (_ ← on_conn c (Connection_Shutdown true ev);
         _ ← on_slots (fun t => match st_release (Z.of_nat n) t with Ret t => Ret (tt, t) | _ => Undef end);
         _ ← drop_connection c; f) [] w Q.
Proof using Type.
  intros Hw Hh E Hw' Emgr Hf.
  destruct (wi_slot _ _ _ Hw n c) as [cn Hc]; [apply st_conn_Some; [apply (wi_slots _ _ _ Hw)|eauto]|].
  eapply steps_bind; [by eapply steps_shutdown|]. cbn beta. intros _ w1 (Hw1 & Es & Hl).
  rewrite <- Es in Hh, Emgr, E.
  destruct (winv_free _ c n w1 t' rid key Hw1 Hh E Hw' Emgr) as (Hinv & Hno & Hlen).
  eapply (steps_bind _ _ _ _ (fun _ w' => w' = w_with_slots t' w1)).
  { apply steps_on_slots. exists tt, t'. rewrite E. split; [done|]. split; [lia|done]. }
  intros _ w2 ->. eapply steps_bind; [by eapply steps_drop_last|]. cbn beta. intros _ w3 (Hw3 & Es3 & _).
  by apply Hf.
Qed.

Lemma winv_times {P} h d now w :
  inv_with P h d w -> inv_with P h d (w_with_ct (ct_with_times (ct_magic_number (w_ct w)) now (w_ct w)) w).
Proof using Type. intros []. by split. Qed.

Lemma steps_OnTimeoutCheck now w :
  winv [] None w ->
  steps (Container_OnTimeoutCheck now) [] w (fun _ w' => winv [] None w' /\
    (3000 <= now - ct_last_check_time (w_ct w) -> expired now (w_slots w) (w_slots w'))).
Proof using Type.
  intros Hw. unfold Container_OnTimeoutCheck. apply steps_gets. cbn. destruct (Z.ltb_spec (now - ct_last_check_time (w_ct w)) 3000); [apply steps_ret; split; [done|lia]|].
  eapply (steps_bind _ _ _ _ (fun _ w' => w' = w_with_ct (ct_with_times (ct_magic_number (w_ct w)) now (w_ct w)) w)).
  { unfold steps. apply wp_modify. split; [by apply effect_pure|done]. }
  intros _ w1 ->. set (w1 := w_with_ct _ w).
  eapply steps_mono; [apply (steps_timeout_loop (winv [] None)) with (w := w1); [intros x Hx; apply (wi_slots _ _ _ Hx)|exact expire_alone|by apply winv_times|done]|]. by intros _ w' [? ?].
Qed.

Lemma winv_threads {P} h d sd ts r p b t w :
  inv_with P h d w -> inv_with P h d (w_with_ct (ct_with_threads sd ts r p b t (w_ct w)) w).
Proof using Type. intros []. by split. Qed.

Lemma quiet_set_timer a b d t : quiet (K := K) (Timer_SetTimer a b d t).
Proof using Type. unfold Timer_SetTimer, GetCurrentMilliseconds. auto with quiet. Qed.

Lemma steps_SetTimer {P} h d a b delay w :
  inv_with P h d w -> steps (SetTimer a b delay) [] w (fun _ w' =>
    inv_with P h d w' /\ w_slots w' = w_slots w /\ w_conns w' = w_conns w).
Proof using Type.
  intros Hw. unfold SetTimer. apply steps_gets. cbn. destruct (ct_timer_thread (w_ct w)) as [t|]; [|by apply steps_ret].
  eapply steps_bind; [apply steps_on_os, quiet_set_timer|]. cbn beta. intros t' w1 [o ->].
  unfold steps. apply wp_modify. split; [by apply effect_pure|]. split; [|done].
  apply winv_threads. by apply winv_os.
Qed.

Lemma winv_queue {P} h d w c :
  inv_with P h d w -> queue_grows (fun e => is_Some (w_eps w !! e)) (w_ct w) c -> inv_with P h d (w_with_ct c w).
Proof using Type.
  intros [] (q & n & -> & Hn & Hq & Hr). split; cbn; try done; auto.
  intros m Hm. destruct (Hr m Hm); auto.
Qed.

Lemma effect_queue P w c : queue_grows P (w_ct w) c -> effect [] w (w_with_ct c w).
Proof using Type. intros (q & n & -> & _). by apply effect_pure. Qed.

Lemma timer_event_grows (P : nat -> Prop) ep c : P ep -> queue_grows P c (Container_OnTimerEvent ep c).
Proof using Type.
  intros HP. unfold Container_OnTimerEvent. destruct (op_heartbeat_handler (ct_option c)) eqn:E; [|apply queue_grows_refl].
  apply push_message_grows; [unfold handled; cbn; by rewrite E|done].
Qed.

Lemma steps_OnTimer n tid2 w :
  winv [] None w -> (n < length (st_mgr (w_slots w)))%nat -> is_Some (op_heartbeat_handler (ct_option (w_ct w))) ->
  steps (Container_OnTimer (Z.of_nat n) tid2) [] w (fun _ w' => winv [] None w').
Proof using Type.
  intros Hw Hn [interval Hi]. unfold Container_OnTimer. apply steps_with_connection; [done|done|].
  intros c w1 Hw1 Hc [cn Hl] Ect. apply steps_gets. cbn. rewrite Hl.
  change (of_option (Some cn)) with (mret (M := M (world K)) cn).
  eapply (steps_bind _ _ _ _ (fun o w' => o = cn /\ w' = w1)); [by apply steps_ret|]. intros o w0 [-> ->].
  assert (is_Some (w_eps w1 !! cn_endpoint cn)) as He1.
  { destruct (wi_ep _ _ _ Hw1 c cn Hl) as (ep & He & _). by exists ep. }
  eapply (steps_bind _ _ _ _ (fun _ w' => winv [c] None w' /\ w_slots w' = w_slots w1 /\ is_Some (w_conns w' !! c) /\
    is_Some (w_eps w' !! cn_endpoint cn))).
  { eapply wp_mono; [eapply steps_on_conn; [done|done|apply keeps_is_online]|]. cbn beta. intros online w2 (He2 & Hw2 & Es & Hl2).
    split_and!; try done. by apply (ef_eps _ _ _ He2). }
  intros online w2 (Hw2 & Es & Hl2 & Hep).
  eapply (steps_bind _ _ _ _ (fun _ w' => winv [c] None w' /\ w_slots w' = w_slots w2 /\ w_conns w' = w_conns w2)).
  - destruct (_ && online); [|by apply steps_ret].
    assert (op_heartbeat_handler (ct_option (w_ct w1)) = Some interval) as Hi1 by (by rewrite Ect).
    eapply (steps_bind _ _ _ _ (fun _ w' => winv [c] None w' /\ w_slots w' = w_slots w2 /\ w_conns w' = w_conns w2)).
    { unfold steps. apply wp_modify.
      pose proof (timer_event_grows (fun e => is_Some (w_eps w2 !! e)) _ (w_ct w2) Hep) as Hq.
      split; [by eapply effect_queue|]. split; [by apply winv_queue|]. split; [|done].
      unfold w_slots. cbn. by destruct Hq as (? & ? & -> & _). }
    intros _ w3 (Hw3 & Es3 & Ec3). rewrite Hi1. change (of_option (Some interval)) with (mret (M := M (world K)) interval).
    eapply (steps_bind _ _ _ _ (fun o w' => o = interval /\ w' = w3)); [by apply steps_ret|]. intros o w0 [-> ->].
    eapply steps_mono; [by eapply steps_SetTimer|]. cbn beta. intros _ w4 (? & -> & ->). done.
  - intros _ w3 (Hw3 & Es3 & Ec3). apply (steps_keep_release n c); [done|by rewrite Es3, Es|by rewrite Ec3].
Qed.

(** ** The message queue *)

Lemma u32_pred n : u32 (u32 (Z.of_nat (S n)) - 1) = u32 (Z.of_nat n).
Proof using Type.
  unfold u32, wrap. rewrite Nat2Z.inj_succ, <- Z.add_1_r, Zminus_mod_idemp_l. f_equal. lia.
Qed.

Lemma steps_MessageQueue_round {P} h d blocked w :
  inv_with P h d w -> steps (MessageQueue_round blocked) [] w (fun _ w' => inv_with P h d w').
Proof using Type.
  intros Hw. unfold MessageQueue_round. apply steps_gets. cbn. destruct (ct_count (w_ct w) =? 0); [by apply steps_ret|].
  destruct (ct_mpscq (w_ct w)) as [|msg q] eqn:Eq; [by apply steps_ret|]. destruct blocked; [by apply steps_ret|].
  pose proof (wi_queue _ _ _ Hw) as Hq. rewrite Eq in Hq. apply Forall_cons in Hq as [Hm Hq].
  set (w1 := w_with_ct (ct_with_queue q (u32 (ct_count (w_ct w) - 1)) (w_ct w)) w).
  assert (inv_with P h d w1) as Hw1.
  { destruct Hw. split; cbn; try done; [rewrite wi_count0, Eq; cbn [length]; apply u32_pred|].
    intros m Hin. apply wi_refs0. rewrite Eq. by right. }
  eapply (steps_bind _ _ _ _ (fun _ w' => w' = w1)).
  { unfold steps. apply wp_modify. split; [by apply effect_pure|done]. }
  intros _ w' ->. eapply (steps_bind _ _ _ _ (fun _ w' => inv_with P h d w')); [|intros _ w2 Hw2; by apply steps_ret].
  unfold Dispatch. apply steps_gets. cbn.
  assert (forall call, inv_with P h d (w_call call w1)) as Hcall by (intros call; destruct Hw1; by split).
  unfold handled in Hm. destruct (mn_type msg); rewrite ?Hm;
    try (rewrite bool_decide_eq_true_2 by done); unfold steps; apply wp_modify; (split; [by apply effect_pure|apply Hcall]).
Qed.

(** The endpoint a call of a handler is about. *)
Definition call_ep (c : handler_call) : nat :=
  match c with OnMessage ep _ => ep | HandleClosed ep _ => ep | OnHeartbeat ep => ep | HandleNotify ep => ep end.

(** A round calls one handler at most, about an endpoint that is there. *)
Lemma MessageQueue_round_calls blocked w :
  winv [] None w -> steps (MessageQueue_round blocked) [] w (fun _ w' => winv [] None w' /\
    exists calls, w_calls w' = w_calls w ++ calls /\ (length calls <= 1)%nat /\
      Forall (fun c => is_Some (w_eps w' !! call_ep c)) calls).
Proof using Type.
  intros Hw. pose proof (steps_MessageQueue_round [] None blocked w Hw) as Hs. unfold steps, wp in *.
  destruct (MessageQueue_round blocked w) as [[b w']| | |] eqn:E; [|done..]. destruct Hs as [He Hw'].
  split; [done|]. split; [done|]. revert E. unfold MessageQueue_round, mbind, M_bind, gets, id.
  destruct (ct_count (w_ct w) =? 0).
  { intros [= <- <-]. exists []. rewrite app_nil_r. split_and!; [done|cbn; lia|done]. }
  destruct (ct_mpscq (w_ct w)) as [|msg q] eqn:Eq.
  { intros [= <- <-]. exists []. rewrite app_nil_r. split_and!; [done|cbn; lia|done]. }
  destruct blocked.
  { intros [= <- <-]. exists []. rewrite app_nil_r. split_and!; [done|cbn; lia|done]. }
  assert (is_Some (w_eps w !! mn_ep msg)) as Hep by (apply (wi_refs _ _ _ Hw); rewrite Eq; by left).
  unfold Dispatch, modify_ct, modify, mbind, M_bind, gets, id. cbn.
  destruct (mn_type msg); destruct (_ : bool) eqn:?; try done; intros [= <- <-]; eexists [_];
    (split_and!; [reflexivity|cbn; lia|by repeat constructor]).
Qed.

(** ** Attaching *)

Lemma id_in_range_build w t c' n port :
  is_u16 (ct_magic_number c') -> is_u16 port -> Z.of_nat n < op_max_container_size (ct_option c') ->
  op_max_container_size (ct_option c') < 2 ^ 32 -> ct_slots c' = t -> (n < length (st_mgr t))%nat ->
  id_in_range (BuildConnectionId (ct_magic_number c') port (Z.of_nat n)) c'.
Proof using Type.
  intros Hm Hp Hn Hmax <- Hl idx. unfold CheckConnectionId.
  rewrite GetUserId_Build by (unfold is_u32; (done || lia)).
  destruct (_ =? InvalidConnectionId); [done|]. destruct (negb _); [done|]. destruct (_ || _); [done|].
  intros [= <-]. lia.
Qed.

(** The world after [ep] was attached in slot [n]. *)
Record attached (ep : nat) (obj : EndpointImpl) (n : nat) w w' : Prop := {
  at_eps : w_eps w' = <[ep := SetContainer true (SetConnection
    (BuildConnectionId (ct_magic_number (w_ct w)) (ei_listen_port obj) (Z.of_nat n)) obj)]> (w_eps w);
  at_held : w_held w' = w_held w;
  at_next : w_next w' = S (w_next w);
  at_counter : w_global_counter w' = u32 (w_global_counter w + 1);
  at_conns : exists cn, w_conns w' = <[w_next w := cn]> (w_conns w) /\ cn_endpoint cn = ep /\
    cn_handle_id cn = w_global_counter w /\ sb_wf (cn_rcv_buffer cn) /\ sb_wf (cn_snd_buffer cn);
  at_ct : exists c1 t, queue_grows (fun e => is_Some (w_eps w' !! e)) (w_ct w) c1 /\ w_ct w' = ct_with_slots t c1;
  at_slots : slots_wf (w_slots w');
  at_size : (length (st_mgr (w_slots w)) <= length (st_mgr (w_slots w')))%nat /\
    Z.of_nat (length (st_mgr (w_slots w'))) <= op_max_container_size (ct_option (w_ct w));
  at_slot : st_conn (w_slots w) n = None /\ st_conn (w_slots w') n = Some (w_next w) /\
    (n < length (st_mgr (w_slots w')))%nat /\
    forall m, m <> n -> st_conn (w_slots w') m = st_conn (w_slots w) m;
  at_deadlines e : e ∈ st_records (w_slots w') -> is_i64 e.1 \/ e ∈ st_records (w_slots w);
}.

(** No connection uses an endpoint that is not attached. *)
Lemma unattached_free {P} w h d ep obj c cn :
  inv_with P h d w -> w_eps w !! ep = Some obj -> ei_attached obj = false -> w_conns w !! c = Some cn -> cn_endpoint cn <> ep.
Proof using Type.
  intros Hw He Ha Hc E. destruct (wi_ep _ _ _ Hw c cn Hc) as (x & Hx & Hax & _). rewrite E, He in Hx. congruence.
Qed.

Lemma next_fresh {P} w h d : inv_with P h d w -> w_conns w !! w_next w = None.
Proof using Type.
  intros Hw. destruct (w_conns w !! w_next w) eqn:E; [|done]. apply (wi_next _ _ _ Hw) in E. lia.
Qed.

Lemma attached_winv {P} h ep obj n w w' :
  inv_with P h None w -> w_eps w !! ep = Some obj -> ei_attached obj = false -> holds_fd obj ->
  (forall c x, holds_fd x -> P None c x) -> attached ep obj n w w' -> inv_with P h None w'.
Proof using Type.
  intros Hw He Ha Hfd HP [Ee Eh En Eg (cn & Ec & Eep & Ehd & Hr & Hs) (c1 & t & (q & k & -> & Hk & Hq & Hq') & Ect) Hsl [Hl1 Hl2] (H1 & H2 & H3 & H4) Hdl].
  pose proof (next_fresh _ _ _ Hw) as Hfresh.
  assert (Hother : forall c x, w_conns w !! c = Some x -> cn_endpoint x <> ep) by (intros; by eapply unattached_free).
  pose proof Hw as []. split; rewrite ?Eh, ?En; try done.
  - rewrite Ect. cbn. lia.
  - by rewrite Ect.
  - intros c Hc. rewrite Ec. destruct (decide (w_next w = c)) as [<-|]; [rewrite lookup_insert_eq; by eexists|].
    rewrite lookup_insert_ne by done. auto.
  - intros m c. rewrite Ec. destruct (decide (m = n)) as [->|Hne].
    + rewrite H2. intros [= <-]. rewrite lookup_insert_eq. by eexists.
    + rewrite H4 by done. intros Hc. destruct (decide (w_next w = c)) as [<-|]; [rewrite lookup_insert_eq; by eexists|].
      rewrite lookup_insert_ne by done. eauto.
  - intros c x. rewrite Ec. destruct (decide (w_next w = c)) as [<-|Hne]; [left; by exists n|].
    rewrite lookup_insert_ne by done. intros Hx. destruct (wi_live0 c x Hx) as [[m Hm]|?]; [|by right].
    left. exists m. rewrite H4; [done|]. intros ->. by rewrite H1 in Hm.
  - intros m m' c. destruct (decide (m = n)) as [->|Hm], (decide (m' = n)) as [->|Hm']; try done; rewrite ?H2, ?H4 by done.
    + intros [= <-] Hc. apply wi_slot0 in Hc. rewrite Hfresh in Hc. by destruct Hc.
    + intros Hc [= <-]. apply wi_slot0 in Hc. rewrite Hfresh in Hc. by destruct Hc.
    + apply wi_inj0.
  - intros c x. rewrite Ec, Ee. destruct (decide (w_next w = c)) as [<-|Hne].
    + rewrite lookup_insert_eq. intros [= <-]. rewrite Eep, lookup_insert_eq. eexists. split; [done|]. split; [done|]. by apply HP.
    + rewrite lookup_insert_ne by done. intros Hx. rewrite lookup_insert_ne by (intros E; by apply (Hother c x Hx)). eauto.
  - intros c x. rewrite Ec. destruct (decide (w_next w = c)) as [<-|Hne]; [rewrite lookup_insert_eq; by intros [= <-]|].
    rewrite lookup_insert_ne by done. eauto.
  - intros c c' x x'. rewrite Ec. destruct (decide (w_next w = c)) as [<-|Hne], (decide (w_next w = c')) as [<-|Hne']; try done;
      rewrite ?lookup_insert_eq, ?lookup_insert_ne by done.
    + intros [= <-] Hx' E. destruct (Hother _ _ Hx'). congruence.
    + intros Hx [= <-] E. destruct (Hother _ _ Hx). congruence.
    + eauto.
  - intros c x. rewrite Ec. destruct (decide (w_next w = c)) as [<-|Hne]; [lia|]. rewrite lookup_insert_ne by done.
    intros Hx. specialize (wi_next0 c x Hx). lia.
  - rewrite Ect. cbn. by apply Hk.
  - rewrite Ect. cbn. by apply Hq.
  - rewrite Ect. cbn. intros x Hx. destruct (Hq' x Hx) as [Hx'|?]; [|done]. rewrite Ee.
    destruct (decide (ep = mn_ep x)) as [<-|Hne]; [rewrite lookup_insert_eq; by eexists|rewrite lookup_insert_ne by done; auto].
  - by rewrite Ect.
  - by rewrite Ect.
  - intros e o. rewrite Ee. unfold w_slots in Hl1, Hl2, H3. destruct (decide (ep = e)) as [<-|Hne].
    + rewrite lookup_insert_eq. intros [= <-]. cbn. destruct (wi_ids0 ep obj He) as [Hp _]. split; [done|].
      assert (ct_magic_number (w_ct w') = ct_magic_number (w_ct w) /\ ct_option (w_ct w') = ct_option (w_ct w)) as [Em Eo] by (by rewrite Ect).
      rewrite <- Em. eapply id_in_range_build; try done; rewrite ?Em, ?Eo; [done|lia|done].
    + rewrite lookup_insert_ne by done. intros Ho. destruct (wi_ids0 e o Ho) as [Hp Hid]. split; [done|].
      intros idx Hidx. assert (CheckConnectionId (ei_connection_id o) (w_ct w) = Some idx) as E by (rewrite Ect in Hidx; exact Hidx).
      specialize (Hid idx E). lia.
  - destruct (ot_eps _ _ _ wi_typed0 _ _ He) as (Hty & _ & Hport). rewrite Ee, Ec. apply ot_insert_ep.
    + apply ot_insert_conn; [|rewrite Ehd; by eapply ot_counter]. rewrite Eg. destruct wi_typed0. split; [done|done|apply wrap_range; lia].
    + cbn. split_and!; [done| |done]. unfold w_slots in H3, Hl2. apply BuildConnectionId_u64; [done|done|]. unfold is_u32. lia.
  - intros e He'. destruct (Hdl e He') as [?|?]; auto.
Qed.

Lemma attached_fds {P} h ep obj n w w' :
  inv_with P h None w -> w_eps w !! ep = Some obj -> ei_attached obj = false -> holds_fd obj ->
  attached ep obj n w w' -> open_fds w' ≡ₚ open_fds w ++ [fd_int obj].
Proof using Type.
  intros Hw He Ha Hfd [Ee _ _ _ (cn & Ec & Eep & _) _ _ _ _ _].
  unfold open_fds. rewrite Ec, fds_insert by (by eapply next_fresh). unfold conn_fd at 1. rewrite Ee, Eep, lookup_insert_eq.
  destruct (holds_fd_spec obj Hfd) as (Hon & _). change (IsOnline (SetContainer _ _)) with (IsOnline obj). rewrite Hon.
  change (fd_int (SetContainer _ _)) with (fd_int obj).
  rewrite (fds_ext (w_eps w)); [by rewrite Permutation_app_comm|].
  intros c x Hx. rewrite lookup_insert_ne; [done|]. intros E. by eapply (unattached_free w h None ep obj c x).
Qed.

Lemma wp_on_slots {A} (f : SlotTable -> outcome (A * SlotTable)) w a t (Q : A -> world K -> Prop) :
  f (w_slots w) = Ret (a, t) -> Q a (w_with_slots t w) -> wp (on_slots f) w Q.
Proof using Type. intros E HQ. unfold wp, on_slots. by rewrite E. Qed.

(** The two calls on a new connection. *)
Lemma attach_connection_calls {A} p t back c cn ep (f : M (world K) A) w Q :
  w_conns w !! c = Some cn -> w_eps w !! cn_endpoint cn = Some ep ->
  sb_wf (cn_rcv_buffer cn) -> sb_wf (cn_snd_buffer cn) -> op_msg_handler (ct_option (w_ct w)) = true ->
  (forall w', touched c w w' -> wp f w' Q) ->
  wp (_ ← on_conn c (modify_cn (SetProtocol p)); _ ← on_conn c (Connection_Init t back); f) w Q.
Proof using Type.
  intros Hc He Hr Hs Hm HQ. apply wp_bind. eapply wp_mono; [eapply on_conn_touches; try done; apply keeps_set_protocol|].
  intros [] w1 Ht1. cbn beta in Ht1. destruct (touched_same _ _ _ Ht1) as (_ & Eo & _).
  destruct Ht1 as [E1 E2 E3 E4 (x & cn1 & Hx & Ec & Hi & Hb1 & Hb2) Hq (tr1 & T1 & O1 & C1)].
  rewrite Hc in Hx. injection Hx as <-.
  assert (w_conns w1 !! c = Some cn1) as Hc1 by (by rewrite Ec, lookup_insert_eq).
  apply wp_bind. eapply wp_mono.
  { eapply (on_conn_touches c cn1 ep); try done; [by rewrite E1, (proj1 Hi)|by rewrite Eo|apply keeps_init]. }
  intros _ w2 [F1 F2 F3 F4 (y & cn2 & Hy & Fc & Hj & Hb3 & Hb4) Hq2 (tr2 & T2 & O2 & C2)]. apply HQ.
  rewrite Hc1 in Hy. injection Hy as <-. split; try congruence.
  - exists cn, cn2. rewrite Fc, Ec, insert_insert_eq. split; [done|]. split; [done|].
    split; [|done]. destruct Hi, Hj. split; congruence.
  - rewrite E1 in Hq2. by eapply queue_grows_trans.
  - exists (tr1 ++ tr2). by rewrite T2, T1, app_assoc, opened_app, closed_app, O1, O2, C1, C2.
Qed.

Definition w_with_new (ep : nat) w : world K :=
  {| w_os := w_os w; w_eps := w_eps w; w_conns := <[w_next w := Connection_new (w_global_counter w) ep]> (w_conns w);
     w_held := w_held w; w_global_counter := u32 (w_global_counter w + 1); w_next := S (w_next w);
     w_ct := w_ct w; w_calls := w_calls w |}.

Lemma wp_make_connection ep w (Q : nat -> world K -> Prop) : Q (w_next w) (w_with_new ep w) -> wp (make_connection ep) w Q.
Proof using Type. done. Qed.

Lemma steps_AttachEndpointImpl {P} h ep obj w :
  inv_with P h None w -> w_eps w !! ep = Some obj -> ei_attached obj = false -> holds_fd obj ->
  (forall c x, holds_fd x -> P None c x) ->
  wp (AttachEndpointImpl ep) w (fun e w' => inv_with P h None w' /\
    effect (match e with None => [fd_int obj] | Some _ => [] end) w w').
Proof using Type.
  intros Hw He Ha Hfd HP. pose proof (wi_slots _ _ _ Hw) as Hs. unfold AttachEndpointImpl. apply wp_bind, wp_gets. cbn.
  destruct (st_full _ (w_slots w)) eqn:Ef; [apply wp_ret; split; [done|apply effect_refl]|].
  destruct (st_expand_spec _ _ Hs Ef (proj1 (wi_size _ _ _ Hw))) as (Hw1 & Hne & Hc1 & _ & Hle & Hmax).
  set (tE := st_expand _ (w_slots w)) in *. destruct (st_free tE) as [|i free] eqn:Efr; [done|].
  apply wp_bind, wp_of_option. exists obj. split; [done|].
  apply wp_bind. eapply wp_on_slots; [reflexivity|]. fold tE. apply wp_bind.
  eapply (wp_on_slots _ _ i); [cbn; unfold st_pop_free; rewrite Efr; reflexivity|].
  apply wp_bind. unfold deadline_now. apply wp_bind, wp_zoom. eapply wp_mono; [apply quiet_now|]. cbn.
  intros n o (tr & Etr & Otr & Ctr). apply wp_bind, wp_gets, wp_ret.
  set (dl := i64 _).
  destruct (st_attach_spec (w_next w) dl tE i free Hw1 Efr) as (m & t3 & -> & Hm & Hlt & Ea & Hw3 & Emgr & _ & Erec).
  unfold st_attach, st_pop_free in Ea. rewrite Efr in Ea.
  set (t1 := {| st_mgr := _; st_records := _; st_free := _; st_next := _ |}) in *.
  destruct (st_set_first (Z.of_nat m) (Some (w_next w)) t1) as [t2| | |] eqn:E2; [|done..].
  destruct (st_insert_record dl (Z.of_nat m) t2) as [t3'| | |] eqn:E3; [|done..]. injection Ea as ->.
  apply wp_bind, wp_modify, wp_bind, wp_make_connection.
  apply wp_bind. eapply wp_on_slots; [unfold w_slots; cbn; rewrite E2; reflexivity|].
  set (obj' := SetContainer true (SetConnection
    (BuildConnectionId (ct_magic_number (w_ct w)) (ei_listen_port obj) (Z.of_nat m)) obj)). set (w4 := w_with_slots t2 _).
  assert (w_eps w4 = <[ep := obj']> (w_eps w)) as Ee4.
  { unfold w4. cbn. apply map_eq. intros e. destruct (decide (ep = e)) as [<-|Hx].
    - by rewrite lookup_alter_eq, lookup_insert_eq, He.
    - by rewrite lookup_alter_ne, lookup_insert_ne by done. }
  apply (attach_connection_calls _ _ _ _ (Connection_new (w_global_counter w) ep) obj');
    [by unfold w4; cbn; rewrite lookup_insert_eq|by rewrite Ee4; cbn; rewrite lookup_insert_eq|
     apply SliceBuffer_new_wf|apply SliceBuffer_new_wf|apply (wi_msg _ _ _ Hw)|].
  intros w6 Ht. pose proof (touched_same _ _ _ Ht) as (Es6 & Eo6 & Em6 & _ & _).
  change (w_slots w4) with t2 in Es6. apply wp_bind. eapply wp_on_slots; [rewrite Es6, E3; reflexivity|].
  set (w7 := w_with_slots t3 w6).
  assert (attached ep obj m w w7) as Hat.
  { destruct Ht as [T1 T2 T3 T4 (cn & cn' & Tc & Tc' & Ti & Tb1 & Tb2) Tq _]. cbn in Tc. rewrite lookup_insert_eq in Tc. injection Tc as <-.
    split; cbn; [by rewrite T1|by rewrite T2|by rewrite T4|by rewrite T3| | |done| | |].
    - exists cn'. cbn in Tc'. rewrite insert_insert_eq in Tc'. split; [exact Tc'|]. destruct Ti. done.
    - rewrite <- T1 in Tq. destruct Tq as (q & k & Tq & Hk & Hq & Hq'). exists (ct_with_queue q k (w_ct w)), t3. cbn in *.
      split; [by exists q, k|]. by rewrite Tq.
    - unfold w_slots. cbn. rewrite Emgr, length_insert. pose proof (wi_size _ _ _ Hw). split; [done|]. apply Hmax. lia.
    - unfold w_slots. cbn. assert (st_conn t3 m = Some (w_next w)) as Hst.
      { unfold st_conn. rewrite Emgr, list_lookup_insert_eq by done. done. }
      split; [by rewrite <- Hc1|]. split; [done|]. split; [by rewrite Emgr, length_insert|].
      intros x Hx. rewrite <- Hc1. unfold st_conn. by rewrite Emgr, list_lookup_insert_ne by done.
    - unfold w_slots. cbn. intros e. rewrite Erec, mm_insert_perm. intros [->|Hin]%elem_of_cons; [left; apply i64_range|right].
      revert Hin. unfold tE, st_expand. destruct (st_free (w_slots w)); done. }
  pose proof (attached_winv h ep obj m w w7 Hw He Ha Hfd HP Hat) as Hw7.
  assert (effect [fd_int obj] w w7) as Hef.
  { pose proof (attached_fds h ep obj m w w7 Hw He Ha Hfd Hat) as Hfds. destruct Ht as [_ _ _ _ _ _ (tr2 & T2 & O2 & C2)]. split.
    - exists (tr ++ tr2). cbn in T2. cbn. rewrite T2, Etr, app_assoc, opened_app, closed_app, Otr, O2, Ctr, C2. done.
    - cbn. by rewrite Eo6.
    - unfold w7, w_slots. cbn. by rewrite Emgr, length_insert.
    - intros e. rewrite (at_eps _ _ _ _ _ Hat). destruct (decide (ep = e)) as [<-|Hx]; [rewrite lookup_insert_eq; by eexists|].
      by rewrite lookup_insert_ne by done. }
  apply wp_bind, wp_gets. unfold Datatypes.id.
  assert (forall a b d, wp (_ ← SetTimer a b d; mret RAPTOR_ERROR_NONE) w7 (fun e w' => inv_with P h None w' /\
    effect (match e with None => [fd_int obj] | Some _ => [] end) w w')) as Htimer.
  { intros a b d. apply wp_bind. eapply wp_mono; [by eapply steps_SetTimer|]. intros _ w8 (He8 & Hw8 & _). apply wp_ret.
    split; [done|]. rewrite <- (app_nil_r [fd_int obj]). by eapply effect_trans. }
  repeat case_match; try apply Htimer; by apply wp_ret.
Qed.

Lemma steps_AttachEndpoint ep obj notify w :
  winv [] None w -> w_eps w !! ep = Some obj -> ei_attached obj = false -> holds_fd obj ->
  wp (AttachEndpoint ep notify) w (fun e w' => winv [] None w' /\
    effect (match e with None => [fd_int obj] | Some _ => [] end) w w').
Proof using Type.
  intros Hw He Ha Hfd. unfold AttachEndpoint. apply wp_bind.
  eapply wp_mono; [by apply (steps_AttachEndpointImpl [] ep obj w Hw He Ha Hfd alone_holds)|].
  intros e w1 [Hw1 He1]. apply wp_bind, wp_gets. cbn. destruct (_ && op_notify_handler (ct_option (w_ct w1))) eqn:E; [|by apply wp_ret].
  apply andb_prop in E as [_ En]. apply wp_bind, wp_modify, wp_ret.
  assert (queue_grows (fun e => is_Some (w_eps w1 !! e)) (w_ct w1) (Container_OnNotify ep (w_ct w1))) as Hq.
  { apply push_message_grows; [done|]. apply (ef_eps _ _ _ He1). by exists obj. }
  split; [by apply winv_queue|]. rewrite <- (app_nil_r (match e with None => _ | Some _ => _ end)).
  eapply effect_trans; [done|]. by eapply effect_queue.
Qed.
End Methods.

(** ** Runs *)

Inductive container_op : Type :=
  | OpEndpoint (ep : nat) (obj : EndpointImpl)
  | OpAttach (ep : nat) (notify : bool)
  | OpEndpointSend (ep : nat) (s : Slice)
  | OpSend (cid : Z) (s : Slice)
  | OpClose (ep : nat) (notify : bool)
  | OpEvent (detail : EventDetail)
  | OpTimeoutCheck (now : Z)
  | OpTimer (n : nat) (tid2 : Z)
  | OpMessage (blocked : bool).

Section Runs.
Context {K : Type} `{Kernel K} `{!KernelIO K} `{LibC}.
Implicit Types w : world K.
Variable OnCheckPackageLength : EndpointImpl -> list cell -> Z.
Variable recv_fuel : nat.

(** When the environment may do an operation: a new endpoint holds a descriptor and was
    never attached; endpoints and connection ids are those of the container, present or
    past; the timer thread runs only with a heartbeat handler. *)
Definition container_op_ok (op : container_op) w : Prop :=
  match op with
  | OpEndpoint ep obj => w_eps w !! ep = None /\ ei_attached obj = false /\ holds_fd obj /\
      ei_connection_id obj = InvalidConnectionId /\ is_u16 (ei_listen_port obj)
  | OpAttach ep _ => exists obj, w_eps w !! ep = Some obj /\ ei_attached obj = false /\ holds_fd obj
  | OpEndpointSend ep s => is_Some (w_eps w !! ep) /\ Slice_wf s
  | OpSend cid s => id_in_range cid (w_ct w) /\ Slice_wf s
  | OpClose ep _ => exists obj, w_eps w !! ep = Some obj /\ ei_attached obj = true
  | OpEvent detail => id_in_range (ed_ptr detail) (w_ct w)
  | OpTimeoutCheck _ | OpMessage _ => True
  | OpTimer n _ => (n < length (st_mgr (w_slots w)))%nat /\ is_Some (op_heartbeat_handler (ct_option (w_ct w)))
  end.

(** An operation, and the descriptors it handed to the container. *)
Definition run_container_op (op : container_op) : M (world K) (list Z) :=
  match op with
  | OpEndpoint ep obj => _ ← modify (fun w => w_with_eps (<[ep := obj]> (w_eps w)) w); mret []
  | OpAttach ep notify =>
      w ← gets id;
      e ← AttachEndpoint ep notify;
      mret (match e, w_eps w !! ep with None, Some obj => [fd_int obj] | _, _ => [] end)
  | OpEndpointSend ep s => _ ← Endpoint_SendMsg ep s; mret []
  | OpSend cid s => _ ← Container_SendMsg cid s; mret []
  | OpClose ep notify => _ ← Endpoint_Close ep notify; mret []
  | OpEvent detail => _ ← Container_OnEventProcess OnCheckPackageLength recv_fuel detail; mret []
  | OpTimeoutCheck now => _ ← Container_OnTimeoutCheck now; mret []
  | OpTimer n tid2 => _ ← Container_OnTimer (Z.of_nat n) tid2; mret []
  | OpMessage blocked => _ ← MessageQueue_round blocked; mret []
  end.

Inductive container_run : list container_op -> world K -> list Z -> world K -> Prop :=
  | crun_nil w : container_run [] w [] w
  | crun_cons op ops w g w1 gs w2 :
      container_op_ok op w -> run_container_op op w = Ret (g, w1) -> container_run ops w1 gs w2 ->
      container_run (op :: ops) w (g ++ gs) w2.

Hypothesis Hfits : forall ep, header_fits (OnCheckPackageLength ep).
Hypothesis Hshort : forall fd k, short_within recv_fuel fd k.

Lemma run_nothing {A} (m : M (world K) A) w :
  steps m [] w (fun _ w' => winv [] None w') ->
  wp (_ ← m; mret ([] : list Z)) w (fun g w' => winv [] None w' /\ effect g w w').
Proof using Type. intros Hm. apply wp_bind. eapply wp_mono; [exact Hm|]. intros a w' [He Hw]. by apply wp_ret. Qed.

Lemma steps_some {A B} (o : option A) (x : A) (f : A -> M (world K) B) g w Q :
  o = Some x -> steps (f x) g w Q -> steps (x ← of_option o; f x) g w Q.
Proof using Type. intros -> Hf. exact Hf. Qed.

(** A new endpoint. *)
Lemma winv_new_endpoint {P} h d ep obj w :
  inv_with P h d w -> w_eps w !! ep = None -> holds_fd obj -> ei_connection_id obj = InvalidConnectionId ->
  is_u16 (ei_listen_port obj) ->
  inv_with P h d (w_with_eps (<[ep := obj]> (w_eps w)) w) /\ effect [] w (w_with_eps (<[ep := obj]> (w_eps w)) w).
Proof using Type.
  intros Hw He Hfd Hid Hp.
  assert (forall c x, w_conns w !! c = Some x -> cn_endpoint x <> ep) as Hother.
  { intros c x Hx E. destruct (wi_ep _ _ _ Hw c x Hx) as (y & Hy & _). congruence. }
  split.
  - destruct Hw. split; cbn; try done.
    + intros c x Hx. rewrite lookup_insert_ne by (intros E; by apply (Hother c x Hx)). eauto.
    + intros m Hm. destruct (decide (ep = mn_ep m)) as [<-|Hne]; [rewrite lookup_insert_eq; by eexists|].
      rewrite lookup_insert_ne by done. eauto.
    + intros e o. destruct (decide (ep = e)) as [<-|Hne]; [|rewrite lookup_insert_ne by done; eauto].
      rewrite lookup_insert_eq. intros [= <-]. split; [done|]. intros idx. rewrite Hid.
      unfold CheckConnectionId. by rewrite Z.eqb_refl.
    + apply ot_insert_ep; [done|]. unfold holds_fd in Hfd. rewrite Hid. unfold is_u64. split_and!; try lia; done.
  - apply effect_pure; [done| |done|done|].
    + unfold open_fds. cbn. rewrite (fds_ext (w_eps w)); [done|].
      intros c x Hx. rewrite lookup_insert_ne by (intros E; by apply (Hother c x Hx)). done.
    + intros e. cbn. destruct (decide (ep = e)) as [<-|]; [rewrite lookup_insert_eq; by eexists|by rewrite lookup_insert_ne by done].
Qed.

Lemma run_container_op_spec op w :
  winv [] None w -> container_op_ok op w -> wp (run_container_op op) w (fun g w' => winv [] None w' /\ effect g w w').
Proof using KernelIO0 Hfits Hshort.
  intros Hw Hop. destruct op as [ep obj|ep notify|ep s|cid s|ep notify|detail|now|n tid2|blocked]; cbn [run_container_op container_op_ok] in *.
  - destruct Hop as (He & Ha & Hfd & Hid & Hp). apply wp_bind, wp_modify, wp_ret. by apply winv_new_endpoint.
  - destruct Hop as (obj & He & Ha & Hfd). apply wp_bind, wp_gets, wp_bind.
    eapply wp_mono; [by apply steps_AttachEndpoint|]. intros e w1 [Hw1 He1]. apply wp_ret.
    split; [done|]. unfold id. rewrite He. by destruct e.
  - destruct Hop as [[obj He] Hs]. apply run_nothing. unfold Endpoint_SendMsg. apply steps_gets. cbn.
    eapply steps_some; [done|]. destruct (ei_attached obj); [|by apply steps_ret].
    destruct (wi_ids _ _ _ Hw ep obj He) as [_ Hid]. by apply steps_SendMsg.
  - destruct Hop as [Hid Hs]. apply run_nothing. by apply steps_SendMsg.
  - destruct Hop as (obj & He & Ha). apply run_nothing. unfold Endpoint_Close. apply steps_gets. cbn.
    eapply steps_some; [done|]. rewrite Ha. eapply steps_bind; [by eapply steps_CloseEndpoint|].
    cbn beta. intros _ w1 Hw1. by apply steps_ret.
  - apply run_nothing. by apply steps_OnEventProcess.
  - apply run_nothing. eapply steps_mono; [by apply steps_OnTimeoutCheck|]. by intros _ w' [? _].
  - destruct Hop as [Hn Hi]. apply run_nothing. by apply steps_OnTimer.
  - apply run_nothing. by apply steps_MessageQueue_round.
Qed.

Lemma container_run_spec ops w gs w' :
  container_run ops w gs w' -> winv [] None w -> winv [] None w' /\ effect gs w w'.
Proof using KernelIO0 Hfits Hshort.
  induction 1 as [w|op ops w g w1 gs w2 Hop Hr Hrun IH]; intros Hw; [split; [done|apply effect_refl]|].
  pose proof (run_container_op_spec op w Hw Hop) as Hsp. unfold wp in Hsp. rewrite Hr in Hsp. destruct Hsp as [Hw1 He1].
  destruct (IH Hw1) as [Hw2 He2]. split; [done|]. by eapply effect_trans.
Qed.
End Runs.

(** ** Initialisation *)

Section Init.
Context {K : Type} `{Kernel K} `{LibC} `{!KernelThreads} `{!KernelEpoll}.
Implicit Types w : world K.

(** A new container, nothing attached yet. *)
Definition fresh_world (option : ContainerOption) w : Prop :=
  w_eps w = ∅ /\ w_conns w = ∅ /\ w_held w = [] /\ w_ct w = ContainerImpl_new option /\ is_u32 (w_global_counter w).

(** Options a container can work with. *)
Definition option_ok (option : ContainerOption) : Prop :=
  0 < op_default_container_size option <= op_max_container_size option /\
  op_max_container_size option < 2 ^ 32 /\ 0 <= op_recv_send_threads option < 2 ^ 32 /\
  op_msg_handler option = true.

(** The process worked; the rest of the world but the threads is as it was. *)
Record setting_up w w' : Prop := {
  su_eps : w_eps w' = w_eps w;
  su_conns : w_conns w' = w_conns w;
  su_held : w_held w' = w_held w;
  su_counter : w_global_counter w' = w_global_counter w;
  su_slots : w_slots w' = w_slots w;
  su_option : ct_option (w_ct w') = ct_option (w_ct w);
  su_queue : ct_mpscq (w_ct w') = ct_mpscq (w_ct w);
}.

Lemma setting_up_refl w : setting_up w w.
Proof using Type. done. Qed.

Lemma setting_up_trans w w1 w2 : setting_up w w1 -> setting_up w1 w2 -> setting_up w w2.
Proof using Type. intros [] []. split; congruence. Qed.

Definition returns {A} (m : M (os K) A) : Prop := forall o, wp m o (fun _ _ => True).

Lemma su_on_os {A B} (m : M (os K) A) (f : A -> M (world K) B) w0 w (Q : B -> world K -> Prop) :
  returns m -> setting_up w0 w -> (forall a w', setting_up w0 w' -> wp (f a) w' Q) -> wp (x ← on_os m; f x) w Q.
Proof using Type.
  intros Hm Hsu Hf. apply wp_bind. unfold on_os. apply wp_zoom. eapply wp_mono; [apply Hm|]. intros a o _.
  apply Hf. by eapply setting_up_trans; [exact Hsu|].
Qed.

Lemma su_modify {B} (g : ContainerImpl -> ContainerImpl) (f : unit -> M (world K) B) w0 w (Q : B -> world K -> Prop) :
  setting_up w0 w -> (forall c, ct_slots (g c) = ct_slots c /\ ct_option (g c) = ct_option c /\ ct_mpscq (g c) = ct_mpscq c) ->
  (forall w', setting_up w0 w' -> wp (f tt) w' Q) -> wp (x ← modify_ct g; f x) w Q.
Proof using Type.
  intros Hsu Hg Hf. apply wp_bind, wp_modify, Hf. eapply setting_up_trans; [exact Hsu|].
  destruct (Hg (w_ct w)) as (? & ? & ?). by split.
Qed.

Lemma returns_poll_init n : 0 <= n -> returns (PollingThread_Init n PollingThread_new).
Proof. intros Hn o. eapply wp_mono; [by apply init_resources|]. done. Qed.

Lemma returns_poll_dtor : returns (PollingThread_dtor PollingThread_new).
Proof using Type. by intros o. Qed.

Lemma returns_threads n : returns (create_threads n).
Proof. intros o. eapply wp_mono; [by apply create_threads_spec|]. done. Qed.

Lemma returns_timer_init : returns (Timer_Init Timer_new).
Proof.
  intros o. unfold Timer_Init. cbn. apply wp_bind. eapply wp_mono; [by apply Thread_new_spec|].
  intros [t ok] o' _. by destruct ok; apply wp_ret.
Qed.

Lemma Container_Init_spec option w :
  fresh_world option w -> option_ok option ->
  wp Container_Init w (fun e w' => e = None -> winv [] None w' /\ w_conns w' = ∅).
Proof.
  intros (Ee & Ec & Eh & Ect & Hct) (Hd & Hmax & Ht & Hmsg). unfold Container_Init. apply wp_bind, wp_gets. unfold id.
  rewrite Ect. cbn [ct_shutdown ct_option ContainerImpl_new negb ct_poll_thread ct_back_thread].
  set (n := i32 _). assert (0 <= n) as Hn.
  { unfold n, i32. destruct (Z.eqb_spec (op_recv_send_threads option / 2) 0); [done|].
    rewrite swrap_small by (Z.div_mod_to_equations; lia). Z.div_mod_to_equations; lia. }
  pose proof (setting_up_refl w) as Hsu.
  eapply su_on_os; [apply returns_poll_dtor|exact Hsu|]. intros _ w1 S1.
  eapply su_on_os; [by apply returns_poll_init|exact S1|]. intros [e p] w2 S2.
  eapply su_modify; [exact S2|done|]. intros w3 S3. destruct e as [e|]; [by apply wp_ret|].
  eapply su_on_os; [apply returns_poll_dtor|exact S3|]. intros _ w4 S4.
  eapply su_on_os; [by apply returns_poll_init|exact S4|]. intros [e b] w5 S5.
  eapply su_modify; [exact S5|done|]. intros w6 S6. destruct e as [e|]; [by apply wp_ret|].
  eapply su_modify; [exact S6|done|]. intros w7 S7. unfold Container_Init_rest. apply wp_bind.
  assert (wp (match op_heartbeat_handler option with
      | Some interval => if 0 <? interval then
          '(e, t) ← on_os (Timer_Init Timer_new); _ ← with_timer_thread (Some t); mret e else mret RAPTOR_ERROR_NONE
      | None => mret RAPTOR_ERROR_NONE end) w7 (fun _ w' => setting_up w w')) as Htm.
  { destruct (op_heartbeat_handler option) as [i|]; [|by apply wp_ret]. destruct (0 <? i); [|by apply wp_ret].
    eapply su_on_os; [apply returns_timer_init|exact S7|]. intros [e t] w8 S8.
    eapply su_modify; [exact S8|done|]. intros w9 S9. by apply wp_ret. }
  eapply wp_mono; [exact Htm|]. intros e w8 S8. destruct e as [e|]; [by apply wp_ret|].
  eapply su_on_os; [apply returns_threads|exact S8|]. intros [ts running] w9 S9.
  apply wp_bind, wp_modify. destruct (running =? 0)%nat; [by apply wp_ret|].
  apply wp_bind. eapply wp_on_slots; [reflexivity|]. set (w10 := w_with_slots _ _).
  apply wp_bind. unfold on_os. apply wp_zoom. eapply wp_mono; [apply quiet_now|]. intros now o _.
  apply wp_bind, wp_modify, wp_ret. intros _.
  destruct S9 as [F1 F2 F3 F7 F4 F5 F6]. rewrite Ect in F5. unfold w_slots in F4 at 2. rewrite Ect in F4. cbn in F4, F5.
  split; [|cbn; by rewrite F2].
  assert (Hconns : forall c cn, w_conns w9 !! c = Some cn -> False) by (rewrite F2, Ec; intros c cn; by rewrite lookup_empty).
  assert (Hslots : forall m c, st_conn (st_init (Z.to_nat (op_default_container_size option)) SlotTable_empty) m = Some c -> False).
  { intros m c Hc. apply st_conn_Some in Hc as (it & d & Hs); [|apply st_init_wf].
    pose proof (proj2 (st_init_map _ m c d) (ex_intro _ it Hs)) as Hm. by rewrite lookup_empty in Hm. }
  unfold w_slots in F4. split; unfold w_slots; cbn; unfold w_slots; cbn; rewrite ?F5.
  - rewrite F4. apply st_init_wf.
  - rewrite F4. fold (st_init (Z.to_nat (op_default_container_size option)) SlotTable_empty). 
    change (length _) with (length (st_mgr (st_init (Z.to_nat (op_default_container_size option)) SlotTable_empty))). rewrite st_init_length. lia.
  - done.
  - by rewrite F3.
  - by intros c ?%elem_of_nil.
  - rewrite F4. intros m c Hc. by destruct (Hslots m c).
  - intros c cn Hc. by destruct (Hconns c cn).
  - rewrite F4. intros m m' c Hc. by destruct (Hslots m c).
  - intros c cn Hc. by destruct (Hconns c cn).
  - intros c cn Hc. by destruct (Hconns c cn).
  - intros c c' cn cn' Hc. by destruct (Hconns c cn).
  - intros c cn Hc. by destruct (Hconns c cn).
  - rewrite F6, Ect. done.
  - rewrite F6, Ect. constructor.
  - rewrite F6, Ect. cbn. by intros m ?%elem_of_nil.
  - done.
  - apply wrap_range. done.
  - rewrite F1, Ee. intros e obj Hobj. by rewrite lookup_empty in Hobj.
  - rewrite F1, Ee, F2, Ec, F7. split; [| |done]; intros x y Hx; by rewrite lookup_empty in Hx.
  - rewrite F4. cbn. by intros e ?%elem_of_nil.
Qed.
End Init.

Section Safety.
Context {K : Type} `{Kernel K} `{!KernelIO K} `{LibC} `{!KernelThreads} `{!KernelEpoll}.
Variable OnCheckPackageLength : EndpointImpl -> list cell -> Z.
Variable recv_fuel : nat.

(** What holds after any run of an initialised container. *)
Lemma run_winv option (w0 w1 : world K) ops given (w2 : world K) :
  (forall ep, header_fits (OnCheckPackageLength ep)) -> (forall fd k, short_within recv_fuel fd k) ->
  fresh_world option w0 -> option_ok option ->
  Container_Init w0 = Ret (None, w1) ->
  container_run OnCheckPackageLength recv_fuel ops w1 given w2 ->
  winv [] None w2 /\ effect given w1 w2 /\ w_conns w1 = ∅.
Proof.
  intros Hfits Hshort Hfresh Hopt Hinit Hrun.
  pose proof (Container_Init_spec option w0 Hfresh Hopt) as Hi. unfold wp in Hi. rewrite Hinit in Hi.
  destruct (Hi eq_refl) as [Hw1 Hc1].
  destruct (container_run_spec OnCheckPackageLength recv_fuel Hfits Hshort ops w1 given w2 Hrun Hw1). done.
Qed.

(** C5. A container is safe and leaks nothing.  After a successful [Init], whatever sequence
    of operations follows (endpoints attached, messages sent, endpoints closed through
    the container, receive, send and error events with any id of the container, stale
    ones included, timeout checks, heartbeats, messages dispatched), none of them runs into
    undefined behaviour, a failed assertion or an endless loop, and every further one is
    defined; the descriptors closed since, together with those of the live connections,
    are exactly those handed over, each once: none is closed twice and none is lost; the
    slots are well formed, each live connection is in one slot; and the message counter is
    the length of the queue. *)
Theorem container_safe (option : ContainerOption) (w0 w1 : world K) (ops : list container_op) (given : list Z) (w2 : world K) :
  (forall ep, header_fits (OnCheckPackageLength ep)) -> (forall fd k, short_within recv_fuel fd k) ->
  fresh_world option w0 -> option_ok option ->
  Container_Init w0 = Ret (None, w1) ->
  container_run OnCheckPackageLength recv_fuel ops w1 given w2 ->
  (exists t, os_trace (w_os w2) = os_trace (w_os w1) ++ t /\ opened t = [] /\ closed t ++ open_fds w2 ≡ₚ given) /\
  (forall op, container_op_ok op w2 -> exists g w3, run_container_op OnCheckPackageLength recv_fuel op w2 = Ret (g, w3)) /\
  slots_wf (w_slots w2) /\
  (forall c, is_Some (w_conns w2 !! c) <-> exists n, st_conn (w_slots w2) n = Some c) /\
  ct_count (w_ct w2) = u32 (Z.of_nat (length (ct_mpscq (w_ct w2)))).
Proof.
  intros Hfits Hshort Hfresh Hopt Hinit Hrun.
  destruct (run_winv _ _ _ _ _ _ Hfits Hshort Hfresh Hopt Hinit Hrun) as (Hw2 & [Hfds _ _] & Hc1).
  split; [|split; [|split; [apply (wi_slots _ _ _ Hw2)|split; [|apply (wi_count _ _ _ Hw2)]]]].
  - destruct Hfds as (t & Et & Ot & Hp). exists t. split; [done|]. split; [done|]. rewrite Hp.
    unfold open_fds. rewrite Hc1. done.
  - intros op Hop. pose proof (run_container_op_spec OnCheckPackageLength recv_fuel Hfits Hshort op w2 Hw2 Hop) as Hsp.
    unfold wp in Hsp. destruct (run_container_op _ _ op w2) as [[g w3]| | |]; [by exists g, w3|done..].
  - intros c. split.
    + intros [cn Hc]. destruct (wi_live _ _ _ Hw2 c cn Hc) as [?|[Hn%elem_of_nil|?]]; done.
    + intros [n Hn]. by eapply (wi_slot _ _ _ Hw2).
Qed.

(** C22. The timeout check ends, and expires exactly the connections that are due.  Whatever
    happened since a successful [Init], the check returns: less than three seconds after
    the last one it changes nothing; otherwise the slots hold afterwards exactly the
    connections, with their records, whose deadline is after the given time, and the
    descriptors closed are those of the others. *)
Theorem timeout_check_exact (option : ContainerOption) (w0 w1 : world K) (ops : list container_op) (given : list Z) (w2 : world K) (now : Z) :
  (forall ep, header_fits (OnCheckPackageLength ep)) -> (forall fd k, short_within recv_fuel fd k) ->
  fresh_world option w0 -> option_ok option ->
  Container_Init w0 = Ret (None, w1) ->
  container_run OnCheckPackageLength recv_fuel ops w1 given w2 ->
  exists w3 t, Container_OnTimeoutCheck now w2 = Ret (tt, w3) /\
    os_trace (w_os w3) = os_trace (w_os w2) ++ t /\ opened t = [] /\ closed t ++ open_fds w3 ≡ₚ open_fds w2 /\
    if now - ct_last_check_time (w_ct w2) <? 3000 then w3 = w2
    else forall n c it deadline, st_holds (w_slots w3) n c it deadline <-> st_holds (w_slots w2) n c it deadline /\ now < deadline.
Proof.
  intros Hfits Hshort Hfresh Hopt Hinit Hrun.
  destruct (run_winv _ _ _ _ _ _ Hfits Hshort Hfresh Hopt Hinit Hrun) as (Hw2 & _ & _).
  pose proof (steps_OnTimeoutCheck now w2 Hw2) as Hsp. unfold steps, wp in Hsp.
  destruct (Container_OnTimeoutCheck now w2) as [[[] w3]| | |] eqn:E; [|done..].
  destruct Hsp as [[(t & Et & Ot & Hp) _ _] [_ Hex]]. rewrite app_nil_r in Hp.
  exists w3, t. do 4 (split; [done|]). destruct (Z.ltb_spec (now - ct_last_check_time (w_ct w2)) 3000) as [Hlt|Hge]; [|by apply Hex].
  unfold Container_OnTimeoutCheck, gets, mbind, M_bind, id in E. cbn in E. apply Z.ltb_lt in Hlt. rewrite Hlt in E. by injection E.
Qed.

End Safety.

(** ** A concrete container *)

(** [stream_kernel] with threads and epoll. *)
Definition server_kernel : Kernel (list byte) := fun k c =>
  match c with
  | SysPthreadCreate => ({| r_ret := 0; r_errno := 0; r_data := []; r_int := 77; r_events := [] |}, k)
  | SysEpollCreate _ => ({| r_ret := 9; r_errno := 0; r_data := []; r_int := 0; r_events := [] |}, k)
  | SysGettimeofday => ({| r_ret := 0; r_errno := 0; r_data := []; r_int := 0; r_events := [(1700000000, 5000)] |}, k)
  | _ => stream_kernel k c
  end.

#[local] Existing Instance server_kernel.
#[local] Existing Instance quiet_libc.

#[local] Instance server_kernel_io : KernelIO (list byte).
Proof. destruct stream_kernel_io as [H1 H2 H3]. split; [exact H1|exact H2|exact H3]. Qed.

#[local] Instance server_kernel_threads : KernelThreads (K := list byte).
Proof. split. done. Qed.

#[local] Instance server_kernel_epoll : KernelEpoll (K := list byte).
Proof. split. done. Qed.

Lemma server_kernel_short fd (k : list byte) : short_within 1 fd k.
Proof. apply stream_kernel_short. Qed.

Definition small_option : ContainerOption := {|
  op_mq_consumer_threads := 1; op_recv_send_threads := 2; op_default_container_size := 1; op_max_container_size := 2;
  op_connection_timeoutms := 60000; op_not_check_connection_timeout := false; op_msg_handler := true;
  op_proto_handler := true; op_heartbeat_handler := None; op_closed_handler := true; op_notify_handler := true |}.

Definition small_world : world (list byte) := {|
  w_os := {| os_kernel := [x02; x41; x02; x42]; os_errno := 0; os_trace := [] |};
  w_eps := ∅; w_conns := ∅; w_held := []; w_global_counter := 0; w_next := 0;
  w_ct := ContainerImpl_new small_option; w_calls := [] |}.

Definition started_world : world (list byte) :=
  match Container_Init small_world with Ret (None, w) => w | _ => small_world end.

Definition example_endpoint (fd : Z) : EndpointImpl := EndpointImpl_new fd (loopback4 80) (loopback4 81).

(** Id of slot 0 at that time. *)
Definition example_cid : Z := BuildConnectionId (ct_magic_number (w_ct started_world)) 0 0.

Definition recv_event : EventDetail := {| ed_ptr := example_cid; ed_event_type := kRecvEvent; ed_error_code := 0 |}.

Definition example_run : list container_op :=
  [OpEndpoint 1 (example_endpoint 5); OpEndpoint 2 (example_endpoint 6); OpAttach 1 true; OpAttach 2 false;
   OpEvent recv_event; OpMessage false; OpEndpointSend 2 Slice_default; OpClose 1 true; OpEvent recv_event; OpTimeoutCheck 1700000900000].

(** The preconditions, computed. *)
Ltac example_ok :=
  lazymatch goal with
  | |- container_op_ok (OpEndpoint _ _) _ => vm_compute; split_and!; (done || (intros ?; discriminate))
  | |- container_op_ok (OpAttach _ _) _ =>
      eexists; split; [vm_compute; reflexivity|split; [reflexivity|vm_compute; split; reflexivity]]
  | |- container_op_ok (OpClose _ _) _ => eexists; split; [vm_compute; reflexivity|reflexivity]
  | |- container_op_ok (OpEndpointSend _ _) _ => split; [vm_compute; by eexists|apply Slice_default_wf]
  | |- container_op_ok (OpEvent _) _ => vm_compute; intros ? [= <-]; done
  | _ => exact I
  end.

Lemma container_safe_witness :
  exists given w2,
  (exists t, os_trace (w_os w2) = os_trace (w_os started_world) ++ t /\ opened t = [] /\ closed t ++ open_fds w2 ≡ₚ given) /\
  (forall op, container_op_ok op w2 -> exists g w3, run_container_op length_byte 1 op w2 = Ret (g, w3)) /\
  slots_wf (w_slots w2) /\
  (forall c, is_Some (w_conns w2 !! c) <-> exists n, st_conn (w_slots w2) n = Some c) /\
  ct_count (w_ct w2) = u32 (Z.of_nat (length (ct_mpscq (w_ct w2)))).
Proof.
  eexists _, _. eapply (container_safe length_byte 1 small_option small_world started_world example_run).
  - apply length_byte_fits.
  - apply server_kernel_short.
  - done.
  - by vm_compute.
  - vm_compute. reflexivity.
  - unfold example_run. repeat (eapply crun_cons; [example_ok|vm_compute; reflexivity|]). apply crun_nil.
Defined.

(** The run before its timeout check, with the second connection still there. *)
Lemma timeout_check_exact_witness :
  exists w2, exists w3 t, Container_OnTimeoutCheck 1700000900000 w2 = Ret (tt, w3) /\
    os_trace (w_os w3) = os_trace (w_os w2) ++ t /\ opened t = [] /\ closed t ++ open_fds w3 ≡ₚ open_fds w2 /\
    if 1700000900000 - ct_last_check_time (w_ct w2) <? 3000 then w3 = w2
    else forall n c it deadline, st_holds (w_slots w3) n c it deadline <-> st_holds (w_slots w2) n c it deadline /\ 1700000900000 < deadline.
Proof.
  eexists. eapply (timeout_check_exact length_byte 1 small_option small_world started_world (take 9 example_run)).
  - apply length_byte_fits.
  - apply server_kernel_short.
  - done.
  - by vm_compute.
  - vm_compute. reflexivity.
  - unfold example_run. cbn [take]. repeat (eapply crun_cons; [example_ok|vm_compute; reflexivity|]). apply crun_nil.
Defined.

