(* ===== verification/ContainerThreads.v ===== *)
(** * The container's methods, interleaved (src/common/container_impl.cc)

    The polling threads, the timer thread, the message threads and the user's threads call
    the container at the same time.  A call is a sequence of sections: what it does while it
    holds [_conn_mtx], one method of a connection, one push of a message, one change of the
    timer.  Between two of its sections any section of any other call can run.  A section
    itself is atomic: two methods of one connection do not overlap here (ConnectionRace.v
    has what happens when two of its [Shutdown]s do), and the pushes and pops of the queue
    are atomic by Mpscq.v. *)

From S2P Require Import Prelude.
From S2P Require Import Cid.
From S2P Require Import OS.
From S2P Require Import Status.
From S2P Require Import Slice.
From S2P Require Import SliceBuffer.
From S2P Require Import SocketSetting.
From S2P Require Import Endpoint.
From S2P Require Import Connection.
From S2P Require Import Time.
From S2P Require Import Thread.
From S2P Require Import PollingThread.
From S2P Require Import Timer.
From S2P Require Import Multimap.
From S2P Require Import SlotTable.
From S2P Require Import Container.
From S2P Require Import ContainerSafety.

Local Open Scope Z_scope.

(** ** Calls as sections

    What is left of a call: nothing, or a section, which returns the descriptors it handed
    to the container and what is left after it. *)
Inductive proc (K : Type) : Type :=
  | Finished
  | Atomic (m : M (world K) (list Z * proc K)).
Arguments Finished {K}.
Arguments Atomic {K} _.

Section Sections.
Context {K : Type} `{Kernel K} `{LibC}.
Variable OnCheckPackageLength : EndpointImpl -> list cell -> Z.
Variable recv_fuel : nat.

Definition section {A} (m : M (world K) A) (k : A -> proc K) : proc K :=
  Atomic (a ← m; mret ([], k a)).

(** The copy of a [shared_ptr] that a call holds goes. *)
Definition release_section (c : nat) : proc K := section (release c) (fun _ => Finished).

Definition with_connection (index : Z) (k : nat -> proc K) : proc K :=
  section (GetConnection index) (fun con => match con with None => Finished | Some c => k c end).

Definition close_sections (c : nat) (index : Z) (notify : bool) (ev : Event) : proc K :=
  section (on_conn c (Connection_Shutdown notify ev)) (fun _ =>
  section (DeleteConnection index) (fun _ =>
  release_section c)).

Definition SendMsg_sections (connection_id : Z) (s : Slice) (ct : ContainerImpl) : proc K :=
  match CheckConnectionId connection_id ct with
  | None => Finished
  | Some index =>
      with_connection index (fun c =>
      section (on_conn c (Connection_SendMsg s)) (fun _ =>
      release_section c))
  end.

Definition CloseEndpoint_sections (cid : Z) (event_notify : bool) (ct : ContainerImpl) : proc K :=
  match CheckConnectionId cid ct with
  | None => Finished
  | Some index => with_connection index (fun c => close_sections c index event_notify Event_default)
  end.

Definition OnErrorEvent_sections (index : Z) (detail : EventDetail) : proc K :=
  let err := Some (Status_code_msg (ed_error_code detail) (str "ContainerImpl:OnErrorEvent")) in
  with_connection index (fun c => close_sections c index true (Event_new kSocketError err)).

(** [OnRecvEvent] and [OnSendEvent]: [m] is the connection's part. *)
Definition data_event_sections (m : M (conn_state K) raptor_error) (index : Z) : proc K :=
  with_connection index (fun c =>
  section (on_conn c m) (fun err =>
  match err with
  | None => section (RefreshTime index) (fun _ => release_section c)
  | Some _ => close_sections c index true (Event_new kSocketError err)
  end)).

Definition OnEventProcess_sections (detail : EventDetail) (ct : ContainerImpl) : proc K :=
  match CheckConnectionId (ed_ptr detail) ct with
  | None => Finished
  | Some index =>
      if has (ed_event_type detail) kErrorEvent then OnErrorEvent_sections index detail
      else if has (ed_event_type detail) kRecvEvent then
        data_event_sections (DoRecvEvent OnCheckPackageLength recv_fuel) index
      else if has (ed_event_type detail) kSendEvent then data_event_sections DoSendEvent index
      else Finished
  end.

(** [_last_check_time] is read and written before [_conn_mtx] is taken for the loop. *)
Definition OnTimeoutCheck_sections (current_millseconds : Z) : proc K :=
  section (gets (fun w => ct_last_check_time (w_ct w))) (fun last =>
  if current_millseconds - last <? 3000 then Finished else
  section (modify_ct (fun c => ct_with_times (ct_magic_number c) current_millseconds c)) (fun _ =>
  section (w ← gets id;
           let records := st_records (w_slots w) in
           timeout_loop (length records) (st_begin records) current_millseconds) (fun _ =>
  Finished))).

Definition OnTimer_sections (tid1 tid2 : Z) : proc K :=
  with_connection tid1 (fun c =>
  section (w ← gets id;
           cn ← of_option (w_conns w !! c);
           online ← on_conn c Connection_IsOnline;
           mret ((cn_handle_id cn =? tid2) && online)) (fun go =>
  if (go : bool) then
    section (w ← gets id;
             cn ← of_option (w_conns w !! c);
             modify_ct (Container_OnTimerEvent (cn_endpoint cn))) (fun _ =>
    section (w ← gets id;
             interval ← of_option (op_heartbeat_handler (ct_option (w_ct w)));
             SetTimer tid1 tid2 (u32 interval)) (fun _ =>
    release_section c))
  else release_section c)).

(** [AttachEndpoint]: the section under the lock, then the push. *)
Definition attach_section (ep : nat) (notify : bool) : M (world K) (list Z * proc K) :=
  w ← gets id;
  e ← AttachEndpointImpl ep;
  w' ← gets id;
  mret (match e, w_eps w !! ep with None, Some obj => [fd_int obj] | _, _ => [] end,
        if negb (bool_decide (is_Some e)) && notify && op_notify_handler (ct_option (w_ct w'))
        then section (modify_ct (Container_OnNotify ep)) (fun _ => Finished) else Finished).

(** A call begins: it reads the endpoint it is given and the container's constants, and
    [AttachEndpoint] takes the lock. *)
Definition enter (op : container_op) : M (world K) (list Z * proc K) :=
  match op with
  | OpEndpoint ep obj => _ ← modify (fun w => w_with_eps (<[ep := obj]> (w_eps w)) w); mret ([], Finished)
  | OpAttach ep notify => attach_section ep notify
  | OpEndpointSend ep s =>
      w ← gets id;
      obj ← of_option (w_eps w !! ep);
      mret ([], if ei_attached obj then SendMsg_sections (ei_connection_id obj) s (w_ct w) else Finished)
  | OpSend cid s => w ← gets id; mret ([], SendMsg_sections cid s (w_ct w))
  | OpClose ep notify =>
      w ← gets id;
      obj ← of_option (w_eps w !! ep);
      if ei_attached obj then mret ([], CloseEndpoint_sections (ConnectionId obj) notify (w_ct w)) else
      _ ← on_os (raptor_set_socket_shutdown (fd_int obj));
      _ ← modify_endpoint ep (SetFd InvalidFd);
      mret ([], Finished)
  | OpEvent detail => w ← gets id; mret ([], OnEventProcess_sections detail (w_ct w))
  | OpTimeoutCheck now => mret ([], OnTimeoutCheck_sections now)
  | OpTimer n tid2 => mret ([], OnTimer_sections (Z.of_nat n) tid2)
  | OpMessage blocked => mret ([], section (MessageQueue_round blocked) (fun _ => Finished))
  end.

(** ** A call that is not interrupted is the method *)

Fixpoint run_sections (p : proc K) : M (world K) (list Z) := fun w =>
  match p with
  | Finished => Ret ([], w)
  | Atomic m =>
      match m w with
      | Ret ((g, p), w) =>
          match run_sections p w with
          | Ret (gs, w) => Ret (g ++ gs, w)
          | Undef => Undef
          | Abort => Abort
          | NoFuel => NoFuel
          end
      | Undef => Undef
      | Abort => Abort
      | NoFuel => NoFuel
      end
  end.

Lemma run_section {A} (m : M (world K) A) (k : A -> proc K) w :
  run_sections (section m k) w = (a ← m; run_sections (k a)) w.
Proof using Type.
  cbn. unfold mbind, M_bind, mret, M_ret. destruct (m w) as [[a w1]| | |]; [|done..].
  by destruct (run_sections (k a) w1) as [[gs w2]| | |].
Qed.

(** Bind, one computation at a time. *)
Lemma bind_ext {S A B} (m m' : M S A) (f f' : A -> M S B) s :
  m s = m' s -> (forall a s', m s = Ret (a, s') -> f a s' = f' a s') -> (m ≫= f) s = (m' ≫= f') s.
Proof using Type.
  intros E Hf. unfold mbind, M_bind. rewrite <- E. destruct (m s) as [[a s']| | |]; [by apply Hf|done..].
Qed.

Lemma bind_assoc {S A B C} (m : M S A) (f : A -> M S B) (g : B -> M S C) s :
  ((m ≫= f) ≫= g) s = (m ≫= fun a => f a ≫= g) s.
Proof using Type. unfold mbind, M_bind. by destruct (m s) as [[a s']| | |]. Qed.

Lemma gets_bind {S A B} (f : S -> A) (k : A -> M S B) s : (gets f ≫= k) s = k (f s) s.
Proof using Type. done. Qed.

Lemma ret_bind {S A B} (a : A) (k : A -> M S B) s : (mret a ≫= k) s = k a s.
Proof using Type. done. Qed.

Lemma some_bind {S A B} (a : A) (k : A -> M S B) s : (of_option (Some a) ≫= k) s = k a s.
Proof using Type. done. Qed.

Lemma with_connection_alone {A} index (k : nat -> proc K) (f : nat -> M (world K) A) (b : A) w :
  (forall c w, run_sections (k c) w = (_ ← f c; mret []) w) ->
  run_sections (with_connection index k) w =
    (_ ← (con ← GetConnection index; match con with None => mret b | Some c => f c end); mret []) w.
Proof using Type.
  intros Hk. unfold with_connection. rewrite run_section, bind_assoc. apply bind_ext; [done|].
  intros [c|] w' _; [apply Hk|done].
Qed.

Lemma release_alone c w : run_sections (release_section c) w = (_ ← release c; mret []) w.
Proof using Type. unfold release_section. by rewrite run_section. Qed.

Lemma close_alone c index notify ev w :
  run_sections (close_sections c index notify ev) w =
    (_ ← (_ ← on_conn c (Connection_Shutdown notify ev); _ ← DeleteConnection index; release c); mret []) w.
Proof using Type.
  unfold close_sections. rewrite run_section, bind_assoc. apply bind_ext; [done|]. intros _ w1 _.
  rewrite run_section, bind_assoc. apply bind_ext; [done|]. intros _ w2 _. apply release_alone.
Qed.

Lemma SendMsg_alone cid s w :
  run_sections (SendMsg_sections cid s (w_ct w)) w = (_ ← Container_SendMsg cid s; mret []) w.
Proof using Type.
  unfold SendMsg_sections, Container_SendMsg. rewrite bind_assoc, gets_bind. unfold id.
  destruct (CheckConnectionId cid (w_ct w)) as [index|]; [|done].
  rewrite (with_connection_alone _ _ (fun c => r ← on_conn c (Connection_SendMsg s); _ ← release c; mret r) false); [done|].
  intros c w1. rewrite run_section, bind_assoc. apply bind_ext; [done|]. intros r w2 _.
  rewrite release_alone, bind_assoc. by apply bind_ext.
Qed.

Lemma data_event_alone m index w :
  run_sections (data_event_sections m index) w =
    (_ ← (con ← GetConnection index;
          match con with
          | None => mret tt
          | Some c =>
              err ← on_conn c m;
              _ ← match err with None => RefreshTime index | Some _ => close_and_delete c index err end;
              release c
          end); mret []) w.
Proof using Type.
  unfold data_event_sections. apply with_connection_alone. intros c w1. rewrite run_section, bind_assoc.
  apply bind_ext; [done|]. intros [err|] w2 _.
  - rewrite close_alone, !bind_assoc. unfold close_and_delete. rewrite bind_assoc. apply bind_ext; [done|].
    intros _ w3 _. by rewrite bind_assoc.
  - rewrite run_section, bind_assoc. apply bind_ext; [done|]. intros _ w3 _. apply release_alone.
Qed.

Lemma OnEventProcess_alone detail w :
  run_sections (OnEventProcess_sections detail (w_ct w)) w =
    (_ ← Container_OnEventProcess OnCheckPackageLength recv_fuel detail; mret []) w.
Proof using Type.
  unfold OnEventProcess_sections, Container_OnEventProcess. rewrite bind_assoc, gets_bind. unfold id.
  destruct (CheckConnectionId (ed_ptr detail) (w_ct w)) as [index|]; [|done].
  destruct (has _ kErrorEvent); [|destruct (has _ kRecvEvent); [|destruct (has _ kSendEvent); [|done]]];
    [|apply data_event_alone..].
  unfold OnErrorEvent_sections. apply with_connection_alone. intros c w1. rewrite close_alone. unfold close_and_delete.
  rewrite !bind_assoc. apply bind_ext; [done|]. intros _ w2 _. by rewrite bind_assoc.
Qed.

Lemma OnTimeoutCheck_alone now w :
  run_sections (OnTimeoutCheck_sections now) w = (_ ← Container_OnTimeoutCheck now; mret []) w.
Proof using Type.
  unfold OnTimeoutCheck_sections, Container_OnTimeoutCheck. rewrite run_section, bind_assoc, !gets_bind. unfold id.
  destruct (_ <? 3000); [done|]. rewrite run_section, bind_assoc. apply bind_ext; [done|]. intros _ w1 [= _ <-].
  by rewrite run_section, !bind_assoc, gets_bind.
Qed.

(** Asking a connection whether it is online changes nothing. *)
Lemma IsOnline_alone c b (w w' : world K) : on_conn c Connection_IsOnline w = Ret (b, w') -> w' = w.
Proof using Type.
  unfold on_conn, Connection_IsOnline, gets. destruct (w_conns w !! c) as [cn|] eqn:Ec; [|done].
  destruct (w_eps w !! cn_endpoint cn) as [ep|] eqn:Ee; [|done]. cbn. intros [= _ <-].
  rewrite !insert_id by done. by destruct w.
Qed.

Lemma OnTimer_alone tid1 tid2 w :
  run_sections (OnTimer_sections tid1 tid2) w = (_ ← Container_OnTimer tid1 tid2; mret []) w.
Proof using Type.
  unfold OnTimer_sections, Container_OnTimer. apply with_connection_alone. intros c w1.
  rewrite run_section, !bind_assoc, !gets_bind. unfold id. rewrite !bind_assoc. apply bind_ext; [done|]. intros cn w2 Hcn.
  assert (w_conns w1 !! c = Some cn /\ w2 = w1) as [Hc ->].
  { destruct (w_conns w1 !! c); [|done]. by injection Hcn as -> ->. }
  rewrite !bind_assoc. apply bind_ext; [done|]. intros online w3 ->%IsOnline_alone. rewrite ret_bind.
  destruct (_ && online).
  - rewrite run_section, !bind_assoc, gets_bind. unfold id. rewrite Hc, bind_assoc, some_bind.
    apply bind_ext; [done|]. intros _ w4 [= _ <-]. rewrite run_section, !bind_assoc, gets_bind. unfold id.
    assert (ct_option (w_ct (w_with_ct (Container_OnTimerEvent (cn_endpoint cn) (w_ct w1)) w1)) = ct_option (w_ct w1)) as ->
      by (cbn; unfold Container_OnTimerEvent; by destruct (op_heartbeat_handler (ct_option (w_ct w1)))).
    rewrite bind_assoc. apply bind_ext; [done|]. intros i w5 _. apply bind_ext; [done|]. intros _ w6 _. apply release_alone.
  - rewrite bind_assoc, ret_bind. apply release_alone.
Qed.

Lemma CloseEndpoint_alone ep obj notify w :
  w_eps w !! ep = Some obj ->
  run_sections (CloseEndpoint_sections (ConnectionId obj) notify (w_ct w)) w = (_ ← CloseEndpoint ep notify; mret []) w.
Proof using Type.
  intros He. unfold CloseEndpoint_sections, CloseEndpoint. rewrite bind_assoc, gets_bind. unfold id.
  rewrite He, bind_assoc, some_bind. destruct (CheckConnectionId (ConnectionId obj) (w_ct w)) as [index|]; [|done].
  apply with_connection_alone. intros c w1. apply close_alone.
Qed.

Lemma run_atomic (m : M (world K) (list Z * proc K)) w :
  run_sections (Atomic m) w = (x ← m; gs ← run_sections x.2; mret (x.1 ++ gs)) w.
Proof using Type.
  cbn. unfold mbind, M_bind, mret, M_ret. destruct (m w) as [[[g p] w1]| | |]; [|done..]. cbn.
  by destruct (run_sections p w1) as [[gs w2]| | |].
Qed.

Lemma run_ret (p : proc K) w :
  (x ← mret ([], p); gs ← run_sections x.2; mret (x.1 ++ gs)) w = run_sections p w.
Proof using Type.
  unfold mbind, M_bind, mret, M_ret. cbn. by destruct (run_sections p w) as [[gs w2]| | |].
Qed.

(** A call whose sections run one after the other is the method of Container.v. *)
Lemma enter_alone (op : container_op) (w : world K) :
  container_op_ok op w ->
  run_sections (Atomic (enter op)) w = run_container_op OnCheckPackageLength recv_fuel op w.
Proof using Type.
  intros Hok. rewrite run_atomic.
  destruct op as [ep obj|ep notify|ep s|cid s|ep notify|detail|now|n tid2|blocked]; cbn [enter run_container_op container_op_ok] in *.
  - done.
  - unfold attach_section, AttachEndpoint. rewrite !bind_assoc, !gets_bind. unfold id. rewrite !bind_assoc.
    apply bind_ext; [done|]. intros e w1 _. rewrite !bind_assoc, !gets_bind. unfold id. rewrite ret_bind. cbn [fst snd].
    destruct (_ && op_notify_handler (ct_option (w_ct w1))).
    + unfold section, modify_ct, modify, mbind, M_bind, mret, M_ret. cbn. by rewrite app_nil_r.
    + unfold mbind, M_bind, mret, M_ret. cbn. by rewrite app_nil_r.
  - destruct Hok as [[obj He] _]. unfold Endpoint_SendMsg. rewrite !bind_assoc, !gets_bind. unfold id.
    rewrite He, !bind_assoc, !some_bind, run_ret. destruct (ei_attached obj); [apply SendMsg_alone|done].
  - rewrite bind_assoc, gets_bind. unfold id. rewrite run_ret. apply SendMsg_alone.
  - destruct Hok as (obj & He & Ha). unfold Endpoint_Close. rewrite !bind_assoc, !gets_bind. unfold id.
    rewrite He, !bind_assoc, !some_bind, Ha, run_ret, (CloseEndpoint_alone ep) by done. by rewrite bind_assoc.
  - rewrite bind_assoc, gets_bind. unfold id. rewrite run_ret. apply OnEventProcess_alone.
  - rewrite run_ret. apply OnTimeoutCheck_alone.
  - rewrite run_ret. apply OnTimer_alone.
  - by rewrite run_ret, run_section.
Qed.
End Sections.

(** ** The invariant between sections

    Several calls hold connections, and a connection may be offline while it is still in its
    slot, or gone from it while it is held. *)

Definition shared (doomed : option nat) (c : nat) (ep : EndpointImpl) : Prop := IsOnline ep = true -> holds_fd ep.

Section Shared.
Context {K : Type} `{Kernel K} `{!KernelIO K} `{LibC}.
Implicit Types w : world K.

(** [hs]: the connections the calls in progress hold. *)
Definition cinv (hs : list nat) w : Prop := w_held w ≡ₚ hs /\ inv_with shared (w_held w) None w.

Lemma shared_holds c ep : holds_fd ep -> shared None c ep.
Proof using Type. by intros Hh _. Qed.

(** Whether a connection is doomed makes a difference to its references only. *)
Lemma inv_doom h c w : inv_with shared h None w -> inv_with shared h (Some c) w.
Proof using Type. intros []. split; try done. intros x y Hx. destruct (wi_live x y Hx) as [?|[?|?]]; auto. done. Qed.

Lemma inv_settle h c w :
  inv_with shared h (Some c) w -> c ∈ h \/ (exists n, st_conn (w_slots w) n = Some c) -> inv_with shared h None w.
Proof using Type.
  intros [] Hc. split; try done. intros x y Hx. destruct (wi_live x y Hx) as [?|[?|[= ->]]]; auto. destruct Hc; auto.
Qed.

Lemma cinv_perm hs hs' w : hs ≡ₚ hs' -> cinv hs w -> cinv hs' w.
Proof using Type. intros Hp [Hh Hw]. split; [by rewrite Hh|done]. Qed.

Lemma cinv_intro h hs w : inv_with shared h None w -> h ≡ₚ hs -> cinv hs w.
Proof using Type. intros Hw Hh. pose proof (wi_held _ _ _ Hw) as E. split; [by rewrite E|by rewrite E]. Qed.

Lemma cinv_alive c hs w : cinv hs w -> c ∈ hs -> is_Some (w_conns w !! c).
Proof using Type. intros [Hh Hw] Hc. apply (wi_held_live _ _ _ Hw). by rewrite Hh. Qed.

(** Shutting down, whether it was done before or not. *)
Lemma shutdown_shared h d c notify ev w :
  inv_with shared h d w -> is_Some (w_conns w !! c) ->
  steps (on_conn c (Connection_Shutdown notify ev)) [] w
    (fun _ w' => inv_with shared h d w' /\ w_slots w' = w_slots w /\ offline c w').
Proof using Type.
  intros Hw [cn Hc]. destruct (wi_ep _ _ _ Hw c cn Hc) as (ep & He & _ & Hfd).
  destruct (IsOnline ep) eqn:Eon.
  - eapply steps_shutdown_online; [exact Hw|done|exact He|by apply Hfd|done| |done].
    intros x Hx Hon. congruence.
  - assert (offline c w) as Hoff by (by exists cn, ep).
    eapply steps_mono; [by apply steps_shutdown_again|]. by intros _ w' ->.
Qed.

(** A reference goes: the connection stays if there is another one, and is closed and
    destroyed if there is none. *)
Lemma drop_shared h c w :
  inv_with shared h (Some c) w -> is_Some (w_conns w !! c) ->
  steps (drop_connection c) [] w (fun _ w' => inv_with shared h None w' /\ w_slots w' = w_slots w).
Proof using Type.
  intros Hw Hc. destruct (decide (c ∈ h \/ in_slots c (w_slots w) = true)) as [Hs|Hn].
  - assert (c ∈ h \/ exists n, st_conn (w_slots w) n = Some c) as Hs' by (by rewrite <- in_slots_spec).
    eapply steps_mono; [by eapply steps_drop_shared|]. intros _ w' ->. split; [by eapply inv_settle|done].
  - assert (c ∉ h) as Hh by tauto.
    assert (forall n, st_conn (w_slots w) n <> Some c) as Hslot by (intros n E; apply Hn; right; apply in_slots_spec; eauto).
    unfold steps, wp. rewrite (drop_connection_last h (Some c) c w Hw Hh Hslot).
    eapply steps_bind; [by eapply shutdown_shared|]. cbn beta. intros _ w1 (Hw1 & Es & Hoff).
    eapply steps_mono; [eapply steps_forget; [done..|by rewrite Es|done]|]. cbn beta. intros _ w2 (? & E2 & _). by rewrite E2.
Qed.

Lemma GetConnection_shared hs n w :
  cinv hs w -> (n < length (st_mgr (w_slots w)))%nat ->
  steps (GetConnection (Z.of_nat n)) [] w (fun r w' => cinv (option_list r ++ hs) w').
Proof using Type.
  intros [Hh Hw] Hn. eapply steps_mono; [by eapply steps_GetConnection|]. cbn beta. intros [c|] w' (Hr & _).
  - destruct Hr as [Hr _]. eapply cinv_intro; [exact Hr|]. cbn. by rewrite Hh.
  - by eapply cinv_intro.
Qed.

Lemma on_conn_shared {A} hs c (m : M (conn_state K) A) w :
  cinv hs w -> c ∈ hs -> keeps m -> steps (on_conn c m) [] w (fun _ w' => cinv hs w').
Proof using Type.
  intros Hw Hc Hm. destruct (cinv_alive c hs w Hw Hc) as [cn Hcn]. destruct Hw as [Hh Hw].
  eapply steps_mono; [by eapply steps_on_conn|]. cbn beta. intros _ w' (Hw' & _). by eapply cinv_intro.
Qed.

Lemma Shutdown_shared hs c notify ev w :
  cinv hs w -> c ∈ hs -> steps (on_conn c (Connection_Shutdown notify ev)) [] w (fun _ w' => cinv hs w').
Proof using Type.
  intros Hw Hc. pose proof (cinv_alive c hs w Hw Hc) as Ha. destruct Hw as [Hh Hw].
  eapply steps_mono; [by eapply shutdown_shared|]. cbn beta. intros _ w' (Hw' & _). by eapply cinv_intro.
Qed.
(** What a slot holds is let go. *)
Lemma free_shared h n c it d t' w :
  inv_with shared h None w -> st_holds (w_slots w) n c it d -> st_release (Z.of_nat n) (w_slots w) = Ret t' -> slots_wf t' ->
  st_mgr t' = <[n := (None, None)]> (st_mgr (w_slots w)) ->
  inv_with shared h (Some c) (w_with_slots t' w) /\ is_Some (w_conns w !! c) /\
  (length (st_mgr (w_slots w)) <= length (st_mgr t'))%nat.
Proof using Type.
  intros Hw Hh Hrel Hw' Emgr. destruct (winv_free _ c n w t' it d (inv_doom _ c _ Hw) Hh Hrel Hw' Emgr) as (Hinv & _ & Hl).
  split; [done|]. split; [|lia]. apply (wi_slot _ _ _ Hw n). apply st_conn_Some; [apply (wi_slots _ _ _ Hw)|eauto].
Qed.

Lemma DeleteConnection_shared hs n w :
  cinv hs w -> (n < length (st_mgr (w_slots w)))%nat ->
  steps (DeleteConnection (Z.of_nat n)) [] w (fun _ w' => cinv hs w').
Proof using Type.
  intros [Hh Hw] Hn. pose proof (wi_slots _ _ _ Hw) as Hs. unfold DeleteConnection.
  destruct (st_slot_in_range _ _ Hs Hn) as [[E _]|(c & it & d & E & Hc)].
  - eapply (steps_bind _ _ _ _ (fun r w' => r = None /\ w' = w)).
    + apply steps_on_slots. exists None, (w_slots w). unfold st_delete. rewrite E, w_with_slots_id. done.
    + intros r w1 [-> ->]. by apply steps_ret.
  - destruct (st_release_spec _ n c it d Hs Hc) as (t' & Er & Hw' & Emgr & _).
    destruct (free_shared _ n c it d t' w Hw Hc Er Hw' Emgr) as (Hinv & Ha & Hl).
    eapply (steps_bind _ _ _ _ (fun r w' => r = Some c /\ w' = w_with_slots t' w)).
    + apply steps_on_slots. exists (Some c), t'. unfold st_delete. by rewrite E, Er.
    + intros r w1 [-> ->]. eapply steps_mono; [by eapply drop_shared|]. cbn beta. intros _ w' [Hw1 _]. by eapply cinv_intro.
Qed.

Lemma RefreshTime_shared hs n w :
  cinv hs w -> (n < length (st_mgr (w_slots w)))%nat ->
  steps (RefreshTime (Z.of_nat n)) [] w (fun _ w' => cinv hs w').
Proof using Type.
  intros [Hh Hw] Hn. destruct (st_conn (w_slots w) n) as [c|] eqn:Ec.
  - eapply steps_mono; [by eapply steps_RefreshTime|]. cbn beta. intros _ w' (Hw' & _). by eapply cinv_intro.
  - unfold RefreshTime. eapply (steps_bind _ _ _ _ (fun r w' => r = None /\ w' = w)).
    + eapply (steps_read_slot fst); [done|]. intros s _ ->. by rewrite Ec.
    + intros r w1 [-> ->]. by apply steps_ret.
Qed.

Lemma remove_one_perm c l : c ∈ l -> l ≡ₚ c :: remove_one c l.
Proof using Type.
  intros Hc. unfold remove_one. destruct (list_find (eq c) l) as [[i x]|] eqn:E.
  - apply list_find_Some in E as (Hi & <- & _). by apply delete_Permutation.
  - apply list_find_None in E. rewrite Forall_forall in E. by destruct (E c Hc).
Qed.

Lemma release_shared hs c w : cinv (c :: hs) w -> steps (release c) [] w (fun _ w' => cinv hs w').
Proof using Type.
  intros [Hh Hw]. assert (c ∈ w_held w) as Hc by (rewrite Hh; by left). pose proof (remove_one_perm c _ Hc) as Hp.
  pose proof (wi_held_live _ _ _ Hw c Hc) as Ha. unfold release.
  set (h := remove_one c (w_held w)) in *.
  eapply (steps_bind _ _ _ _ (fun _ w' => w' = w_with_conns (w_conns w) h w)).
  { unfold steps. apply wp_modify. split; [by apply effect_pure|done]. }
  intros _ w1 ->. eapply steps_mono.
  - apply (drop_shared h); [|done]. apply (winv_unhold (w_held w) h c); [by apply inv_doom|done|by left].
  - cbn beta. intros _ w' [Hw' _]. eapply cinv_intro; [exact Hw'|]. rewrite Hh in Hp. by apply Permutation_cons_inv in Hp.
Qed.

(** The timeout loop: a connection that is held elsewhere is shut down and stays. *)
Lemma expire_shared h n c rid key t' ev w (f : M (world K) unit) Q :
  inv_with shared h None w -> st_holds (w_slots w) n c rid key ->
  st_release (Z.of_nat n) (w_slots w) = Ret t' -> slots_wf t' -> st_mgr t' = <[n := (None, None)]> (st_mgr (w_slots w)) ->
  (forall w', inv_with shared h None w' -> w_slots w' = t' -> steps f [] w' Q) ->
  steps (_ ← on_conn c (Connection_Shutdown true ev);
         _ ← on_slots (fun t => match st_release (Z.of_nat n) t with Ret t => Ret (tt, t) | _ => Undef end);
         _ ← drop_connection c; f) [] w Q.
Proof using Type.
  intros Hw Hh E Hw' Emgr Hf.
  assert (is_Some (w_conns w !! c)) as Ha.
  { apply (wi_slot _ _ _ Hw n), st_conn_Some; [apply (wi_slots _ _ _ Hw)|eauto]. }
  eapply steps_bind; [by eapply shutdown_shared|]. cbn beta. intros _ w1 (Hw1 & Es & (cn & ep & Hc1 & _)).
  rewrite <- Es in Hh, Emgr, E.
  destruct (free_shared _ n c rid key t' w1 Hw1 Hh E Hw' Emgr) as (Hinv & _ & Hl).
  eapply (steps_bind _ _ _ _ (fun _ w' => w' = w_with_slots t' w1)).
  { apply steps_on_slots. exists tt, t'. by rewrite E. }
  intros _ w2 ->. eapply steps_bind; [eapply drop_shared; [exact Hinv|by exists cn]|]. cbn beta.
  intros _ w3 [Hw3 Es3]. by apply Hf.
Qed.

Lemma timeout_loop_shared hs now w :
  cinv hs w ->
  steps (w ← gets id; let records := st_records (w_slots w) in timeout_loop (length records) (st_begin records) now) [] w
    (fun _ w' => cinv hs w').
Proof using Type.
  intros [Hh Hw]. apply steps_gets. cbn. unfold id. eapply steps_mono.
  - apply (steps_timeout_loop (inv_with shared (w_held w) None)) with (w := w); [|apply expire_shared|done|done].
    intros x Hx. apply (wi_slots _ _ _ Hx).
  - cbn beta. intros _ w' [Hw' _]. by eapply cinv_intro.
Qed.
End Shared.

(** ** Calls that are safe at every section *)

Section Calls.
Context {K : Type} `{Kernel K} `{!KernelIO K} `{LibC}.
Implicit Types w : world K.
Variable OnCheckPackageLength : EndpointImpl -> list cell -> Z.
Variable recv_fuel : nat.
Hypothesis Hfits : forall ep, header_fits (OnCheckPackageLength ep).
Hypothesis Hshort : forall fd k, short_within recv_fuel fd k.

(** What a call can rely on: the options, the slots and the endpoints that are there; none
    of them goes. *)
Variable option : ContainerOption.

Definition known (kn : nat * list nat) w : Prop :=
  ct_option (w_ct w) = option /\ (kn.1 <= length (st_mgr (w_slots w)))%nat /\
  forall e, e ∈ kn.2 -> is_Some (w_eps w !! e).

(** [n] bounds the sections that are left; the call holds the connection [held].  Whatever
    the other calls did and hold, the next section returns. *)
Fixpoint psafe (kn : nat * list nat) (n : nat) (held : Datatypes.option nat) (p : proc K) : Prop :=
  match p, n with
  | Finished, _ => held = None
  | Atomic _, O => False
  | Atomic m, S n => forall hs w, cinv (option_list held ++ hs) w -> known kn w ->
      wp m w (fun r w' => effect r.1 w w' /\ exists held', cinv (option_list held' ++ hs) w' /\ psafe kn n held' r.2)
  end.

Lemma psafe_finished kn n : psafe kn n None Finished.
Proof using Type. by destruct n. Qed.

Lemma psafe_mono kn n n' held p : (n <= n')%nat -> psafe kn n held p -> psafe kn n' held p.
Proof using Type.
  revert n' held p. induction n as [|n IH]; intros n' held [|m] Hn Hp; [by destruct n'|done|by destruct n'|].
  destruct n' as [|n']; [lia|]. intros hs w Hw Hk. eapply wp_mono; [by apply Hp|]. cbn beta.
  intros r w' (He & held' & Hw' & Hr). split; [done|]. exists held'. split; [done|]. apply (IH n'); [lia|done].
Qed.

Lemma known_effect kn g w w' : known kn w -> effect g w w' -> known kn w'.
Proof using Type. intros (Ho & Hl & Hk) He. split; [by rewrite (ef_option _ _ _ He)|]. pose proof (ef_size _ _ _ He). split; [lia|].
  intros e Hin. apply (ef_eps _ _ _ He). auto.
Qed.

Lemma psafe_section {A} kn n held (m : M (world K) A) (k : A -> proc K) :
  (forall hs w, cinv (option_list held ++ hs) w -> known kn w ->
    steps m [] w (fun a w' => exists held', cinv (option_list held' ++ hs) w' /\ psafe kn n held' (k a))) ->
  psafe kn (S n) held (section m k).
Proof using Type.
  intros Hm hs w Hw Hk. apply wp_bind. eapply wp_mono; [by apply Hm|]. cbn beta.
  intros a w' [He Hr]. apply wp_ret. done.
Qed.

Lemma release_safe kn c : psafe kn 1 (Some c) (release_section c).
Proof using Type.
  apply psafe_section. intros hs w Hw _. eapply steps_mono; [by apply (release_shared hs)|]. cbn beta.
  intros _ w' Hw'. by exists None.
Qed.

(** A section on a held connection, and one that does not touch the references. *)
Lemma psafe_keep {A} kn n held (m : M (world K) A) (k : A -> proc K) :
  (forall hs w, cinv (option_list held ++ hs) w -> known kn w -> steps m [] w (fun _ w' => cinv (option_list held ++ hs) w')) ->
  (forall a, psafe kn n held (k a)) -> psafe kn (S n) held (section m k).
Proof using Type.
  intros Hm Hk. apply psafe_section. intros hs w Hw Hkn. eapply steps_mono; [by apply Hm|]. cbn beta.
  intros a w' Hw'. by exists held.
Qed.

Lemma psafe_on_conn {A} kn n c (m : M (conn_state K) A) (k : A -> proc K) :
  keeps m -> (forall a, psafe kn n (Some c) (k a)) -> psafe kn (S n) (Some c) (section (on_conn c m) k).
Proof using Type. intros Hm. apply psafe_keep. intros hs w Hw _. apply on_conn_shared; [done|by left|done]. Qed.

Lemma with_connection_safe kn n i (k : nat -> proc K) :
  (i < kn.1)%nat -> (forall c, psafe kn n (Some c) (k c)) -> psafe kn (S n) None (with_connection (Z.of_nat i) k).
Proof using Type.
  intros Hi Hk. apply psafe_section. intros hs w Hw (_ & Hl & _). eapply steps_mono; [apply (GetConnection_shared hs); [done|lia]|].
  cbn beta. intros [c|] w' Hw'; [by exists (Some c)|]. exists None. split; [done|apply psafe_finished].
Qed.

Lemma close_safe kn i c notify ev :
  (i < kn.1)%nat -> psafe kn 3 (Some c) (close_sections c (Z.of_nat i) notify ev).
Proof using Type.
  intros Hi. apply psafe_keep; [intros hs w Hw _; apply Shutdown_shared; [done|by left]|]. intros _.
  apply psafe_keep; [intros hs w Hw (_ & Hl & _); apply DeleteConnection_shared; [done|lia]|]. intros _. apply release_safe.
Qed.

(** The index an id names is below the length there was when the call began. *)
Lemma index_known cid w idx :
  id_in_range cid (w_ct w) -> CheckConnectionId cid (w_ct w) = Some idx ->
  exists i, idx = Z.of_nat i /\ (i < length (st_mgr (w_slots w)))%nat.
Proof using Type. intros Hid E. specialize (Hid idx E). exists (Z.to_nat idx). unfold w_slots. lia. Qed.

Lemma SendMsg_safe cid s w :
  id_in_range cid (w_ct w) -> Slice_wf s ->
  psafe (length (st_mgr (w_slots w)), []) 5 None (SendMsg_sections cid s (w_ct w)).
Proof using Type.
  intros Hid Hs. unfold SendMsg_sections. destruct (CheckConnectionId cid (w_ct w)) as [idx|] eqn:E; [|done].
  destruct (index_known cid w idx Hid E) as (i & -> & Hi). apply with_connection_safe; [done|]. intros c.
  apply psafe_on_conn; [by apply keeps_send|]. intros _. apply (psafe_mono _ 1); [lia|apply release_safe].
Qed.

Lemma CloseEndpoint_safe cid notify w :
  id_in_range cid (w_ct w) ->
  psafe (length (st_mgr (w_slots w)), []) 5 None (CloseEndpoint_sections cid notify (w_ct w)).
Proof using Type.
  intros Hid. unfold CloseEndpoint_sections. destruct (CheckConnectionId cid (w_ct w)) as [idx|] eqn:E; [|done].
  destruct (index_known cid w idx Hid E) as (i & -> & Hi). apply with_connection_safe; [done|]. intros c.
  apply (psafe_mono _ 3); [lia|by apply close_safe].
Qed.

Lemma data_event_safe kn i (m : M (conn_state K) raptor_error) :
  (i < kn.1)%nat -> keeps m -> psafe kn 5 None (data_event_sections m (Z.of_nat i)).
Proof using Type.
  intros Hi Hm. apply with_connection_safe; [done|]. intros c. apply psafe_on_conn; [done|]. intros [err|]; [by apply close_safe|].
  apply psafe_keep; [intros hs w Hw (_ & Hl & _); apply RefreshTime_shared; [done|lia]|]. intros _.
  apply (psafe_mono _ 1); [lia|apply release_safe].
Qed.

Lemma OnEventProcess_safe detail w :
  id_in_range (ed_ptr detail) (w_ct w) ->
  psafe (length (st_mgr (w_slots w)), []) 5 None (OnEventProcess_sections OnCheckPackageLength recv_fuel detail (w_ct w)).
Proof using KernelIO0 Hfits Hshort.
  intros Hid. unfold OnEventProcess_sections. destruct (CheckConnectionId (ed_ptr detail) (w_ct w)) as [idx|] eqn:E; [|done].
  destruct (index_known _ w idx Hid E) as (i & -> & Hi).
  destruct (has _ kErrorEvent); [|destruct (has _ kRecvEvent); [|destruct (has _ kSendEvent); [|done]]].
  - apply with_connection_safe; [done|]. intros c. apply (psafe_mono _ 3); [lia|by apply close_safe].
  - apply data_event_safe; [done|by apply keeps_do_recv].
  - apply data_event_safe; [done|apply keeps_do_send].
Qed.
Lemma OnTimeoutCheck_safe kn now : psafe kn 5 None (OnTimeoutCheck_sections now).
Proof using Type.
  apply (psafe_mono _ 3); [lia|]. apply psafe_keep.
  { intros hs w Hw _. unfold steps. apply wp_gets. split; [apply effect_refl|done]. }
  intros last. destruct (_ <? 3000); [apply psafe_finished|]. apply psafe_keep.
  { intros hs w [Hh Hw] _. unfold steps. apply wp_modify. split; [by apply effect_pure|].
    eapply cinv_intro; [by apply winv_times|done]. }
  intros _. apply psafe_keep; [|done]. intros hs w Hw _. by apply timeout_loop_shared.
Qed.

Lemma OnTimer_safe kn i tid2 :
  (i < kn.1)%nat -> is_Some (op_heartbeat_handler option) -> psafe kn 5 None (OnTimer_sections (Z.of_nat i) tid2).
Proof using Type.
  intros Hi [interval Hint]. apply with_connection_safe; [done|]. intros c. apply psafe_keep.
  { intros hs w Hw _. assert (c ∈ option_list (Some c) ++ hs) as Hc by (by left).
    destruct (cinv_alive c _ w Hw Hc) as [cn Hcn]. apply steps_gets. unfold id. eapply steps_some; [done|].
    eapply steps_bind; [by apply on_conn_shared; [..|apply keeps_is_online]|]. cbn beta. intros online w1 Hw1. by apply steps_ret. }
  intros [|]; [|apply (psafe_mono _ 1); [lia|apply release_safe]]. apply psafe_keep.
  { intros hs w Hw _. assert (c ∈ option_list (Some c) ++ hs) as Hc by (by left).
    destruct (cinv_alive c _ w Hw Hc) as [cn Hcn]. apply steps_gets. unfold id. eapply steps_some; [done|].
    destruct Hw as [Hh Hw]. destruct (wi_ep _ _ _ Hw c cn Hcn) as (ep & He & _).
    assert (queue_grows (fun e => is_Some (w_eps w !! e)) (w_ct w) (Container_OnTimerEvent (cn_endpoint cn) (w_ct w))) as Hq
      by (apply timer_event_grows; by exists ep).
    unfold steps. apply wp_modify. split; [by eapply effect_queue|]. eapply cinv_intro; [by apply winv_queue|done]. }
  intros _. apply psafe_keep; [|intros _; apply release_safe].
  intros hs w [Hh Hw] [Ho _]. apply steps_gets. unfold id. rewrite Ho. eapply steps_some; [done|].
  eapply steps_mono; [by eapply steps_SetTimer|]. cbn beta. intros _ w' (Hw' & _). by eapply cinv_intro.
Qed.

Lemma message_safe kn blocked : psafe kn 5 None (section (MessageQueue_round blocked) (fun _ => Finished)).
Proof using Type.
  apply (psafe_mono _ 1); [lia|]. apply psafe_keep; [|done]. intros hs w [Hh Hw] _.
  eapply steps_mono; [by eapply steps_MessageQueue_round|]. cbn beta. intros _ w' Hw'. by eapply cinv_intro.
Qed.

Lemma notify_safe kn ep :
  op_notify_handler option = true -> ep ∈ kn.2 ->
  psafe kn 5 None (section (modify_ct (Container_OnNotify ep)) (fun _ => Finished)).
Proof using Type.
  intros Hn He. apply (psafe_mono _ 1); [lia|]. apply psafe_keep; [|done]. intros hs w Hw Hk.
  destruct Hw as [Hh Hw]. destruct Hk as (Ho & _ & Hk). pose proof (Hk ep He) as Hep.
  assert (queue_grows (fun e => is_Some (w_eps w !! e)) (w_ct w) (Container_OnNotify ep (w_ct w))) as Hq.
  { apply push_message_grows; [|done]. unfold handled. cbn. by rewrite Ho. }
  unfold steps. apply wp_modify. split; [by eapply effect_queue|]. eapply cinv_intro; [by apply winv_queue|done].
Qed.
(** A call that begins. *)
Lemma enter_spec op hs w :
  cinv hs w -> ct_option (w_ct w) = option -> container_op_ok op w ->
  wp (enter OnCheckPackageLength recv_fuel op) w (fun r w' => effect r.1 w w' /\ cinv hs w' /\
    exists kn, known kn w' /\ psafe kn 5 None r.2).
Proof using KernelIO0 Hfits Hshort.
  intros Hc Ho Hop. pose proof Hc as [Hh Hw].
  assert (forall l, (forall e, e ∈ l -> is_Some (w_eps w !! e)) -> known (length (st_mgr (w_slots w)), l) w) as Hk by done.
  assert (known (length (st_mgr (w_slots w)), []) w) as Hk0 by (apply Hk; by intros e ?%elem_of_nil).
  assert (forall p, psafe (length (st_mgr (w_slots w)), []) 5 None p ->
    wp (mret ([], p)) w (fun r w' => effect r.1 w w' /\ cinv hs w' /\ exists kn, known kn w' /\ psafe kn 5 None r.2)) as Hret.
  { intros p Hp. apply wp_ret. split; [apply effect_refl|]. split; [done|]. by eexists. }
  destruct op as [ep obj|ep notify|ep s|cid s|ep notify|detail|now|n tid2|blocked]; cbn [enter container_op_ok] in *.
  - destruct Hop as (He & _ & Hfd & Hid & Hp). destruct (winv_new_endpoint _ _ ep obj w Hw He Hfd Hid Hp) as [Hw' Hef].
    apply wp_bind, wp_modify, wp_ret. split; [done|]. split; [by eapply cinv_intro|].
    exists (length (st_mgr (w_slots w)), []). split; [by eapply known_effect|done].
  - destruct Hop as (obj & He & Ha & Hfd). unfold attach_section. apply wp_bind, wp_gets, wp_bind. unfold id.
    eapply wp_mono; [by apply (steps_AttachEndpointImpl _ ep obj w Hw He Ha Hfd shared_holds)|]. cbn beta.
    intros e w1 [Hw1 He1]. apply wp_bind, wp_gets, wp_ret. cbn [fst snd]. rewrite He. split; [by destruct e|].
    split; [by eapply cinv_intro|]. exists (length (st_mgr (w_slots w)), [ep]). split.
    { eapply known_effect; [apply Hk; intros x ->%list_elem_of_singleton; by exists obj|exact He1]. }
    destruct (_ && op_notify_handler (ct_option (w_ct w1))) eqn:En; [|apply psafe_finished].
    apply andb_prop in En as [_ En]. rewrite (ef_option _ _ _ He1), Ho in En. apply notify_safe; [done|by left].
  - destruct Hop as [[obj He] Hs]. apply wp_bind, wp_gets, wp_bind, wp_of_option. exists obj. split; [done|]. apply Hret.
    destruct (ei_attached obj); [|apply psafe_finished]. destruct (wi_ids _ _ _ Hw ep obj He) as [_ Hid]. by apply SendMsg_safe.
  - destruct Hop as [Hid Hs]. apply wp_bind, wp_gets, Hret. by apply SendMsg_safe.
  - destruct Hop as (obj & He & Ha). apply wp_bind, wp_gets, wp_bind, wp_of_option. exists obj. split; [done|]. rewrite Ha.
    apply Hret. destruct (wi_ids _ _ _ Hw ep obj He) as [_ Hid]. by apply CloseEndpoint_safe.
  - apply wp_bind, wp_gets, Hret. by apply OnEventProcess_safe.
  - apply Hret, OnTimeoutCheck_safe.
  - destruct Hop as [Hn Hi]. apply Hret. apply OnTimer_safe; [done|by rewrite <- Ho].
  - apply Hret, message_safe.
Qed.
End Calls.

(** ** Pools of calls *)

Section Pools.
Context {K : Type} `{Kernel K} `{LibC}.
Variable OnCheckPackageLength : EndpointImpl -> list cell -> Z.
Variable recv_fuel : nat.

(** The container and the calls that were made on it, with what is left of them. *)
Record pool : Type := {
  pl_world : world K;
  pl_calls : list (proc K);
}.

(** Some thread makes a call; or call [i] runs its next section. *)
Inductive choice : Type :=
  | Enter (op : container_op)
  | Continue (i : nat).

Definition choice_ok (ch : choice) (s : pool) : Prop :=
  match ch with
  | Enter op => container_op_ok op (pl_world s)
  | Continue i => exists m, pl_calls s !! i = Some (Atomic m)
  end.

(** The descriptors handed to the container by the step, and the next state. *)
Definition pool_step (ch : choice) : M pool (list Z) := fun s =>
  match ch with
  | Enter op =>
      match enter OnCheckPackageLength recv_fuel op (pl_world s) with
      | Ret ((g, p), w) => Ret (g, {| pl_world := w; pl_calls := pl_calls s ++ [p] |})
      | Undef => Undef
      | Abort => Abort
      | NoFuel => NoFuel
      end
  | Continue i =>
      match pl_calls s !! i with
      | Some (Atomic m) =>
          match m (pl_world s) with
          | Ret ((g, p), w) => Ret (g, {| pl_world := w; pl_calls := <[i := p]> (pl_calls s) |})
          | Undef => Undef
          | Abort => Abort
          | NoFuel => NoFuel
          end
      | _ => Undef
      end
  end.

Inductive pool_run : list choice -> pool -> list Z -> pool -> Prop :=
  | prun_nil s : pool_run [] s [] s
  | prun_cons ch chs s g s1 gs s2 :
      choice_ok ch s -> pool_step ch s = Ret (g, s1) -> pool_run chs s1 gs s2 ->
      pool_run (ch :: chs) s (g ++ gs) s2.

Definition is_enter (ch : choice) : bool := match ch with Enter _ => true | Continue _ => false end.
Definition count_enter : list choice -> nat := sum_list_with (fun ch => if is_enter ch then 1 else 0)%nat.
Definition count_continue : list choice -> nat := sum_list_with (fun ch => if is_enter ch then 0 else 1)%nat.
End Pools.
Arguments pool K : clear implicits.

Section PoolSafety.
Context {K : Type} `{Kernel K} `{!KernelIO K} `{LibC}.
Implicit Types w : world K.
Variable OnCheckPackageLength : EndpointImpl -> list cell -> Z.
Variable recv_fuel : nat.
Hypothesis Hfits : forall ep, header_fits (OnCheckPackageLength ep).
Hypothesis Hshort : forall fd k, short_within recv_fuel fd k.
Variable option : ContainerOption.

(** What is known of a call: what it relies on, the sections it has left at most, the
    connection it holds. *)
Record call_info : Type := {
  ci_known : nat * list nat;
  ci_left : nat;
  ci_held : Datatypes.option nat;
}.

Definition call_ok w (x : call_info) (p : proc K) : Prop :=
  known option (ci_known x) w /\ psafe option (ci_known x) (ci_left x) (ci_held x) p.

Definition held_by (infos : list call_info) : list nat := infos ≫= (fun x => option_list (ci_held x)).
Definition sections_left (infos : list call_info) : nat := sum_list_with ci_left infos.

Definition pool_inv (infos : list call_info) (s : pool K) : Prop :=
  cinv (held_by infos) (pl_world s) /\ ct_option (w_ct (pl_world s)) = option /\
  Forall2 (call_ok (pl_world s)) infos (pl_calls s).

Lemma calls_effect infos calls g w w' :
  Forall2 (call_ok w) infos calls -> effect g w w' -> Forall2 (call_ok w') infos calls.
Proof using Type.
  intros Hc He. eapply Forall2_impl; [exact Hc|]. intros x p [Hk Hp]. split; [by eapply known_effect|done].
Qed.

(** Call [i] among the others. *)
Lemma held_by_lookup infos i x y :
  infos !! i = Some x -> exists rest,
    held_by infos ≡ₚ option_list (ci_held x) ++ rest /\
    held_by (<[i := y]> infos) ≡ₚ option_list (ci_held y) ++ rest /\
    (sections_left (<[i := y]> infos) + ci_left x = sections_left infos + ci_left y)%nat.
Proof using Type.
  intros Hi. exists (held_by (take i infos) ++ held_by (drop (S i) infos)).
  assert (i < length infos)%nat as Hl by (by eapply lookup_lt_Some).
  pose proof (take_drop_middle infos i x Hi) as E. rewrite (insert_take_drop infos i y Hl).
  set (l1 := take i infos) in *. set (l2 := drop (S i) infos) in *. rewrite <- E.
  unfold held_by, sections_left. rewrite !bind_app, !bind_cons, !sum_list_with_app. cbn.
  split_and!; [apply Permutation_app_swap_app..|lia].
Qed.

Lemma pool_step_spec ch infos s :
  pool_inv infos s -> choice_ok ch s ->
  wp (pool_step OnCheckPackageLength recv_fuel ch) s (fun g s' => effect g (pl_world s) (pl_world s') /\
    exists infos', pool_inv infos' s' /\
      (sections_left infos' + count_continue [ch] <= sections_left infos + 5 * count_enter [ch])%nat).
Proof using KernelIO0 Hfits Hshort.
  intros (Hc & Ho & Hall) Hok. destruct ch as [op|i]; unfold wp; cbn [pool_step choice_ok] in *.
  - pose proof (enter_spec _ _ Hfits Hshort option op _ _ Hc Ho Hok) as Hs. unfold wp in Hs.
    destruct (enter _ _ op (pl_world s)) as [[[g p] w]| | |]; [|done..]. destruct Hs as (He & Hc' & kn & Hk & Hp).
    split; [done|]. exists (infos ++ [{| ci_known := kn; ci_left := 5; ci_held := None |}]). split.
    + split; [|split; [exact (eq_trans (ef_option _ _ _ He) Ho)|]].
      * unfold held_by. rewrite bind_app. cbn. by rewrite app_nil_r.
      * apply Forall2_app; [by eapply calls_effect|]. apply Forall2_cons. split; [by split|apply Forall2_nil_2].
    + unfold sections_left. rewrite sum_list_with_app. cbn. lia.
  - destruct Hok as [m Hm]. rewrite Hm. destruct (Forall2_lookup_r _ _ _ _ _ Hall Hm) as (x & Hx & Hk & Hp).
    destruct x as [kn [|n] h]; [done|]. cbn [ci_known ci_left ci_held] in *.
    destruct (held_by_lookup infos i _ {| ci_known := kn; ci_left := n; ci_held := None |} Hx) as (rest & Hheld & _).
    specialize (Hp rest (pl_world s) (cinv_perm _ _ _ Hheld Hc) Hk). unfold wp in Hp.
    destruct (m (pl_world s)) as [[[g p] w]| | |]; [|done..]. destruct Hp as (He & h' & Hc' & Hp'). split; [done|].
    destruct (held_by_lookup infos i _ {| ci_known := kn; ci_left := n; ci_held := h' |} Hx) as (rest' & Hheld' & Hnew & Hleft).
    exists (<[i := {| ci_known := kn; ci_left := n; ci_held := h' |}]> infos). split.
    + split; [|split; [exact (eq_trans (ef_option _ _ _ He) Ho)|]].
      * eapply cinv_perm; [|exact Hc']. rewrite Hnew. cbn. f_equiv. rewrite Hheld in Hheld'. by apply Permutation_app_inv_l in Hheld'.
      * apply Forall2_insert; [by eapply calls_effect|]. split; [by eapply known_effect|done].
    + cbn in *. lia.
Qed.
End PoolSafety.

Section Safety.
Context {K : Type} `{Kernel K} `{!KernelIO K} `{LibC} `{!KernelThreads} `{!KernelEpoll}.
Variable OnCheckPackageLength : EndpointImpl -> list cell -> Z.
Variable recv_fuel : nat.

Lemma pool_run_spec option chs s gs s' infos :
  (forall ep, header_fits (OnCheckPackageLength ep)) -> (forall fd k, short_within recv_fuel fd k) ->
  pool_run OnCheckPackageLength recv_fuel chs s gs s' -> pool_inv option infos s ->
  effect gs (pl_world s) (pl_world s') /\
  exists infos', pool_inv option infos' s' /\
    (sections_left infos' + count_continue chs <= sections_left infos + 5 * count_enter chs)%nat.
Proof using KernelIO0.
  intros Hfits Hshort Hrun. revert infos.
  induction Hrun as [s|ch chs s g s1 gs s2 Hok Hstep Hrun IH]; intros infos Hi.
  - split; [apply effect_refl|]. exists infos. split; [done|cbn; lia].
  - pose proof (pool_step_spec _ _ Hfits Hshort option ch infos s Hi Hok) as Hs. unfold wp in Hs. rewrite Hstep in Hs.
    destruct Hs as (He & infos1 & Hi1 & Hn1). destruct (IH infos1 Hi1) as (He2 & infos2 & Hi2 & Hn2).
    split; [by eapply effect_trans|]. exists infos2. split; [done|]. cbn in *. lia.
Qed.

Lemma alone_shared h (w : world K) : winv h None w -> inv_with shared h None w.
Proof using Type.
  intros []. split; try done. intros c cn Hc. destruct (wi_ep c cn Hc) as (ep & He & Ha & Hf).
  exists ep. split; [done|]. split; [done|]. by apply shared_holds.
Qed.

Lemma finished_holds_nothing option w infos calls :
  Forall2 (call_ok (K := K) option w) infos calls -> Forall (fun p => p = Finished) calls -> held_by infos = [].
Proof using Type.
  induction 1 as [|x p infos calls [_ Hp] _ IH]; intros Hf; [done|]. apply Forall_cons in Hf as [-> Hf].
  unfold held_by. cbn. assert (ci_held x = None) as -> by (by destruct (ci_left x)). by apply IH.
Qed.

(** C4. The container is safe whatever its threads do, section by section.  After a successful
    [Init], any number of calls runs at the same time, their sections interleaved in any
    order: calls with stale ids and events for connections other calls are closing are
    among them.  No section runs into undefined behaviour, a failed assertion or an
    endless loop, and every next one is defined; no call needs more than five sections
    after it began, and nothing makes it wait; the descriptors closed since, together with
    those of the live connections, are exactly those handed over, each once; a live
    connection is in a slot or held by a call, and in a slot once all calls are finished. *)
Theorem container_interleaved_safe (option : ContainerOption) (w0 w1 : world K) (chs : list choice)
    (given : list Z) (s : pool K) :
  (forall ep, header_fits (OnCheckPackageLength ep)) -> (forall fd k, short_within recv_fuel fd k) ->
  fresh_world option w0 -> option_ok option ->
  Container_Init w0 = Ret (None, w1) ->
  pool_run OnCheckPackageLength recv_fuel chs {| pl_world := w1; pl_calls := [] |} given s ->
  (exists t, os_trace (w_os (pl_world s)) = os_trace (w_os w1) ++ t /\ opened t = [] /\
    closed t ++ open_fds (pl_world s) ≡ₚ given) /\
  (forall ch, choice_ok ch s -> exists g s', pool_step OnCheckPackageLength recv_fuel ch s = Ret (g, s')) /\
  (count_continue chs <= 5 * count_enter chs)%nat /\
  slots_wf (w_slots (pl_world s)) /\
  (forall c, is_Some (w_conns (pl_world s) !! c) <->
    (exists n, st_conn (w_slots (pl_world s)) n = Some c) \/ c ∈ w_held (pl_world s)) /\
  (Forall (fun p => p = Finished) (pl_calls s) -> w_held (pl_world s) = []) /\
  ct_count (w_ct (pl_world s)) = u32 (Z.of_nat (length (ct_mpscq (w_ct (pl_world s))))).
Proof.
  intros Hfits Hshort Hfresh Hopt Hinit Hrun.
  pose proof (Container_Init_spec option w0 Hfresh Hopt) as Hi. unfold wp in Hi. rewrite Hinit in Hi.
  destruct (Hi eq_refl) as [Hw1 Hc1].
  assert (pool_inv (ct_option (w_ct w1)) [] {| pl_world := w1; pl_calls := [] |}) as Hp.
  { split; [|done]. by eapply cinv_intro; [apply alone_shared|]. }
  destruct (pool_run_spec _ chs _ _ _ [] Hfits Hshort Hrun Hp) as ([Hfds _ _ _] & infos & Hinv & Hn).
  pose proof Hinv as ([Hh Hw] & Ho & Hall).
  split; [|split; [|split; [cbn in Hn; lia|split; [apply (wi_slots _ _ _ Hw)|split; [|split; [|apply (wi_count _ _ _ Hw)]]]]]].
  - destruct Hfds as (t & Et & Ot & Hperm). exists t. split; [done|]. split; [done|]. rewrite Hperm.
    unfold open_fds. cbn. by rewrite Hc1.
  - intros ch Hok. pose proof (pool_step_spec _ _ Hfits Hshort _ ch infos s Hinv Hok) as Hs. unfold wp in Hs.
    destruct (pool_step _ _ ch s) as [[g s']| | |]; [by exists g, s'|done..].
  - intros c. split.
    + intros [cn Hc]. destruct (wi_live _ _ _ Hw c cn Hc) as [?|[?|?]]; auto. done.
    + intros [[n Hc]|Hc]; [by eapply (wi_slot _ _ _ Hw)|by apply (wi_held_live _ _ _ Hw)].
  - intros Hf. rewrite (finished_holds_nothing _ _ _ _ Hall Hf) in Hh. by apply Permutation_nil_r in Hh.
Qed.
End Safety.

(** ** Two handlers of one connection, and a new connection between them *)

#[local] Existing Instance server_kernel.
#[local] Existing Instance quiet_libc.
#[local] Existing Instance server_kernel_io.
#[local] Existing Instance server_kernel_threads.
#[local] Existing Instance server_kernel_epoll.

(** What the example's calls need, computed. *)
Definition choice_okb (ch : choice) (s : pool (list byte)) : bool :=
  let w := pl_world s in
  match ch with
  | Enter (OpEndpoint ep obj) =>
      bool_decide (w_eps w !! ep = None) && negb (ei_attached obj) &&
      (bool_decide (holds_fd obj) && bool_decide (ei_connection_id obj = InvalidConnectionId) &&
       bool_decide (is_u16 (ei_listen_port obj)))
  | Enter (OpAttach ep _) =>
      match w_eps w !! ep with Some obj => negb (ei_attached obj) && bool_decide (holds_fd obj) | None => false end
  | Enter (OpClose ep _) => match w_eps w !! ep with Some obj => ei_attached obj | None => false end
  | Enter (OpEvent detail) =>
      match CheckConnectionId (ed_ptr detail) (w_ct w) with
      | Some idx => bool_decide (0 <= idx < Z.of_nat (length (st_mgr (ct_slots (w_ct w)))))
      | None => true
      end
  | Enter (OpTimeoutCheck _) | Enter (OpMessage _) => true
  | Enter _ => false
  | Continue i => match pl_calls s !! i with Some (Atomic _) => true | _ => false end
  end.

Lemma choice_okb_ok ch s : choice_okb ch s = true -> choice_ok ch s.
Proof.
  destruct ch as [[ep obj|ep notify|ep sl|cid sl|ep notify|detail|now|n tid2|blocked]|i]; cbn; try done.
  - intros [[H1 H2%negb_true_iff]%andb_prop [[H3 H4]%andb_prop H5]%andb_prop]%andb_prop.
    apply bool_decide_eq_true in H1, H3, H4, H5. done.
  - destruct (w_eps (pl_world s) !! ep) as [obj|]; [|done]. intros [H1%negb_true_iff H2%bool_decide_eq_true]%andb_prop. by exists obj.
  - destruct (w_eps (pl_world s) !! ep) as [obj|]; [|done]. intros ?. by exists obj.
  - unfold id_in_range. destruct (CheckConnectionId (ed_ptr detail) (w_ct (pl_world s))) as [idx|]; [|done].
    intros Hi%bool_decide_eq_true x [= <-]. exact Hi.
  - destruct (pl_calls s !! i) as [[|m]|]; [done| |done]. intros _. by exists m.
Qed.

Fixpoint pool_okb (chs : list choice) (s : pool (list byte)) : bool :=
  match chs with
  | [] => true
  | ch :: chs =>
      choice_okb ch s && match pool_step length_byte 1 ch s with Ret (_, s) => pool_okb chs s | _ => false end
  end.

Lemma pool_okb_run chs s : pool_okb chs s = true -> exists given s', pool_run length_byte 1 chs s given s'.
Proof.
  revert s. induction chs as [|ch chs IH]; intros s; cbn; [exists [], s; constructor|].
  destruct (pool_step length_byte 1 ch s) as [[g s1]| | |] eqn:E; rewrite ?andb_false_r; try done.
  intros [Hok Hr]%andb_prop. destruct (IH s1 Hr) as (gs & s2 & Hrun). exists (g ++ gs), s2.
  eapply prun_cons; [by apply choice_okb_ok|exact E|done].
Qed.

(** Endpoint 1 is attached; an error event and a [Close] find its connection (calls 3 and
    4); the event runs to its end, endpoint 2 is attached, a timeout check runs, and the
    [Close] goes on with what is in the slot now. *)
Definition interleaving : list choice :=
  let error := {| ed_ptr := example_cid; ed_event_type := kErrorEvent; ed_error_code := 104 |} in
  [Enter (OpEndpoint 1 (example_endpoint 5)); Enter (OpEndpoint 2 (example_endpoint 6)); Enter (OpAttach 1 true);
   Enter (OpEvent error); Enter (OpClose 1 true); Continue 3; Continue 4; Continue 2;
   Continue 3; Continue 3; Continue 3; Enter (OpAttach 2 false);
   Enter (OpTimeoutCheck 1700000000000); Continue 6; Continue 4; Continue 4; Continue 4; Enter (OpMessage false); Continue 7].

Lemma container_interleaved_safe_witness :
  exists given (s : pool (list byte)),
  (exists t, os_trace (w_os (pl_world s)) = os_trace (w_os started_world) ++ t /\ opened t = [] /\
    closed t ++ open_fds (pl_world s) ≡ₚ given) /\
  (forall ch, choice_ok ch s -> exists g s', pool_step length_byte 1 ch s = Ret (g, s')) /\
  (count_continue interleaving <= 5 * count_enter interleaving)%nat /\
  slots_wf (w_slots (pl_world s)) /\
  (forall c, is_Some (w_conns (pl_world s) !! c) <->
    (exists n, st_conn (w_slots (pl_world s)) n = Some c) \/ c ∈ w_held (pl_world s)) /\
  (Forall (fun p => p = Finished) (pl_calls s) -> w_held (pl_world s) = []) /\
  ct_count (w_ct (pl_world s)) = u32 (Z.of_nat (length (ct_mpscq (w_ct (pl_world s))))).
Proof.
  assert (fresh_world small_option small_world) as Hf by done.
  assert (option_ok small_option) as Ho by (by vm_compute).
  assert (Container_Init small_world = Ret (None, started_world)) as Hinit by (vm_compute; reflexivity).
  assert (pool_okb interleaving {| pl_world := started_world; pl_calls := [] |} = true) as Hok by (vm_compute; reflexivity).
  destruct (pool_okb_run _ _ Hok) as (given & s & Hrun). exists given, s.
  exact (container_interleaved_safe length_byte 1 small_option small_world started_world interleaving given s
    length_byte_fits server_kernel_short Hf Ho Hinit Hrun).
Defined.
