(* ===== verification/WinContainer.v ===== *)
(** * The container on Windows (src/common/container_impl.cc with src/windows/)

    The methods of Container.v that differ where [_WIN32] is defined or call the
    connection, which is that of WinConnection.v here; the others are shared.  There is
    one polling thread object, on the process's adaptor (Iocp.v), whose workers call the
    container.  A connection's overlapped structures are members of the object, so they
    live as long as it does. *)

From S2P Require Import Prelude.
From S2P Require Import Cid.
From S2P Require Import OS.
From S2P Require Import Status.
From S2P Require Import Slice.
From S2P Require Import SliceBuffer.
From S2P Require Import SockAddr.
From S2P Require Import SocketSetting.
From S2P Require Import WinSocketSetting.
From S2P Require Import Endpoint.
From S2P Require Import Connection.
From S2P Require Import WinConnection.
From S2P Require Import Time.
From S2P Require Import Thread.
From S2P Require Import PollingThread.
From S2P Require Import Iocp.
From S2P Require Import Multimap.
From S2P Require Import Timer.
From S2P Require Import SlotTable.
From S2P Require Import Container.
From S2P Require Import ContainerSafety.

Local Open Scope Z_scope.

(** ** The world

    The adaptor, the polling threads and the overlapped structures of the process
    ([iocp_world] without the system calls), and the container's [_poll_thread]. *)
Record poller : Type := {
  po_thread : option nat;
  po_adaptor : option IocpThreadAdaptor;
  po_count : Z;
  po_instances : gmap nat PollInstance;
  po_overlapped : gmap Z OverLappedEx;
}.

Definition po_with_overlapped (m : gmap Z OverLappedEx) (p : poller) : poller :=
  {| po_thread := po_thread p; po_adaptor := po_adaptor p; po_count := po_count p;
     po_instances := po_instances p; po_overlapped := m |}.
Definition po_with_thread (x : option nat) (p : poller) : poller :=
  {| po_thread := x; po_adaptor := po_adaptor p; po_count := po_count p;
     po_instances := po_instances p; po_overlapped := po_overlapped p |}.

Definition iocp_of {K} (p : os K * poller) : iocp_world K :=
  Build_iocp_world p.1 (po_adaptor p.2) (po_count p.2) (po_instances p.2) (po_overlapped p.2) [].
Definition with_iocp {K} (i : iocp_world K) (p : os K * poller) : os K * poller :=
  (iw_os i, {| po_thread := po_thread p.2; po_adaptor := iw_adaptor i; po_count := iw_count i;
               po_instances := iw_instances i; po_overlapped := iw_overlapped i |}).

(** The epoll threads of the container's record are not used here. *)
Record win_world (K : Type) : Type := {
  ww_world : gworld WinConnection K;
  ww_poller : poller;
}.
Arguments Build_win_world {K}. Arguments ww_world {K}. Arguments ww_poller {K}.

Section Poller.
Context {K : Type} `{Kernel K} `{WinLibC}.

Definition on_iocp_world {A} (m : M (iocp_world K) A) : M (os K * poller) A := zoom iocp_of with_iocp m.

Definition the_poll_thread : M (os K * poller) nat := p ← gets snd; of_option (po_thread p).

#[export] Instance win_poller : ConnectionPoller K poller := {
  poller_Add sock CompletionKey type := x ← the_poll_thread; on_iocp_world (WinPoll_Add x sock CompletionKey type);
  poller_Delete sock := x ← the_poll_thread; on_iocp_world (WinPoll_Delete x sock 0);
}.
End Poller.

Section WinMethods.
Context {K : Type} `{Kernel K} `{WinLibC}.
Variable OnCheckPackageLength : EndpointImpl -> list cell -> Z.
Variable recv_fuel : nat.
(** The address of the container, and those of [_recv_overlapped] and [_send_overlapped] in
    a connection. *)
Variable self : Z.
Variable overlapped_at : nat -> Z * Z.
Implicit Types w : win_world K.

Definition on_w {A} : M (gworld WinConnection K) A -> M (win_world K) A :=
  zoom ww_world (fun g w => Build_win_world g (ww_poller w)).
Definition on_poller {A} : M (os K * poller) A -> M (win_world K) A :=
  zoom (fun w => (w_os (ww_world w), ww_poller w)) (fun p w => Build_win_world (w_with_os p.1 (ww_world w)) p.2).

(** Runs a method of connection [c]. *)
Definition on_wconn {A} (c : nat) (m : M (wconn_state K poller) A) : M (win_world K) A := fun w =>
  let g := ww_world w in
  match w_conns g !! c with
  | None => Undef
  | Some cn =>
      match w_eps g !! wn_endpoint cn with
      | None => Undef
      | Some ep =>
          match m {| wcs_os := w_os g; wcs_ep := ep; wcs_cn := cn; wcs_out := []; wcs_poll := ww_poller w |} with
          | Ret (a, s) =>
              Ret (a, Build_win_world
                        (w_with_ct (serve_all (wn_endpoint cn) (wcs_out s) (w_ct g))
                          (w_with_eps (<[wn_endpoint cn := wcs_ep s]> (w_eps g))
                            (w_with_conns (<[c := wcs_cn s]> (w_conns g)) (w_held g)
                              (w_with_os (wcs_os s) g))))
                        (wcs_poll s))
          | Undef => Undef
          | Abort => Abort
          | NoFuel => NoFuel
          end
      end
  end.

(** ** Shared pointers *)

(** [std::make_shared<Connection>(obj)]. *)
Definition win_make_connection (ep : nat) : M (win_world K) nat := fun w =>
  let g := ww_world w in
  let c := w_next g in
  let handle_id := w_global_counter g in
  Ret (c, Build_win_world
    {| w_os := w_os g; w_eps := w_eps g;
       w_conns := <[c := WinConnection_new handle_id ep]> (w_conns g);
       w_held := w_held g;
       w_global_counter := u32 (handle_id + 1); w_next := S c;
       w_ct := w_ct g; w_calls := w_calls g |}
    (po_with_overlapped
      (<[(overlapped_at c).1 := {| ox_event_type := kRecvEvent; ox_HandleId := handle_id |}]>
        (<[(overlapped_at c).2 := {| ox_event_type := kSendEvent; ox_HandleId := handle_id |}]>
          (po_overlapped (ww_poller w)))) (ww_poller w))).

(** The memory of the object. *)
Definition free_connection (c : nat) w : win_world K :=
  Build_win_world (w_with_conns (delete c (w_conns (ww_world w))) (w_held (ww_world w)) (ww_world w))
    (po_with_overlapped (delete (overlapped_at c).1 (delete (overlapped_at c).2 (po_overlapped (ww_poller w)))) (ww_poller w)).

Definition win_drop_connection (c : nat) : M (win_world K) unit :=
  w ← gets id;
  if bool_decide (c ∈ w_held (ww_world w)) || in_slots c (w_slots (ww_world w)) then mret tt
  else _ ← on_wconn c win_Connection_dtor; modify (free_connection c).

Definition win_release (c : nat) : M (win_world K) unit :=
  _ ← on_w (modify (fun g => w_with_conns (w_conns g) (remove_one c (w_held g)) g));
  win_drop_connection c.

Definition win_DeleteConnection (index : Z) : M (win_world K) unit :=
  dropped ← on_w (on_slots (st_delete index));
  match dropped with
  | None => mret tt
  | Some c => win_drop_connection c
  end.

(** ** Attaching, sending and closing *)

Definition win_AttachEndpointImpl (ep : nat) : M (win_world K) raptor_error :=
  w ← gets ww_world;
  let option := ct_option (w_ct w) in
  if st_full (op_max_container_size option) (w_slots w) then
    mret (MakeStatusFromFormat (str "The number of connections has exceeded the limit : " ++
                                dec (u32 (op_max_container_size option))))
  else
    obj ← of_option (w_eps w !! ep);
    _ ← on_w (on_slots (fun t => Ret (tt, st_expand (op_max_container_size option) t)));
    index ← on_w (on_slots st_pop_free);
    let listen_port := Endpoint_GetListenPort obj in
    let cid := BuildConnectionId (ct_magic_number (w_ct w)) listen_port index in
    deadline_line ← on_w deadline_now;
    _ ← on_w (modify_endpoint ep (fun e => SetContainer true (SetConnection cid e)));
    c ← win_make_connection ep;
    _ ← on_w (on_slots (fun t => match st_set_first index (Some c) t with Ret t => Ret (tt, t) | _ => Undef end));
    _ ← on_wconn c (win_modify_cn (win_SetProtocol (op_proto_handler option)));
    _ ← on_wconn c win_Connection_Init;
    _ ← on_w (on_slots (fun t => match st_insert_record deadline_line index t with Ret t => Ret (tt, t) | _ => Undef end));
    w ← gets ww_world;
    match ct_timer_thread (w_ct w), op_heartbeat_handler option, w_conns w !! c with
    | Some _, Some interval, Some cn =>
        _ ← on_w (SetTimer index (wn_handle_id cn) (u32 interval)); mret RAPTOR_ERROR_NONE
    | _, _, _ => mret RAPTOR_ERROR_NONE
    end.

Definition win_AttachEndpoint (ep : nat) (notify : bool) : M (win_world K) raptor_error :=
  e ← win_AttachEndpointImpl ep;
  w ← gets ww_world;
  if negb (bool_decide (is_Some e)) && notify && op_notify_handler (ct_option (w_ct w)) then
    _ ← on_w (modify_ct (Container_OnNotify ep)); mret e
  else mret e.

Definition win_Container_SendMsg (connection_id : Z) (s : Slice) : M (win_world K) bool :=
  w ← gets ww_world;
  match CheckConnectionId connection_id (w_ct w) with
  | None => mret false
  | Some index =>
      con ← on_w (GetConnection index);
      match con with
      | None => mret false
      | Some c => r ← on_wconn c (win_SendMsg s); _ ← win_release c; mret r
      end
  end.

Definition win_CloseEndpoint (ep : nat) (event_notify : bool) : M (win_world K) unit :=
  w ← gets ww_world;
  obj ← of_option (w_eps w !! ep);
  match CheckConnectionId (ConnectionId obj) (w_ct w) with
  | None => mret tt
  | Some index =>
      con ← on_w (GetConnection index);
      match con with
      | None => mret tt
      | Some c =>
          _ ← on_wconn c (win_Connection_Shutdown event_notify Event_default);
          _ ← win_DeleteConnection index;
          win_release c
      end
  end.

Definition win_Endpoint_SendMsg (ep : nat) (s : Slice) : M (win_world K) bool :=
  w ← gets ww_world;
  obj ← of_option (w_eps w !! ep);
  if ei_attached obj then win_Container_SendMsg (ei_connection_id obj) s else mret false.

Definition win_Endpoint_Close (ep : nat) (notify : bool) : M (win_world K) bool :=
  w ← gets ww_world;
  obj ← of_option (w_eps w !! ep);
  if ei_attached obj then _ ← win_CloseEndpoint ep notify; mret true
  else
    _ ← on_w (on_os (win_set_socket_shutdown (ei_fd obj)));
    _ ← on_w (modify_endpoint ep (SetFd InvalidFd));
    mret true.

(** ** Events *)

Definition win_close_and_delete (c : nat) (index : Z) (err : raptor_error) : M (win_world K) unit :=
  _ ← on_wconn c (win_Connection_Shutdown true (Event_new kSocketError err));
  win_DeleteConnection index.

Definition win_OnErrorEvent (index : Z) (detail : WinEventDetail) : M (win_world K) unit :=
  let err := Some (Status_code_msg (wd_error_code detail) (str "ContainerImpl:OnErrorEvent")) in
  con ← on_w (GetConnection index);
  match con with
  | None => mret tt
  | Some c => _ ← win_close_and_delete c index err; win_release c
  end.

(** [OnRecvEvent] and [OnSendEvent]: [m] is the connection's part. *)
Definition win_data_event (m : M (wconn_state K poller) raptor_error) (index : Z) : M (win_world K) unit :=
  con ← on_w (GetConnection index);
  match con with
  | None => mret tt
  | Some c =>
      err ← on_wconn c m;
      _ ← match err with
          | None => on_w (RefreshTime index)
          | Some _ => win_close_and_delete c index err
          end;
      win_release c
  end.

Definition win_OnEventProcess (detail : WinEventDetail) : M (win_world K) unit :=
  w ← gets ww_world;
  match CheckConnectionId (wd_ptr detail) (w_ct w) with
  | None => mret tt
  | Some index =>
      if has (wd_event_type detail) kErrorEvent then win_OnErrorEvent index detail
      else if has (wd_event_type detail) kRecvEvent then
        win_data_event (win_DoRecvEvent OnCheckPackageLength recv_fuel (Z.to_nat (wd_transferred_bytes detail))
                          (wd_handle_id detail)) index
      else if has (wd_event_type detail) kSendEvent then
        win_data_event (win_DoSendEvent (Z.to_nat (wd_transferred_bytes detail)) (wd_handle_id detail)) index
      else mret tt
  end.

(** ** Timeouts and timers *)

Fixpoint win_timeout_loop (fuel : nat) (it : option nat) (current_millseconds : Z) : M (win_world K) unit :=
  match it, fuel with
  | None, _ => mret tt
  | Some _, O => no_fuel
  | Some it, S fuel =>
      w ← gets ww_world;
      match st_from it (st_records (w_slots w)) with
      | None | Some [] => undef
      | Some ((key, (_, index)) :: rest) =>
          if current_millseconds <? key then mret tt
          else
            slot ← on_w (on_slots (fun t => match st_slot index t with Ret s => Ret (s, t) | _ => Undef end));
            c ← of_option slot.1;
            _ ← on_wconn c (win_Connection_Shutdown true
                  (Event_new kConnectionTimeout (RAPTOR_ERROR_FROM_STATIC_STRING "Connection:Heart-beat Timeout")));
            _ ← on_w (on_slots (fun t => match st_release index t with Ret t => Ret (tt, t) | _ => Undef end));
            _ ← win_drop_connection c;
            win_timeout_loop fuel (st_begin rest) current_millseconds
      end
  end.

Definition win_OnTimeoutCheck (current_millseconds : Z) : M (win_world K) unit :=
  w ← gets ww_world;
  if current_millseconds - ct_last_check_time (w_ct w) <? 3000 then mret tt
  else
    _ ← on_w (modify_ct (fun c => ct_with_times (ct_magic_number c) current_millseconds c));
    let records := st_records (w_slots w) in
    win_timeout_loop (length records) (st_begin records) current_millseconds.

Definition win_OnTimer (tid1 tid2 : Z) : M (win_world K) unit :=
  conn ← on_w (GetConnection tid1);
  match conn with
  | None => mret tt
  | Some c =>
      w ← gets ww_world;
      cn ← of_option (w_conns w !! c);
      online ← on_wconn c win_IsOnline;
      _ ← (if (wn_handle_id cn =? tid2) && online then
             _ ← on_w (modify_ct (Container_OnTimerEvent (wn_endpoint cn)));
             interval ← of_option (op_heartbeat_handler (ct_option (w_ct w)));
             on_w (SetTimer tid1 tid2 (u32 interval))
           else mret tt);
      win_release c
  end.

(** ** Life *)

(** [std::make_shared<PollingThread>(this)], the new object at [x] and the adaptor's [_exit],
    if there is a new one, at [exit]; the pointer held before goes. *)
Definition win_new_poll_thread (x : nat) (exit : Z) : M (win_world K) unit :=
  on_poller (
    old ← gets (fun p => po_thread p.2);
    _ ← on_iocp_world (WinPoll_new x self exit);
    _ ← modify (fun p => (p.1, po_with_thread (Some x) p.2));
    match old with Some y => on_iocp_world (WinPoll_dtor y) | None => mret tt end).

Definition on_poll_thread {A} (f : nat -> M (iocp_world K) A) : M (win_world K) A :=
  on_poller (x ← the_poll_thread; on_iocp_world (f x)).

Definition win_Container_Init (x : nat) (exit : Z) : M (win_world K) raptor_error :=
  w ← gets ww_world;
  let option := ct_option (w_ct w) in
  if negb (ct_shutdown (w_ct w)) then mret (RAPTOR_ERROR_FROM_STATIC_STRING "tcp server already running")
  else
    _ ← win_new_poll_thread x exit;
    e ← on_poll_thread (fun x => WinPoll_Init x (op_recv_send_threads option) 0);
    match e with
    | Some _ => mret e
    | None =>
        _ ← on_poll_thread (fun x => WinPoll_EnableTimeoutCheck x (negb (op_not_check_connection_timeout option)));
        on_w (Container_Init_rest option)
    end.

Definition win_Container_Start : M (win_world K) raptor_error :=
  err ← on_poll_thread WinPoll_Start;
  match err with
  | Some _ => mret (RAPTOR_ERROR_FROM_STATIC_STRING "ContainerImpl: Failed to start poll thread")
  | None => on_w Container_Start_rest
  end.

(** [obj.first->Shutdown(false); obj.first.reset();] for each slot. *)
Fixpoint win_shutdown_slots (i n : nat) : M (win_world K) unit :=
  match n with
  | O => mret tt
  | S n =>
      slot ← on_w (on_slots (fun t => match st_slot (Z.of_nat i) t with Ret s => Ret (s, t) | _ => Undef end));
      _ ← match slot.1 with
          | Some c =>
              _ ← on_wconn c (win_Connection_Shutdown false Event_default);
              _ ← on_w (on_slots (fun t => Ret (tt, st_set_slot (Z.of_nat i) (None, slot.2) t)));
              win_drop_connection c
          | None => mret tt
          end;
      win_shutdown_slots (S i) n
  end.

Definition win_Container_Shutdown : M (win_world K) unit :=
  w ← gets ww_world;
  if ct_shutdown (w_ct w) then mret tt
  else
    _ ← on_poll_thread WinPoll_Shutdown;
    t ← match ct_timer_thread (w_ct w) with
        | Some t => t ← on_w (on_os (Timer_Shutdown t)); mret (Some t)
        | None => mret None
        end;
    ts ← on_w (on_os (join_threads (ct_running_threads (w_ct w)) (ct_mq_threads (w_ct w))));
    _ ← on_w (modify_ct (fun c => ct_with_threads true ts (ct_running_threads (w_ct w)) (ct_poll_thread c) (ct_back_thread c) t c));
    _ ← on_w (on_slots (fun t => Ret (tt, {| st_mgr := st_mgr t; st_records := []; st_free := []; st_next := st_next t |})));
    _ ← win_shutdown_slots 0 (length (st_mgr (w_slots w)));
    _ ← on_w (on_slots (fun t => Ret (tt, st_clear t)));
    on_w (modify_ct (fun c => ct_with_queue [] (u32 (ct_count c - Z.of_nat (length (ct_mpscq c)))) c)).

(** The destructor, then that of [_poll_thread]. *)
Definition win_Container_dtor : M (win_world K) unit :=
  _ ← win_Container_Shutdown;
  on_poller (
    old ← gets (fun p => po_thread p.2);
    _ ← modify (fun p => (p.1, po_with_thread None p.2));
    match old with Some y => on_iocp_world (WinPoll_dtor y) | None => mret tt end).

(** ** The workers *)

Definition adaptor_of : M (win_world K) IocpThreadAdaptor :=
  w ← gets id; of_option (po_adaptor (ww_poller w)).

(** A turn of a worker of the process, in which this container is the only service that
    does anything: what another service does with its events is left out. *)
Definition win_worker_round (shutdown : bool) : M (win_world K) bool :=
  a ← adaptor_of;
  IocpThread_WorkThread (fun A (m : M (os K) A) => on_w (on_os m))
    (fun overlapped => w ← gets id; of_option (po_overlapped (ww_poller w) !! overlapped))
    (fun detail =>
       a ← adaptor_of;
       match FindEventService detail a with
       | Some (service, detail) => if service =? self then win_OnEventProcess detail else mret tt
       | None => mret tt
       end)
    (fun now =>
       a ← adaptor_of;
       if bool_decide (self ∈ ad_timeout_services a) then win_OnTimeoutCheck now else mret tt)
    (ad_iocp a) shutdown.
End WinMethods.

(** ** Closing a connection *)

Section WinClose.
Context {K : Type} `{Kernel K} `{WinLibC}.
Implicit Types (w : win_world K) (g : gworld WinConnection K) (p : poller).

(** The container has a polling thread on the adaptor [a]. *)
Definition polls (a : IocpThreadAdaptor) p : Prop :=
  exists x, po_thread p = Some x /\ po_adaptor p = Some a /\ is_Some (po_instances p !! x).

(** What forgetting a socket leaves. *)
Definition forgets (a : IocpThreadAdaptor) p p' : Prop :=
  po_overlapped p' = po_overlapped p /\ exists a', polls a' p' /\ ad_iocp a' = ad_iocp a.

Lemma forgets_refl a p : polls a p -> forgets a p p.
Proof using Type. intros Hp. split; [done|]. by exists a. Qed.

Lemma wp_poller_Delete a sock (o : os K) p Q :
  polls a p -> (forall r p', forgets a p p' -> Q r (o, p')) -> wp (poller_Delete sock) (o, p) Q.
Proof using Type.
  intros (x & Hx & Ha & [q Hq]) HQ. cbn [poller_Delete win_poller]. apply wp_bind. unfold the_poll_thread.
  apply wp_bind, wp_gets. cbn [snd]. rewrite Hx. apply wp_ret. unfold on_iocp_world. apply wp_zoom.
  unfold WinPoll_Delete, instance. apply wp_bind, wp_bind, wp_gets, wp_of_option.
  exists q. split; [exact Hq|]. destruct (pi_instance_id q =? 0).
  - apply wp_ret, HQ. split; [done|]. exists a. split; [|done]. by exists x.
  - apply wp_bind. unfold on_adaptor, the_adaptor. apply wp_bind, wp_bind, wp_gets, wp_of_option. exists a. split; [exact Ha|].
    apply wp_modify, wp_ret, HQ. split; [done|]. exists (Adaptor_Delete sock 0 a).
    split; [by exists x|]. unfold Adaptor_Delete. destruct (ad_services a !! sock); done.
Qed.

Lemma wp_on_wconn {A} c cn ep (m : M (wconn_state K poller) A) w Q :
  w_conns (ww_world w) !! c = Some cn -> w_eps (ww_world w) !! wn_endpoint cn = Some ep ->
  wp m {| wcs_os := w_os (ww_world w); wcs_ep := ep; wcs_cn := cn; wcs_out := []; wcs_poll := ww_poller w |}
    (fun a s => Q a (Build_win_world
       (w_with_ct (serve_all (wn_endpoint cn) (wcs_out s) (w_ct (ww_world w)))
         (w_with_eps (<[wn_endpoint cn := wcs_ep s]> (w_eps (ww_world w)))
           (w_with_conns (<[c := wcs_cn s]> (w_conns (ww_world w))) (w_held (ww_world w))
             (w_with_os (wcs_os s) (ww_world w))))) (wcs_poll s))) ->
  wp (on_wconn c m) w Q.
Proof using Type. intros Hc He. unfold wp, on_wconn. rewrite Hc, He. by destruct (m _) as [[a s]| | |]. Qed.

(** The socket of a connection that is online is closed. *)
Lemma win_Connection_Shutdown_spec a notify ev (s : wconn_state K poller) :
  polls a (wcs_poll s) ->
  wp (win_Connection_Shutdown notify ev) s (fun _ s' =>
    forgets a (wcs_poll s) (wcs_poll s') /\ wn_endpoint (wcs_cn s') = wn_endpoint (wcs_cn s) /\
    exists t, os_trace (wcs_os s') = os_trace (wcs_os s) ++ t /\ opened t = [] /\
      closed t = if IsOnline (wcs_ep s) then [ei_fd (wcs_ep s)] else []).
Proof using Type.
  intros Hp. unfold win_Connection_Shutdown. apply wp_bind, wp_gets. destruct (IsOnline (wcs_ep s)); cbn [negb].
  2: { apply wp_ret. split; [by apply forgets_refl|]. split; [done|]. exists []. by rewrite app_nil_r. }
  apply wp_bind. unfold win_poll. apply wp_zoom. eapply wp_poller_Delete; [exact Hp|]. intros r p' Hf. cbn [fst snd].
  apply wp_bind. unfold win_sys. apply wp_zoom. eapply wp_mono; [apply win_shutdown_fds|].
  cbn [wcs_os wcs_ep]. intros _ o (t & Et & Ho & Hc). apply wp_bind, wp_modify, wp_bind, wp_modify, wp_bind.
  destruct notify; [apply wp_modify|apply wp_ret]; apply wp_bind, wp_modify, wp_modify; (split; [exact Hf|]; split; [done|]; by exists t).
Qed.

Variable self : Z.
Variable overlapped_at : nat -> Z * Z.

Lemma wp_on_w {A} (m : M (gworld WinConnection K) A) w Q :
  wp m (ww_world w) (fun a g => Q a (Build_win_world g (ww_poller w))) -> wp (on_w m) w Q.
Proof using Type. intros Hm. by apply wp_zoom. Qed.

Lemma wp_on_slots_any {A} (f : SlotTable -> outcome (A * SlotTable)) g a t (Q : A -> gworld WinConnection K -> Prop) :
  f (w_slots g) = Ret (a, t) -> Q a (w_with_slots t g) -> wp (on_slots f) g Q.
Proof using Type. intros E HQ. unfold wp, on_slots. by rewrite E. Qed.

Lemma st_delete_conn t n c :
  slots_wf t -> st_conn t n = Some c -> (forall m, st_conn t m = Some c -> m = n) ->
  exists t', st_delete (Z.of_nat n) t = Ret (Some c, t') /\ in_slots c t' = false.
Proof using Type.
  intros Ht Hn Hu. pose proof Hn as Hn'. apply st_conn_Some in Hn' as (it & d & Hh); [|done].
  destruct (st_release_spec _ n c it d Ht Hh) as (t' & E & _ & Emgr & _). exists t'. split.
  - unfold st_delete, st_slot. destruct Hh as [Hm _]. by rewrite Nat2Z.id, Hm, E.
  - destruct (in_slots c t') eqn:Ei; [|done]. apply in_slots_spec in Ei as [m Hm].
    destruct (st_release_conn _ _ _ _ Hn Emgr) as [H1 H2]. destruct (decide (m = n)) as [->|Hne]; [congruence|].
    rewrite H2 in Hm by done. by destruct (Hne (Hu m Hm)).
Qed.

Lemma serve_all_queue e calls c : exists q n, serve_all e calls c = ct_with_queue q n c.
Proof using Type.
  revert c. induction calls as [|call calls IH]; intros c; [exists (ct_mpscq c), (ct_count c); by destruct c|].
  change (serve_all e (call :: calls) c) with (serve_all e calls (serve e call c)).
  destruct (IH (serve e call c)) as (q & n & ->). exists q, n. destruct call as [s|ev]; [done|].
  cbn. unfold Container_OnClosed. by destruct (op_closed_handler (ct_option c)).
Qed.

(** [Close] of an endpoint whose connection nobody else refers to. *)
Lemma win_Close_spec a ep obj n c cn notify w :
  polls a (ww_poller w) ->
  w_eps (ww_world w) !! ep = Some obj -> ei_attached obj = true ->
  CheckConnectionId (ei_connection_id obj) (w_ct (ww_world w)) = Some (Z.of_nat n) ->
  slots_wf (w_slots (ww_world w)) -> st_conn (w_slots (ww_world w)) n = Some c ->
  (forall m, st_conn (w_slots (ww_world w)) m = Some c -> m = n) -> w_held (ww_world w) = [] ->
  w_conns (ww_world w) !! c = Some cn -> wn_endpoint cn = ep ->
  wp (win_Endpoint_Close overlapped_at ep notify) w (fun r w' => r = true /\
    w_conns (ww_world w') = delete c (w_conns (ww_world w)) /\
    po_overlapped (ww_poller w') =
      delete (overlapped_at c).1 (delete (overlapped_at c).2 (po_overlapped (ww_poller w))) /\
    (exists a', polls a' (ww_poller w') /\ ad_iocp a' = ad_iocp a) /\
    exists t, os_trace (w_os (ww_world w')) = os_trace (w_os (ww_world w)) ++ t /\ opened t = [] /\
      closed t = if IsOnline obj then [ei_fd obj] else []).
Proof using Type.
  intros Hp He Hatt Hcid Hs Hn Hu Hheld Hc Eep. unfold win_Endpoint_Close. apply wp_bind, wp_gets, wp_bind, wp_of_option.
  exists obj. split; [exact He|]. rewrite Hatt. apply wp_bind. unfold win_CloseEndpoint. apply wp_bind, wp_gets, wp_bind, wp_of_option.
  exists obj. split; [exact He|]. unfold ConnectionId. rewrite Hcid. apply wp_bind, wp_on_w. unfold GetConnection.
  pose proof Hn as Hn'. apply st_conn_Some in Hn' as (it & d & [Hm _]); [|done].
  apply wp_bind. eapply wp_on_slots_any; [cbv beta; unfold st_slot; rewrite Nat2Z.id, Hm; reflexivity|]. cbn [fst].
  apply wp_bind, wp_modify, wp_ret.
  apply wp_bind. eapply (wp_on_wconn c cn obj); [exact Hc|cbn; by rewrite Eep|].
  eapply wp_mono; [apply (win_Connection_Shutdown_spec a); exact Hp|]. cbn [wcs_os wcs_ep wcs_cn wcs_poll ww_poller ww_world].
  intros _ s1 ([Eo Ha] & Een & t & Et & Ho & Hcl).
  destruct (st_delete_conn _ n c Hs Hn Hu) as (t' & Edel & Hno).
  match goal with |- wp _ ?x _ => set (w1 := x) end.
  assert (w_slots (ww_world w1) = w_slots (ww_world w)) as Es1.
  { unfold w1, w_slots. cbn. match goal with |- context [serve_all ?e ?l ?x] => by destruct (serve_all_queue e l x) as (? & ? & ->) end. }
  assert (w_held (ww_world w1) = [c]) as Eh1 by (cbn; by rewrite Hheld).
  assert (w_conns (ww_world w1) = <[c := wcs_cn s1]> (w_conns (ww_world w))) as Ec1 by done.
  assert (exists ep1, w_eps (ww_world w1) !! wn_endpoint (wcs_cn s1) = Some ep1) as [ep1 He1]
    by (cbn; rewrite Een, lookup_insert_eq; eauto).
  assert (ww_poller w1 = wcs_poll s1) as Ep1 by done. assert (w_os (ww_world w1) = wcs_os s1) as Eos1 by done.
  clearbody w1. rewrite <- Ep1 in Eo, Ha. rewrite <- Eos1 in Et. clear Ep1 Eos1.
  apply wp_bind. unfold win_DeleteConnection. apply wp_bind, wp_on_w.
  eapply wp_on_slots_any; [rewrite Es1; exact Edel|]. unfold win_drop_connection at 1. apply wp_bind, wp_gets. unfold id.
  assert (bool_decide (c ∈ w_held (ww_world w1)) = true) as Hin by (apply bool_decide_eq_true_2; rewrite Eh1; by left).
  cbn [ww_world]. change (w_held (w_with_slots t' (ww_world w1))) with (w_held (ww_world w1)). rewrite Hin. cbn [orb]. apply wp_ret.
  unfold win_release. apply wp_bind, wp_on_w, wp_modify. cbn [ww_world ww_poller].
  unfold win_drop_connection. apply wp_bind, wp_gets. unfold id. cbn [ww_world].
  change (w_held (w_with_conns ?x ?y ?z)) with y. change (w_held (w_with_slots ?x ?y)) with (w_held y).
  assert (remove_one c (w_held (ww_world w1)) = []) as Er1 by (rewrite Eh1; unfold remove_one; cbn; by rewrite decide_True by done).
  rewrite Er1, (bool_decide_eq_false_2 (c ∈ [])) by (by intros ?%elem_of_nil). cbn [orb].
  change (in_slots c (w_slots (w_with_conns ?x ?y (w_with_slots t' ?z)))) with (in_slots c t'). rewrite Hno.
  apply wp_bind. eapply (wp_on_wconn c (wcs_cn s1) ep1); [cbn; by rewrite Ec1, lookup_insert_eq|exact He1|].
  apply wp_ret, wp_modify, wp_ret. cbn. rewrite Ec1, Eo. split; [done|]. split; [|split; [done|split; [exact Ha|by exists t]]].
  by rewrite !insert_insert_eq, delete_insert_eq.
Qed.

(** C14. ... destroys the connection while its read is in flight.  Once the endpoint of an
    online connection is closed, its socket is closed and the [Connection], with the overlapped
    structure of the read it always has in flight, is freed; the kernel then cancels the
    read and queues its completion, and the worker that takes it reads the freed
    structure, whether the completion comes as failed or not. *)
Theorem win_close_dangles a ep obj n c cn notify w :
  polls a (ww_poller w) -> it_enable_timeout_check (ad_iocp a) = false ->
  w_eps (ww_world w) !! ep = Some obj -> ei_attached obj = true -> IsOnline obj = true ->
  CheckConnectionId (ei_connection_id obj) (w_ct (ww_world w)) = Some (Z.of_nat n) ->
  slots_wf (w_slots (ww_world w)) -> st_conn (w_slots (ww_world w)) n = Some c ->
  (forall m, st_conn (w_slots (ww_world w)) m = Some c -> m = n) -> w_held (ww_world w) = [] ->
  w_conns (ww_world w) !! c = Some cn -> wn_endpoint cn = ep ->
  (overlapped_at c).1 <> 0 -> (overlapped_at c).1 <> it_exit (ad_iocp a) ->
  exists w', win_Endpoint_Close overlapped_at ep notify w = Ret (true, w') /\
    w_conns (ww_world w') !! c = None /\
    (exists t, os_trace (w_os (ww_world w')) = os_trace (w_os (ww_world w)) ++ t /\ closed t = [ei_fd obj]) /\
    forall OnCheckPackageLength recv_fuel r k key,
      sys_call (os_kernel (w_os (ww_world w'))) (SysGetQueuedCompletionStatus (it_iocp (ad_iocp a)) 1000) = (r, k) ->
      r_events r = [(key, (overlapped_at c).1)] -> key <> 0 ->
      win_worker_round OnCheckPackageLength recv_fuel self overlapped_at false w' = Undef.
Proof using Type.
  intros Hp Ht He Hatt Hon Hcid Hs Hn Hu Hh Hc Eep H0' Hex.
  pose proof (win_Close_spec a ep obj n c cn notify w Hp He Hatt Hcid Hs Hn Hu Hh Hc Eep) as Hclose.
  unfold wp in Hclose. destruct (win_Endpoint_Close overlapped_at ep notify w) as [[r w']| | |]; [|done..].
  destruct Hclose as (-> & Ec & Eo & (a' & (x & Hx & Ha' & Hi) & Eio) & t & Et & _ & Hcl). exists w'. split; [done|].
  split; [by rewrite Ec, lookup_delete_eq|]. split; [exists t; by rewrite Hcl, Hon|].
  intros check fuel r k key Ecall Eev Hkey.
  unfold win_worker_round, adaptor_of, mbind, M_bind, gets, id. rewrite Ha'. cbn [of_option mret M_ret].
  unfold IocpThread_WorkThread. rewrite Eio, Ht.
  unfold mbind at 1 2, M_bind at 1 2, mret at 1, M_ret at 1, on_w at 1, on_os at 1, zoom at 1 2, Iocp_polling, call, mbind at 1, M_bind at 1.
  rewrite Ecall, Eev. unfold id. cbn [default head from_option mret M_ret ww_poller].
  assert (po_overlapped (ww_poller w') !! (overlapped_at c).1 = None) as Hno by (by rewrite Eo, lookup_delete_eq).
  destruct (0 <? r_ret r); cbn [negb].
  - rewrite (proj2 (Z.eqb_neq _ _) Hex). unfold mbind, M_bind. cbn [ww_poller]. by rewrite Hno.
  - rewrite (proj2 (Z.eqb_neq _ _) H0'), (proj2 (Z.eqb_neq _ _) Hkey). cbn [negb andb]. unfold mbind, M_bind. cbn [ww_poller]. by rewrite Hno.
Qed.
End WinClose.

(** ** Failed operations *)

Section WinFailure.
Context {K : Type} `{Kernel K} `{WinLibC}.
Variable OnCheckPackageLength : EndpointImpl -> list cell -> Z.
Variable recv_fuel : nat.
Variable self : Z.
Variable overlapped_at : nat -> Z * Z.
Implicit Types (w : win_world K) (g : gworld WinConnection K).

(** What a worker makes of an event that says [0] for the handle, for a read or a write. *)
Lemma zero_handle_ignored (detail : WinEventDetail) (s : wconn_state K poller) :
  wd_handle_id detail = 0 -> wn_handle_id (wcs_cn s) <> 0 ->
  win_DoRecvEvent OnCheckPackageLength recv_fuel (Z.to_nat (wd_transferred_bytes detail)) (wd_handle_id detail) s = Ret (None, s) /\
  win_DoSendEvent (Z.to_nat (wd_transferred_bytes detail)) (wd_handle_id detail) s = Ret (None, s).
Proof using Type.
  intros -> Hn. unfold win_DoRecvEvent, win_OnRecvEvent, win_DoSendEvent, win_OnSendEvent, mbind, M_bind, gets.
  by rewrite (proj2 (Z.eqb_neq 0 _)), (proj2 (Z.eqb_neq _ 0)) by congruence.
Qed.

Lemma event_type_kept types e :
  e = kRecvEvent \/ e = kSendEvent ->
  (if (e <? kErrorEvent) || (kMaxEventValue <? e) then Z.lor types kErrorEvent else e) = e.
Proof using Type. by intros [-> | ->]. Qed.

(** A connection's method that does nothing. *)
Lemma on_wconn_nothing {A} c cn ep (m : M (wconn_state K poller) A) (x : A) w :
  w_conns (ww_world w) !! c = Some cn -> w_eps (ww_world w) !! wn_endpoint cn = Some ep ->
  (forall s, wcs_cn s = cn -> m s = Ret (x, s)) -> on_wconn c m w = Ret (x, w).
Proof using Type.
  intros Hc He Hm. unfold on_wconn. rewrite Hc, He, Hm by done. cbn. rewrite !insert_id by done.
  destruct w as [[]]. by unfold w_with_ct, w_with_eps, w_with_conns, w_with_os.
Qed.

(** The deadline of slot [n] was renewed at the time the clock told. *)
Definition renewed (n c : nat) g g' : Prop :=
  w_conns g' = w_conns g /\ w_eps g' = w_eps g /\ w_held g' = w_held g /\ w_calls g' = w_calls g /\
  w_ct g' = ct_with_slots (w_slots g') (w_ct g) /\
  (forall m, st_conn (w_slots g') m = st_conn (w_slots g) m) /\ slots_wf (w_slots g') /\
  exists r it, os_trace (w_os g') = os_trace (w_os g) ++ [(SysGettimeofday, r)] /\
    st_holds (w_slots g') n c it
      (i64 ((timeval_of r).1 * 1000 + Z.quot (timeval_of r).2 1000 + op_connection_timeoutms (ct_option (w_ct g)))).

Lemma RefreshTime_spec n c g :
  slots_wf (w_slots g) -> st_conn (w_slots g) n = Some c ->
  wp (RefreshTime (Z.of_nat n)) g (fun _ g' => renewed n c g g').
Proof using Type.
  intros Hs Hn. pose proof Hn as Hn'. apply st_conn_Some in Hn' as (it & d & Hh); [|done]. unfold RefreshTime.
  apply wp_bind. eapply wp_on_slots_any; [cbv beta; unfold st_slot; rewrite Nat2Z.id, (proj1 Hh); reflexivity|]. cbn [fst].
  apply wp_bind. unfold deadline_now. apply wp_bind. unfold on_os. apply wp_zoom. unfold GetCurrentMilliseconds. apply wp_bind, wp_call.
  intros r k _. apply wp_ret, wp_bind, wp_gets, wp_ret. set (dl := i64 _).
  destruct (st_refresh_spec _ n c it d dl Hs Hh) as (t' & E & Hwf & Emgr & _ & Hh' & _).
  eapply wp_on_slots_any; [unfold w_slots; cbn; unfold w_slots in E; rewrite E; reflexivity|].
  split_and!; try done.
  - intros m. unfold w_slots at 1. cbn. unfold st_conn. rewrite Emgr. destruct (decide (m = n)) as [->|Hne].
    + rewrite list_lookup_insert_eq by (by eapply lookup_lt_Some, Hh). by rewrite (proj1 Hh).
    + by rewrite list_lookup_insert_ne by done.
  - exists r, (st_next (w_slots g)). split; [done|exact Hh'].
Qed.

(** The container's part, when the connection does nothing. *)
Lemma win_data_event_nothing n c cn ep (m : M (wconn_state K poller) raptor_error) w :
  slots_wf (w_slots (ww_world w)) -> st_conn (w_slots (ww_world w)) n = Some c ->
  w_conns (ww_world w) !! c = Some cn -> w_eps (ww_world w) !! wn_endpoint cn = Some ep ->
  (forall s, wcs_cn s = cn -> m s = Ret (None, s)) ->
  wp (win_data_event overlapped_at m (Z.of_nat n)) w (fun _ w' =>
    ww_poller w' = ww_poller w /\ renewed n c (ww_world w) (ww_world w')).
Proof using Type.
  intros Hs Hn Hc He Hm. unfold win_data_event. apply wp_bind, wp_on_w. unfold GetConnection.
  pose proof Hn as Hn'. apply st_conn_Some in Hn' as (it & d & Hh); [|done].
  apply wp_bind. eapply wp_on_slots_any; [cbv beta; unfold st_slot; rewrite Nat2Z.id, (proj1 Hh); reflexivity|]. cbn [fst].
  apply wp_bind, wp_modify, wp_ret. set (w1 := Build_win_world _ _).
  apply wp_bind. unfold wp at 1. rewrite (on_wconn_nothing c cn ep m None w1 Hc He Hm).
  apply wp_bind, wp_on_w. eapply wp_mono; [by apply (RefreshTime_spec n c (ww_world w1))|].
  intros _ g (Ec & Ee & Eh & El & Ect & Est & Hwf & r & it' & Et & Hh'). unfold win_release. apply wp_bind, wp_on_w, wp_modify.
  unfold win_drop_connection. apply wp_bind, wp_gets. unfold id. cbn [ww_world ww_poller].
  assert (in_slots c (w_slots (w_with_conns (w_conns g) (remove_one c (w_held g)) g)) = true) as ->.
  { apply in_slots_spec. exists n. change (st_conn (w_slots g) n = Some c). by rewrite Est. }
  rewrite orb_true_r. apply wp_ret. split; [done|].
  assert (remove_one c (w_held g) = w_held (ww_world w)) as E1.
  { rewrite Eh. cbn. unfold remove_one. cbn. by rewrite decide_True by done. }
  split_and!; cbn; [done|done|exact E1|done|exact Ect|exact Est|exact Hwf|]. exists r, it'. by split.
Qed.

(** The worker's view of connection [c] in slot [n], on the socket [key]. *)
Record watched (a : IocpThreadAdaptor) (key : Z) (n c : nat) (cn : WinConnection) w : Prop := {
  wd_adaptor : po_adaptor (ww_poller w) = Some a;
  wd_no_timeouts : it_enable_timeout_check (ad_iocp a) = false;
  wd_service : exists info, ad_services a !! key = Some info /\ si_service info = self /\
    CheckConnectionId (si_CompletionKey info) (w_ct (ww_world w)) = Some (Z.of_nat n);
  wd_slots : slots_wf (w_slots (ww_world w));
  wd_slot : st_conn (w_slots (ww_world w)) n = Some c;
  wd_conn : w_conns (ww_world w) !! c = Some cn;
  wd_endpoint : is_Some (w_eps (ww_world w) !! wn_endpoint cn);
  wd_handle : wn_handle_id cn <> 0;
}.

(** What the port says of a read or a write of [key] that failed. *)
Definition failed_operation (key : Z) w (r : sysret) (ov : Z) (olex : OverLappedEx) : Prop :=
  r_ret r < 0 /\ r_events r = [(key, ov)] /\ key <> 0 /\ ov <> 0 /\
  po_overlapped (ww_poller w) !! ov = Some olex /\ (ox_event_type olex = kRecvEvent \/ ox_event_type olex = kSendEvent).

Definition poll_port (a : IocpThreadAdaptor) : syscall := SysGetQueuedCompletionStatus (it_iocp (ad_iocp a)) 1000.

Lemma failed_round_ignored w a r k key ov olex n c cn :
  watched a key n c cn w -> failed_operation key w r ov olex -> sys_call (os_kernel (w_os (ww_world w))) (poll_port a) = (r, k) ->
  exists w', win_worker_round OnCheckPackageLength recv_fuel self overlapped_at false w = Ret (true, w') /\
    ww_poller w' = ww_poller w /\ exists o, renewed n c (w_with_os o (ww_world w)) (ww_world w') /\
    os_trace o = os_trace (w_os (ww_world w)) ++ [(poll_port a, r)].
Proof using Type.
  unfold poll_port. intros [Ha Ht (info & Hinfo & Hself & Hcid) Hs Hn Hc [ep He] Hid] (Hr & Hev & Hkey & Hov & Hol & Hty) Ecall.
  enough (wp (win_worker_round OnCheckPackageLength recv_fuel self overlapped_at false) w (fun x w' => x = true /\
    ww_poller w' = ww_poller w /\ exists o, renewed n c (w_with_os o (ww_world w)) (ww_world w') /\
    os_trace o = os_trace (w_os (ww_world w)) ++ [(SysGetQueuedCompletionStatus (it_iocp (ad_iocp a)) 1000, r)])) as Hwp.
  { unfold wp in Hwp. destruct (win_worker_round _ _ _ _ _ w) as [[x w']| | |]; [|done..]. destruct Hwp as (-> & Hw). by exists w'. }
  unfold win_worker_round, adaptor_of. apply wp_bind, wp_bind, wp_gets, wp_of_option. exists a. split; [exact Ha|].
  unfold IocpThread_WorkThread. rewrite Ht. apply wp_bind, wp_ret, wp_bind, wp_on_w. unfold on_os at 1. apply wp_zoom.
  unfold Iocp_polling. apply wp_bind. unfold call, wp at 1. rewrite Ecall, Hev. cbn [default head from_option]. unfold id.
  apply wp_ret. rewrite (proj2 (Z.ltb_ge 0 _)) by lia. cbn [negb].
  rewrite (proj2 (Z.eqb_neq ov 0) Hov), (proj2 (Z.eqb_neq key 0) Hkey). cbn [negb andb ww_poller].
  apply wp_bind, wp_bind, wp_bind, wp_gets, wp_of_option. exists olex. split; [exact Hol|].
  apply wp_bind, wp_on_w. unfold on_os at 1. apply wp_zoom, wp_gets. cbn [ww_world ww_poller].
  apply wp_bind, wp_bind, wp_gets, wp_of_option. exists a. split; [exact Ha|].
  unfold FindEventService. cbn [wd_ptr failed_detail]. rewrite Hinfo. cbn [mbind option_bind wd_event_type failed_detail].
  rewrite Hself, Z.eqb_refl. cbn [wd_error_code wd_transferred_bytes wd_handle_id wd_overlaped].
  rewrite (event_type_kept (si_event_types info) _ Hty). match goal with |- wp _ ?x _ => set (w1 := x) end.
  set (detail := {| wd_ptr := _ |}). assert (wp (win_OnEventProcess OnCheckPackageLength recv_fuel overlapped_at detail) w1 (fun _ w' =>
    ww_poller w' = ww_poller w1 /\ renewed n c (ww_world w1) (ww_world w'))) as Hevent.
  { unfold win_OnEventProcess. apply wp_bind, wp_gets. cbn [wd_ptr detail wd_event_type]. unfold w1 at 1. cbn [ww_world].
    change (w_ct (w_with_os ?x (w_with_os ?y ?z))) with (w_ct z). rewrite Hcid.
    destruct Hty as [E|E]; rewrite E.
    - change (has kRecvEvent kErrorEvent) with false. change (has kRecvEvent kRecvEvent) with true. cbv match.
      apply (win_data_event_nothing n c cn ep); [done..|]. intros s <-. by apply zero_handle_ignored.
    - change (has kSendEvent kErrorEvent) with false. change (has kSendEvent kRecvEvent) with false.
      change (has kSendEvent kSendEvent) with true. cbv match.
      apply (win_data_event_nothing n c cn ep); [done..|]. intros s <-. by apply zero_handle_ignored. }
  eapply wp_mono; [exact Hevent|]. intros _ w' [Ep Hrn]. apply wp_ret. split; [done|]. split; [done|].
  eexists. split; [exact Hrn|]. done.
Qed.

(** A round in which the port had nothing before its timeout. *)
Lemma idle_round_ignored w a r k key n c cn :
  watched a key n c cn w -> r_ret r < 0 -> r_events r = [] -> sys_call (os_kernel (w_os (ww_world w))) (poll_port a) = (r, k) ->
  exists o, win_worker_round OnCheckPackageLength recv_fuel self overlapped_at false w =
    Ret (true, Build_win_world (w_with_os o (ww_world w)) (ww_poller w)).
Proof using Type.
  unfold poll_port. intros [Ha Ht _ _ _ _ _ _] Hr Hev Ecall.
  enough (wp (win_worker_round OnCheckPackageLength recv_fuel self overlapped_at false) w (fun x w' => x = true /\
    exists o, w' = Build_win_world (w_with_os o (ww_world w)) (ww_poller w))) as Hwp.
  { unfold wp in Hwp. destruct (win_worker_round _ _ _ _ _ w) as [[x w']| | |]; [|done..].
    destruct Hwp as (-> & o & ->). by exists o. }
  unfold win_worker_round, adaptor_of. apply wp_bind, wp_bind, wp_gets, wp_of_option. exists a. split; [exact Ha|].
  unfold IocpThread_WorkThread. rewrite Ht. apply wp_bind, wp_ret, wp_bind, wp_on_w. unfold on_os at 1. apply wp_zoom.
  unfold Iocp_polling. apply wp_bind. unfold call, wp at 1. rewrite Ecall, Hev. cbn [default head from_option].
  apply wp_ret. rewrite (proj2 (Z.ltb_ge 0 _)) by lia. cbn [negb]. apply wp_bind, wp_ret, wp_ret. split; [done|]. by eexists.
Qed.

(** The connections, the endpoints and what is in the slots stay as they are, no message is
    queued and no handler called. *)
Definition unmoved w w' : Prop :=
  ww_poller w' = ww_poller w /\ w_conns (ww_world w') = w_conns (ww_world w) /\ w_eps (ww_world w') = w_eps (ww_world w) /\
  w_held (ww_world w') = w_held (ww_world w) /\ w_calls (ww_world w') = w_calls (ww_world w) /\
  w_ct (ww_world w') = ct_with_slots (w_slots (ww_world w')) (w_ct (ww_world w)) /\
  (forall m, st_conn (w_slots (ww_world w')) m = st_conn (w_slots (ww_world w)) m).

Lemma unmoved_refl w : unmoved w w.
Proof using Type. split_and!; try done. unfold w_slots. by destruct (w_ct (ww_world w)). Qed.

Lemma unmoved_trans w w1 w2 : unmoved w w1 -> unmoved w1 w2 -> unmoved w w2.
Proof using Type.
  intros (P1 & C1 & E1 & H1 & L1 & T1 & S1) (P2 & C2 & E2 & H2 & L2 & T2 & S2). split_and!; [congruence..| |].
  - rewrite T2, T1. done.
  - intros m. by rewrite S2.
Qed.

Lemma watched_unmoved a key n c cn w w' :
  watched a key n c cn w -> unmoved w w' -> slots_wf (w_slots (ww_world w')) -> watched a key n c cn w'.
Proof using Type.
  intros [Ha Ht (info & Hinfo & Hself & Hcid) Hs Hn Hc He Hid] (EP & EC & EE & _ & _ & ET & ES) Hwf.
  split; rewrite ?EP, ?EC, ?EE, ?ES; try done. exists info. split; [done|]. split; [done|]. by rewrite ET.
Qed.

Lemma renewed_unmoved n c o w w' :
  ww_poller w' = ww_poller w -> renewed n c (w_with_os o (ww_world w)) (ww_world w') ->
  unmoved w w' /\ slots_wf (w_slots (ww_world w')).
Proof using Type. intros EP (EC & EE & EH & EL & ET & ES & Hwf & _). done. Qed.

Fixpoint worker_rounds (rounds : nat) : M (win_world K) unit :=
  match rounds with
  | O => mret tt
  | S rounds => _ ← win_worker_round OnCheckPackageLength recv_fuel self overlapped_at false; worker_rounds rounds
  end.

(** C13. A failed read or write is ignored, for ever.  The operation of a connection fails (the
    peer reset it, say), the port hands it to a worker, and the event that reaches the
    container changes nothing but the connection's deadline, which is put off as if data
    had come: the connection stays online and in its slot, no message is queued, no handler
    called, no operation started.  And however many rounds follow in which the port has
    nothing or another failed operation of that connection, none of this changes.  The
    connection's handle is not the number 0, and the workers do not check for timeouts,
    which they never do (win_no_timeout_check of Iocp.v). *)
Theorem win_failed_operation_ignored w a key n c cn :
  watched a key n c cn w ->
  (forall r k ov olex, failed_operation key w r ov olex -> sys_call (os_kernel (w_os (ww_world w))) (poll_port a) = (r, k) ->
    exists w', win_worker_round OnCheckPackageLength recv_fuel self overlapped_at false w = Ret (true, w') /\
      ww_poller w' = ww_poller w /\ exists o, renewed n c (w_with_os o (ww_world w)) (ww_world w') /\
      os_trace o = os_trace (w_os (ww_world w)) ++ [(poll_port a, r)]) /\
  ((forall k, let r := (sys_call k (poll_port a)).1 in
      r_ret r < 0 /\ r_events r = [] \/ exists ov olex, failed_operation key w r ov olex) ->
    forall rounds, exists w', worker_rounds rounds w = Ret (tt, w') /\ unmoved w w').
Proof using Type.
  intros Hw. split; [intros r k ov olex Hf Ecall; by eapply failed_round_ignored|].
  intros Hport rounds. revert w Hw Hport. induction rounds as [|rounds IH]; intros w Hw Hport.
  { exists w. split; [done|apply unmoved_refl]. }
  assert (exists w1, win_worker_round OnCheckPackageLength recv_fuel self overlapped_at false w = Ret (true, w1) /\
    unmoved w w1 /\ slots_wf (w_slots (ww_world w1))) as (w1 & E1 & Hu & Hwf).
  { destruct (sys_call (os_kernel (w_os (ww_world w))) (poll_port a)) as [r k] eqn:Ecall.
    specialize (Hport (os_kernel (w_os (ww_world w)))). rewrite Ecall in Hport. cbn in Hport.
    destruct Hport as [[Hr Hev]|(ov & olex & Hf)].
    - destruct (idle_round_ignored w a r k key n c cn Hw Hr Hev Ecall) as [o Eo]. eexists. split; [exact Eo|].
      split; [apply (unmoved_refl w)|apply (wd_slots _ _ _ _ _ _ Hw)].
    - destruct (failed_round_ignored w a r k key ov olex n c cn Hw Hf Ecall) as (w1 & E1 & EP & o & Hrn & _).
      exists w1. split; [exact E1|]. by apply (renewed_unmoved n c o). }
  destruct (IH w1) as (w' & E' & Hu').
  - by eapply watched_unmoved.
  - intros k. cbv zeta. destruct (Hport k) as [?|(ov & olex & Hf)]; [by left|]. right. exists ov, olex.
    unfold failed_operation in *. by rewrite (proj1 Hu).
  - exists w'. split; [|by eapply unmoved_trans]. cbn [worker_rounds]. unfold mbind, M_bind. by rewrite E1.
Qed.
End WinFailure.

(** ** A concrete process *)

(** The port is 7; what it hands out is the read of connection 1, on socket 6, which failed
    with error 64. *)
Definition win_kernel : Kernel Z := fun k c =>
  let ret r evs := {| r_ret := r; r_errno := 64; r_data := []; r_int := 0; r_events := evs |} in
  match c with
  | SysPthreadCreate => (ret 0 [], k + 1)
  | SysCreateIoCompletionPort _ _ _ _ => (ret 7 [], k)
  | SysGettimeofday => (ret 0 [(1700000000, 0)], k)
  | SysGetQueuedCompletionStatus _ _ => (ret (-1) [(6, 1200)], k)
  | _ => (ret 0 [], k)
  end.

#[local] Existing Instance win_kernel.
#[local] Existing Instance no_format.
#[local] Existing Instance quiet_libc.

Definition connections_at (c : nat) : Z * Z := (1000 + 200 * Z.of_nat c, 1100 + 200 * Z.of_nat c).

Definition win_process : win_world Z :=
  Build_win_world
    {| w_os := {| os_kernel := 0; os_errno := 0; os_trace := [] |};
       w_eps := {[ 1%nat := EndpointImpl_new 5 (loopback4 80) (loopback4 81); 2%nat := EndpointImpl_new 6 (loopback4 80) (loopback4 82) ]};
       w_conns := ∅; w_held := []; w_global_counter := 0; w_next := 0; w_ct := ContainerImpl_new small_option; w_calls := [] |}
    {| po_thread := None; po_adaptor := None; po_count := 0; po_instances := ∅; po_overlapped := ∅ |}.

(** The container is started and the two endpoints attached. *)
Definition win_start : M (win_world Z) unit :=
  _ ← win_Container_Init 1000 1 77;
  _ ← win_Container_Start;
  _ ← win_AttachEndpoint connections_at 1 false;
  _ ← win_AttachEndpoint connections_at 2 false;
  mret tt.

Definition win_running : win_world Z := match win_start win_process with Ret (_, w) => w | _ => win_process end.

(** The slots of two connections with records in order. *)
Lemma two_slots_wf d :
  slots_wf {| st_mgr := [(Some 0%nat, Some 0%nat); (Some 1%nat, Some 1%nat)];
              st_records := [(d, (0%nat, 0)); (d, (1%nat, 1))]; st_free := []; st_next := 2 |}.
Proof.
  split; cbn [st_mgr st_records st_free st_next].
  - constructor.
  - intros i. split; [by intros ?%elem_of_nil|]. intros ([|[|m]] & _ & Hm); done.
  - intros [|[|m]] s Hs; [| |done]; injection Hs as <-; right; do 3 eexists; (split; [done|]); [by left|by right; left].
  - intros x it i [E|[E|?%elem_of_nil]%elem_of_cons]%elem_of_cons; [| |done]; injection E as -> -> ->; [exists 0%nat|exists 1%nat]; eauto.
  - by apply (bool_decide_eq_true_1 (NoDup _)).
  - repeat constructor.
  - repeat constructor. unfold key_le. cbn. lia.
Qed.

Lemma win_running_slots : slots_wf (w_slots (ww_world win_running)).
Proof. apply (two_slots_wf 1700000060000). Qed.

(** The adaptor, the connection and the endpoint of socket 6. *)
Definition win_adaptor : IocpThreadAdaptor := default (IocpThreadAdaptor_new 0) (po_adaptor (ww_poller win_running)).
Definition win_second : WinConnection := default (WinConnection_new 0 0) (w_conns (ww_world win_running) !! 1%nat).
Definition win_second_endpoint : EndpointImpl :=
  default (EndpointImpl_new 0 (loopback4 80) (loopback4 80)) (w_eps (ww_world win_running) !! 2%nat).

Lemma win_close_dangles_witness :
  exists w', win_Endpoint_Close connections_at 2 true win_running = Ret (true, w') /\
    w_conns (ww_world w') !! 1%nat = None /\
    (exists t, os_trace (w_os (ww_world w')) = os_trace (w_os (ww_world win_running)) ++ t /\ closed t = [ei_fd win_second_endpoint]) /\
    forall OnCheckPackageLength recv_fuel r k key,
      sys_call (os_kernel (w_os (ww_world w'))) (SysGetQueuedCompletionStatus (it_iocp (ad_iocp win_adaptor)) 1000) = (r, k) ->
      r_events r = [(key, (connections_at 1).1)] -> key <> 0 ->
      win_worker_round OnCheckPackageLength recv_fuel 1000 connections_at false w' = Undef.
Proof.
  apply (win_close_dangles 1000 connections_at win_adaptor 2 win_second_endpoint 1 1 win_second true win_running);
    try (vm_compute; reflexivity); try (vm_compute; discriminate); [|exact win_running_slots|].
  - exists 1%nat. split; [vm_compute; reflexivity|]. split; [vm_compute; reflexivity|]. eexists. vm_compute. reflexivity.
  - intros [|[|m]]; vm_compute; congruence.
Defined.

Example win_cancelled_read_dangles :
  match win_Endpoint_Close connections_at 2 true win_running with
  | Ret (_, w') => win_worker_round length_byte 1 1000 connections_at false w' = Undef
  | _ => False
  end.
Proof. vm_compute. reflexivity. Qed.

Lemma win_running_watched : watched 1000 win_adaptor 6 1 1 win_second win_running.
Proof.
  split.
  - vm_compute. reflexivity.
  - vm_compute. reflexivity.
  - exists {| si_CompletionKey := ei_connection_id win_second_endpoint; si_service := 1000; si_event_types := 6 |}.
    split_and!; vm_compute; reflexivity.
  - exact win_running_slots.
  - vm_compute. reflexivity.
  - vm_compute. reflexivity.
  - exists win_second_endpoint. vm_compute. reflexivity.
  - vm_compute. discriminate.
Qed.

Definition win_reset : sysret := {| r_ret := -1; r_errno := 64; r_data := []; r_int := 0; r_events := [(6, 1200)] |}.

Lemma win_reset_failed : failed_operation 6 win_running win_reset 1200 {| ox_event_type := kRecvEvent; ox_HandleId := 1 |}.
Proof. split; [done|]. split; [done|]. do 2 (split; [lia|]). split; [vm_compute; reflexivity|by left]. Qed.

Lemma win_failed_operation_ignored_witness :
  (exists w', win_worker_round length_byte 1 1000 connections_at false win_running = Ret (true, w') /\
    ww_poller w' = ww_poller win_running /\ exists o, renewed 1 1 (w_with_os o (ww_world win_running)) (ww_world w') /\
    os_trace o = os_trace (w_os (ww_world win_running)) ++ [(poll_port win_adaptor, win_reset)]) /\
  forall rounds, exists w', worker_rounds length_byte 1 1000 connections_at rounds win_running = Ret (tt, w') /\ unmoved win_running w'.
Proof.
  destruct (win_failed_operation_ignored length_byte 1 1000 connections_at win_running win_adaptor 6 1 1 win_second win_running_watched) as [H1 H2].
  split.
  - apply (H1 win_reset 3 1200 {| ox_event_type := kRecvEvent; ox_HandleId := 1 |} win_reset_failed). vm_compute. reflexivity.
  - apply H2. intros k. right. exists 1200, {| ox_event_type := kRecvEvent; ox_HandleId := 1 |}. apply win_reset_failed.
Defined.
