(* ===== verification/ContainerLife.v ===== *)
(** * The whole life of a container (src/common/container_impl.cc)

    From construction to destruction: the methods used in between leave the
    threads alone, [Shutdown] joins them, closes every connection and empties the
    slots. *)

From S2P Require Import Prelude.
From S2P Require Import OS.
From S2P Require Import Status.
From S2P Require Import Slice.
From S2P Require Import SliceBuffer.
From S2P Require Import SocketSetting.
From S2P Require Import SockAddr.
From S2P Require Import Property.
From S2P Require Import Endpoint.
From S2P Require Import Epoll.
From S2P Require Import Connection.
From S2P Require Import Time.
From S2P Require Import Thread.
From S2P Require Import PollingThread.
From S2P Require Import Ledger.
From S2P Require Import Timer.
From S2P Require Import Multimap.
From S2P Require Import SlotTable.
From S2P Require Import Container.
From S2P Require Import ContainerSafety.
From S2P Require Import Surface.

Local Open Scope Z_scope.

(** Accounting on the trace of a container's world. *)
#[local] Abbreviation wspends := (spends (trace_of w_os)).

(** ** The methods leave the threads alone *)

Section Engine.
Context {K : Type} `{Kernel K} `{LibC}.
Implicit Types w : world K.

(** The threads of a container: what [Init] and [Start] made and [Shutdown] takes down. *)
Definition engine w : bool * PollingThread * PollingThread * list Thread * nat * option (bool * Thread) :=
  (ct_shutdown (w_ct w), ct_poll_thread (w_ct w), ct_back_thread (w_ct w), ct_mq_threads (w_ct w),
   ct_running_threads (w_ct w), (fun t => (tm_shutdown t, tm_thd t)) <$> ct_timer_thread (w_ct w)).

Definition keeps_engine {A} (m : M (world K) A) : Prop := forall w a w', m w = Ret (a, w') -> engine w' = engine w.

Lemma ke_ret {A} (a : A) : keeps_engine (mret a).
Proof using Type. by intros w x w' [= <- <-]. Qed.

Lemma ke_gets {A} (f : world K -> A) : keeps_engine (gets f).
Proof using Type. by intros w x w' [= <- <-]. Qed.

Lemma ke_undef {A} : keeps_engine (A := A) undef.
Proof using Type. done. Qed.

Lemma ke_no_fuel {A} : keeps_engine (A := A) no_fuel.
Proof using Type. done. Qed.

Lemma ke_of_option {A} (x : option A) : keeps_engine (of_option x).
Proof using Type. intros w a w'. destruct x; [|done]. by intros [= <- <-]. Qed.

Lemma ke_bind {A B} (m : M (world K) A) (f : A -> M (world K) B) :
  keeps_engine m -> (forall a, keeps_engine (f a)) -> keeps_engine (m ≫= f).
Proof using Type.
  intros Hm Hf w b w2. unfold mbind, M_bind. destruct (m w) as [[a w1]| | |] eqn:E; [|done..]. intros E2.
  rewrite (Hf _ _ _ _ E2). eauto.
Qed.

Lemma ke_modify f : (forall w, engine (f w) = engine w) -> keeps_engine (modify f).
Proof using Type. intros Hf w a w' [= <- <-]. apply Hf. Qed.

Lemma ke_on_os {A} (m : M (os K) A) : keeps_engine (on_os m).
Proof using Type.
  intros w a w'. unfold on_os, zoom. destruct (m (w_os w)) as [[x o]| | |]; [|done..]. by intros [= <- <-].
Qed.

Lemma ke_on_slots {A} (f : SlotTable -> outcome (A * SlotTable)) : keeps_engine (on_slots f).
Proof using Type.
  intros w a w'. unfold on_slots. destruct (f (w_slots w)) as [[x t]| | |]; [|done..]. by intros [= <- <-].
Qed.

Lemma serve_all_engine ep calls c :
  ct_shutdown (serve_all ep calls c) = ct_shutdown c /\ ct_poll_thread (serve_all ep calls c) = ct_poll_thread c /\
  ct_back_thread (serve_all ep calls c) = ct_back_thread c /\ ct_mq_threads (serve_all ep calls c) = ct_mq_threads c /\
  ct_running_threads (serve_all ep calls c) = ct_running_threads c /\
  ct_timer_thread (serve_all ep calls c) = ct_timer_thread c.
Proof using Type.
  revert c. induction calls as [|call calls IH]; intros c; [done|]. cbn. unfold serve_all in *. cbn.
  destruct (IH (serve ep call c)) as (-> & -> & -> & -> & -> & ->).
  destruct call; [done|]. cbn. unfold Container_OnClosed. by destruct (op_closed_handler _).
Qed.

Lemma ke_on_conn {A} c (m : M (conn_state K) A) : keeps_engine (on_conn c m).
Proof using Type.
  intros w a w'. unfold on_conn. destruct (w_conns w !! c) as [cn|]; [|done].
  destruct (w_eps w !! cn_endpoint cn) as [ep|]; [|done].
  destruct (m _) as [[x s]| | |]; [|done..]. intros [= <- <-]. unfold engine. cbn.
  by destruct (serve_all_engine (cn_endpoint cn) (cs_out s) (w_ct w)) as (-> & -> & -> & -> & -> & ->).
Qed.
End Engine.

Create HintDb engine discriminated.
#[export] Hint Resolve ke_ret ke_gets ke_undef ke_no_fuel ke_of_option ke_on_os ke_on_slots ke_on_conn : engine.
#[export] Hint Extern 1 (keeps_engine (modify _)) => by apply ke_modify : engine.
#[export] Hint Extern 2 (keeps_engine (_ ≫= _)) => apply ke_bind; [|intros ?] : engine.
#[export] Hint Extern 2 (keeps_engine (if ?b then _ else _)) => destruct b : engine.
#[export] Hint Extern 2 (keeps_engine (match ?x with _ => _ end)) => destruct x : engine.

Section MethodsKeep.
Context {K : Type} `{Kernel K} `{LibC}.
Variable OnCheckPackageLength : EndpointImpl -> list cell -> Z.
Variable recv_fuel : nat.

Lemma ke_drop c : keeps_engine (K := K) (drop_connection c).
Proof using Type. unfold drop_connection. auto with engine. Qed.
Hint Resolve ke_drop : engine.

Lemma ke_release c : keeps_engine (K := K) (release c).
Proof using Type. unfold release. auto with engine. Qed.
Hint Resolve ke_release : engine.

Lemma ke_GetConnection i : keeps_engine (K := K) (GetConnection i).
Proof using Type. unfold GetConnection. auto 10 with engine. Qed.
Hint Resolve ke_GetConnection : engine.

Lemma ke_DeleteConnection i : keeps_engine (K := K) (DeleteConnection i).
Proof using Type. unfold DeleteConnection. auto 10 with engine. Qed.
Hint Resolve ke_DeleteConnection : engine.

Lemma ke_RefreshTime i : keeps_engine (K := K) (RefreshTime i).
Proof using Type. unfold RefreshTime, deadline_now. auto 12 with engine. Qed.
Hint Resolve ke_RefreshTime : engine.

Lemma Timer_SetTimer_thread i h d t o t' o' :
  Timer_SetTimer i h d t o = Ret (t', o') -> tm_shutdown t' = tm_shutdown t /\ tm_thd t' = tm_thd t.
Proof using Type.
  unfold Timer_SetTimer. destruct (tm_shutdown t) eqn:Es; [by intros [= <- <-]|].
  unfold mbind, M_bind. destruct (GetCurrentMilliseconds o) as [[now o1]| | |]; [|done..].
  by intros [= <- <-].
Qed.

Lemma ke_SetTimer i h d : keeps_engine (K := K) (SetTimer i h d).
Proof using Type.
  unfold SetTimer. intros w a w'. unfold mbind, M_bind, gets, id.
  destruct (ct_timer_thread (w_ct w)) as [t|] eqn:Et; [|by intros [= <- <-]].
  unfold on_os, zoom. destruct (Timer_SetTimer i h d t (w_os w)) as [[t' o]| | |] eqn:E; [|done..].
  intros [= <- <-]. unfold engine. cbn. rewrite Et. cbn.
  by destruct (Timer_SetTimer_thread _ _ _ _ _ _ _ E) as [-> ->].
Qed.
Hint Resolve ke_SetTimer : engine.

Lemma ke_push f :
  (forall c, f c = c \/ exists m, f c = push_message m c) -> keeps_engine (K := K) (modify_ct f).
Proof using Type. intros Hf. apply ke_modify. intros w. unfold engine. cbn. by destruct (Hf (w_ct w)) as [->|[m ->]]. Qed.

Lemma ke_AttachEndpoint ep notify : keeps_engine (K := K) (AttachEndpoint ep notify).
Proof using Type.
  assert (forall ep, keeps_engine (K := K) (make_connection ep)) as Hmk by (by intros e w a w' [= <- <-]).
  unfold AttachEndpoint, AttachEndpointImpl, deadline_now, modify_endpoint. apply ke_bind; [auto 40 with engine|].
  intros e. apply ke_bind; [auto with engine|]. intros w. destruct (_ && _); [|auto with engine].
  apply ke_bind; [|auto with engine]. apply ke_push. intros c. unfold Container_OnNotify. eauto.
Qed.

Lemma ke_SendMsg cid m : keeps_engine (K := K) (Container_SendMsg cid m).
Proof using Type. unfold Container_SendMsg. auto 15 with engine. Qed.
Hint Resolve ke_SendMsg : engine.

Lemma ke_CloseEndpoint ep notify : keeps_engine (K := K) (CloseEndpoint ep notify).
Proof using Type. unfold CloseEndpoint. auto 15 with engine. Qed.
Hint Resolve ke_CloseEndpoint : engine.

Lemma ke_OnEventProcess detail : keeps_engine (K := K) (Container_OnEventProcess OnCheckPackageLength recv_fuel detail).
Proof using Type.
  unfold Container_OnEventProcess, OnErrorEvent, OnRecvEvent, OnSendEvent, close_and_delete. auto 25 with engine.
Qed.

Lemma ke_timeout_loop fuel now : forall it, keeps_engine (K := K) (timeout_loop fuel it now).
Proof using Type. induction fuel as [|fuel IH]; intros [it|]; cbn [timeout_loop]; auto 20 with engine. Qed.

Lemma ke_OnTimeoutCheck now : keeps_engine (K := K) (Container_OnTimeoutCheck now).
Proof using Type.
  unfold Container_OnTimeoutCheck. apply ke_bind; [auto with engine|]. intros w. destruct (_ <? 3000); [auto with engine|].
  apply ke_bind; [by apply ke_modify|]. intros _. apply ke_timeout_loop.
Qed.

Lemma ke_OnTimer i h : keeps_engine (K := K) (Container_OnTimer i h).
Proof using Type.
  assert (forall ep, keeps_engine (K := K) (modify_ct (Container_OnTimerEvent ep))) as Hev.
  { intros ep. apply ke_push. intros c. unfold Container_OnTimerEvent. destruct (op_heartbeat_handler _); eauto. }
  unfold Container_OnTimer. auto 20 with engine.
Qed.

Lemma ke_MessageQueue_round blocked : keeps_engine (K := K) (MessageQueue_round blocked).
Proof using Type.
  assert (forall q n, keeps_engine (K := K) (modify_ct (fun c => ct_with_queue q (n c) c))) as Hq by (by intros q n; apply ke_modify).
  unfold MessageQueue_round, Dispatch. apply ke_bind; [auto with engine|]. intros w.
  destruct (_ =? 0); [auto with engine|]. destruct (ct_mpscq (w_ct w)) as [|msg q]; [auto with engine|].
  destruct blocked; [auto with engine|]. apply ke_bind; [apply Hq|]. intros _. auto 20 with engine.
Qed.

Lemma run_container_op_engine op w g w' :
  run_container_op OnCheckPackageLength recv_fuel op w = Ret (g, w') -> engine w' = engine w.
Proof using Type.
  assert (keeps_engine (K := K) (run_container_op OnCheckPackageLength recv_fuel op)) as Hk.
  { destruct op; cbn [run_container_op]; unfold Endpoint_SendMsg, Endpoint_Close, modify_endpoint;
      auto 20 using ke_AttachEndpoint, ke_OnEventProcess, ke_OnTimeoutCheck, ke_OnTimer, ke_MessageQueue_round with engine. }
  apply Hk.
Qed.

Lemma container_run_engine ops w gs w' :
  container_run OnCheckPackageLength recv_fuel ops w gs w' -> engine w' = engine w.
Proof using Type.
  induction 1 as [|op ops w g w1 gs w2 Hop Hr Hrun IH]; [done|]. rewrite IH. by eapply run_container_op_engine.
Qed.
End MethodsKeep.

(** ** Closing every connection *)

Section Slots.
Context {K : Type} `{Kernel K} `{LibC}.
Implicit Types w : world K.

(** The slots before [k] were emptied; every live connection is in one of the others. *)
Record down_to (k : nat) w : Prop := {
  dt_held : w_held w = [];
  dt_before n : (n < k)%nat -> st_conn (w_slots w) n = None;
  dt_slot n c : st_conn (w_slots w) n = Some c ->
    exists cn ep, w_conns w !! c = Some cn /\ w_eps w !! cn_endpoint cn = Some ep /\ holds_fd ep;
  dt_live c cn : w_conns w !! c = Some cn -> exists n, st_conn (w_slots w) n = Some c;
  dt_inj n m c : st_conn (w_slots w) n = Some c -> st_conn (w_slots w) m = Some c -> n = m;
  dt_ep_inj c c' cn cn' : w_conns w !! c = Some cn -> w_conns w !! c' = Some cn' ->
    cn_endpoint cn = cn_endpoint cn' -> c = c';
}.

Lemma winv_down_to w : winv [] None w -> down_to 0 w.
Proof using Type.
  intros Hw. split.
  - apply (wi_held _ _ _ Hw).
  - lia.
  - intros n c Hc. destruct (wi_slot _ _ _ Hw n c Hc) as [cn Hcn]. destruct (wi_ep _ _ _ Hw c cn Hcn) as (ep & He & _ & Hf).
    eauto.
  - intros c cn Hc. destruct (wi_live _ _ _ Hw c cn Hc) as [?|[Hn%elem_of_nil|?]]; done.
  - apply (wi_inj _ _ _ Hw).
  - apply (wi_ep_inj _ _ _ Hw).
Qed.

(** The world after slot [k], which held connection [c] on endpoint object [ep], was shut
    down. *)
Definition closed_slot (k c : nat) (cn : Connection) (ep : EndpointImpl) (it : option nat) (o : os K) w : world K :=
  w_with_conns (base.delete c (w_conns w)) (w_held w)
    (w_with_eps (<[cn_endpoint cn := SetFd InvalidFd ep]> (w_eps w))
      (w_with_slots (st_set_slot (Z.of_nat k) (None, it) (w_slots w)) (w_with_os o w))).

Lemma st_conn_set k it t n :
  (k < length (st_mgr t))%nat ->
  st_conn (st_set_slot (Z.of_nat k) (None, it) t) n = if decide (n = k) then None else st_conn t n.
Proof using Type.
  clear. intros Hk. unfold st_conn, st_set_slot. cbn. rewrite Nat2Z.id. destruct (decide (n = k)) as [->|Hne].
  - by rewrite list_lookup_insert_eq.
  - by rewrite list_lookup_insert_ne.
Qed.

Lemma shutdown_online_out ep cn o :
  holds_fd ep ->
  exists o' cn' t, Connection_Shutdown false Event_default {| cs_os := o; cs_ep := ep; cs_cn := cn; cs_out := [] |} =
    Ret (tt, {| cs_os := o'; cs_ep := SetFd InvalidFd ep; cs_cn := cn'; cs_out := [] |}) /\
    os_trace o' = os_trace o ++ t /\ opened t = [] /\ closed t = [fd_int ep] /\ cn_endpoint cn' = cn_endpoint cn.
Proof using Type.
  intros Hf. pose proof (Connection_Shutdown_online false Event_default {| cs_os := o; cs_ep := ep; cs_cn := cn; cs_out := [] |} Hf) as Hsh.
  unfold wp in Hsh. destruct (Connection_Shutdown _ _ _) as [[[] s]| | |]; [|done..].
  destruct Hsh as (t & Et & Ot & Ct & Hep & Hout & Hcn). destruct s as [o' ep' cn' out]. cbn in *. subst.
  by exists o', (set_snd (ClearBuffer (cn_snd_buffer cn)) (set_rcv (ClearBuffer (cn_rcv_buffer cn)) cn)), t.
Qed.

(** One round of the loop, on a slot with a connection. *)
Lemma shutdown_slot_runs k c cn ep it w :
  down_to k w -> st_mgr (w_slots w) !! k = Some (Some c, it) ->
  w_conns w !! c = Some cn -> w_eps w !! cn_endpoint cn = Some ep -> holds_fd ep ->
  exists o t,
    (_ ← on_conn c (Connection_Shutdown false Event_default);
     _ ← on_slots (fun t => Ret (tt, st_set_slot (Z.of_nat k) (None, it) t));
     drop_connection c) w = Ret (tt, closed_slot k c cn ep it o w) /\
    os_trace o = os_trace (w_os w) ++ t /\ opened t = [] /\ closed t = [fd_int ep].
Proof using Type.
  intros Hd Hk Hc He Hf. destruct (shutdown_online_out ep cn (w_os w) Hf) as (o & cn' & t & Esh & Et & Ot & Ct & Hcn).
  exists o, t. split; [|done]. unfold mbind, M_bind, on_conn at 1. rewrite Hc, He, Esh. cbn.
  unfold on_slots, drop_connection, mbind, M_bind, gets, id. cbn.
  assert (k < length (st_mgr (w_slots w)))%nat as Hlt by (by eapply lookup_lt_Some).
  assert (st_conn (w_slots w) k = Some c) as Hkc by (unfold st_conn; by rewrite Hk).
  assert (in_slots c (st_set_slot (Z.of_nat k) (None, it) (w_slots w)) = false) as Hin.
  { destruct (in_slots _ _) eqn:E; [|done]. apply in_slots_spec in E as [n Hn]. rewrite st_conn_set in Hn by done.
    destruct (decide (n = k)) as [->|Hne]; [done|]. by destruct Hne; eapply (dt_inj _ _ Hd). }
  unfold w_slots in *. cbn in *. rewrite (dt_held _ _ Hd). cbn. rewrite Hin.
  rewrite bool_decide_eq_false_2 by apply not_elem_of_nil. cbn [orb].
  unfold on_conn. cbn. rewrite lookup_insert_eq, Hcn, lookup_insert_eq. unfold Connection_dtor.
  rewrite Connection_Shutdown_offline by apply IsOnline_closed. cbn. unfold modify. cbn.
  unfold closed_slot, w_slots. cbn. rewrite (dt_held _ _ Hd). rewrite !insert_insert_eq, delete_insert_eq. done.
Qed.

Lemma closed_slot_down k c cn ep it o w :
  down_to k w -> st_mgr (w_slots w) !! k = Some (Some c, it) ->
  w_conns w !! c = Some cn -> w_eps w !! cn_endpoint cn = Some ep -> holds_fd ep ->
  down_to (S k) (closed_slot k c cn ep it o w) /\
  [fd_int ep] ++ open_fds (closed_slot k c cn ep it o w) ≡ₚ open_fds w.
Proof using Type.
  intros Hd Hk Hc He Hf. assert (k < length (st_mgr (w_slots w)))%nat as Hlt by (by eapply lookup_lt_Some).
  assert (st_conn (w_slots w) k = Some c) as Hkc by (unfold st_conn; by rewrite Hk).
  assert (forall n, st_conn (w_slots (closed_slot k c cn ep it o w)) n = if decide (n = k) then None else st_conn (w_slots w) n) as Hst
    by (intros n; by apply st_conn_set).
  assert (forall x y, w_conns w !! x = Some y -> x <> c -> cn_endpoint cn <> cn_endpoint y) as Hother.
  { intros x y Hx Hne E. by apply Hne, (dt_ep_inj _ _ Hd x c y cn). }
  assert (forall x y, w_conns (closed_slot k c cn ep it o w) !! x = Some y -> c <> x /\ w_conns w !! x = Some y) as Hdel
    by (intros x y Hx; change (base.delete c (w_conns w) !! x = Some y) in Hx; by apply lookup_delete_Some in Hx).
  split.
  - split; [apply (dt_held _ _ Hd)|..].
    + intros n Hn. rewrite Hst. destruct (decide (n = k)); [done|]. apply (dt_before _ _ Hd). lia.
    + intros n x. rewrite Hst. destruct (decide (n = k)) as [|Hne]; [done|]. intros Hx.
      assert (x <> c) as Hxc by (intros ->; by apply Hne, (dt_inj _ _ Hd n k c)).
      destruct (dt_slot _ _ Hd n x Hx) as (y & e & Hy & Hye & Hyf). exists y, e. cbn. rewrite lookup_delete_ne by done.
      rewrite lookup_insert_ne; [done|]. by apply (Hother x y).
    + intros x y Hx. apply Hdel in Hx as [Hne Hx]. destruct (dt_live _ _ Hd x y Hx) as [n Hn]. exists n. rewrite Hst.
      rewrite decide_False; [done|]. intros ->. congruence.
    + intros n m x. rewrite !Hst. destruct (decide (n = k)), (decide (m = k)); try done. apply (dt_inj _ _ Hd).
    + intros x x' y y' Hx Hx'. apply Hdel in Hx as [_ Hx]. apply Hdel in Hx' as [_ Hx']. by apply (dt_ep_inj _ _ Hd).
  - unfold open_fds at 2. rewrite (fds_split _ _ c cn Hc). unfold conn_fd. rewrite He.
    destruct (holds_fd_spec ep Hf) as (-> & _ & _). f_equiv. unfold open_fds. cbn.
    rewrite (fds_ext (w_eps w)); [done|]. intros x y [Hne Hx]%lookup_delete_Some.
    rewrite lookup_insert_ne; [done|]. by apply (Hother x y).
Qed.

Lemma shutdown_slots_spec n : forall k w,
  down_to k w -> (k + n)%nat = length (st_mgr (w_slots w)) ->
  wp (shutdown_slots k n) w (fun _ w' => down_to (k + n) w' /\ engine w' = engine w /\
    length (st_mgr (w_slots w')) = length (st_mgr (w_slots w)) /\
    exists t, os_trace (w_os w') = os_trace (w_os w) ++ t /\ opened t = [] /\ closed t ++ open_fds w' ≡ₚ open_fds w).
Proof using Type.
  induction n as [|n IH]; intros k w Hd Hl; cbn [shutdown_slots].
  { apply wp_ret. rewrite Nat.add_0_r. split_and!; [done..|]. exists []. by rewrite app_nil_r. }
  destruct (lookup_lt_is_Some_2 (st_mgr (w_slots w)) k) as [[con it] Hk]; [lia|].
  assert (st_slot (Z.of_nat k) (w_slots w) = Ret (con, it)) as Es by (unfold st_slot; by rewrite Nat2Z.id, Hk).
  apply wp_bind. unfold wp, on_slots. rewrite Es, w_with_slots_id. cbn [fst snd].
  destruct con as [c|].
  - destruct (dt_slot _ _ Hd k c) as (cn & ep & Hc & He & Hf); [unfold st_conn; by rewrite Hk|].
    destruct (shutdown_slot_runs k c cn ep it w Hd Hk Hc He Hf) as (o & t & Erun & Et & Ot & Ct).
    destruct (closed_slot_down k c cn ep it o w Hd Hk Hc He Hf) as [Hd' Hfds].
    unfold on_slots in Erun. unfold mbind at 1, M_bind at 1. rewrite Erun.
    specialize (IH (S k) (closed_slot k c cn ep it o w) Hd'). cbn [Nat.add] in IH. rewrite Nat.add_succ_r in Hl |- *.
    eapply wp_mono; [apply IH; cbn; by rewrite length_insert|]. cbn beta. intros _ w' (Hd2 & Heng & Hlen & t2 & Et2 & Ot2 & Pt2).
    split; [done|]. split; [by rewrite Heng|]. split; [rewrite Hlen; cbn; by rewrite length_insert|]. exists (t ++ t2). rewrite Et2. cbn. rewrite Et, app_assoc.
    split; [done|]. rewrite opened_app, closed_app, Ot, Ot2, Ct. split; [done|]. by rewrite <- app_assoc, Pt2.
  - specialize (IH (S k) w). rewrite Nat.add_succ_r in Hl |- *. cbn [Nat.add] in IH.
    apply IH; [|done]. destruct Hd. split; try done. intros m Hm. destruct (decide (m = k)) as [->|Hne].
    + unfold st_conn. by rewrite Hk.
    + apply dt_before0. lia.
Qed.

(** Every slot was emptied: nothing is live. *)
Lemma down_to_end w : down_to (length (st_mgr (w_slots w))) w -> w_conns w = ∅ /\ open_fds w = [].
Proof using Type.
  intros Hd. assert (w_conns w = ∅) as E.
  { apply map_empty. intros c. destruct (w_conns w !! c) as [cn|] eqn:Hc; [|done].
    destruct (dt_live _ _ Hd c cn Hc) as [n Hn]. rewrite (dt_before _ _ Hd n) in Hn; [done|].
    unfold st_conn in Hn. destruct (st_mgr (w_slots w) !! n) eqn:Hs; [by eapply lookup_lt_Some|done]. }
  split; [done|]. unfold open_fds. by rewrite E.
Qed.
End Slots.


(** ** Shutting down *)

Section Shutdown.
Context {K : Type} `{Kernel K} `{LibC}.
Implicit Types w : world K.

(** The threads of a running container, in one of the states [st]. *)
Definition engine_ok (st : thread_state -> Prop)
    (e : bool * PollingThread * PollingThread * list Thread * nat * option (bool * Thread)) : Prop :=
  let '(shutdown, poll, back, threads, running, timer) := e in
  shutdown = false /\ pt_wf st poll /\ pt_wf st back /\ threads_in st running threads /\
  match timer with
  | Some (timer_shutdown, thd) => Thread_wf thd /\ st (th_state thd) /\ is_Some (th_impl thd)
  | None => True
  end.

(** The epoll descriptors. *)
Definition engine_fds w : list Z :=
  epoll_fds (pt_epoll (ct_poll_thread (w_ct w))) ++ epoll_fds (pt_epoll (ct_back_thread (w_ct w))).

Lemma quiet_Thread_Join t : is_Some (th_impl t) -> quiet (K := K) (Thread_Join t).
Proof using Type.
  intros [i Hi]. unfold Thread_Join. rewrite Hi. unfold Impl_Join. auto with quiet.
Qed.

Lemma quiet_Timer_Shutdown t : is_Some (th_impl (tm_thd t)) -> quiet (K := K) (Timer_Shutdown t).
Proof using Type.
  intros Hi. unfold Timer_Shutdown. destruct (tm_shutdown t); [apply quiet_ret|].
  apply quiet_bind; [by apply quiet_Thread_Join|]. intros thd. apply quiet_ret.
Qed.

Lemma spends_bind_slots {A B} (f : SlotTable -> outcome (A * SlotTable)) (g : A -> M (world K) B) a t w Q :
  f (w_slots w) = Ret (a, t) -> wspends (g a) (w_with_slots t w) Q -> wspends (on_slots f ≫= g) w Q.
Proof using Type. intros E Hg. unfold spends, wp, mbind, M_bind, on_slots in *. by rewrite E. Qed.

(** The threads are joined, and [Shutdown] goes on to the connections. *)
Lemma Shutdown_spends w :
  winv [] None w -> engine_ok alive_or_active (engine w) ->
  wspends Container_Shutdown w (fun _ w' o c => o = [] /\ c ++ engine_fds w' ≡ₚ engine_fds w ++ open_fds w /\
    w_conns w' = ∅ /\ ct_shutdown (w_ct w') = true /\ st_mgr (w_slots w') = [] /\ ct_mpscq (w_ct w') = [] /\
    pt_wf alive_or_active (ct_poll_thread (w_ct w')) /\ pt_wf alive_or_active (ct_back_thread (w_ct w'))).
Proof using Type.
  intros Hw (Esd & Hp & Hb & Hts & Htm). unfold Container_Shutdown. apply spends_bind_gets. unfold id. rewrite Esd.
  eapply spends_os_resources; [done|by apply shutdown_resources|].
  intros p o1 ? ? ? ? (-> & Hcl1 & -> & -> & Hj1 & Hs1).
  eapply spends_os_resources; [done|by apply shutdown_resources|].
  intros b o2 ? ? ? ? (-> & Hcl2 & -> & -> & Hj2 & Hs2).
  eapply (spends_bind _ _ _ _ _ (fun _ w' o c => o = [] /\ c = [] /\ exists o3, w' = w_with_os o3 w)).
  { destruct (ct_timer_thread (w_ct w)) as [t|]; [|apply spends_ret; split_and!; [done..|by exists o2]].
    destruct Htm as (_ & _ & Hi). eapply spends_os_quiet; [done|by apply quiet_Timer_Shutdown|].
    intros t' o3. apply spends_ret. split_and!; [done..|by exists o3]. }
  intros tm w' ? ? (-> & -> & o3 & ->).
  eapply spends_os_resources; [done|by apply join_threads_resources|].
  intros ts o4 ? ? ? ? (-> & -> & -> & ->).
  apply spends_bind_modify; [done|]. eapply spends_bind_slots; [reflexivity|].
  set (w5 := w_with_slots _ _). assert (down_to 0 w5) as Hd by (destruct (winv_down_to w Hw); by split).
  eapply (spends_bind _ _ _ _ _ (fun _ w' o c => o = [] /\ c ≡ₚ open_fds w /\ w_conns w' = ∅ /\ engine w' = engine w5)).
  { pose proof (shutdown_slots_spec (length (st_mgr (w_slots w))) 0 w5 Hd eq_refl) as Hsp.
    eapply wp_mono; [exact Hsp|]. cbn beta. intros _ w' (Hd' & He & Hl & t & Et & Ot & Pt).
    destruct (down_to_end w') as [Hc Hf]; [by rewrite Hl|]. exists t. split; [done|]. rewrite Hf, app_nil_r in Pt. done. }
  intros _ w6 op6 cl6 (-> & Hc & Hcn & He). eapply spends_bind_slots; [reflexivity|].
  apply spends_modify; [done|]. unfold engine in He. injection He as E1 E2 E3 E4 E5 E6.
  rewrite !app_nil_r. split; [done|]. cbn. rewrite E1, E2, E3. cbn.
  split_and!; [|done..|by unfold pt_wf; rewrite Hs1|by unfold pt_wf; rewrite Hs2].
  unfold engine_fds. cbn. rewrite E2, E3. cbn. rewrite <- Hcl1, <- Hcl2, Hc. solve_Permutation.
Qed.

(** The destructor of a container that was shut down closes the epoll descriptors it has
    left. *)
Lemma dtor_after_spends w :
  ct_shutdown (w_ct w) = true ->
  pt_wf alive_or_active (ct_poll_thread (w_ct w)) -> pt_wf alive_or_active (ct_back_thread (w_ct w)) ->
  wspends Container_dtor w (fun _ w' o c => o = [] /\ c ≡ₚ engine_fds w /\ exists o', w' = w_with_os o' w).
Proof using Type.
  intros Hsd Hp Hb. unfold Container_dtor.
  eapply (spends_bind _ _ _ _ _ (fun _ w' o c => o = [] /\ c = [] /\ w' = w)).
  { unfold Container_Shutdown. apply spends_bind_gets. unfold id. rewrite Hsd. by apply spends_ret. }
  intros _ w1 ? ? (-> & -> & ->). apply spends_bind_gets. unfold id.
  eapply spends_os_resources; [done|by apply dtor_resources|]. intros _ o2 ? ? ? ? (-> & -> & -> & ->).
  apply spends_os_last. eapply spends_os_resources; [done|by apply dtor_resources|].
  intros [] o3 ? ? ? ? (-> & -> & -> & ->). apply spends_ret. split; [done|]. split; [|by exists o3].
  unfold engine_fds. cbn. solve_Permutation.
Qed.

(** Destroying a container closes all there is. *)
Lemma destroy_spends w :
  winv [] None w -> engine_ok alive_or_active (engine w) ->
  wspends (DestroyContainer true) w (fun _ w' o c => o = [] /\ c ≡ₚ engine_fds w ++ open_fds w /\
    w_conns w' = ∅ /\ st_mgr (w_slots w') = [] /\ ct_mpscq (w_ct w') = []).
Proof using Type.
  intros Hw He. unfold DestroyContainer. eapply spends_bind; [by apply Shutdown_spends|].
  intros _ w1 op1 cl1 (-> & Hc & Hcn & Hsd & Hm & Hq & Hp & Hb).
  eapply spends_mono; [by apply dtor_after_spends|]. intros _ w2 op2 cl2 (-> & Hc2 & o' & ->).
  split; [done|]. split; [by rewrite Hc2|done].
Qed.
End Shutdown.

(** ** Setting up *)

Section Setup.
Context {K : Type} `{Kernel K} `{LibC} `{!KernelThreads} `{!KernelEpoll}.
Implicit Types w : world K.

Lemma Thread_new_quiet o :
  wp Thread_new o (fun '(t, ok) o' => exists tr, os_trace o' = os_trace o ++ tr /\ opened tr = [] /\ closed tr = [] /\
    (ok = true -> Thread_wf t /\ th_state t = kAlive /\ is_Some (th_impl t))).
Proof.
  unfold Thread_new, InternalThreadImpl_new, wp, call, mbind, M_bind.
  pose proof (create_nonzero (os_kernel o)) as Hnz. destruct (sys_call (os_kernel o) SysPthreadCreate) as [r k].
  cbn in *. destruct (Z.eqb_spec (r_ret r) 0) as [Hr|Hr]; exists [(SysPthreadCreate, r)]; split_and!; try done.
  intros _. split_and!; [|done|by eexists]. unfold Thread_wf. cbn. auto.
Qed.

Lemma Timer_Init_fds :
  fd_spec (K := K) (Timer_Init Timer_new) (fun '(e, t) o c => o = [] /\ c = [] /\
    (e = None -> Thread_wf (tm_thd t) /\ th_state (tm_thd t) = kAlive /\ is_Some (th_impl (tm_thd t)))).
Proof.
  intros o. unfold Timer_Init. cbn [tm_shutdown Timer_new negb]. apply wp_bind. eapply wp_mono; [apply Thread_new_quiet|].
  intros [t ok] o1 (tr & Et & Ot & Ct & Hok). destruct ok; apply wp_ret; exists tr; (split; [done|]);
    rewrite Ot, Ct; split_and!; try done. by intros _; apply Hok.
Qed.

(** A successful [Init] opened the epoll descriptors and made all the threads. *)
Lemma Init_spends option w :
  fresh_world option w -> option_ok option ->
  wspends Container_Init w (fun e w' o c => e = None -> o ≡ₚ c ++ engine_fds w' /\ engine_ok (eq kAlive) (engine w')).
Proof.
  intros (_ & _ & _ & Ect & _) (_ & _ & Ht & _). unfold Container_Init. apply spends_bind_gets. unfold id.
  rewrite Ect. cbn [ct_shutdown ct_option ContainerImpl_new negb ct_poll_thread ct_back_thread].
  set (n := i32 _). assert (0 <= n) as Hn.
  { unfold n, i32. destruct (Z.eqb_spec (op_recv_send_threads option / 2) 0); [done|].
    rewrite swrap_small by (Z.div_mod_to_equations; lia). Z.div_mod_to_equations; lia. }
  eapply spends_os_resources; [done|by apply dtor_resources|]. intros _ o1 ? ? ? ? (-> & -> & -> & ->).
  eapply spends_os_resources; [done|by apply init_resources|]. intros [e p] o2 op2 cl2 cr2 jo2 ([-> ->] & Hp & _).
  apply spends_bind_modify; [done|]. destruct e as [e|]; [by apply spends_ret|].
  eapply spends_os_resources; [done|by apply dtor_resources|]. intros _ o3 ? ? ? ? (-> & -> & -> & ->).
  eapply spends_os_resources; [done|by apply init_resources|]. intros [e b] o4 op4 cl4 cr4 jo4 ([-> ->] & Hb & _).
  apply spends_bind_modify; [done|]. destruct e as [e|]; [by apply spends_ret|].
  apply spends_bind_modify; [done|]. unfold Container_Init_rest.
  eapply (spends_bind _ _ _ _ _ (fun e w' o c => o = [] /\ c = [] /\ (e = None ->
    pt_epoll (ct_poll_thread (w_ct w')) = pt_epoll p /\ pt_epoll (ct_back_thread (w_ct w')) = pt_epoll b /\
    pt_wf (eq kAlive) (ct_poll_thread (w_ct w')) /\ pt_wf (eq kAlive) (ct_back_thread (w_ct w')) /\
    match ct_timer_thread (w_ct w') with
    | Some t => Thread_wf (tm_thd t) /\ kAlive = th_state (tm_thd t) /\ is_Some (th_impl (tm_thd t))
    | None => True
    end))).
  { destruct (op_heartbeat_handler option) as [i|]; [|apply spends_ret; split_and!; [done..|]; intros _; cbn; by rewrite Ect].
    destruct (0 <? i); [|apply spends_ret; split_and!; [done..|]; intros _; cbn; by rewrite Ect].
    eapply spends_os_fd; [done|apply Timer_Init_fds|]. intros [e t] o5 ? ? (-> & -> & Htm).
    apply spends_bind_modify; [done|]. apply spends_ret. split_and!; [done..|]. intros ->.
    destruct (Htm eq_refl) as (? & ? & ?). done. }
  intros e w5 ? ? (-> & -> & Hw5). destruct e as [e|]; [by apply spends_ret|].
  destruct (Hw5 eq_refl) as (Ep & Eb & Hp' & Hb' & Htm).
  eapply spends_os_resources; [done|apply create_threads_resources|].
  intros [ts running] o6 ? ? ? ? (Hin & -> & -> & -> & ->). apply spends_bind_modify; [done|].
  destruct (running =? 0)%nat; [by apply spends_ret|].
  eapply spends_bind_slots; [reflexivity|].
  eapply spends_os_quiet; [done|apply quiet_now|]. intros now o7.
  apply spends_bind_modify; [done|]. apply spends_ret. intros _. split.
  - unfold engine_fds. cbn. rewrite Ep, Eb, !app_nil_r. solve_Permutation.
  - split_and!; cbn; [done..|]. by destruct (ct_timer_thread (w_ct w5)).
Qed.

(** Everything but the threads and the process is as it was. *)
Lemma winv_engine h d w o sd mq running p b t :
  winv h d w -> winv h d (w_with_ct (ct_with_threads sd mq running p b t (w_ct w)) (w_with_os o w)).
Proof using Type. intros []. by split. Qed.

Lemma threads_in_weaken (P Q : thread_state -> Prop) n ts :
  (forall s, P s -> Q s) -> threads_in P n ts -> threads_in Q n ts.
Proof using Type.
  intros HPQ (Hl & Hf & Hr). split; [done|]. split; [|done]. eapply Forall_impl; [exact Hf|].
  cbn. intros t (? & ? & ?). auto.
Qed.

Lemma start_timer_quiet t o :
  Thread_wf (tm_thd t) -> kAlive = th_state (tm_thd t) -> is_Some (th_impl (tm_thd t)) ->
  wp (Timer_Start (K := K) t) o (fun t' o' => o' = o /\ Thread_wf (tm_thd t') /\ th_state (tm_thd t') = kActive /\
    is_Some (th_impl (tm_thd t'))).
Proof using Type.
  intros Hw Hs [i Hi]. unfold Timer_Start. apply wp_bind.
  unfold Thread_Start. rewrite Hi. apply wp_bind, wp_assert; [by apply bool_decide_eq_true_2|]. apply wp_ret, wp_ret.
  unfold Thread_wf in *. cbn. rewrite Hi in Hw. destruct Hw as [Hj _]. split_and!; auto.
Qed.

(** A part of the process that makes no call. *)
Lemma spends_os_still {A B} (m : M (os K) A) (f : A -> M (world K) B) w Q (R : A -> Prop) :
  wp m (w_os w) (fun a o' => o' = w_os w /\ R a) ->
  (forall a o', R a -> wspends (f a) (w_with_os o' w) Q) -> wspends (on_os m ≫= f) w Q.
Proof using Type.
  intros Hm Hf. eapply (spends_os_resources w_os w_with_os (fun _ _ => eq_refl) _ _ _ _ (fun a o c _ _ => R a /\ o = [] /\ c = [])).
  - eapply wp_mono; [exact Hm|]. intros a o' [-> HR]. exists []. by rewrite app_nil_r.
  - intros a o' ? ? ? ? (HR & -> & ->). by apply Hf.
Qed.

Lemma Start_spends w :
  winv [] None w -> engine_ok (eq kAlive) (engine w) ->
  wspends Container_Start w (fun _ w' o c => o = [] /\ c = [] /\ winv [] None w' /\
    engine_ok alive_or_active (engine w') /\ engine_fds w' = engine_fds w /\ open_fds w' = open_fds w).
Proof using Type.
  intros Hw (Esd & Hp & Hb & Hts & Htm). unfold Container_Start. apply spends_bind_gets. unfold id.
  assert (threads_in alive_or_active (ct_running_threads (w_ct w)) (ct_mq_threads (w_ct w))) as Hts'
    by (eapply threads_in_weaken; [|exact Hts]; auto).
  assert (forall t, (fun t => (tm_shutdown t, tm_thd t)) <$> ct_timer_thread (w_ct w) = Some t ->
    Thread_wf t.2 /\ kAlive = th_state t.2 /\ is_Some (th_impl t.2)) as Htm'.
  { intros [sd thd] E. by rewrite E in Htm. }
  eapply spends_os_resources; [done|by apply start_resources|].
  intros [e p] o1 ? ? ? ? (-> & -> & -> & -> & Hp' & Ep & _). apply spends_bind_modify; [done|].
  assert (match (fun t => (tm_shutdown t, tm_thd t)) <$> ct_timer_thread (w_ct w) with
    | Some (_, thd) => Thread_wf thd /\ alive_or_active (th_state thd) /\ is_Some (th_impl thd) | None => True end) as Htm2.
  { destruct (_ <$> _) as [[sd thd]|]; [|done]. destruct (Htm' (sd, thd) eq_refl) as (? & ? & ?). auto. }
  destruct e as [e|].
  { apply spends_ret. split_and!; [done|done|by apply (winv_engine _ _ w)| |unfold engine_fds; cbn; by rewrite Ep|done].
    split_and!; [done|done|by apply pt_wf_running|done|exact Htm2]. }
  eapply spends_os_resources; [done|by apply start_resources|].
  intros [e b] o2 ? ? ? ? (-> & -> & -> & -> & Hb' & Eb & _). apply spends_bind_modify; [done|].
  assert (forall o', winv [] None (w_with_ct (ct_with_threads (ct_shutdown (w_ct w)) (ct_mq_threads (w_ct w))
    (ct_running_threads (w_ct w)) p b (ct_timer_thread (w_ct w)) (w_ct w)) (w_with_os o' w))) as Hw2 by (intros o'; by apply winv_engine).
  destruct e as [e|].
  { apply spends_ret. split_and!; [done|done|apply (Hw2 o2)| |unfold engine_fds; cbn; by rewrite Ep, Eb|done].
    split_and!; [done|done|done|done|exact Htm2]. }
  unfold Container_Start_rest. apply spends_bind_gets. unfold id.
  match goal with |- context [start_threads (ct_running_threads (w_ct ?x))] =>
    change (ct_running_threads (w_ct x)) with (ct_running_threads (w_ct w));
    change (ct_mq_threads (w_ct x)) with (ct_mq_threads (w_ct w));
    change (ct_timer_thread (w_ct x)) with (ct_timer_thread (w_ct w))
  end.
  eapply spends_os_still; [by apply start_threads_spec|]. intros ts o3 (Hin & _).
  apply spends_bind_modify; [done|].
  assert (threads_in alive_or_active (ct_running_threads (w_ct w)) ts) as Hin'
    by (eapply threads_in_weaken; [|exact Hin]; auto).
  eapply (spends_bind _ _ _ _ _ (fun _ w' o c => o = [] /\ c = [] /\ winv [] None w' /\
    engine_ok alive_or_active (engine w') /\ engine_fds w' = engine_fds w /\ open_fds w' = open_fds w));
    [|intros _ w' ? ? (-> & -> & ?); by apply spends_ret].
  destruct (ct_timer_thread (w_ct w)) as [t|] eqn:Et.
  - destruct (Htm' _ eq_refl) as (Hwf & Hal & Hi).
    eapply spends_os_still; [by apply start_timer_quiet|]. intros t' o4 (Hwf' & Hst' & Hi').
    apply spends_modify; [done|]. split_and!; [done|done|by apply (winv_engine _ _ w)| |unfold engine_fds; cbn; by rewrite Ep, Eb|done].
    split_and!; cbn; [done..|]. by rewrite Hst'; auto.
  - apply spends_ret. split_and!; [done|done|by apply (winv_engine _ _ w)| |unfold engine_fds; cbn; by rewrite Ep, Eb|done].
    split_and!; cbn; [done..|]. by rewrite Et.
Qed.
End Setup.

(** ** From construction to destruction *)

Section Life.
Context {K : Type} `{Kernel K} `{!KernelIO K} `{LibC} `{!KernelThreads} `{!KernelEpoll}.
Variable OnCheckPackageLength : EndpointImpl -> list cell -> Z.
Variable recv_fuel : nat.

Lemma spends_inv {A} (m : M (world K) A) w a w' Q :
  spends (trace_of w_os) m w Q -> m w = Ret (a, w') ->
  exists t, os_trace (w_os w') = os_trace (w_os w) ++ t /\ Q a w' (opened t) (closed t).
Proof using Type. intros Hm E. unfold spends, wp in Hm. rewrite E in Hm. exact Hm. Qed.

(** C6. A container's whole life closes everything, once.  After a successful [Init] and a
    [Start] that succeeded or failed, and whatever operations follow, destroying the
    container returns (no assertion of the thread layer fails, no slot loop runs on); no
    connection, slot or queued message is left; and over the whole life the descriptors
    closed are exactly those the container opened (its epoll instances) and those it was
    handed with its endpoints, each as often. *)
Theorem container_life (option : ContainerOption) (w0 w1 w2 w3 : world K) (started : raptor_error)
    (ops : list container_op) (given : list Z) :
  (forall ep, header_fits (OnCheckPackageLength ep)) -> (forall fd k, short_within recv_fuel fd k) ->
  fresh_world option w0 -> option_ok option ->
  Container_Init w0 = Ret (None, w1) ->
  Container_Start w1 = Ret (started, w2) ->
  container_run OnCheckPackageLength recv_fuel ops w2 given w3 ->
  exists w4 t, DestroyContainer true w3 = Ret (tt, w4) /\
    os_trace (w_os w4) = os_trace (w_os w0) ++ t /\ opened t ++ given ≡ₚ closed t /\
    w_conns w4 = ∅ /\ st_mgr (w_slots w4) = [] /\ ct_mpscq (w_ct w4) = [].
Proof.
  intros Hfits Hshort Hfresh Hopt Hinit Hstart Hrun.
  pose proof (Container_Init_spec option w0 Hfresh Hopt) as Hi. unfold wp in Hi. rewrite Hinit in Hi.
  destruct (Hi eq_refl) as [Hw1 Hc1].
  destruct (spends_inv _ _ _ _ _ (Init_spends option w0 Hfresh Hopt) Hinit) as (t1 & E1 & Hopen).
  destruct (Hopen eq_refl) as [P1 He1].
  destruct (spends_inv _ _ _ _ _ (Start_spends w1 Hw1 He1) Hstart) as (t2 & E2 & O2 & C2 & Hw2 & He2 & F2 & P2).
  destruct (container_run_spec _ _ Hfits Hshort _ _ _ _ Hrun Hw2) as [Hw3 [(t3 & E3 & O3 & P3) _ _]].
  pose proof (container_run_engine _ _ _ _ _ _ Hrun) as Hen. rewrite <- Hen in He2.
  pose proof (destroy_spends w3 Hw3 He2) as Hd. unfold spends, wp in Hd.
  destruct (DestroyContainer true w3) as [[[] w4]| | |] eqn:Hdestroy; [|done..].
  destruct Hd as (t4 & E4 & O4 & P4 & Hend).
  exists w4, (t1 ++ t2 ++ t3 ++ t4). split; [done|]. unfold trace_of in *.
  split; [by rewrite E4, E3, E2, E1, !app_assoc|]. split; [|done].
  rewrite !opened_app, !closed_app, O2, O3, O4, C2, P4, P1.
  assert (engine_fds w3 = engine_fds w1) as -> by (rewrite <- F2; unfold engine in Hen; unfold engine_fds; congruence).
  rewrite P2 in P3. unfold open_fds in P3 at 2. rewrite Hc1 in P3. cbn in P3. rewrite <- P3.
  rewrite !app_nil_r. solve_Permutation.
Qed.
End Life.

(** ** A concrete life *)

#[local] Existing Instance server_kernel.
#[local] Existing Instance server_kernel_io.
#[local] Existing Instance server_kernel_threads.
#[local] Existing Instance server_kernel_epoll.
#[local] Existing Instance quiet_libc.

(** The small container after its [Start]. *)
Definition running_world : world (list byte) :=
  match Container_Start started_world with Ret (None, w) => w | _ => started_world end.

Lemma container_life_witness :
  exists given w3, exists w4 t, DestroyContainer true w3 = Ret (tt, w4) /\
    os_trace (w_os w4) = os_trace (w_os small_world) ++ t /\ opened t ++ given ≡ₚ closed t /\
    w_conns w4 = ∅ /\ st_mgr (w_slots w4) = [] /\ ct_mpscq (w_ct w4) = [].
Proof.
  eexists _, _. eapply (container_life length_byte 1 small_option small_world started_world running_world _ None example_run).
  - apply length_byte_fits.
  - apply server_kernel_short.
  - done.
  - by vm_compute.
  - vm_compute. reflexivity.
  - vm_compute. reflexivity.
  - unfold example_run. repeat (eapply crun_cons; [example_ok|vm_compute; reflexivity|]). apply crun_nil.
Defined.
