(* ===== verification/ConnectionRace.v ===== *)
(** * Methods of one connection at the same time (src/linux/connection.cc)

    [Connection::Shutdown] tests and uses [_endpoint->_fd] without a lock, and so does
    [OnRecv]; the container calls them from its polling threads, from the timeout check, and
    from whoever closes an endpoint.  Here their statements are steps, taken in any order,
    on the one descriptor they share, in a process where others open sockets meanwhile. *)

From S2P Require Import Prelude.
From S2P Require Import Endpoint.

Local Open Scope Z_scope.

(** ** The shared state

    Sockets are named by the order in which they were opened; the connection's is 0.  A
    descriptor that was closed can be given to another socket. *)
Record shared_conn : Type := {
  sc_fd : Z;                        (* [_endpoint->_fd] *)
  sc_table : gmap Z nat;            (* the open descriptors of the process *)
  sc_next : nat;
  sc_rcv_mutex : option nat;        (* the thread that holds it *)
  sc_snd_mutex : option nat;
  sc_closed : list nat;             (* the sockets closed, in order *)
  sc_notified : nat;                (* calls of [OnClosed] *)
  sc_delivered : list nat;          (* the sockets the connection read from *)
}.

Definition sc_with_fd (fd : Z) (s : shared_conn) : shared_conn :=
  {| sc_fd := fd; sc_table := sc_table s; sc_next := sc_next s; sc_rcv_mutex := sc_rcv_mutex s;
     sc_snd_mutex := sc_snd_mutex s; sc_closed := sc_closed s; sc_notified := sc_notified s; sc_delivered := sc_delivered s |}.
Definition sc_with_table (t : gmap Z nat) (n : nat) (closed : list nat) (s : shared_conn) : shared_conn :=
  {| sc_fd := sc_fd s; sc_table := t; sc_next := n; sc_rcv_mutex := sc_rcv_mutex s;
     sc_snd_mutex := sc_snd_mutex s; sc_closed := closed; sc_notified := sc_notified s; sc_delivered := sc_delivered s |}.
Definition sc_with_mutexes (r m : option nat) (s : shared_conn) : shared_conn :=
  {| sc_fd := sc_fd s; sc_table := sc_table s; sc_next := sc_next s; sc_rcv_mutex := r;
     sc_snd_mutex := m; sc_closed := sc_closed s; sc_notified := sc_notified s; sc_delivered := sc_delivered s |}.
Definition sc_with_log (n : nat) (d : list nat) (s : shared_conn) : shared_conn :=
  {| sc_fd := sc_fd s; sc_table := sc_table s; sc_next := sc_next s; sc_rcv_mutex := sc_rcv_mutex s;
     sc_snd_mutex := sc_snd_mutex s; sc_closed := sc_closed s; sc_notified := n; sc_delivered := d |}.

(** ** The statements *)

Inductive action : Type :=
  | CheckOnline                     (* if (!_endpoint->IsOnline()) return; *)
  | LoadFd                          (* the argument (int)_endpoint->_fd *)
  | ShutdownSocket                  (* raptor_set_socket_shutdown(fd) *)
  | SetInvalid                      (* _endpoint->_fd = uint64_t(~0) *)
  | NotifyClosed                    (* _service->OnClosed(_endpoint, ev) *)
  | LockRcv | UnlockRcv             (* _rcv_mutex, around the buffer it guards *)
  | LockSnd | UnlockSnd
  | RecvSocket.                     (* ::recv(fd, ...), its bytes given to the service *)

#[export] Instance action_eq_dec : EqDecision action.
Proof. solve_decision. Defined.

(** [Shutdown]; the statements between that touch nothing of this state are left out. *)
Definition Shutdown_code (notify : bool) : list action :=
  [CheckOnline; LoadFd; ShutdownSocket; SetInvalid] ++ (if notify then [NotifyClosed] else []) ++
  [LockRcv; UnlockRcv; LockSnd; UnlockSnd].

(** [OnRecv], with [rounds] rounds of its loop. *)
Definition OnRecv_code (rounds : nat) : list action :=
  [LockRcv] ++ mjoin (replicate rounds [LoadFd; RecvSocket]) ++ [UnlockRcv].

(** A thread: the statements it has left, and the argument it has evaluated. *)
Record thread_at : Type := {
  ta_code : list action;
  ta_arg : Z;
}.

Definition online (fd : Z) : bool := negb (fd =? -1) && negb (fd =? 0).

Lemma online_IsOnline (ep : EndpointImpl) (fd : Z) :
  -1 <= fd < 2 ^ 31 -> ei_fd ep = u64 fd -> IsOnline ep = online fd.
Proof.
  intros Hfd E. unfold IsOnline, online, InvalidFd. rewrite E. destruct (Z.eq_dec fd (-1)) as [->|Hn]; [done|].
  unfold u64. rewrite wrap_small by lia. rewrite (proj2 (Z.eqb_neq fd (-1))) by done.
  destruct (Z.eqb_spec fd 0) as [->|H0]; [done|]. cbn. rewrite (proj2 (Z.eqb_neq _ _)), (proj2 (Z.ltb_lt _ _)); [done|lia|].
  vm_compute. lia.
Qed.

(** [raptor_set_socket_shutdown]: nothing for a negative number; [close] fails for a number
    that is not open. *)
Definition close_socket (fd : Z) (s : shared_conn) : shared_conn :=
  if fd <? 0 then s else
  match sc_table s !! fd with
  | Some sock => sc_with_table (base.delete fd (sc_table s)) (sc_next s) (sc_closed s ++ [sock]) s
  | None => s
  end.

Definition recv_socket (fd : Z) (s : shared_conn) : shared_conn :=
  match sc_table s !! fd with
  | Some sock => sc_with_log (sc_notified s) (sc_delivered s ++ [sock]) s
  | None => s
  end.

Definition lock (i : nat) (m : option nat) : option (option nat) :=
  match m with None => Some (Some i) | Some _ => None end.

(** Thread [i] runs statement [a]: [None] when it waits for a mutex. *)
Definition action_step (i : nat) (a : action) (k : list action) (t : thread_at) (s : shared_conn) : option (thread_at * shared_conn) :=
  let next := {| ta_code := k; ta_arg := ta_arg t |} in
  match a with
  | CheckOnline => Some ({| ta_code := if online (sc_fd s) then k else []; ta_arg := ta_arg t |}, s)
  | LoadFd => Some ({| ta_code := k; ta_arg := sc_fd s |}, s)
  | ShutdownSocket => Some (next, close_socket (ta_arg t) s)
  | SetInvalid => Some (next, sc_with_fd (-1) s)
  | NotifyClosed => Some (next, sc_with_log (S (sc_notified s)) (sc_delivered s) s)
  | LockRcv => m ← lock i (sc_rcv_mutex s); Some (next, sc_with_mutexes m (sc_snd_mutex s) s)
  | UnlockRcv => Some (next, sc_with_mutexes None (sc_snd_mutex s) s)
  | LockSnd => m ← lock i (sc_snd_mutex s); Some (next, sc_with_mutexes (sc_rcv_mutex s) m s)
  | UnlockSnd => Some (next, sc_with_mutexes (sc_rcv_mutex s) None s)
  | RecvSocket => Some (next, recv_socket (ta_arg t) s)
  end.

Record conn_threads : Type := {
  cx_shared : shared_conn;
  cx_threads : list thread_at;
}.

(** A thread runs its next statement; or somebody else's socket is opened at a descriptor
    that is free. *)
Inductive race_choice : Type :=
  | Run (i : nat)
  | Open (fd : Z).

Definition race_step (c : race_choice) (x : conn_threads) : option conn_threads :=
  match c with
  | Run i =>
      t ← cx_threads x !! i;
      match ta_code t with
      | [] => None
      | a :: k =>
          '(t, s) ← action_step i a k t (cx_shared x);
          Some {| cx_shared := s; cx_threads := <[i := t]> (cx_threads x) |}
      end
  | Open fd =>
      let s := cx_shared x in
      if (fd <? 0) || bool_decide (is_Some (sc_table s !! fd)) then None
      else Some {| cx_shared := sc_with_table (<[fd := sc_next s]> (sc_table s)) (S (sc_next s)) (sc_closed s) s;
                   cx_threads := cx_threads x |}
  end.

Fixpoint race_run (cs : list race_choice) (x : conn_threads) : option conn_threads :=
  match cs with
  | [] => Some x
  | c :: cs => x ← race_step c x; race_run cs x
  end.

(** A connection on descriptor [fd], and threads about to run these methods. *)
Definition race_start (fd : Z) (codes : list (list action)) : conn_threads :=
  {| cx_shared := {| sc_fd := fd; sc_table := {[ fd := 0%nat ]}; sc_next := 1; sc_rcv_mutex := None; sc_snd_mutex := None;
                     sc_closed := []; sc_notified := 0; sc_delivered := [] |};
     cx_threads := (fun k => {| ta_code := k; ta_arg := 0 |}) <$> codes |}.

(** ** Calls of [Shutdown] that do not overlap

    Where a thread is in [Shutdown]. *)
Inductive stage : Type :=
  | BeforeCheck | BeforeLoad | BeforeClose | BeforeMark | BeforeNotify | Elsewhere.

Definition stage_of (k : list action) : stage :=
  match k with
  | CheckOnline :: _ => BeforeCheck
  | LoadFd :: ShutdownSocket :: _ => BeforeLoad
  | ShutdownSocket :: _ => BeforeClose
  | SetInvalid :: _ => BeforeMark
  | NotifyClosed :: _ => BeforeNotify
  | _ => Elsewhere
  end.

(** Between the test of the descriptor and its invalidation. *)
Definition inside (t : thread_at) : bool :=
  match stage_of (ta_code t) with BeforeLoad | BeforeClose | BeforeMark => true | _ => false end.

(** No thread passes the test while another is between its test and the invalidation. *)
Definition overlaps (c : race_choice) (x : conn_threads) : bool :=
  match c with
  | Run i =>
      match cx_threads x !! i with
      | Some t => match ta_code t with CheckOnline :: _ => existsb inside (cx_threads x) | _ => false end
      | None => false
      end
  | Open _ => false
  end.

Fixpoint serial (cs : list race_choice) (x : conn_threads) : bool :=
  match cs with
  | [] => true
  | c :: cs => negb (overlaps c x) && match race_step c x with Some x => serial cs x | None => false end
  end.

(** What is left of a method. *)
Definition cleanup : list action := [LockRcv; UnlockRcv; LockSnd; UnlockSnd].

Definition harmless (a : action) : bool :=
  match a with CheckOnline | ShutdownSocket | SetInvalid | NotifyClosed => false | _ => true end.

Inductive shape : list action -> Prop :=
  | sh_check b : shape (CheckOnline :: LoadFd :: ShutdownSocket :: SetInvalid :: (if b : bool then [NotifyClosed] else []) ++ cleanup)
  | sh_load b : shape (LoadFd :: ShutdownSocket :: SetInvalid :: (if b : bool then [NotifyClosed] else []) ++ cleanup)
  | sh_close b : shape (ShutdownSocket :: SetInvalid :: (if b : bool then [NotifyClosed] else []) ++ cleanup)
  | sh_mark b : shape (SetInvalid :: (if b : bool then [NotifyClosed] else []) ++ cleanup)
  | sh_notify : shape (NotifyClosed :: cleanup)
  | sh_other k : Forall (fun a => harmless a = true) k -> shape k.

Lemma stage_harmless k : Forall (fun a => harmless a = true) k -> stage_of k = Elsewhere.
Proof.
  intros Hk. destruct k as [|a [|b k]]; [done|..]; apply Forall_cons in Hk as [Ha Hk]; destruct a; try done.
  apply Forall_cons in Hk as [Hb _]. by destruct b.
Qed.

(** One statement further. *)
Lemma shape_step a k : shape (a :: k) ->
  shape k /\
  match stage_of (a :: k) with
  | BeforeCheck => a = CheckOnline /\ stage_of k = BeforeLoad
  | BeforeLoad => a = LoadFd /\ stage_of k = BeforeClose
  | BeforeClose => a = ShutdownSocket /\ stage_of k = BeforeMark
  | BeforeMark => a = SetInvalid /\ (stage_of k = BeforeNotify \/ stage_of k = Elsewhere)
  | BeforeNotify => a = NotifyClosed /\ stage_of k = Elsewhere
  | Elsewhere => harmless a = true /\ stage_of k = Elsewhere
  end.
Proof.
  intros Hs. inversion Hs as [b E|b E|b E|b E|E|k' Hk E]; subst; cbn.
  - split; [apply sh_load|done].
  - split; [apply sh_close|done].
  - split; [apply sh_mark|done].
  - destruct b; cbn; (split; [|auto]); [apply sh_notify|apply sh_other; by repeat constructor].
  - split; [apply sh_other; by repeat constructor|done].
  - pose proof (stage_harmless _ Hk) as E. apply Forall_cons in Hk as [Ha Hk].
    change (stage_of (a :: k)) with (stage_of (a :: k)) in E. cbn in E. rewrite E.
    split; [by apply sh_other|]. split; [done|by apply stage_harmless].
Qed.

Lemma Shutdown_shape b : shape (Shutdown_code b).
Proof. apply (sh_check b). Qed.

Lemma OnRecv_shape n : shape (OnRecv_code n).
Proof.
  apply sh_other. unfold OnRecv_code. apply Forall_app. split; [by repeat constructor|]. apply Forall_app.
  split; [|by repeat constructor]. induction n as [|n IH]; [done|]. cbn. by repeat constructor.
Qed.

(** ** One call at a time closes the socket once *)

Section Serial.
Variable fd0 : Z.
Hypothesis Hfd0 : 0 < fd0.

Definition stage_at (t : thread_at) : stage := stage_of (ta_code t).

(** The socket is open; or a thread has closed it and not yet said so; or all is said,
    but perhaps for the call of [OnClosed]. *)
Inductive phase (x : conn_threads) : Prop :=
  | ph_open :
      sc_fd (cx_shared x) = fd0 -> sc_table (cx_shared x) !! fd0 = Some 0%nat -> sc_closed (cx_shared x) = [] ->
      sc_notified (cx_shared x) = 0%nat ->
      (forall i t, cx_threads x !! i = Some t ->
        stage_at t <> BeforeMark /\ stage_at t <> BeforeNotify /\ (stage_at t = BeforeClose -> ta_arg t = fd0)) ->
      (forall i j t u, cx_threads x !! i = Some t -> cx_threads x !! j = Some u -> inside t = true -> inside u = true -> i = j) ->
      phase x
  | ph_closing i t :
      cx_threads x !! i = Some t -> stage_at t = BeforeMark ->
      (forall j u, cx_threads x !! j = Some u -> j <> i -> inside u = false /\ stage_at u <> BeforeNotify) ->
      sc_closed (cx_shared x) = [0%nat] -> sc_notified (cx_shared x) = 0%nat -> phase x
  | ph_closed :
      sc_fd (cx_shared x) = -1 -> sc_closed (cx_shared x) = [0%nat] ->
      (forall i t, cx_threads x !! i = Some t -> inside t = false) ->
      (sc_notified (cx_shared x) = 0%nat /\
        (forall i j t u, cx_threads x !! i = Some t -> cx_threads x !! j = Some u ->
          stage_at t = BeforeNotify -> stage_at u = BeforeNotify -> i = j) \/
       sc_notified (cx_shared x) = 1%nat /\ forall i t, cx_threads x !! i = Some t -> stage_at t <> BeforeNotify) ->
      phase x.

Record race_inv (x : conn_threads) : Prop := {
  ri_shape i t : cx_threads x !! i = Some t -> shape (ta_code t);
  ri_others sock : (0 < sock < sc_next (cx_shared x))%nat -> exists fd, sc_table (cx_shared x) !! fd = Some sock;
  ri_phase : phase x;
}.

Lemma inside_stage t : inside t = true <-> stage_at t = BeforeLoad \/ stage_at t = BeforeClose \/ stage_at t = BeforeMark.
Proof using Type. clear Hfd0. unfold inside, stage_at. destruct (stage_of (ta_code t)); naive_solver. Qed.

Lemma not_inside_stage t : inside t = false <-> stage_at t <> BeforeLoad /\ stage_at t <> BeforeClose /\ stage_at t <> BeforeMark.
Proof using Type. clear Hfd0. unfold inside, stage_at. destruct (stage_of (ta_code t)); naive_solver. Qed.

(** The statements outside the test, the close, the invalidation and the report. *)
Lemma harmless_step i a k t s t' s' :
  harmless a = true -> action_step i a k t s = Some (t', s') ->
  ta_code t' = k /\ sc_fd s' = sc_fd s /\ sc_table s' = sc_table s /\ sc_next s' = sc_next s /\
  sc_closed s' = sc_closed s /\ sc_notified s' = sc_notified s.
Proof using Type.
  clear Hfd0. intros Ha. destruct a; try done; cbn.
  - by intros [= <- <-].
  - destruct (lock i (sc_rcv_mutex s)); [|done]. by intros [= <- <-].
  - by intros [= <- <-].
  - destruct (lock i (sc_snd_mutex s)); [|done]. by intros [= <- <-].
  - by intros [= <- <-].
  - intros [= <- <-]. unfold recv_socket. by destruct (sc_table s !! ta_arg t).
Qed.

(** Thread [i] among the others. *)
Lemma at_insert {A} (i : nat) (t' t : A) (j : nat) u (l : list A) :
  l !! i = Some t -> <[i := t']> l !! j = Some u -> (j = i /\ u = t') \/ (j <> i /\ l !! j = Some u).
Proof using Type.
  clear Hfd0. intros Hi. apply lookup_lt_Some in Hi. destruct (decide (j = i)) as [->|Hne].
  - rewrite list_lookup_insert_eq by done. intros [= <-]. by left.
  - rewrite list_lookup_insert_ne by done. auto.
Qed.

Definition moved (i : nat) (t' : thread_at) (s' : shared_conn) (x : conn_threads) : conn_threads :=
  {| cx_shared := s'; cx_threads := <[i := t']> (cx_threads x) |}.

(** A thread moves outside of [Shutdown]'s critical statements. *)
Lemma phase_elsewhere i t t' s' x :
  phase x -> cx_threads x !! i = Some t -> inside t = false -> stage_at t <> BeforeNotify ->
  inside t' = false -> stage_at t' <> BeforeNotify ->
  sc_fd s' = sc_fd (cx_shared x) -> sc_table s' = sc_table (cx_shared x) -> sc_closed s' = sc_closed (cx_shared x) ->
  sc_notified s' = sc_notified (cx_shared x) -> phase (moved i t' s' x).
Proof using Type.
  intros Hp Hi Ht Htn Ht' Htn' Efd Etb Ecl Eno. pose proof Ht' as Hn'. apply not_inside_stage in Hn' as (H1 & H2 & H3).
  destruct Hp as [P1 P2 P3 P4 P5 P6|i0 t0 P1 P2 P3 P4 P5|P1 P2 P3 P4].
  - apply ph_open; cbn; rewrite ?Efd, ?Etb, ?Ecl, ?Eno; try done.
    + intros j u Hu. destruct (at_insert _ _ _ _ _ _ Hi Hu) as [[-> ->]|[Hne Hu']]; [done|by apply (P5 j)].
    + intros j k u v Hu Hv Iu Iv.
      destruct (at_insert _ _ _ _ _ _ Hi Hu) as [[-> ->]|[_ Hu']]; [congruence|].
      destruct (at_insert _ _ _ _ _ _ Hi Hv) as [[-> ->]|[_ Hv']]; [congruence|]. by apply (P6 j k u v).
  - assert (i0 <> i) as Hne.
    { intros ->. rewrite Hi in P1. injection P1 as <-. apply not_inside_stage in Ht. tauto. }
    apply (ph_closing _ i0 t0); cbn; rewrite ?Ecl, ?Eno; try done; [by rewrite list_lookup_insert_ne by done|].
    intros j u Hu Hj. destruct (at_insert _ _ _ _ _ _ Hi Hu) as [[-> ->]|[_ Hu']]; [done|by apply (P3 j)].
  - apply ph_closed; cbn; rewrite ?Efd, ?Ecl, ?Eno; try done.
    + intros j u Hu. destruct (at_insert _ _ _ _ _ _ Hi Hu) as [[-> ->]|[_ Hu']]; [done|by apply (P3 j)].
    + destruct P4 as [[Hz P4]|[Hz P4]]; [left|right]; (split; [done|]).
      * intros j k u v Hu Hv Iu Iv.
        destruct (at_insert _ _ _ _ _ _ Hi Hu) as [[-> ->]|[_ Hu']]; [done|].
        destruct (at_insert _ _ _ _ _ _ Hi Hv) as [[-> ->]|[_ Hv']]; [done|]. by apply (P4 j k u v).
      * intros j u Hu. destruct (at_insert _ _ _ _ _ _ Hi Hu) as [[-> ->]|[_ Hu']]; [done|by apply (P4 j)].
Qed.
(** A thread in [Shutdown]'s critical statements takes the next one. *)
Lemma phase_inside i a k t t' s' x :
  phase x -> cx_threads x !! i = Some t -> ta_code t = a :: k -> shape (a :: k) -> inside t = true ->
  action_step i a k t (cx_shared x) = Some (t', s') -> phase (moved i t' s' x).
Proof using Hfd0.
  intros Hp Hi Ec Hs Ht Hstep. pose proof (shape_step a k Hs) as [_ Hnext]. rewrite <- Ec in Hnext. fold (stage_at t) in Hnext.
  apply inside_stage in Ht.
  assert (forall u st, stage_at t = st -> u = t -> stage_at u = st) as Hsame by (by intros u st ? ->).
  destruct Hp as [P1 P2 P3 P4 P5 P6|i0 t0 P1 P2 P3 P4 P5|P1 P2 P3 P4].
  - destruct (P5 i t Hi) as (N1 & N2 & Harg).
    assert (inside t = true) as Hin by by apply inside_stage.
    assert (forall j u, cx_threads x !! j = Some u -> j <> i -> inside u = false) as Hout.
    { intros j u Hu Hj. destruct (inside u) eqn:E; [|done]. destruct Hj. by eapply P6. }
    destruct Ht as [E|[E|E]]; [| |done]; rewrite E in Hnext; destruct Hnext as [-> Ek]; cbn in Hstep; injection Hstep as <- <-.
    + apply ph_open; cbn; try done.
      * intros j u Hu. destruct (at_insert _ _ _ _ _ _ Hi Hu) as [[-> ->]|[_ Hu']]; [|by apply (P5 j)].
        unfold stage_at. cbn. rewrite Ek. done.
      * intros j l u v Hu Hv Iu Iv.
        destruct (at_insert _ _ _ _ _ _ Hi Hu) as [[-> ->]|[Hj Hu']], (at_insert _ _ _ _ _ _ Hi Hv) as [[-> ->]|[Hl Hv']]; try done.
        -- rewrite (Hout l v Hv' Hl) in Iv. done.
        -- rewrite (Hout j u Hu' Hj) in Iu. done.
        -- by apply (P6 j l u v).
    + rewrite (Harg E). unfold close_socket. rewrite (proj2 (Z.ltb_ge _ _)), P2, P3 by lia.
      apply (ph_closing _ i {| ta_code := k; ta_arg := fd0 |}); cbn; [|done| |done|done].
      * rewrite <- (Harg E), list_lookup_insert_eq by (by eapply lookup_lt_Some). done.
      * intros j u Hu Hj. destruct (at_insert _ _ _ _ _ _ Hi Hu) as [[-> ->]|[_ Hu']]; [done|].
        split; [by eapply Hout|]. by apply (P5 j).
  - assert (i = i0) as ->.
    { destruct (decide (i = i0)) as [|Hne]; [done|]. destruct (P3 i t Hi Hne) as [Hf _]. apply not_inside_stage in Hf. tauto. }
    rewrite Hi in P1. injection P1 as <-. rewrite P2 in Hnext. destruct Hnext as [-> Ek]. cbn in Hstep. injection Hstep as <- <-.
    assert (inside {| ta_code := k; ta_arg := ta_arg t |} = false) as Hin.
    { apply not_inside_stage. unfold stage_at. cbn. destruct Ek as [->| ->]; done. }
    apply ph_closed; cbn; [done|done| |].
    + intros j u Hu. destruct (at_insert _ _ _ _ _ _ Hi Hu) as [[-> ->]|[Hj Hu']]; [done|by apply (P3 j)].
    + left. split; [done|]. intros j l u v Hu Hv Iu Iv.
      destruct (at_insert _ _ _ _ _ _ Hi Hu) as [[-> ->]|[Hj Hu']], (at_insert _ _ _ _ _ _ Hi Hv) as [[-> ->]|[Hl Hv']]; try done.
      * by destruct (P3 l v Hv' Hl).
      * by destruct (P3 j u Hu' Hj).
      * by destruct (P3 j u Hu' Hj).
  - specialize (P3 i t Hi). apply not_inside_stage in P3. tauto.
Qed.

(** The call of [OnClosed] that is owed. *)
Lemma phase_notify i a k t t' s' x :
  phase x -> cx_threads x !! i = Some t -> ta_code t = a :: k -> shape (a :: k) -> stage_at t = BeforeNotify ->
  action_step i a k t (cx_shared x) = Some (t', s') -> phase (moved i t' s' x).
Proof using Type.
  clear Hfd0. intros Hp Hi Ec Hs Ht Hstep. pose proof (shape_step a k Hs) as [_ Hnext]. rewrite <- Ec in Hnext. fold (stage_at t) in Hnext.
  rewrite Ht in Hnext. destruct Hnext as [-> Ek]. cbn in Hstep. injection Hstep as <- <-.
  destruct Hp as [P1 P2 P3 P4 P5 P6|i0 t0 P1 P2 P3 P4 P5|P1 P2 P3 P4].
  - by destruct (P5 i t Hi) as (_ & ? & _).
  - destruct (decide (i = i0)) as [->|Hne]; [|by destruct (P3 i t Hi Hne)]. rewrite Hi in P1. injection P1 as <-. congruence.
  - destruct P4 as [[Hz P4]|[Hz P4]]; [|by destruct (P4 i t Hi)].
    apply ph_closed; cbn; [done|done| |].
    + intros j u Hu. destruct (at_insert _ _ _ _ _ _ Hi Hu) as [[-> ->]|[Hj Hu']]; [|by apply (P3 j)].
      apply not_inside_stage. unfold stage_at. cbn. by rewrite Ek.
    + right. split; [by rewrite Hz|]. intros j u Hu. destruct (at_insert _ _ _ _ _ _ Hi Hu) as [[-> ->]|[Hj Hu']].
      * unfold stage_at. cbn. by rewrite Ek.
      * intros Hb. apply Hj. by apply (P4 j i u t).
Qed.
(** The test, while no thread is inside. *)
Lemma phase_check i k t t' s' x :
  phase x -> cx_threads x !! i = Some t -> ta_code t = CheckOnline :: k -> stage_of k = BeforeLoad ->
  existsb inside (cx_threads x) = false ->
  action_step i CheckOnline k t (cx_shared x) = Some (t', s') -> phase (moved i t' s' x).
Proof using Hfd0.
  intros Hp Hi Ec Ek Hnone Hstep.
  assert (forall j u, cx_threads x !! j = Some u -> inside u = false) as Hout.
  { intros j u Hu. destruct (inside u) eqn:E; [|done]. rewrite <- Hnone. symmetry. apply existsb_exists. exists u.
    split; [|done]. apply list_elem_of_In. by eapply list_elem_of_lookup_2. }
  assert (stage_at t = BeforeCheck) as Ht by (unfold stage_at; by rewrite Ec).
  assert (inside t = false) as Hin by by eapply Hout.
  assert (stage_at t <> BeforeNotify) as Hnot by (by rewrite Ht).
  cbn in Hstep. injection Hstep as <- <-. destruct Hp as [P1 P2 P3 P4 P5 P6|i0 t0 P1 P2 P3 P4 P5|P1 P2 P3 P4].
  - rewrite P1. unfold online. rewrite (proj2 (Z.eqb_neq fd0 (-1))), (proj2 (Z.eqb_neq fd0 0)) by lia. cbn [negb andb].
    apply ph_open; cbn; try done.
    + intros j u Hu. destruct (at_insert _ _ _ _ _ _ Hi Hu) as [[-> ->]|[_ Hu']]; [|by apply (P5 j)].
      unfold stage_at. cbn. by rewrite Ek.
    + intros j l u v Hu Hv Iu Iv.
      destruct (at_insert _ _ _ _ _ _ Hi Hu) as [[-> ->]|[_ Hu']], (at_insert _ _ _ _ _ _ Hi Hv) as [[-> ->]|[_ Hv']]; try done.
      * by rewrite (Hout _ _ Hv') in Iv.
      * by rewrite (Hout _ _ Hu') in Iu.
      * by rewrite (Hout _ _ Hv') in Iv.
  - specialize (Hout i0 t0 P1). apply not_inside_stage in Hout. tauto.
  - assert (phase x) as Hp by (by apply ph_closed). rewrite P1. cbn [online negb andb Z.eqb].
    by eapply phase_elsewhere.
Qed.

Lemma race_step_inv c x x' :
  race_inv x -> overlaps c x = false -> race_step c x = Some x' -> race_inv x'.
Proof using Hfd0.
  intros [Hsh Hoth Hp] Hov Hstep. destruct c as [i|fd]; cbn in Hstep, Hov.
  - destruct (cx_threads x !! i) as [t|] eqn:Hi; [|done]. cbn in Hstep.
    destruct (ta_code t) as [|a k] eqn:Ec; [done|].
    destruct (action_step i a k t (cx_shared x)) as [[t' s']|] eqn:Ea; [|done]. cbn in Hstep. injection Hstep as <-.
    pose proof (Hsh i t Hi) as Hs. rewrite Ec in Hs. destruct (shape_step a k Hs) as [Hk Hnext].
    assert (phase (moved i t' s' x) /\ (ta_code t' = k \/ ta_code t' = []) /\ sc_next s' = sc_next (cx_shared x) /\
      forall sock fd, (0 < sock)%nat -> sc_table (cx_shared x) !! fd = Some sock -> sc_table s' !! fd = Some sock) as (Hp' & Ek & En & Ht).
    { pose proof Hnext as Hn. rewrite <- Ec in Hn. fold (stage_at t) in Hn. destruct (stage_at t) eqn:Est.
      - destruct Hn as [-> Ekst]. split; [by eapply phase_check|]. cbn in Ea. injection Ea as <- <-. cbn.
        split; [|done]. destruct (online _); auto.
      - split; [eapply phase_inside; try done; apply inside_stage; auto|]. destruct Hn as [-> _]. cbn in Ea. injection Ea as <- <-. auto.
      - split; [eapply phase_inside; try done; apply inside_stage; auto|]. destruct Hn as [-> _]. cbn in Ea. injection Ea as <- <-.
        split; [auto|]. destruct Hp as [P1 P2 P3 P4 P5 P6|i0 t0 P1 P2 P3 P4 P5|P1 P2 P3 P4].
        + destruct (P5 i t Hi) as (_ & _ & Harg). rewrite (Harg Est). unfold close_socket.
          rewrite (proj2 (Z.ltb_ge _ _)), P2 by lia. cbn. split; [done|]. intros sock fd Hsock Hfd.
          rewrite lookup_delete_ne; [done|]. intros <-. rewrite P2 in Hfd. injection Hfd as <-. lia.
        + destruct (decide (i = i0)) as [->|Hne]; [rewrite Hi in P1; injection P1 as <-; congruence|].
          destruct (P3 i t Hi Hne) as [Hf _]. apply not_inside_stage in Hf. tauto.
        + specialize (P3 i t Hi). apply not_inside_stage in P3. tauto.
      - split; [eapply phase_inside; try done; apply inside_stage; auto|]. destruct Hn as [-> _]. cbn in Ea. injection Ea as <- <-. auto.
      - split; [by eapply phase_notify|]. destruct Hn as [-> _]. cbn in Ea. injection Ea as <- <-. auto.
      - destruct Hn as [Ha Ekst]. destruct (harmless_step _ _ _ _ _ _ _ Ha Ea) as (E1 & E2 & E3 & E4 & E5 & E6).
        split; [|split; [auto|split; [done|by rewrite E3]]].
        eapply phase_elsewhere; try done; try (by rewrite Est); try (apply not_inside_stage; unfold stage_at; rewrite ?E1, ?Ekst; by rewrite ?Est).
        + apply not_inside_stage. by rewrite Est.
        + unfold stage_at. by rewrite E1, Ekst. }
    split; [| |done].
    + intros j u Hu. destruct (at_insert _ _ _ _ _ _ Hi Hu) as [[-> ->]|[_ Hu']]; [|by eapply Hsh].
      destruct Ek as [->| ->]; [done|]. by apply sh_other.
    + cbn. rewrite En. intros sock Hsock. destruct (Hoth sock Hsock) as [fd Hfd]. exists fd. apply Ht; [lia|done].
  - destruct (_ || _) eqn:Eo; [done|]. injection Hstep as <-. apply orb_false_iff in Eo as [_ Efree].
    apply bool_decide_eq_false in Efree. assert (sc_table (cx_shared x) !! fd = None) as Hnone by (by apply eq_None_not_Some).
    split; [done| |].
    + cbn. intros sock Hsock. destruct (decide (sock = sc_next (cx_shared x))) as [->|Hne].
      * exists fd. apply lookup_insert_eq.
      * destruct (Hoth sock) as [fd' Hfd']; [lia|]. exists fd'. rewrite lookup_insert_ne; [done|]. intros ->. congruence.
    + destruct Hp as [P1 P2 P3 P4 P5 P6|i0 t0 P1 P2 P3 P4 P5|P1 P2 P3 P4].
      * apply ph_open; cbn; try done. rewrite lookup_insert_ne; [done|]. intros ->. congruence.
      * by apply (ph_closing _ i0 t0).
      * by apply ph_closed.
Qed.
End Serial.

(** The threads that use the connection run these methods of it. *)
Definition is_method (k : list action) : Prop := (exists notify, k = Shutdown_code notify) \/ exists rounds, k = OnRecv_code rounds.

Lemma race_start_inv fd0 codes : 0 < fd0 -> Forall is_method codes -> race_inv fd0 (race_start fd0 codes).
Proof.
  intros Hfd Hm. assert (forall i t, cx_threads (race_start fd0 codes) !! i = Some t -> is_method (ta_code t)) as Hc.
  { intros i t Ht. cbn in Ht. rewrite list_lookup_fmap in Ht. destruct (codes !! i) as [k|] eqn:Ek; [|done].
    injection Ht as <-. cbn. by eapply Forall_lookup_1. }
  assert (forall i t, cx_threads (race_start fd0 codes) !! i = Some t ->
    stage_at t = BeforeCheck \/ stage_at t = Elsewhere) as Hst.
  { intros i t Ht. destruct (Hc i t Ht) as [[b E]|[n E]]; unfold stage_at; rewrite E; [by left|]. right. by destruct n. }
  split.
  - intros i t Ht. destruct (Hc i t Ht) as [[b ->]|[n ->]]; [apply Shutdown_shape|apply OnRecv_shape].
  - cbn. intros sock Hs. lia.
  - apply ph_open; cbn; [done|apply lookup_singleton_eq|done|done| |].
    + intros i t Ht. destruct (Hst i t Ht) as [->| ->]; done.
    + intros i j t u Ht _ Hi. apply inside_stage in Hi. destruct (Hst i t Ht) as [E|E]; rewrite E in Hi; naive_solver.
Qed.

Lemma race_run_inv fd0 cs : 0 < fd0 -> forall x x',
  race_inv fd0 x -> serial cs x = true -> race_run cs x = Some x' -> race_inv fd0 x'.
Proof.
  intros Hfd. induction cs as [|c cs IH]; intros x x' Hx Hs Hr; [by injection Hr as <-|].
  cbn in Hs, Hr. apply andb_prop in Hs as [Hov Hs]. apply negb_true_iff in Hov.
  destruct (race_step c x) as [y|] eqn:E; [|done]. cbn in Hr. eapply IH; [|done|done]. by eapply race_step_inv.
Qed.

(** Two threads have tested the descriptor before one of them closes it; its number is
    given to a new socket, which the other one closes. *)
Definition overlapping (fd : Z) : list race_choice :=
  [Run 0; Run 1; Run 0; Run 1; Run 0; Open fd; Run 1] ++ replicate 6 (Run 0) ++ replicate 6 (Run 1).

(** A thread in [OnRecv] has evaluated the descriptor before another closes it. *)
Definition late_recv (fd : Z) : list race_choice :=
  [Run 0; Run 0; Run 1; Run 1; Run 1; Run 1; Open fd; Run 0; Run 0].

(** C21. [Shutdown] of one connection must not run in two threads at once.  As long as no thread
    tests the descriptor while another is between the test and the invalidation, the
    socket is closed once at most and reported once at most, and no other socket of the
    process is closed, whatever the threads and the order of their statements.  Otherwise
    the socket can be reported closed twice, and a socket of somebody else, opened in
    between, closed.  And even then a thread that is in [OnRecv] can read the bytes of
    somebody else's socket. *)
Theorem shutdown_overlap (fd : Z) (codes : list (list action)) (cs : list race_choice) (x : conn_threads) :
  0 < fd -> Forall is_method codes ->
  race_run cs (race_start fd codes) = Some x -> serial cs (race_start fd codes) = true ->
  ((sc_closed (cx_shared x) = [] \/ sc_closed (cx_shared x) = [0%nat]) /\ (sc_notified (cx_shared x) <= 1)%nat /\
   forall sock, (0 < sock < sc_next (cx_shared x))%nat -> exists n, sc_table (cx_shared x) !! n = Some sock) /\
  (exists y, race_run (overlapping 5) (race_start 5 [Shutdown_code true; Shutdown_code true]) = Some y /\
    Forall (fun t => ta_code t = []) (cx_threads y) /\
    sc_closed (cx_shared y) = [0; 1]%nat /\ sc_notified (cx_shared y) = 2%nat) /\
  (exists y, race_run (late_recv 5) (race_start 5 [OnRecv_code 1; Shutdown_code true]) = Some y /\
    serial (late_recv 5) (race_start 5 [OnRecv_code 1; Shutdown_code true]) = true /\
    sc_delivered (cx_shared y) = [1%nat]).
Proof.
  intros Hfd Hm Hr Hs. split; [|split].
  - destruct (race_run_inv fd cs Hfd _ x (race_start_inv fd codes Hfd Hm) Hs Hr) as [_ Hoth Hp].
    destruct Hp as [P1 P2 P3 P4 _ _|i t _ _ _ P4 P5|_ P2 _ P4]; (split_and!; [auto| |exact Hoth]); [lia..|].
    destruct P4 as [[-> _]|[-> _]]; lia.
  - eexists. split; [vm_compute; reflexivity|]. split; [by repeat constructor|done].
  - eexists. split; [vm_compute; reflexivity|]. done.
Qed.

(** Two threads close the connection one after the other while a third reads and sockets
    are opened. *)
Definition serial_schedule : list race_choice :=
  [Run 2; Run 2; Open 6; Run 0; Run 0; Run 0; Run 0; Open 5; Run 1; Run 2; Run 2] ++ replicate 5 (Run 0).

Definition three_threads : list (list action) := [Shutdown_code true; Shutdown_code false; OnRecv_code 1].

Lemma shutdown_overlap_witness : exists x, race_run serial_schedule (race_start 5 three_threads) = Some x /\
  ((sc_closed (cx_shared x) = [] \/ sc_closed (cx_shared x) = [0%nat]) /\ (sc_notified (cx_shared x) <= 1)%nat /\
   forall sock, (0 < sock < sc_next (cx_shared x))%nat -> exists n, sc_table (cx_shared x) !! n = Some sock) /\
  (exists y, race_run (overlapping 5) (race_start 5 [Shutdown_code true; Shutdown_code true]) = Some y /\
    Forall (fun t => ta_code t = []) (cx_threads y) /\
    sc_closed (cx_shared y) = [0; 1]%nat /\ sc_notified (cx_shared y) = 2%nat) /\
  (exists y, race_run (late_recv 5) (race_start 5 [OnRecv_code 1; Shutdown_code true]) = Some y /\
    serial (late_recv 5) (race_start 5 [OnRecv_code 1; Shutdown_code true]) = true /\
    sc_delivered (cx_shared y) = [1%nat]).
Proof.
  assert (exists x, race_run serial_schedule (race_start 5 three_threads) = Some x) as [x Hx] by (eexists; vm_compute; reflexivity).
  exists x. split; [exact Hx|]. apply (shutdown_overlap 5 three_threads serial_schedule x); [lia| |exact Hx|vm_compute; reflexivity].
  unfold three_threads. repeat apply Forall_cons_2; [left; by exists true|left; by exists false|right; by exists 1%nat|apply Forall_nil_2].
Defined.
