(* ===== verification/Races.v ===== *)
(** * Stale ids and races (src/common/container_impl.cc)

    A connection id names a slot, not a connection: nothing in it tells one occupant of a
    slot from the next.  This file shows what that does to an endpoint that outlives its
    connection and to two handlers of one connection, and what the missing lock around
    [_cv.Signal] does to the message threads. *)

From S2P Require Import Prelude.
From S2P Require Import Cid.
From S2P Require Import OS.
From S2P Require Import Status.
From S2P Require Import Slice.
From S2P Require Import SliceBuffer.
From S2P Require Import SocketSetting.
From S2P Require Import SockAddr.
From S2P Require Import Endpoint.
From S2P Require Import Epoll.
From S2P Require Import Connection.
From S2P Require Import PollingThread.
From S2P Require Import SlotTable.
From S2P Require Import Container.
From S2P Require Import ContainerSafety.

Local Open Scope Z_scope.

Section Stale.
Context {K : Type} `{Kernel K} `{LibC}.
Implicit Types w : world K.

(** Queueing a message on an online connection. *)
Lemma on_conn_send c cn ep s w (Q : bool -> world K -> Prop) :
  w_conns w !! c = Some cn -> w_eps w !! cn_endpoint cn = Some ep -> holds_fd ep ->
  (forall o, Q true (w_with_ct (w_ct w) (w_with_eps (w_eps w) (w_with_conns
     (<[c := set_snd (AddSlice s (cn_snd_buffer cn)) cn]> (w_conns w)) (w_held w) (w_with_os o w))))) ->
  wp (on_conn c (Connection_SendMsg s)) w Q.
Proof.
  intros Hc He Hfd HQ. destruct (holds_fd_spec ep Hfd) as (Hon & _). unfold wp, on_conn. rewrite Hc, He.
  unfold Connection_SendMsg, mbind, M_bind, gets. cbn. rewrite Hon. cbn. unfold sys, zoom. cbn.
  unfold Poll_Modify, Epoll_modify, Epoll_ctl, call_ret, mbind, M_bind, call. cbn.
  destruct (sys_call _ _) as [r k]. cbn. rewrite (insert_id (w_eps w)) by done. apply HQ.
Qed.

(** A message sent on an endpoint goes to the connection in the slot its id names. *)
Lemma Endpoint_SendMsg_appends (w : world K) (e1 : nat) (obj1 : EndpointImpl) (n c : nat) (cn : Connection) (s : Slice) :
  winv [] None w -> w_eps w !! e1 = Some obj1 -> ei_attached obj1 = true ->
  CheckConnectionId (ei_connection_id obj1) (w_ct w) = Some (Z.of_nat n) ->
  st_conn (w_slots w) n = Some c -> w_conns w !! c = Some cn ->
  wp (Endpoint_SendMsg e1 s) w (fun r w' => r = true /\
    w_conns w' !! c = Some (set_snd (AddSlice s (cn_snd_buffer cn)) cn)).
Proof.
  intros Hw He Ha Hcheck Hslot Hc. destruct (wi_ep _ _ _ Hw c cn Hc) as (ep & Hep & _ & Hfd).
  unfold Endpoint_SendMsg. apply wp_bind, wp_gets, wp_bind, wp_of_option. exists obj1. split; [done|]. rewrite Ha.
  unfold Container_SendMsg. apply wp_bind, wp_gets. unfold id. rewrite Hcheck. apply wp_bind.
  assert (n < length (st_mgr (w_slots w)))%nat as Hlt.
  { unfold st_conn in Hslot. destruct (st_mgr (w_slots w) !! n) eqn:E; [|done]. by eapply lookup_lt_Some. }
  eapply wp_mono; [by eapply GetConnection_spec|]. intros r w1 [Er ->]. rewrite Hslot in Er. subst r. cbn.
  apply wp_bind. eapply on_conn_send; [done|done|done|]. intros o. apply wp_bind.
  unfold release. apply wp_bind, wp_modify. cbn. rewrite (wi_held _ _ _ Hw).
  assert (remove_one c [c] = []) as -> by (unfold remove_one; cbn; by rewrite decide_True by done).
  unfold drop_connection. apply wp_bind, wp_gets. unfold id. cbn.
  assert (in_slots c (w_slots w) = true) as Hin by (apply in_slots_spec; eauto).
  unfold w_slots in *. cbn. rewrite Hin, orb_true_r. apply wp_ret, wp_ret. cbn. split; [done|]. by rewrite lookup_insert_eq.
Qed.

(** C20. A message sent on an endpoint whose connection is gone goes to the connection that
    took its slot.  Whenever the id an endpoint still carries names the slot of another
    endpoint's connection, [SendMsg] on the first reports success and appends the message
    to the send buffer of the second: it reaches another peer. *)
Theorem stale_endpoint_sends_to_new_peer (w : world K) (e1 : nat) (obj1 : EndpointImpl) (n c : nat) (cn : Connection) (s : Slice) :
  winv [] None w -> w_eps w !! e1 = Some obj1 -> ei_attached obj1 = true ->
  CheckConnectionId (ei_connection_id obj1) (w_ct w) = Some (Z.of_nat n) ->
  st_conn (w_slots w) n = Some c -> w_conns w !! c = Some cn -> cn_endpoint cn <> e1 ->
  exists w' cn', Endpoint_SendMsg e1 s w = Ret (true, w') /\ w_conns w' !! c = Some cn' /\
    cn_endpoint cn' = cn_endpoint cn /\
    sb_bytes (cn_snd_buffer cn') = sb_bytes (cn_snd_buffer cn) ++ Slice_bytes s.
Proof.
  intros Hw He Ha Hcheck Hslot Hc _. pose proof (Endpoint_SendMsg_appends w e1 obj1 n c cn s Hw He Ha Hcheck Hslot Hc) as Hwp.
  unfold wp in Hwp. destruct (Endpoint_SendMsg e1 s w) as [[r w']| | |]; [|done..].
  destruct Hwp as [-> Hcn]. exists w', (set_snd (AddSlice s (cn_snd_buffer cn)) cn).
  split; [done|]. split; [done|]. split; [done|]. cbn [set_snd cn_snd_buffer]. by rewrite AddSlice_bytes.
Qed.

(** Two handlers of one connection, and a new one between them.  [DeleteConnection] is
    given an index: when the slot already holds another connection, which no running call
    holds, it destroys that one: its descriptor is closed and its slot freed, and no close
    message is queued for it. *)
Theorem stale_delete_closes_new_connection (w : world K) (index : Z) (c' : nat) (cn : Connection) (ep : EndpointImpl) (t' : SlotTable) :
  st_delete index (w_slots w) = Ret (Some c', t') -> in_slots c' t' = false -> (c' ∉ w_held w) ->
  w_conns w !! c' = Some cn -> w_eps w !! cn_endpoint cn = Some ep -> holds_fd ep ->
  exists w' t, DeleteConnection index w = Ret (tt, w') /\
    os_trace (w_os w') = os_trace (w_os w) ++ t /\ opened t = [] /\ closed t = [fd_int ep] /\
    w_slots w' = t' /\ w_conns w' = base.delete c' (w_conns w) /\ ct_mpscq (w_ct w') = ct_mpscq (w_ct w).
Proof.
  intros Hd Hin Hheld Hc He Hfd.
  set (s := {| cs_os := w_os w; cs_ep := ep; cs_cn := cn; cs_out := [] |}).
  pose proof (Connection_Shutdown_online false Event_default s Hfd) as Hsh. unfold wp in Hsh.
  unfold DeleteConnection, mbind, M_bind at 1, on_slots. rewrite Hd. unfold drop_connection, mbind, M_bind, gets, id.
  cbn [w_held w_with_slots w_with_ct]. rewrite (bool_decide_eq_false_2 _ Hheld).
  change (w_slots (w_with_slots t' w)) with t'. rewrite Hin. cbn [orb]. unfold on_conn.
  change (w_conns (w_with_slots t' w)) with (w_conns w). change (w_eps (w_with_slots t' w)) with (w_eps w).
  rewrite Hc, He. change (w_os (w_with_slots t' w)) with (w_os w). fold s. unfold Connection_dtor.
  destruct (Connection_Shutdown false Event_default s) as [[[] s']| | |]; [|done..].
  destruct Hsh as (t & Et & Ot & Ct & _ & Eout & _). cbn in Eout. eexists _, t. split; [reflexivity|]. cbn.
  rewrite Eout. cbn. split; [done|]. split; [done|]. split; [done|]. split; [done|]. split; [|done].
  apply delete_insert_eq.
Qed.
End Stale.

(** ** The message threads and their condition variable

    [OnDataReceived] and its like push, add to [_count] and signal, without taking [_mutex];
    [MessageQueueThread] reads [_count] and waits under it.  One producer, which queues one
    message, and one consumer; [Signal] wakes a thread that waits, and is nothing when none
    does. *)

Inductive producer_at : Type :=
  | PPush
  | PAdd
  | PSignal
  | PDone.

Inductive consumer_at : Type :=
  | CLoad
  | CWait
  | CWaiting
  | CPop
  | CDispatched.

Record cv_state : Type := {
  cv_queue : nat;
  cv_count : nat;
  cv_prod : producer_at;
  cv_cons : consumer_at;
}.

Definition cv_start : cv_state := {| cv_queue := 0; cv_count := 0; cv_prod := PPush; cv_cons := CLoad |}.

Inductive cv_step : cv_state -> cv_state -> Prop :=
  | step_push q n c :
      cv_step {| cv_queue := q; cv_count := n; cv_prod := PPush; cv_cons := c |}
              {| cv_queue := S q; cv_count := n; cv_prod := PAdd; cv_cons := c |}
  | step_add q n c :
      cv_step {| cv_queue := q; cv_count := n; cv_prod := PAdd; cv_cons := c |}
              {| cv_queue := q; cv_count := S n; cv_prod := PSignal; cv_cons := c |}
  | step_signal q n c :
      cv_step {| cv_queue := q; cv_count := n; cv_prod := PSignal; cv_cons := c |}
              {| cv_queue := q; cv_count := n; cv_prod := PDone;
                 cv_cons := match c with CWaiting => CLoad | _ => c end |}
  | step_load_zero q p :
      cv_step {| cv_queue := q; cv_count := 0; cv_prod := p; cv_cons := CLoad |}
              {| cv_queue := q; cv_count := 0; cv_prod := p; cv_cons := CWait |}
  | step_load_some q n p :
      cv_step {| cv_queue := q; cv_count := S n; cv_prod := p; cv_cons := CLoad |}
              {| cv_queue := q; cv_count := S n; cv_prod := p; cv_cons := CPop |}
  | step_wait q n p :
      cv_step {| cv_queue := q; cv_count := n; cv_prod := p; cv_cons := CWait |}
              {| cv_queue := q; cv_count := n; cv_prod := p; cv_cons := CWaiting |}
  | step_pop q n p :
      cv_step {| cv_queue := S q; cv_count := S n; cv_prod := p; cv_cons := CPop |}
              {| cv_queue := q; cv_count := n; cv_prod := p; cv_cons := CDispatched |}
  | step_again q n p :
      cv_step {| cv_queue := q; cv_count := n; cv_prod := p; cv_cons := CDispatched |}
              {| cv_queue := q; cv_count := n; cv_prod := p; cv_cons := CLoad |}.

(** C38. A wakeup can be lost.  From the start, the threads can reach a state where the
    producer is done, its message is in the queue and counted, the consumer waits, and no
    step is left: the message stays until something else is queued.  (It happens when the
    producer signals after the consumer read [_count] and before it waits.) *)
Theorem lost_wakeup :
  exists s, rtc cv_step cv_start s /\ cv_prod s = PDone /\ cv_queue s = 1%nat /\ cv_count s = 1%nat /\
    cv_cons s = CWaiting /\ forall s', ~ cv_step s s'.
Proof.
  exists {| cv_queue := 1; cv_count := 1; cv_prod := PDone; cv_cons := CWaiting |}. split.
  - eapply rtc_l; [apply step_load_zero|]. eapply rtc_l; [apply step_push|]. eapply rtc_l; [apply step_add|].
    eapply rtc_l; [apply step_signal|]. cbn. eapply rtc_l; [apply step_wait|]. apply rtc_refl.
  - do 4 (split; [done|]). intros s' Hs. inversion Hs.
Qed.

(** ** The races on a container of one slot *)

#[local] Existing Instance server_kernel.
#[local] Existing Instance quiet_libc.
#[local] Existing Instance server_kernel_io.
#[local] Existing Instance server_kernel_threads.
#[local] Existing Instance server_kernel_epoll.

(** Endpoint 1 attached, closed; endpoint 2 attached: it takes slot 0 after slot 1 was
    given too. *)
Definition reused_run : list container_op :=
  [OpEndpoint 1 (example_endpoint 5); OpEndpoint 2 (example_endpoint 6); OpEndpoint 3 (example_endpoint 7);
   OpAttach 1 false; OpAttach 2 false; OpClose 1 false; OpAttach 3 false].

Fixpoint after (ops : list container_op) (w : world (list byte)) : world (list byte) :=
  match ops with
  | [] => w
  | op :: ops => match run_container_op length_byte 1 op w with Ret (_, w) => after ops w | _ => w end
  end.

Definition reused_world : world (list byte) := after reused_run started_world.

Lemma started_winv : winv [] None started_world.
Proof.
  assert (Container_Init small_world = Ret (None, started_world)) as E by (vm_compute; reflexivity).
  assert (fresh_world small_option small_world) as Hf by done.
  assert (option_ok small_option) as Ho by (by vm_compute).
  exact (proj1 (wp_Ret Container_Init small_world None started_world _ E (Container_Init_spec small_option small_world Hf Ho) eq_refl)).
Qed.

Fixpoint run_ok (ops : list container_op) (w : world (list byte)) : Prop :=
  match ops with
  | [] => True
  | op :: ops => container_op_ok op w /\ exists g w', run_container_op length_byte 1 op w = Ret (g, w') /\ run_ok ops w'
  end.

Lemma after_winv ops : forall w, winv [] None w -> run_ok ops w -> winv [] None (after ops w).
Proof.
  induction ops as [|op ops IH]; intros w Hw Hok; [done|]. cbn [after run_ok] in *. destruct Hok as (Hop & g & w' & E & Hok).
  pose proof (run_container_op_spec length_byte 1 length_byte_fits server_kernel_short op w Hw Hop) as Hsp.
  rewrite E. apply IH; [|done]. exact (proj1 (wp_Ret _ _ _ _ _ E Hsp)).
Qed.

Lemma reused_winv : winv [] None reused_world.
Proof.
  apply after_winv; [apply started_winv|]. unfold reused_run.
  repeat (split; [example_ok|]; eexists _, _; split; [vm_compute; reflexivity|]). exact I.
Qed.

Definition endpoint_of (e : nat) (w : world (list byte)) : EndpointImpl := default (example_endpoint 0) (w_eps w !! e).
Definition connection_of (c : nat) (w : world (list byte)) : Connection := default (Connection_new 0 0) (w_conns w !! c).

(** Endpoint 1 was closed; what is sent on it goes to the peer of endpoint 3. *)
Lemma stale_endpoint_sends_to_new_peer_witness :
  exists w' cn', Endpoint_SendMsg 1 (Slice_ctor (Some <$> str "secret")) reused_world = Ret (true, w') /\
    w_conns w' !! 2%nat = Some cn' /\ cn_endpoint cn' = cn_endpoint (connection_of 2 reused_world) /\
    sb_bytes (cn_snd_buffer cn') = sb_bytes (cn_snd_buffer (connection_of 2 reused_world)) ++
      Slice_bytes (Slice_ctor (Some <$> str "secret")).
Proof.
  apply (stale_endpoint_sends_to_new_peer reused_world 1 (endpoint_of 1 reused_world) 0 2 (connection_of 2 reused_world)).
  - apply reused_winv.
  - vm_compute. reflexivity.
  - vm_compute. reflexivity.
  - vm_compute. reflexivity.
  - vm_compute. reflexivity.
  - vm_compute. reflexivity.
  - vm_compute. discriminate.
Defined.

(** Two threads handle an error of connection 0; one finishes and endpoint 2 is attached
    before the other goes on. *)
Definition race_prefix : M (world (list byte)) unit :=
  let err := MakeStatusFromStaticString (str "peer reset") in
  _ ← run_container_op length_byte 1 (OpEndpoint 1 (example_endpoint 5));
  _ ← run_container_op length_byte 1 (OpEndpoint 2 (example_endpoint 6));
  _ ← run_container_op length_byte 1 (OpAttach 1 false);
  c1 ← GetConnection 0;
  c2 ← GetConnection 0;
  _ ← match c1 with Some c => _ ← close_and_delete c 0 err; release c | None => undef end;
  _ ← run_container_op length_byte 1 (OpAttach 2 false);
  match c2 with Some c => on_conn c (Connection_Shutdown true (Event_new kSocketError err)) | None => undef end.

Definition race_world : world (list byte) :=
  match race_prefix started_world with Ret (_, w) => w | _ => started_world end.

Definition table_after : SlotTable :=
  match st_delete 0 (w_slots race_world) with Ret (_, t) => t | _ => SlotTable_empty end.

Lemma stale_delete_closes_new_connection_witness :
  exists w' t, DeleteConnection 0 race_world = Ret (tt, w') /\
    os_trace (w_os w') = os_trace (w_os race_world) ++ t /\ opened t = [] /\ closed t = [6] /\
    w_slots w' = table_after /\ w_conns w' = base.delete 1%nat (w_conns race_world) /\
    ct_mpscq (w_ct w') = ct_mpscq (w_ct race_world).
Proof.
  apply (stale_delete_closes_new_connection race_world 0 1 (connection_of 1 race_world) (endpoint_of 2 race_world) table_after).
  - vm_compute. reflexivity.
  - vm_compute. reflexivity.
  - apply (bool_decide_eq_false_1 _). vm_compute. reflexivity.
  - vm_compute. reflexivity.
  - vm_compute. reflexivity.
  - vm_compute. split; reflexivity.
Defined.
