(* ===== verification/TestServer.v ===== *)
(** * A server program (example/tcp_server_test.cc)

    An acceptor and a container in one process: the listener hands every descriptor it
    accepts to the program's [OnAccept], which attaches it to the container, whose
    messages the program answers.  A state of the program is a listener (TcpListener.v)
    on an environment that holds the container's world (Container.v); both run on the
    same process.  The program answers through the container, and gives it no
    [ProtocolHandler].  What only goes to the log is left out. *)

From S2P Require Import Prelude.
From S2P Require Import Cid.
From S2P Require Import Slice.
From S2P Require Import SockAddr.
From S2P Require Import Status.
From S2P Require Import Property.
From S2P Require Import OS.
From S2P Require Import SocketSetting.
From S2P Require Import Resolve.
From S2P Require Import Endpoint.
From S2P Require Import Epoll.
From S2P Require Import Connection.
From S2P Require Import Time.
From S2P Require Import Thread.
From S2P Require Import PollingThread.
From S2P Require Import Ledger.
From S2P Require Import Timer.
From S2P Require Import TcpListener.
From S2P Require Import SlotTable.
From S2P Require Import Container.
From S2P Require Import ContainerSafety.
From S2P Require Import Surface.
From S2P Require Import ContainerLife.

Local Open Scope Z_scope.

(** ** The program's state *)

(** A program's environment that has a container in it. *)
Class HasContainer (E K : Type) : Type := {
  env_world : E -> world K;
  env_with_world : world K -> E -> E;
}.
#[export] Hint Mode HasContainer + - : typeclass_instances.

Definition on_world {E K} `{HasContainer E K} {A} (m : M (world K) A) : M E A := zoom env_world env_with_world m.

(** The container's world, the static variables of [OnHeartbeat], and a record of the
    endpoints that the container refused. *)
Record server_env (K : Type) : Type := {
  se_world : world K;
  se_current : Z;
  se_i : Z;
  se_refused : list EndpointImpl;
}.
Arguments Build_server_env {K} _ _ _ _.
Arguments se_world {K} _.
Arguments se_current {K} _.
Arguments se_i {K} _.
Arguments se_refused {K} _.

Section Env.
Context {K : Type}.

Definition se_with_world (w : world K) (e : server_env K) : server_env K :=
  {| se_world := w; se_current := se_current e; se_i := se_i e; se_refused := se_refused e |}.
Definition se_with_statics (current i : Z) (e : server_env K) : server_env K :=
  {| se_world := se_world e; se_current := current; se_i := i; se_refused := se_refused e |}.
Definition se_refuse (obj : EndpointImpl) (e : server_env K) : server_env K :=
  {| se_world := se_world e; se_current := se_current e; se_i := se_i e; se_refused := se_refused e ++ [obj] |}.

#[export] Instance server_in_process : InProcess (server_env K) K := {
  env_os e := w_os (se_world e);
  env_with_os o e := se_with_world (w_with_os o (se_world e)) e;
  env_os_with o e := eq_refl;
}.

#[export] Instance server_container : HasContainer (server_env K) K :=
  { env_world := se_world; env_with_world := se_with_world }.
End Env.

(** ** The handlers *)

Section Handlers.
Context {K : Type} `{Kernel K} `{LibC}.

(** The listener's shared pointer becomes an endpoint of the container's world. *)
Definition new_endpoint (obj : EndpointImpl) : M (world K) nat :=
  w ← gets id;
  let ep := fresh (dom (w_eps w)) in
  _ ← modify (fun w => w_with_eps (<[ep := obj]> (w_eps w)) w);
  mret ep.

(** [container->AttachEndpoint(ep);]: the result is not looked at. *)
#[export] Instance server_OnAccept : AcceptorHandler (server_env K) := fun obj settings =>
  let settings := Property_set_list
    [PropertyEntry_int "SocketRecvTimeoutMs" 5000; PropertyEntry_int "SocketSendTimeoutMs" 5000] settings in
  ep ← on_world (new_endpoint obj);
  e ← on_world (AttachEndpoint ep false);
  _ ← modify (match e with Some _ => se_refuse obj | None => id end);
  w ← gets se_world;
  obj ← of_option (w_eps w !! ep);
  mret (obj, settings).

Definition server_OnMessage (ep : nat) (msg : Slice) : M (server_env K) Z :=
  let s := (Some <$> str "Reply:") ++ Slice_ToString msg in
  _ ← on_world (Handle_SendSlice ep (Slice_ctor s));
  mret 0.

(** [i++] overflows at the end of [int]. *)
Definition server_OnHeartbeat (ep : nat) : M (server_env K) unit :=
  now ← on_world (on_os GetCurrentMilliseconds);
  i ← gets se_i;
  if i =? 2 ^ 31 - 1 then undef
  else
    _ ← modify (se_with_statics now (i + 1));
    _ ← on_world (Handle_SendSlice ep
          (Slice_ctor (Some <$> (str "This is a server heart-beat message!i:" ++ dec i))));
    mret tt.

Definition server_GetHeartbeatInterval : Z := 30 * 1000.

(** What the message thread calls; the program registers no [EndpointNotifyHandler]. *)
Definition handle_call (c : handler_call) : M (server_env K) unit :=
  match c with
  | OnMessage ep msg => _ ← server_OnMessage ep msg; mret tt
  | OnHeartbeat ep => server_OnHeartbeat ep
  | HandleClosed _ _ | HandleNotify _ => mret tt
  end.

Fixpoint handle_calls (cs : list handler_call) : M (server_env K) unit :=
  match cs with
  | [] => mret tt
  | c :: cs => _ ← handle_call c; handle_calls cs
  end.

(** A round of the message thread, with the handler it calls. *)
Definition server_message_round (blocked : bool) : M (server_env K) unit :=
  calls ← on_world (w ← gets id;
                    _ ← MessageQueue_round blocked;
                    w' ← gets id;
                    mret (drop (length (w_calls w)) (w_calls w')));
  handle_calls calls.
End Handlers.

(** ** Starting and stopping *)

Section Programs.
Context {K : Type} `{Kernel K} {E : Type} `{!InProcess E K} `{!HasContainer E K} `{LibC} `{Resolver K}.
Variable somaxconn_file : option (option (list byte)).

Definition in_container {A} (m : M (world K) A) : M (listener_world E) A := listener_env (on_world m).

Definition start_and_listening (addr : list byte) : M (listener_world E) unit :=
  err ← TcpListener_Start;
  match err with
  | Some _ => mret tt
  | None =>
      err ← in_container Container_Start;
      match err with
      | Some _ => mret tt
      | None => _ ← AddListening somaxconn_file addr; mret tt
      end
  end.

Definition server_stop : M (listener_world E) unit :=
  _ ← TcpListener_Shutdown;
  in_container Container_Shutdown.

(** [~TcpServerTest] *)
Definition server_dtor : M (listener_world E) unit :=
  _ ← DestroyAcceptor true;
  in_container (DestroyContainer true).

End Programs.

(** ** The program *)

Section Program.
Context {K : Type} `{Kernel K} `{LibC} `{Resolver K}.
Variable somaxconn_file : option (option (list byte)).
(** Where the four handlers are in the object. *)
Variable this : nat -> Z.
Variable recv_fuel : nat.

Abbreviation server := (listener_world (server_env K)).

Definition server_properties : Property := Property_list
  [PropertyEntry_ptr "AcceptorHandler" (this 0); PropertyEntry_ptr "MessageHandler" (this 1);
   PropertyEntry_ptr "HeartbeatHandler" (this 2); PropertyEntry_ptr "EndpointClosedHandler" (this 3)].

Definition server_init : M server unit :=
  '(err, container) ← in_container (CreateContainer (fun _ => server_GetHeartbeatInterval) server_properties);
  match err with
  | Some _ => abort
  | None =>
      '(err, acceptor) ← CreateAcceptor server_properties;
      match err with Some _ => abort | None => mret tt end
  end.

(** No call goes to a [ProtocolHandler]. *)
Definition no_protocol (_ : EndpointImpl) (_ : list cell) : Z := 1.

(** What the threads of the process do while it runs: the listener's thread, the polling
    threads and the timer of the container, its message thread. *)
Inductive server_event : Type :=
  | SvAccept (i : nat) (event_type error_code : Z)
  | SvEvent (detail : EventDetail)
  | SvTimeoutCheck (now : Z)
  | SvTimer (n : nat) (tid2 : Z)
  | SvMessage (blocked : bool).

Definition run_background (op : container_op) : M server unit :=
  in_container (_ ← run_container_op no_protocol recv_fuel op; mret tt).

Definition run_server_event (ev : server_event) : M server unit :=
  match ev with
  | SvAccept i ty code => run_listener_op somaxconn_file (ListenerEvent i ty code)
  | SvEvent detail => run_background (OpEvent detail)
  | SvTimeoutCheck now => run_background (OpTimeoutCheck now)
  | SvTimer n tid2 => run_background (OpTimer n tid2)
  | SvMessage blocked => listener_env (server_message_round blocked)
  end.

(** The ids in events are the container's, past or present. *)
Definition server_event_ok (ev : server_event) (s : server) : Prop :=
  let w := se_world (lw_env s) in
  match ev with
  | SvAccept _ _ _ | SvTimeoutCheck _ | SvMessage _ => True
  | SvEvent detail => container_op_ok (OpEvent detail) w
  | SvTimer n tid2 => container_op_ok (OpTimer n tid2) w
  end.

Inductive server_run : list server_event -> server -> server -> Prop :=
  | srun_nil s : server_run [] s s
  | srun_cons ev evs s s1 s2 :
      server_event_ok ev s -> run_server_event ev s = Ret (tt, s1) -> server_run evs s1 s2 ->
      server_run (ev :: evs) s s2.

(** Before [main]: [container] and [acceptor] are null. *)
Definition server_new (o : os K) : server := listener_start {|
  se_world := {| w_os := o; w_eps := ∅; w_conns := ∅; w_held := []; w_global_counter := 0; w_next := 0;
                 w_ct := ContainerImpl_new (option_of (fun _ => server_GetHeartbeatInterval) ∅); w_calls := [] |};
  se_current := 0; se_i := 0; se_refused := [] |}.
End Program.

(** ** The invariant *)

Section Invariant.
Context {K : Type} `{Kernel K} `{!KernelIO K} `{LibC}.
Variable recv_fuel : nat.
Hypothesis Hshort : forall fd k, short_within recv_fuel fd k.

Lemma no_protocol_fits ep : header_fits (no_protocol ep).
Proof using Type. by intros q _. Qed.

(** The container is as it should be, its threads are in a state of [st], and [i] counts
    [n] heartbeats at most. *)
Definition env_inv (st : thread_state -> Prop) (n : Z) (e : server_env K) : Prop :=
  winv [] None (se_world e) /\ engine_ok st (engine (se_world e)) /\ 0 <= se_i e <= n.

(** The container's epoll descriptors, its connections' and those of the endpoints it refused. *)
Definition env_owns (e : server_env K) : list Z :=
  engine_fds (se_world e) ++ open_fds (se_world e) ++ (fd_int <$> se_refused e).

#[local] Abbreviation espends := (spends (trace_of (env_os (E := server_env K)))).

(** What the container spends, the environment spends. *)
Lemma spends_container {A} (m : M (world K) A) (e : server_env K) Q :
  spends (trace_of w_os) m (se_world e) (fun a w o c => Q a (se_with_world w e) o c) -> espends (on_world m) e Q.
Proof using Type. intros Hm. by apply (spends_part _ (trace_of w_os)). Qed.

(** A step of the container, which leaves its threads alone. *)
Lemma spends_world {A} (m : M (world K) A) (g : A -> list Z) (e : server_env K) (Q : A -> world K -> Prop) :
  wp m (se_world e) (fun a w' => winv [] None w' /\ effect (g a) (se_world e) w' /\ Q a w') -> keeps_engine m ->
  espends (on_world m) e (fun a e' o c => exists w', e' = se_with_world w' e /\ winv [] None w' /\
    engine w' = engine (se_world e) /\ (forall ep, is_Some (w_eps (se_world e) !! ep) -> is_Some (w_eps w' !! ep)) /\
    o ++ env_owns e ++ g a ≡ₚ c ++ env_owns e' /\ Q a w').
Proof using Type.
  intros Hm Hk. apply wp_zoom. change (env_world e) with (se_world e). unfold wp in *. specialize (Hk (se_world e)).
  destruct (m (se_world e)) as [[a w']| | |]; [|done..]. destruct Hm as (Hw & [(t & Et & Ot & Pt) _ _ Heps] & HQ).
  specialize (Hk a w' eq_refl). exists t. split; [exact Et|]. exists w'. split_and!; [done|done|done|done| |done].
  rewrite Ot. unfold env_owns. cbn. assert (engine_fds w' = engine_fds (se_world e)) as -> by (unfold engine_fds, engine in *; congruence).
  transitivity (engine_fds (se_world e) ++ (open_fds (se_world e) ++ g a) ++ (fd_int <$> se_refused e)); [solve_Permutation|].
  rewrite <- Pt. solve_Permutation.
Qed.

(** One of the container's own operations: none but [OpAttach] gives it a descriptor. *)
Lemma background_result op (w : world K) g w' :
  (forall ep b, op <> OpAttach ep b) -> run_container_op no_protocol recv_fuel op w = Ret (g, w') -> g = [].
Proof using Type.
  intros Hop. assert (forall A (m : M (world K) A), (_ ← m; mret []) w = Ret (g, w') -> g = []) as Hskip.
  { intros A m. unfold mbind, M_bind. destruct (m w) as [[x w1]| | |]; [|done..]. by intros [= <- _]. }
  destruct op; cbn [run_container_op]; try apply Hskip. by destruct (Hop ep notify).
Qed.

Lemma background_spends op st n (e : server_env K) :
  env_inv st n e -> container_op_ok op (se_world e) -> (forall ep b, op <> OpAttach ep b) ->
  espends (on_world (_ ← run_container_op no_protocol recv_fuel op; mret tt)) e (fun _ e' o c =>
    env_inv st n e' /\ o ++ env_owns e ≡ₚ c ++ env_owns e').
Proof.
  intros (Hw & He & Hi) Hop Hne. eapply spends_mono.
  - apply (spends_world _ (fun _ => []) e (fun _ _ => True)).
    + pose proof (run_container_op_spec _ _ no_protocol_fits Hshort op _ Hw Hop) as Hsp. apply wp_bind. unfold wp in *.
      destruct (run_container_op _ _ op (se_world e)) as [[g w']| | |] eqn:E; [|done..].
      rewrite (background_result op _ _ _ Hne E) in Hsp. destruct Hsp. by apply wp_ret.
    + apply ke_bind; [|intros; apply ke_ret]. intros w g w'. by apply run_container_op_engine.
  - intros [] e' o c (w' & -> & Hw' & Heng & _ & Hbal & _). rewrite app_nil_r in Hbal. split; [|done].
    unfold env_inv. change (se_world (se_with_world w' e)) with w'. by rewrite Heng.
Qed.

(** An answer sent by a handler. *)
Lemma send_spends ep s st n (e : server_env K) :
  env_inv st n e -> is_Some (w_eps (se_world e) !! ep) -> Slice_wf s ->
  espends (on_world (Handle_SendSlice ep s)) e (fun _ e' o c =>
    env_inv st n e' /\ se_i e' = se_i e /\ (forall ep, is_Some (w_eps (se_world e) !! ep) -> is_Some (w_eps (se_world e') !! ep)) /\
    o ++ env_owns e ≡ₚ c ++ env_owns e').
Proof.
  intros (Hw & He & Hi) Hep Hs. unfold Handle_SendSlice. eapply spends_mono.
  - apply (spends_world _ (fun _ => []) e (fun _ _ => True)).
    + destruct (Slice_Empty s); [apply wp_ret; split_and!; [done|apply effect_refl|done]|].
      pose proof (run_container_op_spec no_protocol recv_fuel no_protocol_fits Hshort (OpEndpointSend ep s) _ Hw (conj Hep Hs)) as Hsp.
      unfold wp, run_container_op, mbind, M_bind in *. destruct (Endpoint_SendMsg ep s (se_world e)) as [[b w']| | |]; [|done..].
      cbn in Hsp. by destruct Hsp.
    + destruct (Slice_Empty s); [apply ke_ret|]. intros w b w' E.
      apply (run_container_op_engine no_protocol recv_fuel (OpEndpointSend ep s) w [] w').
      unfold run_container_op, mbind, M_bind. by rewrite E.
  - intros b e' o c (w' & -> & Hw' & Heng & Heps & Hbal & _). split_and!; [|done..|by rewrite app_nil_r in Hbal].
    unfold env_inv. change (se_world (se_with_world w' e)) with w'. by rewrite Heng.
Qed.

(** A new endpoint in the container's world. *)
Lemma new_endpoint_spec obj (w : world K) :
  winv [] None w -> holds_fd obj -> ei_connection_id obj = InvalidConnectionId ->
  is_u16 (ei_listen_port obj) ->
  wp (new_endpoint obj) w (fun ep w' => winv [] None w' /\ effect [] w w' /\ w_eps w' !! ep = Some obj).
Proof.
  intros Hw Hfd Hid Hp. unfold new_endpoint. apply wp_bind, wp_gets. unfold id. set (ep := fresh _).
  assert (w_eps w !! ep = None) as Hep by (apply not_elem_of_dom, is_fresh).
  destruct (winv_new_endpoint [] None ep obj w Hw Hep Hfd Hid Hp) as [Hw' He].
  apply wp_bind, wp_modify, wp_ret.
  split_and!; [done|done|]. cbn. apply lookup_insert_eq.
Qed.

Lemma keeps_new_endpoint obj : keeps_engine (K := K) (new_endpoint obj).
Proof. intros w ep w' [= <- <-]. done. Qed.

(** What [OnAccept] does with a descriptor: it is a connection's, or it is lost. *)
Lemma OnAccept_spends fd local remote port p st n (e : server_env K) :
  0 < fd < 2 ^ 31 -> env_inv st n e ->
  espends (OnAccept (accepted_endpoint fd local remote port) p) e (fun _ e' o c =>
    env_inv st n e' /\ o ++ fd :: env_owns e ≡ₚ c ++ env_owns e').
Proof.
  intros Hfd (Hw & He & Hi). set (obj := accepted_endpoint fd local remote port).
  assert (holds_fd obj) as Hh.
  { unfold holds_fd, obj. cbn. unfold u64. rewrite wrap_small by lia. done. }
  assert (fd_int obj = fd) as Efd by (apply (fd_int_new fd local remote); lia).
  unfold OnAccept, server_OnAccept. cbn zeta.
  eapply spends_bind.
  { apply (spends_world _ (fun _ => []) e (fun ep w' => w_eps w' !! ep = Some obj)); [|apply keeps_new_endpoint].
    by apply new_endpoint_spec; [..|apply wrap_range]. }
  intros ep e1 o1 c1 (w1 & -> & Hw1 & Heng1 & _ & Hbal1 & Hep).
  assert (ei_attached obj = false) as Ha by done.
  eapply spends_bind.
  { apply (spends_world _ (fun err => match err with None => [fd] | Some _ => [] end) _ (fun _ _ => True)); [|apply ke_AttachEndpoint].
    eapply wp_mono; [by apply (steps_AttachEndpoint ep obj)|]. cbn beta. rewrite Efd. by intros err w2 [? ?]. }
  intros err e2 o2 c2 (w2 & -> & Hw2 & Heng2 & Heps & Hbal2 & _). apply spends_bind_modify; [by destruct err|].
  apply spends_bind_gets, spends_bind_option. cbn [se_world se_with_world] in *.
  destruct (Heps ep) as [obj2 Hobj2]; [by exists obj|]. exists obj2. split; [by destruct err|]. apply spends_ret.
  set (e3 := _ (se_with_world w2 _)).
  assert (env_owns e3 ≡ₚ env_owns (se_with_world w2 (se_with_world w1 e)) ++ match err with None => [] | Some _ => [fd] end) as Hown.
  { unfold e3, env_owns. destruct err; cbn; rewrite ?fmap_app, ?app_nil_r; cbn; [rewrite Efd; solve_Permutation|done]. }
  split.
  - assert (se_world e3 = w2 /\ se_i e3 = se_i e) as [Ew Ei] by (by unfold e3; destruct err).
    unfold env_inv. by rewrite Ew, Ei, Heng2, Heng1.
  - rewrite !app_nil_r in *. rewrite Hown.
    transitivity (o2 ++ (o1 ++ env_owns e) ++ [fd]); [solve_Permutation|]. rewrite Hbal1.
    transitivity (c1 ++ (o2 ++ env_owns (se_with_world w1 e) ++ match err with None => [fd] | Some _ => [] end) ++
      match err with None => [] | Some _ => [fd] end); [destruct err; solve_Permutation|]. rewrite Hbal2. solve_Permutation.
Qed.

(** When the container is full, the handler returns with the endpoint online and nobody
    who will close its descriptor. *)
Lemma full_container_loses_descriptor obj p (e : server_env K) :
  st_full (op_max_container_size (ct_option (w_ct (se_world e)))) (w_slots (se_world e)) = true ->
  exists p' e', OnAccept obj p e = Ret ((obj, p'), e') /\ os_trace (env_os e') = os_trace (env_os e) /\
    w_conns (se_world e') = w_conns (se_world e) /\ se_refused e' = se_refused e ++ [obj].
Proof.
  intros Hfull. unfold OnAccept, server_OnAccept, on_world, zoom, new_endpoint, AttachEndpoint, AttachEndpointImpl.
  unfold mbind, M_bind, gets, modify, mret, M_ret, id. cbn [env_world env_with_world server_container se_world se_with_world w_ct w_with_eps].
  change (w_slots (w_with_eps _ (se_world e))) with (w_slots (se_world e)). rewrite Hfull. cbn.
  rewrite lookup_insert_eq. cbn. eexists _, _. split; [done|]. done.
Qed.

(** So the listener's theorems hold of this environment. *)
#[export] Program Instance server_laws (st : thread_state -> Prop) (n : Z) : HandlerLaws (server_env K) := {|
  hl_owns e _ := env_owns e;
  hl_ok := env_inv st n;
|}.
Next Obligation. done. Qed.
Next Obligation.
  intros st n o e (Hw & He & Hi). split; [by apply winv_os|]. by split.
Qed.
Next Obligation.
  intros st n fd local remote port p e accepted Hfd He ep.
  eapply spends_mono; [by apply (OnAccept_spends fd local remote port p st n e)|]. by intros _ e' o c [? ?].
Qed.
End Invariant.

(** ** The events *)

Section Events.
Context {K : Type} `{Kernel K} `{!KernelIO K} `{LibC}.
Variable recv_fuel : nat.
Hypothesis Hshort : forall fd k, short_within recv_fuel fd k.

#[local] Abbreviation espends := (spends (trace_of (env_os (E := server_env K)))).

Lemma env_inv_le st n m (e : server_env K) : n <= m -> env_inv st n e -> env_inv st m e.
Proof. intros Hnm (Hw & He & Hi). split; [done|]. split; [done|lia]. Qed.

Lemma handle_call_spends c st n (e : server_env K) :
  env_inv st n e -> n < 2 ^ 31 - 1 -> is_Some (w_eps (se_world e) !! call_ep c) ->
  espends (handle_call c) e (fun _ e' op cl => env_inv st (n + 1) e' /\ op ++ env_owns e ≡ₚ cl ++ env_owns e').
Proof.
  intros He Hn Hep. destruct c as [ep msg|ep ev|ep|ep]; cbn [handle_call call_ep] in *.
  - unfold server_OnMessage. set (s := Slice_ctor _).
    eapply (spends_bind _ _ _ _ _ (fun _ e' op cl => env_inv st (n + 1) e' /\ op ++ env_owns e ≡ₚ cl ++ env_owns e')).
    + eapply spends_bind; [by apply (send_spends recv_fuel Hshort ep s st n); [..|apply Slice_ctor_wf]|].
      intros b e1 o1 c1 (He1 & _ & _ & Hb1). apply spends_ret. rewrite !app_nil_r.
      split; [eapply env_inv_le; [|done]; lia|done].
    + intros _ e1 o1 c1 [He1 Hb1]. apply spends_ret. by rewrite !app_nil_r.
  - apply spends_ret. split; [eapply env_inv_le; [|done]; lia|done].
  - unfold server_OnHeartbeat. eapply spends_bind.
    { apply (spends_world _ (fun _ => []) e (fun _ _ => True)); [|apply ke_on_os].
      destruct He as (Hw & _). eapply wp_mono; [apply steps_on_os, quiet_now|]. cbn beta.
      intros now w' [Hef [o ->]]. split; [by apply winv_os|done]. }
    intros now e1 o1 c1 (w1 & -> & Hw1 & Heng1 & Heps1 & Hb1 & _). apply spends_bind_gets.
    cbn [se_i se_with_world]. destruct He as (Hw & He & Hi). rewrite (proj2 (Z.eqb_neq _ _)) by lia.
    apply spends_bind_modify; [done|]. set (e2 := se_with_statics _ _ _).
    assert (env_inv st (n + 1) e2) as He2.
    { split; [done|]. split; [|cbn; lia]. change (se_world e2) with w1. by rewrite Heng1. }
    eapply spends_bind; [by apply (send_spends recv_fuel Hshort ep _ st (n + 1)); [..|apply Slice_ctor_wf]; [|apply Heps1]|].
    intros b e3 o3 c3 (He3 & _ & _ & Hb3). apply spends_ret. split; [done|]. rewrite !app_nil_r in *.
    transitivity (o3 ++ (o1 ++ env_owns e)); [solve_Permutation|]. rewrite Hb1.
    change (env_owns (se_with_world w1 e)) with (env_owns e2).
    transitivity (c1 ++ (o3 ++ env_owns e2)); [solve_Permutation|]. rewrite Hb3. solve_Permutation.
  - apply spends_ret. split; [eapply env_inv_le; [|done]; lia|done].
Qed.

Lemma message_round_spends blocked st n (e : server_env K) :
  env_inv st n e -> n < 2 ^ 31 - 1 ->
  espends (server_message_round blocked) e (fun _ e' op cl => env_inv st (n + 1) e' /\ op ++ env_owns e ≡ₚ cl ++ env_owns e').
Proof.
  intros (Hw & He & Hi) Hn. unfold server_message_round. eapply spends_bind.
  { apply (spends_world _ (fun _ => []) e (fun calls w' => (length calls <= 1)%nat /\
      Forall (fun c => is_Some (w_eps w' !! call_ep c)) calls)).
    - apply wp_bind, wp_gets, wp_bind. unfold id.
      eapply wp_mono; [by apply MessageQueue_round_calls|]. cbn beta.
      intros _ w' (Hef & Hw' & calls & Ecalls & Hl & Hall). apply wp_bind, wp_gets, wp_ret. unfold id.
      by rewrite Ecalls, drop_app_length.
    - apply ke_bind; [apply ke_gets|]. intros w. apply ke_bind; [apply ke_MessageQueue_round|]. intros b.
      apply ke_bind; [apply ke_gets|]. intros w'. apply ke_ret. }
  intros calls e1 o1 c1 (w1 & -> & Hw1 & Heng1 & _ & Hb1 & Hl & Hall). rewrite app_nil_r in Hb1.
  assert (env_inv st n (se_with_world w1 e)) as He1.
  { split; [done|]. split; [|done]. change (se_world (se_with_world w1 e)) with w1. by rewrite Heng1. }
  destruct calls as [|c [|]]; cbn [handle_calls length] in *; [|..|lia].
  - apply spends_ret. rewrite !app_nil_r. split; [eapply env_inv_le; [|done]; lia|done].
  - apply (proj1 (Forall_singleton _ _)) in Hall. eapply spends_bind; [by apply (handle_call_spends c st n)|].
    intros _ e2 o2 c2 [He2 Hb2]. apply spends_ret. split; [done|]. rewrite !app_nil_r.
    transitivity (o2 ++ (o1 ++ env_owns e)); [solve_Permutation|]. rewrite Hb1.
    transitivity (c1 ++ (o2 ++ env_owns (se_with_world w1 e))); [solve_Permutation|]. rewrite Hb2. solve_Permutation.
Qed.
End Events.

(** ** The whole program *)

Section Server.
Context {K : Type} `{Kernel K} `{!KernelIO K} `{LibC} `{Resolver K} `{!ResolverLaws}.
Context `{!KernelThreads} `{!KernelEpoll} `{!KernelSockets}.
Variable somaxconn_file : option (option (list byte)).
Variable this : nat -> Z.
Variable recv_fuel : nat.
Hypothesis Hthis : forall n, (n < 4)%nat -> 0 < this n < 2 ^ 63.
Hypothesis Hshort : forall fd k, short_within recv_fuel fd k.

#[local] Abbreviation server := (listener_world (server_env K)).
#[local] Abbreviation espends := (spends (trace_of (env_os (E := server_env K)))).

(** Everything the program has open: the listener's descriptors and the environment's. *)
Definition server_held (s : server) : list Z :=
  epoll_fds (pt_epoll (tl_poll_thread (lw_listener s))) ++ listen_fds (lw_listener s) ++ env_owns (lw_env s).

#[local] Abbreviation sspends := (spends (trace_of (lw_os (E := server_env K)))).
#[local] Abbreviation sbalanced := (balanced (trace_of (lw_os (E := server_env K))) server_held).

Definition server_inv (st st' : thread_state -> Prop) (n : Z) (s : server) : Prop :=
  env_inv st n (lw_env s) /\ listener_core st' s.

(** The environment moves, the listener stays. *)
Lemma env_balanced {A} (m : M (server_env K) A) st st2 st' n n' (s : server) :
  server_inv st st' n s ->
  espends m (lw_env s) (fun _ e' o c => env_inv st2 n' e' /\ o ++ env_owns (lw_env s) ≡ₚ c ++ env_owns e') ->
  sbalanced (listener_env m) s (fun _ s' => server_inv st2 st' n' s').
Proof.
  intros [_ Hc] Hm. eapply (spends_part _ (trace_of env_os)); [done|done|].
  eapply spends_mono; [exact Hm|]. cbn beta. intros a e' o c [He Hb]. split; [|by split].
  unfold server_held. cbn [lw_env lw_listener lw_with_env].
  transitivity (epoll_fds (pt_epoll (tl_poll_thread (lw_listener s))) ++ listen_fds (lw_listener s) ++ (o ++ env_owns (lw_env s)));
    [solve_Permutation|]. rewrite Hb. solve_Permutation.
Qed.

Lemma server_inv_le st st' n m (s : server) : n <= m -> server_inv st st' n s -> server_inv st st' m s.
Proof. intros Hnm [He Hc]. split; [by eapply env_inv_le|done]. Qed.

(** One event. *)
Lemma server_event_balanced ev n s :
  server_inv alive_or_active alive_or_active n s -> n < 2 ^ 31 - 1 -> server_event_ok ev s ->
  sbalanced (run_server_event somaxconn_file recv_fuel ev) s (fun _ s' => server_inv alive_or_active alive_or_active (n + 1) s').
Proof.
  intros Hs Hn Hok. assert (forall op, container_op_ok op (se_world (lw_env s)) -> (forall ep b, op <> OpAttach ep b) ->
    sbalanced (run_background recv_fuel op) s (fun _ s' => server_inv alive_or_active alive_or_active (n + 1) s')) as Hbg.
  { intros op Hop Hne. unfold run_background, in_container. eapply env_balanced; [exact Hs|]. destruct Hs as [He _].
    eapply spends_mono; [by apply (background_spends recv_fuel Hshort op alive_or_active n)|].
    cbn beta. intros _ e' o c [He' Hb]. split; [eapply env_inv_le; [|exact He']; lia|done]. }
  destruct ev as [i ty code|detail|now|k tid2|blocked]; cbn [run_server_event server_event_ok] in *;
    [|by apply Hbg..|].
  - eapply balanced_mono; [exact (run_listener_op_balanced somaxconn_file (HandlerLaws0 := server_laws alive_or_active n) _ s Hs)|].
    cbn beta. intros _ s' Hs'. eapply server_inv_le; [|exact Hs']. lia.
  - eapply env_balanced; [exact Hs|]. destruct Hs as [He _]. by apply (message_round_spends recv_fuel Hshort).
Qed.

(** *** Starting *)

Lemma engine_ok_weaken e : engine_ok (eq kAlive) e -> engine_ok alive_or_active e.
Proof using Type.
  destruct e as [[[[[sd p] b] ts] n] tm]. intros (Hsd & Hp & Hb & Hts & Htm).
  split_and!; [done|by apply pt_wf_running|by apply pt_wf_running| |].
  - eapply threads_in_weaken; [|exact Hts]. auto.
  - destruct tm as [[tsd thd]|]; [|done]. destruct Htm as (? & <- & ?). auto.
Qed.

Lemma server_inv_weaken st' n s : server_inv (eq kAlive) st' n s -> server_inv alive_or_active st' n s.
Proof. intros [(Hw & He & Hi) Hc]. split; [|done]. split; [done|]. split; [by apply engine_ok_weaken|done]. Qed.

Lemma container_start_balanced st' n s :
  server_inv (eq kAlive) st' n s ->
  sbalanced (in_container Container_Start) s (fun _ s' => server_inv alive_or_active st' n s').
Proof.
  intros Hs. eapply env_balanced; [exact Hs|]. destruct Hs as [(Hw & He & Hi) _].
  apply spends_container.
  eapply spends_mono; [by apply Start_spends|]. cbn beta. intros e w' o c (-> & -> & Hw' & He' & Ef & Eo).
  split; [split; [done|by split]|]. unfold env_owns. cbn [se_world se_with_world]. by rewrite Ef, Eo.
Qed.

Lemma add_addresses_balanced addrs n s :
  server_inv alive_or_active alive_or_active n s ->
  sbalanced (add_addresses somaxconn_file addrs) s (fun _ s' => server_inv alive_or_active alive_or_active n s').
Proof.
  revert s. induction addrs as [|addr addrs IH]; intros s Hs; [by apply balanced_ret|]. cbn [add_addresses].
  eapply balanced_bind; [exact (add_balanced somaxconn_file (HandlerLaws0 := server_laws alive_or_active n) addr s Hs)|].
  cbn beta. intros e s' Hs'. destruct e; [by apply balanced_ret|]. by apply IH.
Qed.

Lemma AddListening_balanced addr n s :
  server_inv alive_or_active alive_or_active n s ->
  sbalanced (AddListening somaxconn_file addr) s (fun _ s' => server_inv alive_or_active alive_or_active n s').
Proof.
  intros Hs. unfold AddListening, balanced.
  eapply spends_os_fd; [done|apply resolve_fds|]. intros [e addrs] o1 ? ? (-> & -> & Haddrs).
  assert (server_inv alive_or_active alive_or_active n (lw_with_os o1 s)) as Hs1.
  { destruct Hs as [He Hc]. split; [exact (hl_ok_os (HandlerLaws := server_laws alive_or_active n) o1 (lw_env s) He)|exact Hc]. }
  destruct e as [e|]; [by apply spends_ret|]. destruct (Haddrs eq_refl) as [l ->].
  apply spends_bind_option. exists l. split; [done|]. exact (add_addresses_balanced l n _ Hs1).
Qed.

(** *** Stopping *)

Lemma Container_Shutdown_again (w : world K) : ct_shutdown (w_ct w) = true -> Container_Shutdown w = Ret (tt, w).
Proof. intros E. unfold Container_Shutdown, gets, mbind, M_bind, id. by rewrite E. Qed.

Lemma TcpListener_Shutdown_again (s : server) :
  tl_shutdown (lw_listener s) = true -> TcpListener_Shutdown s = Ret (tt, s).
Proof. intros E. unfold TcpListener_Shutdown, gets, mbind, M_bind. by rewrite E. Qed.

(** After [stop]: the epoll descriptors are left, and the endpoints the container refused. *)
Record stopped (s s2 : server) (o c : list Z) : Prop := {
  sp_fds : o ++ server_held s ≡ₚ c ++ epoll_fds (pt_epoll (tl_poll_thread (lw_listener s2))) ++
    engine_fds (se_world (lw_env s2)) ++ (fd_int <$> se_refused (lw_env s2));
  sp_listener : tl_shutdown (lw_listener s2) = true /\ tl_head (lw_listener s2) = [] /\
    pt_wf alive_or_active (tl_poll_thread (lw_listener s2));
  sp_container : ct_shutdown (w_ct (se_world (lw_env s2))) = true /\
    pt_wf alive_or_active (ct_poll_thread (w_ct (se_world (lw_env s2)))) /\
    pt_wf alive_or_active (ct_back_thread (w_ct (se_world (lw_env s2)))) /\ w_conns (se_world (lw_env s2)) = ∅;
}.

Lemma server_stop_spends n s :
  server_inv alive_or_active alive_or_active n s -> sspends server_stop s (fun _ s2 o c => stopped s s2 o c).
Proof.
  intros Hs. unfold server_stop. eapply spends_bind; [exact (shutdown_balanced (HandlerLaws0 := server_laws alive_or_active n) s Hs)|].
  cbn beta. intros _ s1 o1 c1 (Hb1 & [(Hw & He & _) (Hp & _)] & _ & Hsd & Hh).
  eapply (spends_part _ (trace_of env_os)); [done|done|]. apply spends_container.
  eapply spends_mono; [by apply Shutdown_spends|]. cbn beta. intros _ w o2 c2 (-> & Hb2 & Hcn & Hct & _ & _ & Hpp & Hpb).
  split; [|by split_and!..]. rewrite app_nil_r. etransitivity; [exact Hb1|].
  unfold listener_held, listen_fds. rewrite Hh. cbn [hl_owns server_laws fmap list_fmap app].
  unfold env_owns, engine_fds in *. cbn. transitivity (c1 ++ epoll_fds (pt_epoll (tl_poll_thread (lw_listener s1))) ++
    ((epoll_fds (pt_epoll (ct_poll_thread (w_ct (se_world (lw_env s1))))) ++
      epoll_fds (pt_epoll (ct_back_thread (w_ct (se_world (lw_env s1)))))) ++ open_fds (se_world (lw_env s1))) ++
    (fd_int <$> se_refused (lw_env s1))); [solve_Permutation|]. rewrite <- Hb2. solve_Permutation.
Qed.

(** What is left when the program has ended: the endpoints the container refused. *)
Lemma server_end_spends n s :
  server_inv alive_or_active alive_or_active n s ->
  sspends (_ ← server_stop; server_dtor) s (fun _ s' o c =>
    o ++ server_held s ≡ₚ c ++ (fd_int <$> se_refused (lw_env s')) /\
    w_conns (se_world (lw_env s')) = ∅ /\ tl_head (lw_listener s') = []).
Proof.
  intros Hs. eapply spends_bind; [by eapply server_stop_spends|].
  cbn beta. intros _ s2 o2 c2 [Hb2 (Hsd & Hh & Hp) (Hct & Hpp & Hpb & Hcn)]. unfold server_dtor.
  eapply (spends_bind _ _ _ _ _ (fun _ s3 o c => o = [] /\ c = epoll_fds (pt_epoll (tl_poll_thread (lw_listener s2))) /\
    exists o', s3 = lw_with_os o' s2)).
  { unfold DestroyAcceptor. eapply (spends_bind _ _ _ _ _ (fun _ s3 o c => s3 = s2 /\ o = [] /\ c = [])).
    - unfold spends, wp. rewrite TcpListener_Shutdown_again by done. exists []. by rewrite app_nil_r.
    - intros _ s3 ? ? (-> & -> & ->). exact (dtor_after_shutdown s2 Hsd Hp). }
  cbn beta. intros _ s3 o3 c3 (-> & -> & os3 & ->).
  eapply (spends_part _ (trace_of env_os)); [done|done|]. apply spends_container.
  unfold DestroyContainer. eapply (spends_bind _ _ _ _ _ (fun _ w o c => w = w_with_os os3 (se_world (lw_env s2)) /\ o = [] /\ c = [])).
  { unfold spends, wp. rewrite Container_Shutdown_again by done. exists []. by rewrite app_nil_r. }
  intros _ w ? ? (-> & -> & ->). eapply spends_mono; [by apply dtor_after_spends|]. cbn beta.
  intros _ w4 ? c4 (-> & Hc4 & o4 & ->). rewrite !app_nil_r. split_and!; [|done|done].
  rewrite Hb2. cbn. rewrite Hc4. unfold engine_fds. cbn. solve_Permutation.
Qed.
(** *** Initialisation *)

Lemma server_handler_present key k :
  (k < 4)%nat -> server_properties this !! key = Some (u64 (this k)) -> GetValue to_intptr key 0 (server_properties this) <> 0.
Proof using Hthis.
  intros Hk E. unfold GetValue, Property in *. specialize (Hthis k Hk). rewrite E, to_intptr_u64; lia.
Qed.

Abbreviation server_option := (option_of (fun _ => server_GetHeartbeatInterval) (server_properties this)).

Lemma server_option_ok : option_ok server_option.
Proof using Hthis.
  split_and!; [by vm_compute..|]. unfold server_option, option_of, op_msg_handler, present, pointer.
  unfold nonzero. apply negb_true_iff, Z.eqb_neq. apply (server_handler_present _ 1); [lia|done].
Qed.

Lemma create_container_spends (o : os K) :
  espends (on_world (CreateContainer (fun _ => server_GetHeartbeatInterval) (server_properties this)))
    (lw_env (server_new o)) (fun r e' op cl => r.1 = None -> env_inv (eq kAlive) 0 e' /\ op ≡ₚ cl ++ env_owns e').
Proof using Type*.
  apply spends_container. unfold CreateContainer.
  replace (negb (present _ _)) with false.
  2:{ symmetry. apply negb_false_iff, negb_true_iff, Z.eqb_neq. apply (server_handler_present _ 1); [lia|done]. }
  apply spends_bind_modify; [done|]. set (w0 := w_with_ct _ _).
  assert (fresh_world server_option w0) as Hfresh by done.
  eapply (spends_bind _ _ _ _ _ (fun err w' op cl => err = None -> winv [] None w' /\ w_conns w' = ∅ /\
    op ≡ₚ cl ++ engine_fds w' /\ engine_ok (eq kAlive) (engine w'))).
  - pose proof (Container_Init_spec server_option w0 Hfresh server_option_ok) as H1'.
    pose proof (Init_spends server_option w0 Hfresh server_option_ok) as H2'.
    unfold spends, wp in *. destruct (Container_Init w0) as [[err w']| | |]; [|done..].
    destruct H2' as (t & Et & H2'). exists t. split; [done|]. intros He. destruct (H1' He), (H2' He). done.
  - intros err w' op cl Hinit. destruct err as [err|]; apply spends_ret; [done|]. intros _.
    destruct (Hinit eq_refl) as (Hw & Hcn & Hb & He). split; [split; [done|split; [done|done]]|].
    rewrite !app_nil_r, Hb. unfold env_owns, open_fds. cbn. rewrite Hcn. cbn. by rewrite !app_nil_r.
Qed.

Lemma create_acceptor_spends e :
  env_inv (eq kAlive) 0 e ->
  sspends (CreateAcceptor (server_properties this)) (listener_start e) (fun r s op cl =>
    r.1 = None -> server_inv (eq kAlive) (eq kAlive) 0 s /\ op ++ env_owns e ≡ₚ cl ++ server_held s).
Proof using Type*.
  intros He. unfold CreateAcceptor.
  rewrite (proj2 (Z.eqb_neq _ _)) by (apply (server_handler_present _ 0); [lia|done]).
  apply spends_bind_modify; [done|].
  eapply spends_bind; [exact (init_balanced (HandlerLaws0 := server_laws (eq kAlive) 0) 1 e ltac:(lia) He)|].
  cbn beta. intros err s op cl [Hb Hs]. destruct err as [err|]; apply spends_ret; [done|]. intros _.
  rewrite !app_nil_r. split; [exact Hs|exact Hb].
Qed.

Lemma server_init_runs (o : os K) s :
  server_init this (server_new o) = Ret (tt, s) ->
  exists t, os_trace (lw_os s) = os_trace o ++ t /\ opened t ≡ₚ closed t ++ server_held s /\
    server_inv (eq kAlive) (eq kAlive) 0 s.
Proof using Type*.
  unfold server_init, in_container, mbind at 1, M_bind at 1. intros E.
  assert (sspends (listener_env (on_world (CreateContainer (fun _ => server_GetHeartbeatInterval) (server_properties this))))
    (server_new o) (fun r s' op cl => r.1 = None -> exists e', s' = listener_start e' /\ env_inv (eq kAlive) 0 e' /\
      op ≡ₚ cl ++ env_owns e')) as Hc.
  { eapply (spends_part _ (trace_of env_os)); [done|done|]. eapply spends_mono; [apply create_container_spends|].
    cbn beta. intros r e' op cl He Hr. exists e'. split; [done|by apply He]. }
  unfold spends, wp in Hc. destruct (listener_env _ (server_new o)) as [[[err out] s1]| | |]; [|done..].
  destruct Hc as (t1 & E1 & Hc). destruct err as [err|]; [done|]. destruct (Hc eq_refl) as (e1 & -> & He1 & Hb1).
  pose proof (create_acceptor_spends e1 He1) as Ha. unfold mbind, M_bind in E. unfold spends, wp in Ha.
  destruct (CreateAcceptor _ _) as [[[err out'] s2]| | |]; [|done..]. destruct Ha as (t2 & E2 & Ha).
  destruct err as [err|]; [done|]. injection E as <-. destruct (Ha eq_refl) as [Hs Hb2].
  exists (t1 ++ t2). unfold trace_of in *. rewrite E2, E1, app_assoc. split; [done|]. split; [|done].
  rewrite opened_app, closed_app, Hb1. transitivity (closed t1 ++ (opened t2 ++ env_owns e1)); [solve_Permutation|].
  rewrite Hb2. solve_Permutation.
Qed.

Lemma start_and_listening_balanced addr s :
  server_inv (eq kAlive) (eq kAlive) 0 s ->
  sbalanced (start_and_listening somaxconn_file addr) s (fun _ s' => server_inv alive_or_active alive_or_active 0 s').
Proof using Type*.
  intros Hs. unfold start_and_listening.
  eapply balanced_bind; [exact (start_balanced (HandlerLaws0 := server_laws (eq kAlive) 0) s Hs)|]. cbn beta.
  intros err s1 Hs1. destruct err as [err|]; [apply balanced_ret, server_inv_weaken; exact Hs1|].
  eapply balanced_bind; [eapply container_start_balanced; exact Hs1|]. cbn beta. intros err s2 Hs2.
  destruct err as [err|]; [by apply balanced_ret|].
  eapply balanced_bind; [by apply AddListening_balanced|]. cbn beta. intros err s3 Hs3. by apply balanced_ret.
Qed.

Lemma server_run_balanced evs s s' n :
  server_run somaxconn_file recv_fuel evs s s' -> server_inv alive_or_active alive_or_active n s ->
  n + Z.of_nat (length evs) <= 2 ^ 31 - 1 ->
  server_inv alive_or_active alive_or_active (n + Z.of_nat (length evs)) s' /\
  exists t, os_trace (lw_os s') = os_trace (lw_os s) ++ t /\ opened t ++ server_held s ≡ₚ closed t ++ server_held s'.
Proof.
  intros Hrun. revert n. induction Hrun as [s|ev evs s s1 s2 Hok Hev Hrun IH]; intros n Hs Hn; cbn [length] in *.
  - split; [by rewrite Z.add_0_r|]. exists []. by rewrite app_nil_r.
  - pose proof (server_event_balanced ev n s Hs ltac:(lia) Hok) as Hb. unfold balanced, spends, wp in Hb. rewrite Hev in Hb.
    destruct Hb as (t1 & E1 & Hb1 & Hs1). destruct (IH (n + 1) Hs1 ltac:(lia)) as (Hs2 & t2 & E2 & Hb2). split.
    + eapply server_inv_le; [|exact Hs2]. lia.
    + exists (t1 ++ t2). unfold trace_of in *. rewrite E2, E1, app_assoc. split; [done|]. rewrite opened_app, closed_app.
      transitivity (opened t2 ++ (opened t1 ++ server_held s)); [solve_Permutation|]. rewrite Hb1.
      transitivity (closed t1 ++ (opened t2 ++ server_held s1)); [solve_Permutation|]. rewrite Hb2. solve_Permutation.
Qed.

(** C8. The program's descriptors, from [main] to its end.  When [init] did not abort, and
    whatever [start_and_listening] found, the program runs through: after any fewer than
    2^31 - 1 events of its threads, in any order (connections accepted, readable,
    writable or failing, timeouts, heartbeats, messages handled), every further event is
    defined, and [stop] and the destructors return, with no connection and no listening
    socket left.  The descriptors opened in all that time were closed, each as often as
    it was opened, but those of the endpoints that [AttachEndpoint] refused because the
    container was full: these are lost. *)
Theorem server_descriptors (addr : list byte) (o : os K) (s1 s3 : server) (evs : list server_event) :
  server_init this (server_new o) = Ret (tt, s1) ->
  exists s2, start_and_listening somaxconn_file addr s1 = Ret (tt, s2) /\
  (server_run somaxconn_file recv_fuel evs s2 s3 -> Z.of_nat (length evs) < 2 ^ 31 - 1 ->
   (forall ev, server_event_ok ev s3 -> exists s, run_server_event somaxconn_file recv_fuel ev s3 = Ret (tt, s)) /\
   exists s4 t, (_ ← server_stop; server_dtor) s3 = Ret (tt, s4) /\
     os_trace (lw_os s4) = os_trace o ++ t /\ opened t ≡ₚ closed t ++ (fd_int <$> se_refused (lw_env s4)) /\
     w_conns (se_world (lw_env s4)) = ∅ /\ tl_head (lw_listener s4) = []).
Proof using Type*.
  intros Hinit. destruct (server_init_runs o s1 Hinit) as (t1 & E1 & Hb1 & Hs1).
  pose proof (start_and_listening_balanced addr s1 Hs1) as Hstart. unfold balanced, spends, wp in Hstart.
  destruct (start_and_listening _ addr s1) as [[[] s2]| | |]; [|done..]. destruct Hstart as (t2 & E2 & Hb2 & Hs2).
  exists s2. split; [done|]. intros Hrun Hlen.
  destruct (server_run_balanced evs s2 s3 0 Hrun Hs2 ltac:(lia)) as (Hs3 & t3 & E3 & Hb3). split.
  - intros ev Hok. pose proof (server_event_balanced ev _ s3 Hs3 ltac:(lia) Hok) as Hev. unfold balanced, spends, wp in Hev.
    destruct (run_server_event _ _ ev s3) as [[[] s]| | |]; [by exists s|done..].
  - pose proof (server_end_spends _ s3 Hs3) as Hend. unfold spends, wp in Hend.
    destruct ((_ ← server_stop; server_dtor) s3) as [[[] s4]| | |]; [|done..].
    destruct Hend as (t4 & E4 & Hb4 & Hcn & Hh). exists s4, (t1 ++ t2 ++ t3 ++ t4). split; [done|]. unfold trace_of in *.
    split; [by rewrite E4, E3, E2, E1, !app_assoc|]. split; [|done]. rewrite !opened_app, !closed_app, Hb1.
    transitivity (closed t1 ++ opened t4 ++ opened t3 ++ (opened t2 ++ server_held s1)); [solve_Permutation|]. rewrite Hb2.
    transitivity (closed t1 ++ closed t2 ++ opened t4 ++ (opened t3 ++ server_held s2)); [solve_Permutation|]. rewrite Hb3.
    transitivity (closed t1 ++ closed t2 ++ closed t3 ++ (opened t4 ++ server_held s3)); [solve_Permutation|]. rewrite Hb4.
    solve_Permutation.
Qed.
End Server.

(** ** A concrete run *)

(** [server_kernel] with sockets, of which one connection arrives. *)
Definition visited_kernel : Kernel (list byte) := fun k c =>
  match c with
  | SysSocket _ _ _ => ({| r_ret := 20; r_errno := 0; r_data := []; r_int := 0; r_events := [] |}, k)
  | SysAccept4 _ _ =>
      ({| r_ret := 21; r_errno := 0; r_data := ra_addr (loopback4 4000); r_int := 16; r_events := [] |}, k)
  | SysGetsockopt _ _ _ => ({| r_ret := 0; r_errno := 0; r_data := []; r_int := 1; r_events := [] |}, k)
  | _ => server_kernel k c
  end.

Definition localhost_resolver : Resolver (list byte) := fun host port =>
  mret (0, [take 16 (ra_addr (loopback4 50051))]).

#[local] Existing Instance visited_kernel.
#[local] Existing Instance quiet_libc.
#[local] Existing Instance localhost_resolver.

#[local] Instance visited_kernel_io : KernelIO (list byte).
Proof. destruct stream_kernel_io as [H1 H2 H3]. split; [exact H1|exact H2|exact H3]. Qed.

#[local] Instance visited_kernel_threads : KernelThreads (K := list byte).
Proof. by split. Qed.

#[local] Instance visited_kernel_epoll : KernelEpoll (K := list byte).
Proof. by split. Qed.

#[local] Instance visited_kernel_sockets : KernelSockets (K := list byte).
Proof. by split. Qed.

#[local] Instance localhost_resolver_laws : ResolverLaws (K := list byte).
Proof.
  intros host port. apply fd_ret. split_and!; [done..|]. apply (bool_decide_eq_true_1 _). vm_compute. reflexivity.
Qed.

Lemma visited_kernel_short fd (k : list byte) : short_within 1 fd k.
Proof. exact (server_kernel_short fd k). Qed.

(** The client sends "hi". *)
Definition visited_process : os (list byte) := {| os_kernel := [x68; x69]; os_errno := 0; os_trace := [] |}.

Definition handler_bases (n : nat) : Z := 4096 + 8 * Z.of_nat n.

Definition ran {A} (m : M (listener_world (server_env (list byte))) A) s : listener_world (server_env (list byte)) :=
  match m s with Ret (_, s') => s' | _ => s end.

Definition visited_start : listener_world (server_env (list byte)) := ran (server_init handler_bases) (server_new visited_process).
Definition visited_listening : listener_world (server_env (list byte)) :=
  ran (start_and_listening None (str "localhost:50051")) visited_start.

Definition visited_events : list server_event :=
  let cid := BuildConnectionId (ct_magic_number (w_ct (se_world (lw_env visited_start)))) 50051 0 in
  [SvAccept 0 kRecvEvent 0; SvEvent {| ed_ptr := cid; ed_event_type := kRecvEvent; ed_error_code := 0 |};
   SvMessage false; SvTimer 0 0; SvMessage false; SvTimeoutCheck 1700000001000].

Lemma visited_init : server_init handler_bases (server_new visited_process) = Ret (tt, visited_start).
Proof. vm_compute. reflexivity. Qed.

Lemma visited_starts :
  start_and_listening None (str "localhost:50051") visited_start = Ret (tt, visited_listening).
Proof. vm_compute. reflexivity. Qed.

(** A connection arrives, sends its message and is answered, and is sent a heartbeat. *)
Lemma visited_run : exists s, server_run None 1 visited_events visited_listening s.
Proof.
  eexists. unfold visited_events. cbv zeta.
  eapply srun_cons; [exact I|vm_compute; reflexivity|].
  eapply srun_cons; [vm_compute; intros ? [= <-]; done|vm_compute; reflexivity|].
  eapply srun_cons; [exact I|vm_compute; reflexivity|].
  eapply srun_cons; [split; [apply Nat.ltb_lt; vm_compute; reflexivity|vm_compute; by eexists]|vm_compute; reflexivity|].
  eapply srun_cons; [exact I|vm_compute; reflexivity|].
  eapply srun_cons; [exact I|vm_compute; reflexivity|].
  apply srun_nil.
Qed.

Lemma ret_state {S A} (a a' : A) (s s' : S) : Ret (a, s) = Ret (a', s') -> s = s'.
Proof. by intros [= _ ->]. Qed.

Lemma server_descriptors_witness : exists s3,
  (forall ev, server_event_ok ev s3 -> exists s, run_server_event None 1 ev s3 = Ret (tt, s)) /\
  exists s4 t, (_ ← server_stop; server_dtor) s3 = Ret (tt, s4) /\
    os_trace (lw_os s4) = os_trace visited_process ++ t /\ opened t ≡ₚ closed t ++ (fd_int <$> se_refused (lw_env s4)) /\
    w_conns (se_world (lw_env s4)) = ∅ /\ tl_head (lw_listener s4) = [].
Proof.
  destruct visited_run as [s3 Hrun]. exists s3.
  destruct (server_descriptors None handler_bases 1 ltac:(unfold handler_bases; lia) visited_kernel_short
    (str "localhost:50051") visited_process visited_start s3 visited_events visited_init) as (s2 & Hs2 & Hgo).
  rewrite visited_starts in Hs2. apply ret_state in Hs2. rewrite <- Hs2 in Hgo. apply Hgo; [exact Hrun|]. vm_compute. reflexivity.
Defined.
