(* ===== verification/TestClient.v ===== *)
(** * A client program (example/tcp_client_test.cc)

    A connector whose handler keeps the endpoint it is given and wakes up the main thread,
    which then talks to the server through the synchronous calls.  The program's state is
    a connector (TcpConnector.v) on an environment with the handler's endpoint and the
    condition variable; the main thread's position is kept beside it, and the events of the
    connector's thread come at any time.  What only goes to the log is left out, and so are
    the pauses between the receives. *)

From S2P Require Import Prelude.
From S2P Require Import Slice.
From S2P Require Import SockAddr.
From S2P Require Import Status.
From S2P Require Import Property.
From S2P Require Import OS.
From S2P Require Import SocketSetting.
From S2P Require Import Resolve.
From S2P Require Import Endpoint.
From S2P Require Import Options.
From S2P Require Import Epoll.
From S2P Require Import Thread.
From S2P Require Import PollingThread.
From S2P Require Import Ledger.
From S2P Require Import TcpConnector.
From S2P Require Import Surface.

Local Open Scope Z_scope.

(** ** The program's state *)

(** [te_locked]: the main thread holds [g_mtx]; [te_waiting]: it waits on [g_cv].
    [te_given] records the endpoints [OnConnect] was called with; [_ep] is the last. *)
Record test_env (K : Type) : Type := {
  te_os : os K;
  te_ep : option EndpointImpl;
  te_given : list EndpointImpl;
  te_locked : bool;
  te_waiting : bool;
}.
Arguments Build_test_env {K} _ _ _ _ _.
Arguments te_os {K} _.
Arguments te_ep {K} _.
Arguments te_given {K} _.
Arguments te_locked {K} _.
Arguments te_waiting {K} _.

Section Env.
Context {K : Type}.

Definition te_with_os (o : os K) (e : test_env K) : test_env K :=
  {| te_os := o; te_ep := te_ep e; te_given := te_given e; te_locked := te_locked e; te_waiting := te_waiting e |}.
Definition te_with_ep (ep : option EndpointImpl) (e : test_env K) : test_env K :=
  {| te_os := te_os e; te_ep := ep; te_given := te_given e; te_locked := te_locked e; te_waiting := te_waiting e |}.
Definition te_give (ep : EndpointImpl) (e : test_env K) : test_env K :=
  {| te_os := te_os e; te_ep := Some ep; te_given := te_given e ++ [ep]; te_locked := te_locked e;
     te_waiting := te_waiting e |}.
Definition te_wait (waiting : bool) (e : test_env K) : test_env K :=
  {| te_os := te_os e; te_ep := te_ep e; te_given := te_given e; te_locked := negb waiting; te_waiting := waiting |}.
Definition te_signal (e : test_env K) : test_env K :=
  {| te_os := te_os e; te_ep := te_ep e; te_given := te_given e; te_locked := te_locked e; te_waiting := false |}.

#[export] Instance test_in_process : InProcess (test_env K) K := {
  env_os := te_os;
  env_with_os := te_with_os;
  env_os_with o e := eq_refl;
}.
End Env.

(** ** The handler and the calls of [main] *)

Section Program.
Context {K : Type} `{Kernel K} `{LibC} `{Resolver K}.
Variable connect_fuel : nat.
(** Where the handler is. *)
Variable this : Z.

Definition connect_settings : list PropertyEntry :=
  [PropertyEntry_bool "SocketNonBlocking" false; PropertyEntry_int "SocketRecvTimeoutMs" 5000;
   PropertyEntry_int "SocketSendTimeoutMs" 5000].

(** [g_cv.Signal()] wakes up the main thread if it waits, and is lost if it does not. *)
#[export] Instance test_handler : ConnectorHandler (test_env K) := {
  OnConnect ep settings :=
    let settings := Property_set_list connect_settings settings in
    _ ← modify (te_give ep);
    _ ← modify te_signal;
    mret (ep, settings);
  OnErrorOccurred ep desc := mret ep;
}.

Abbreviation test_world := (connector_world (test_env K)).

(** The connector that is created, if it is. *)
Definition test_init : M test_world bool :=
  '(err, cc) ← CreateConnector (Property_list [PropertyEntry_ptr "ConnectorHandler" this]);
  mret (match err with None => true | Some _ => false end).

(** [cc] is null when it was not created. *)
Definition start_and_connecting (cc : bool) (addr : list byte) : M test_world unit :=
  if negb cc then undef
  else
    err ← TcpConnector_Start;
    match err with
    | Some _ => mret tt
    | None => _ ← TcpConnector_Connect connect_fuel addr 0; mret tt
    end.

(** [Endpoint::Close] of an endpoint that is bound to no container. *)
Definition detached_Close (ep : EndpointImpl) : M (os K) EndpointImpl :=
  _ ← raptor_set_socket_shutdown (fd_int ep);
  mret (SetFd InvalidFd ep).

Definition test_stop : M test_world unit :=
  e ← gets cw_env;
  ep ← of_option (te_ep e);
  ep ← connector_os (detached_Close ep);
  _ ← connector_env (modify (te_with_ep (Some ep)));
  TcpConnector_Shutdown.

Definition test_Send (msg : list byte) : M test_world Z :=
  e ← gets cw_env;
  ep ← of_option (te_ep e);
  if (length msg =? 0)%nat then mret 0 else connector_os (SyncSend (Some <$> msg) ep).

Definition test_Recv (len : Z) : M test_world (Z * list byte) :=
  e ← gets cw_env;
  ep ← of_option (te_ep e);
  if len =? 0 then mret (0, []) else connector_os (SyncRecv len ep).

(** [~ClientHandler] *)
Definition test_dtor (cc : bool) : M test_world unit := DestroyConnector cc.

Fixpoint receive_times (n : nat) : M test_world unit :=
  match n with
  | O => mret tt
  | S n => _ ← test_Recv 512; receive_times n
  end.

(** What [main] does once it was woken up. *)
Definition conversation : M test_world unit :=
  _ ← test_Send (str "FirstRequest");
  _ ← test_Recv 512;
  _ ← test_Send (str "SecondRequest");
  _ ← test_Recv 512;
  receive_times 30.

(** [g_cv.Wait(&g_mtx)]: the mutex must be held. *)
Definition main_wait : M test_world unit :=
  e ← gets cw_env;
  if te_locked e then connector_env (modify (te_wait true)) else undef.

(** ** The threads *)

Inductive main_at : Type := AtStart | AtWait | Waiting | AtConversation | AtEnd | Ended.

Record test_program : Type := {
  tp_world : test_world;
  tp_cc : bool;
  tp_main : main_at;
}.

(** [SpuriousWakeup]: a wait can end without a signal. *)
Inductive test_choice : Type :=
  | MainStep
  | SpuriousWakeup
  | PollEvent (i : nat) (event_type error_code : Z).

Definition then_at (cc : bool) (next : main_at) (r : outcome (unit * test_world)) : outcome test_program :=
  match r with
  | Ret (_, w) => Ret {| tp_world := w; tp_cc := cc; tp_main := next |}
  | Undef => Undef
  | Abort => Abort
  | NoFuel => NoFuel
  end.

(** [None]: main blocks, or has ended. *)
Definition main_step (s : test_program) : option (outcome test_program) :=
  let w := tp_world s in
  match tp_main s with
  | AtStart =>
      Some (match test_init w with
            | Ret (cc, w) => then_at cc AtWait (start_and_connecting cc (str "localhost:50051") w)
            | Undef => Undef | Abort => Abort | NoFuel => NoFuel
            end)
  | AtWait => Some (then_at (tp_cc s) Waiting (main_wait w))
  | Waiting =>
      if te_waiting (cw_env w) then None
      else Some (then_at (tp_cc s) AtConversation (connector_env (modify (te_wait false)) w))
  | AtConversation => Some (then_at (tp_cc s) AtEnd (conversation w))
  | AtEnd => Some (then_at (tp_cc s) Ended ((_ ← test_stop; test_dtor (tp_cc s)) w))
  | Ended => None
  end.

(** The connector's thread runs until [Shutdown]. *)
Definition test_step (c : test_choice) (s : test_program) : option (outcome test_program) :=
  match c with
  | MainStep => main_step s
  | SpuriousWakeup =>
      match tp_main s with
      | Waiting =>
          if te_waiting (cw_env (tp_world s))
          then Some (then_at (tp_cc s) Waiting (connector_env (modify te_signal) (tp_world s))) else None
      | _ => None
      end
  | PollEvent i event_type error_code =>
      match tp_main s with
      | AtStart | Ended => None
      | at_ => Some (then_at (tp_cc s) at_ (run_connector_op connect_fuel (ConnectorEvent i event_type error_code) (tp_world s)))
      end
  end.

Inductive test_run : list test_choice -> test_program -> test_program -> Prop :=
  | trun_nil s : test_run [] s s
  | trun_cons c cs s s1 s2 : test_step c s = Some (Ret s1) -> test_run cs s1 s2 -> test_run (c :: cs) s s2.

(** [locked]: whether main holds the mutex when it comes to the wait; it does not. *)
Definition test_new (locked : bool) (o : os K) : test_program := {|
  tp_world := connector_start {| te_os := o; te_ep := None; te_given := []; te_locked := locked; te_waiting := false |};
  tp_cc := false;
  tp_main := AtStart;
|}.

(** ** Waiting *)

(** main never locks the mutex it waits with. *)
Lemma wait_without_lock (s : test_program) :
  tp_main s = AtWait -> te_locked (cw_env (tp_world s)) = false -> test_step MainStep s = Some Undef.
Proof using Type.
  intros Hat Hl. unfold test_step, main_step. rewrite Hat. unfold main_wait, mbind, M_bind, gets. by rewrite Hl.
Qed.

(** Nobody is left to give the signal: no connection is pending. *)
Definition deserted (s : test_program) : Prop :=
  tp_main s = Waiting /\ te_waiting (cw_env (tp_world s)) = true /\ tc_records (cw_connector (tp_world s)) = [].

(** Also with the lock held the program can wait for ever: once the only attempt to connect
    has succeeded before main waits, or has failed, nothing but a spurious wake-up ends
    the wait. *)
Lemma deserted_forever (cs : list test_choice) (s s' : test_program) :
  deserted s -> SpuriousWakeup ∉ cs -> test_run cs s s' -> s' = s.
Proof using Type.
  intros Hd Hcs Hrun. induction Hrun as [s|c cs s s1 s2 Hstep Hrun IH]; [done|].
  apply not_elem_of_cons in Hcs as [Hc Hcs]. assert (s1 = s) as ->; [|by apply IH].
  destruct Hd as (Hat & Hw & Hr). destruct s as [w cc at_]. cbn in *. subst at_.
  destruct c as [| |i ty code]; [|done|].
  - cbn in Hstep. by rewrite Hw in Hstep.
  - cbn in Hstep. unfold mbind, M_bind, gets in Hstep. rewrite Hr in Hstep. cbn in Hstep. by injection Hstep as <-.
Qed.
End Program.

(** ** What the program has open *)

(** What holds of the environment while main is at a point, whatever the handler does. *)
Definition given_ok {K} (e : test_env K) : Prop :=
  te_ep e = last (te_given e) /\ Forall (fun ep => 0 < fd_int ep) (te_given e).

Definition phase_ok {K} (at_ : main_at) (e : test_env K) : Prop :=
  match at_ with
  | AtStart => given_ok e
  | AtWait => given_ok e /\ te_locked e = true
  | Waiting => given_ok e /\ (te_waiting e = false -> te_given e <> [])
  | AtConversation | AtEnd => given_ok e /\ te_given e <> []
  | Ended => True
  end.

Lemma given_nonempty {K} (e : test_env K) :
  given_ok e -> te_given e <> [] -> exists l ep, te_given e = l ++ [ep] /\ te_ep e = Some ep /\ 0 < fd_int ep.
Proof.
  intros [Hep Hall] Hne. destruct (exists_last Hne) as (l & ep & E). exists l, ep. rewrite E, last_snoc in Hep.
  rewrite E in Hall. apply Forall_app in Hall as [_ Hall]. by inversion Hall.
Qed.

Section Laws.
Context {K : Type} `{Kernel K}.

(** Connecting gives the descriptor to the environment, in every phase. *)
#[export] Program Instance test_laws (at_ : main_at) : ConnectorLaws (test_env K) := {|
  cl_owns e _ := fd_int <$> te_given e;
  cl_ok := phase_ok at_;
|}.
Next Obligation. done. Qed.
Next Obligation. by intros []. Qed.
Next Obligation.
  intros at_ fd local remote p e calls Hfd Hok ep. assert (fd_int ep = fd) as Efd by (apply fd_int_new; lia).
  apply spends_bind_modify; [done|]. apply spends_bind_modify; [done|]. apply spends_ret. split.
  - cbn. rewrite fmap_app. cbn. rewrite Efd. solve_Permutation.
  - assert (given_ok e -> given_ok (te_signal (te_give ep e))) as Hg.
    { intros [He Hall]. split; [cbn; by rewrite last_snoc|]. apply Forall_app. split; [done|]. constructor; [lia|done]. }
    assert (te_given e ++ [ep] <> []) as Hne by (intros E%app_eq_nil; by destruct E).
    destruct at_; cbn in *; naive_solver.
Qed.
Next Obligation. intros at_ fd local remote err e calls Hok ep. by apply spends_ret. Qed.
End Laws.

Section Safe.
Context {K : Type} `{Kernel K} `{LibC} `{Resolver K} `{!ResolverLaws (K := K)}.
Context `{!KernelThreads} `{!KernelEpoll} `{!KernelSockets}.
Variable connect_fuel : nat.
Hypothesis connect_ends : forall k fd addr, exists n, (n < connect_fuel)%nat /\
  interrupted (sys_call (kernel_after n k (SysConnect fd addr)) (SysConnect fd addr)).1 = false.
Variable this : Z.
Hypothesis Hthis : 0 < this < 2 ^ 63.

#[local] Abbreviation test_world := (connector_world (test_env K)).
#[local] Abbreviation tspends := (spends (trace_of (cw_os (E := test_env K)))).
#[local] Abbreviation twf at_ := (connector_wf (ConnectorLaws0 := test_laws at_) alive_or_active).
#[local] Abbreviation theld := (connector_held (ConnectorLaws0 := test_laws AtStart)).

Lemma twf_env at_ at' e (w : test_world) :
  twf at_ w -> phase_ok at' e -> twf at' (cw_with_env e w).
Proof using Type. intros (_ & Hwf) He. split; [exact He|exact Hwf]. Qed.

(** The synchronous calls are the process's. *)
Lemma synchronous_spends {A} (m : EndpointImpl -> M (os K) A) (len : nat) (zero : A) ep (w : test_world) :
  te_ep (cw_env w) = Some ep -> (forall ep, quiet (m ep)) ->
  tspends (e ← gets cw_env; ep ← of_option (te_ep e); if (len =? 0)%nat then mret zero else connector_os (m ep)) w
    (fun _ w' o c => o = [] /\ c = [] /\ exists o', w' = cw_with_os o' w).
Proof using Type.
  intros Hep Hm. apply spends_bind_gets, spends_bind_option. exists ep. split; [done|].
  destruct (len =? 0)%nat; [apply spends_ret; split_and!; [done..|]; exists (cw_os w); by destruct w as [[] ? ?]|].
  apply spends_os_last. eapply spends_os_quiet; [apply cw_os_with|apply Hm|]. intros a o'. apply spends_ret.
  split_and!; [done..|by exists o'].
Qed.

(** So is a sequence of them. *)
Lemma quiet_then {A B} (m : M test_world A) (f : A -> M test_world B) w :
  tspends m w (fun _ w' o c => o = [] /\ c = [] /\ exists o', w' = cw_with_os o' w) ->
  (forall a o', tspends (f a) (cw_with_os o' w) (fun _ w' o c => o = [] /\ c = [] /\ exists o'', w' = cw_with_os o'' (cw_with_os o' w))) ->
  tspends (m ≫= f) w (fun _ w' o c => o = [] /\ c = [] /\ exists o', w' = cw_with_os o' w).
Proof using Type.
  intros Hm Hf. eapply spends_bind; [exact Hm|]. intros a w' o c (-> & -> & o' & ->).
  eapply spends_mono; [apply Hf|]. intros b w2 o c (-> & -> & o'' & ->). split_and!; [done..|by exists o''].
Qed.

Lemma send_recv_spends ep (w : test_world) :
  te_ep (cw_env w) = Some ep ->
  (forall msg, tspends (test_Send msg) w (fun _ w' o c => o = [] /\ c = [] /\ exists o', w' = cw_with_os o' w)) /\
  tspends (test_Recv 512) w (fun _ w' o c => o = [] /\ c = [] /\ exists o', w' = cw_with_os o' w).
Proof using Type.
  intros Hep. split.
  - intros msg. eapply (synchronous_spends (SyncSend (Some <$> msg))); [done|]. intros ep'. unfold SyncSend. auto with quiet.
  - eapply (synchronous_spends (SyncRecv 512) 1 (0, [])); [done|]. intros ep'. unfold SyncRecv. auto with quiet.
Qed.

Lemma conversation_spends ep (w : test_world) :
  te_ep (cw_env w) = Some ep ->
  tspends conversation w (fun _ w' o c => o = [] /\ c = [] /\ exists o', w' = cw_with_os o' w).
Proof using Type.
  intros Hep. unfold conversation. do 4 (apply quiet_then; [by eapply send_recv_spends|]; intros ? ?).
  match goal with |- tspends _ ?v _ => set (w' := v) end.
  assert (te_ep (cw_env w') = Some ep) as Hep' by done. clearbody w'. revert w' Hep'.
  generalize 30%nat. intros n. induction n as [|n IH]; intros w' Hep'; cbn [receive_times].
  - apply spends_ret. split_and!; [done..|]. exists (cw_os w'). by destruct w' as [[] ? ?].
  - apply quiet_then; [by eapply send_recv_spends|]. intros ? ?. by apply IH.
Qed.

(** What the connector does on its own leaves the endpoints alone. *)
Definition keeps_given {A} (m : M test_world A) : Prop := forall w,
  match m w with Ret (_, w') => te_given (cw_env w') = te_given (cw_env w) | _ => True end.

Lemma kg_bind {A B} (m : M test_world A) (f : A -> M test_world B) :
  keeps_given m -> (forall a, keeps_given (f a)) -> keeps_given (m ≫= f).
Proof using Type.
  intros Hm Hf w. unfold mbind, M_bind. specialize (Hm w). destruct (m w) as [[a w']| | |]; [|done..].
  specialize (Hf a w'). destruct (f a w') as [[b w'']| | |]; [congruence|done..].
Qed.

Lemma kg_os {A} (m : M (os K) A) : keeps_given (connector_os m).
Proof using Type. intros w. unfold connector_os, zoom. by destruct (m _) as [[a o]| | |]. Qed.

Lemma kg_of_option {A} (x : option A) : keeps_given (of_option x).
Proof using Type. by destruct x. Qed.

Lemma keeps_shutdown : keeps_given TcpConnector_Shutdown.
Proof using Type.
  unfold TcpConnector_Shutdown. apply kg_bind; [done|]. intros c. destruct (tc_shutdown c); [done|].
  apply kg_bind; [done|]. intros _. apply kg_bind; [apply kg_of_option|]. intros p.
  apply kg_bind; [apply kg_os|]. intros p'. apply kg_bind; [done|]. intros _. apply kg_bind; [apply kg_os|done].
Qed.

Lemma keeps_dtor : keeps_given TcpConnector_dtor.
Proof using Type.
  apply kg_bind; [apply keeps_shutdown|]. intros _. apply kg_bind; [done|]. intros c. apply kg_os.
Qed.

Lemma spends_given {A} (m : M test_world A) w Q :
  keeps_given m -> tspends m w Q ->
  tspends m w (fun a w' o c => Q a w' o c /\ te_given (cw_env w') = te_given (cw_env w)).
Proof using Type.
  intros Hk Hm. unfold spends, wp in *. specialize (Hk w). destruct (m w) as [[a w']| | |]; [|done..].
  destruct Hm as (t & Et & HQ). by exists t.
Qed.

(** [stop] closes the last endpoint, and what the connector has but the epoll descriptor. *)
Lemma test_stop_spends ep (w : test_world) :
  twf AtEnd w -> te_ep (cw_env w) = Some ep -> 0 < fd_int ep ->
  tspends test_stop w (fun _ w' o c => exists c', c = fd_int ep :: c' /\
    o ++ theld w ≡ₚ c' ++ theld w' /\ twf Ended w' /\ te_given (cw_env w') = te_given (cw_env w)).
Proof using Type*.
  intros Hw Hep Hfd. unfold test_stop. apply spends_bind_gets, spends_bind_option. exists ep. split; [done|].
  eapply (spends_os_fd _ _ cw_os_with _ _ _ _ (fun ep' o c => ep' = SetFd InvalidFd ep /\ o = [] /\ c = [fd_int ep])).
  { unfold detached_Close. eapply fd_bind; [by apply raptor_shutdown_fds|]. intros _ ? ? [-> ->]. by apply fd_ret. }
  intros ep' o1 ? ? (-> & -> & ->). set (w1 := cw_with_env (te_with_ep (Some (SetFd InvalidFd ep)) (te_with_os o1 (cw_env w))) w).
  eapply (spends_bind _ _ _ _ _ (fun _ w' o c => w' = w1 /\ o = [] /\ c = [])).
  { eapply (spends_part _ (trace_of env_os)); [done|done|]. by apply spends_modify. }
  intros _ w' ? ? (-> & -> & ->).
  assert (twf Ended w1) as Hw1 by (by eapply twf_env).
  eapply spends_mono; [apply spends_given; [apply keeps_shutdown|exact (connector_shutdown_balanced (ConnectorLaws0 := test_laws Ended) w1 Hw1)]|].
  cbn beta. intros _ w' o c [(Hbal & Hw' & _) Hgiven]. exists c. by split_and!.
Qed.

(** The destructor closes the rest: all was closed but the endpoints that the last one
    replaced. *)
Lemma test_end_spends (w : test_world) :
  twf AtEnd w ->
  tspends (_ ← test_stop; test_dtor true) w (fun _ w' o c =>
    o ++ theld w ≡ₚ c ++ (fd_int <$> removelast (te_given (cw_env w'))) /\ tc_records (cw_connector w') = []).
Proof using Type*.
  intros Hw. pose proof Hw as ([Hg Hne] & _). destruct (given_nonempty _ Hg Hne) as (l & ep & El & Hep & Hfd).
  eapply spends_bind; [by eapply test_stop_spends|]. cbn beta. intros _ w1 o1 ? (c1 & -> & Hb1 & Hw1 & Hg1).
  unfold test_dtor, DestroyConnector.
  eapply spends_bind; [apply spends_given; [apply keeps_shutdown|exact (connector_shutdown_balanced (ConnectorLaws0 := test_laws Ended) w1 Hw1)]|].
  cbn beta. intros _ w2 o2 c2 [(Hb2 & Hw2 & _) Hg2].
  eapply spends_mono; [apply spends_given; [apply keeps_dtor|exact (connector_dtor_spends (ConnectorLaws0 := test_laws Ended) w2 Hw2)]|].
  cbn beta. intros _ w3 o3 c3 [(Hb3 & _ & Hr & _) Hg3]. split; [|done].
  cbn [cl_owns test_laws] in Hb3. rewrite Hg3, Hg2, Hg1, El in *. rewrite removelast_last, fmap_app in *. cbn [fmap list_fmap] in Hb3.
  transitivity (o3 ++ o2 ++ (o1 ++ theld w)); [solve_Permutation|]. rewrite Hb1.
  transitivity (c1 ++ o3 ++ (o2 ++ theld w1)); [solve_Permutation|]. rewrite Hb2.
  transitivity (c1 ++ c2 ++ (o3 ++ theld w2)); [solve_Permutation|]. rewrite Hb3. solve_Permutation.
Qed.

(** What the program still has open. *)
Definition test_owned (s : test_program (K := K)) : list Z :=
  match tp_main s with
  | Ended => fd_int <$> removelast (te_given (cw_env (tp_world s)))
  | _ => theld (tp_world s)
  end.

Definition test_inv (s : test_program (K := K)) : Prop :=
  match tp_main s with
  | AtStart => False
  | Ended => tc_records (cw_connector (tp_world s)) = []
  | at_ => twf at_ (tp_world s) /\ tc_shutdown (cw_connector (tp_world s)) = false /\ tp_cc s = true
  end.

(** A step is done when it returns, and what it opened and closed is accounted for. *)
Definition step_done (s : test_program (K := K)) (r : outcome (test_program (K := K))) : Prop :=
  exists s1 t, r = Ret s1 /\ os_trace (cw_os (tp_world s1)) = os_trace (cw_os (tp_world s)) ++ t /\
    test_inv s1 /\ opened t ++ test_owned s ≡ₚ closed t ++ test_owned s1.

Lemma then_done (m : M test_world unit) s next :
  tspends m (tp_world s) (fun _ w o c =>
    let s1 := {| tp_world := w; tp_cc := tp_cc s; tp_main := next |} in
    test_inv s1 /\ o ++ test_owned s ≡ₚ c ++ test_owned s1) ->
  step_done s (then_at (tp_cc s) next (m (tp_world s))).
Proof using Type.
  unfold spends, wp. intros Hm. destruct (m (tp_world s)) as [[[] w]| | |]; [|done..].
  destruct Hm as (t & Et & Hs & Hb). cbn. eexists _, t. done.
Qed.

(** Main sets the members of the condition variable. *)
Lemma wait_step_done (b : bool) s next (m := connector_env (modify (te_wait b)) : M test_world unit) :
  test_inv s -> tp_main s <> AtStart -> tp_main s <> Ended -> next <> AtStart -> next <> Ended ->
  phase_ok next (te_wait b (cw_env (tp_world s))) ->
  step_done s (then_at (tp_cc s) next (m (tp_world s))).
Proof using Type.
  intros Hs Hn1 Hn2 Hn3 Hn4 Hp. apply then_done. eapply (spends_part _ (trace_of env_os)); [done|done|].
  apply spends_modify; [done|]. cbn zeta. unfold test_inv, test_owned in *. cbn [tp_main tp_world tp_cc].
  assert (twf (tp_main s) (tp_world s) /\ tc_shutdown (cw_connector (tp_world s)) = false /\ tp_cc s = true) as (Hw & Hsd & Hcc)
    by (by destruct (tp_main s)).
  pose proof (twf_env _ next _ _ Hw Hp) as Hw'. split.
  - by destruct next.
  - replace (match next with Ended => _ | _ => _ end) with (theld (tp_world s)) by (by destruct next).
    by destruct (tp_main s).
Qed.

Lemma test_step_done c s r :
  test_inv s -> c <> SpuriousWakeup -> test_step connect_fuel this c s = Some r -> step_done s r.
Proof using Type*.
  intros Hs Hc. destruct c as [| |i ty code]; [|done|]; cbn [test_step].
  - unfold main_step. pose proof Hs as Hs'. unfold test_inv in Hs'.
    destruct (tp_main s) eqn:Eat; [done|..].
    + intros [= <-]. destruct Hs' as ([[Hg Hl] _] & _). unfold main_wait, mbind, M_bind, gets. rewrite Hl.
      apply wait_step_done; rewrite ?Eat; try done.
    + destruct (te_waiting (cw_env (tp_world s))) eqn:Ew; [done|]. intros [= <-]. destruct Hs' as ([[Hg Hne] _] & _).
      apply wait_step_done; rewrite ?Eat; try done. by split; [|apply Hne].
    + intros [= <-]. destruct Hs' as (Hw & Hsd & Hcc). pose proof Hw as ([Hg Hne] & _).
      destruct (given_nonempty _ Hg Hne) as (l & ep & _ & Hep & _). apply then_done.
      eapply spends_mono; [by eapply conversation_spends|]. cbn beta zeta. intros _ w o c (-> & -> & o' & ->).
      unfold test_inv, test_owned. rewrite Eat. cbn [tp_main tp_world tp_cc]. split; [|done]. split; [|done].
      by eapply twf_env.
    + intros [= <-]. destruct Hs' as (Hw & Hsd & Hcc). apply then_done. rewrite Hcc.
      eapply spends_mono; [by apply test_end_spends|]. cbn beta zeta. intros _ w o c [Hb Hr].
      unfold test_inv, test_owned. rewrite Eat. done.
    + done.
  - pose proof Hs as Hs'. unfold test_inv in Hs'.
    assert (forall next, tp_main s = next -> next <> AtStart -> next <> Ended ->
      step_done s (then_at (tp_cc s) next (run_connector_op connect_fuel (ConnectorEvent i ty code) (tp_world s)))) as Hev.
    { intros next Eat Hn1 Hn2. apply then_done. rewrite Eat in Hs'.
      assert (twf next (tp_world s) /\ tc_shutdown (cw_connector (tp_world s)) = false /\ tp_cc s = true) as (Hw & Hsd & Hcc)
        by (by destruct next).
      eapply spends_mono; [exact (run_connector_op_balanced (ConnectorLaws0 := test_laws next) connect_fuel connect_ends _ _ Hw Hsd)|].
      cbn beta zeta. intros _ w o c (Hb & Hw1 & Hsd1). unfold test_inv, test_owned. rewrite Eat. cbn [tp_main tp_world tp_cc].
      by destruct next. }
    destruct (tp_main s) eqn:Eat; [done|..]; intros [= <-]; by apply Hev.
Qed.

(** *** From the start *)

#[local] Abbreviation first_env o := (te_os (tp_world (test_new true o)).(cw_env)).

Lemma test_init_spends (o : os K) :
  tspends (test_init this) (tp_world (test_new true o)) (fun cc w op cl => op ≡ₚ cl ++ theld w /\
    (cc = true -> connector_wf (ConnectorLaws0 := test_laws AtWait) (eq kAlive) w /\
      tc_shutdown (cw_connector w) = false)).
Proof using Type*.
  unfold test_init, CreateConnector.
  assert (GetValue to_intptr "ConnectorHandler" 0 (Property_list [PropertyEntry_ptr "ConnectorHandler" this]) = this) as ->.
  { unfold GetValue, Property_list, Property_set_list. cbn [fold_left]. unfold Property_set, PropertyEntry_ptr, Entry_Key, Entry_Value, Property.
    cbn [fst snd]. rewrite lookup_insert_eq. apply to_intptr_u64. lia. }
  rewrite (proj2 (Z.eqb_neq _ _)) by lia.
  eapply (spends_bind _ _ _ _ _ (fun r w op cl => op ≡ₚ cl ++ theld w /\
    (r.1 = None -> connector_wf (ConnectorLaws0 := test_laws AtWait) (eq kAlive) w /\ tc_shutdown (cw_connector w) = false))).
  - apply spends_bind_modify; [done|].
    eapply spends_bind.
    { apply (connector_init_balanced (ConnectorLaws0 := test_laws AtWait)); [done|]. by split. }
    cbn beta. intros err w o1 c1 [Hb Hw]. change (connector_held (connector_start _)) with (@nil Z) in Hb.
    rewrite app_nil_r in Hb. destruct err as [err|]; apply spends_ret; rewrite !app_nil_r; split; try exact Hb; [done|].
    intros _. destruct Hw as [Hw Hsd]. split; [exact Hw|by apply Hsd].
  - cbn beta. intros [err out] w o1 c1 [Hb Hw]. apply spends_ret. rewrite !app_nil_r. split; [done|].
    intros Herr. apply Hw. cbn. by destruct err.
Qed.

Lemma start_connecting_spends addr (w : test_world) :
  connector_wf (ConnectorLaws0 := test_laws AtWait) (eq kAlive) w -> tc_shutdown (cw_connector w) = false ->
  tspends (start_and_connecting connect_fuel true addr) w (fun _ w' o c => o ++ theld w ≡ₚ c ++ theld w' /\
    twf AtWait w' /\ tc_shutdown (cw_connector w') = false).
Proof using Type*.
  intros Hw Hsd. unfold start_and_connecting. cbn [negb].
  eapply (balanced_bind (trace_of cw_os) theld); [exact (connector_start_balanced (ConnectorLaws0 := test_laws AtWait) w Hw Hsd)|].
  cbn beta. intros err w1 [Hw1 Hsd1]. destruct err as [err|]; [by apply balanced_ret|].
  eapply (balanced_bind (trace_of cw_os) theld);
    [exact (connect_balanced (ConnectorLaws0 := test_laws AtWait) connect_fuel connect_ends addr 0 w1 Hw1 Hsd1)|].
  cbn beta. intros err w2 [Hw2 Hsd2]. by apply balanced_ret.
Qed.

Lemma first_step_done (o : os K) s0 :
  test_step connect_fuel this MainStep (test_new true o) = Some (Ret s0) ->
  step_done (test_new true o) (Ret s0).
Proof using Type*.
  cbn [test_step]. unfold main_step. cbn [tp_main test_new].
  pose proof (test_init_spends o) as Hi. unfold spends, wp in Hi.
  destruct (test_init this _) as [[cc w]| | |]; [|done..]. destruct Hi as (t1 & E1 & Hb1 & Hw).
  destruct cc; [|done]. destruct (Hw eq_refl) as [Hw1 Hsd1].
  pose proof (start_connecting_spends (str "localhost:50051") w Hw1 Hsd1) as Hc. unfold spends, wp in Hc.
  destruct (start_and_connecting _ _ _ w) as [[[] w2]| | |]; [|done..]. destruct Hc as (t2 & E2 & Hb2 & Hw2 & Hsd2).
  intros [= <-]. exists {| tp_world := w2; tp_cc := true; tp_main := AtWait |}, (t1 ++ t2). cbn [tp_world tp_main].
  unfold trace_of in *. split; [done|]. split; [by rewrite E2, E1, app_assoc|]. split; [done|].
  unfold test_owned. cbn [tp_main tp_world test_new]. change (theld (connector_start _)) with (@nil Z).
  rewrite opened_app, closed_app, app_nil_r, Hb1.
  transitivity (closed t1 ++ (opened t2 ++ theld w)); [solve_Permutation|]. rewrite Hb2. solve_Permutation.
Qed.

Lemma test_run_done cs s s' :
  test_run connect_fuel this cs s s' -> SpuriousWakeup ∉ cs -> test_inv s -> step_done s (Ret s').
Proof using Type*.
  intros Hrun Hcs. induction Hrun as [s|c cs s s1 s2 Hstep Hrun IH]; intros Hs.
  - exists s, []. by rewrite app_nil_r.
  - apply not_elem_of_cons in Hcs as [Hc Hcs].
    destruct (test_step_done c s _ Hs (not_eq_sym Hc) Hstep) as (s1' & t1 & [= <-] & E1 & Hs1 & Hb1).
    destruct (IH Hcs Hs1) as (s2' & t2 & [= <-] & E2 & Hs2 & Hb2).
    exists s2, (t1 ++ t2). split; [done|]. split; [by rewrite E2, E1, app_assoc|]. split; [done|].
    rewrite opened_app, closed_app. transitivity (opened t2 ++ (opened t1 ++ test_owned s)); [solve_Permutation|]. rewrite Hb1.
    transitivity (closed t1 ++ (opened t2 ++ test_owned s1)); [solve_Permutation|]. rewrite Hb2. solve_Permutation.
Qed.

(** With the lock that it does not take, and without spurious wake-ups, the program is safe
    from the moment it has its connector: whatever the kernel, the resolver and the server
    answer and whenever the events of the connector's thread come, every step main and
    that thread can take is defined, and when main has ended, all descriptors were closed,
    each as often as it was opened, but those of endpoints that a later one replaced. *)
Theorem test_client_safe (o : os K) (cs : list test_choice) (s0 s : test_program) :
  test_step connect_fuel this MainStep (test_new true o) = Some (Ret s0) ->
  SpuriousWakeup ∉ cs -> test_run connect_fuel this cs s0 s ->
  (forall c r, c <> SpuriousWakeup -> test_step connect_fuel this c s = Some r -> exists s', r = Ret s') /\
  (tp_main s = Ended -> exists t, os_trace (cw_os (tp_world s)) = os_trace o ++ t /\
    opened t ≡ₚ closed t ++ (fd_int <$> removelast (te_given (cw_env (tp_world s)))) /\
    tc_records (cw_connector (tp_world s)) = []).
Proof using Type*.
  intros H0' Hcs Hrun. destruct (first_step_done o s0 H0') as (s0' & t0 & [= <-] & E0 & Hs0 & Hb0).
  destruct (test_run_done cs s0 s Hrun Hcs Hs0) as (s' & t & [= <-] & E & Hs & Hb). split.
  - intros c r Hc Hstep. destruct (test_step_done c s r Hs Hc Hstep) as (s' & t' & -> & _). by exists s'.
  - intros Hend. exists (t0 ++ t). split; [by rewrite E, E0, app_assoc|].
    unfold test_inv in Hs. rewrite Hend in Hs. split; [|done]. rewrite opened_app, closed_app.
    change (test_owned (test_new true o)) with (@nil Z) in Hb0. rewrite app_nil_r in Hb0. rewrite Hb0.
    unfold test_owned at 2 in Hb. rewrite Hend in Hb.
    transitivity (closed t0 ++ (opened t ++ test_owned s0)); [solve_Permutation|]. rewrite Hb. solve_Permutation.
Qed.
End Safe.

(** ** Two runs *)

#[local] Existing Instance connecting_kernel.
#[local] Existing Instance quiet_libc.
#[local] Existing Instance some_resolver.
#[local] Existing Instance connecting_kernel_threads.
#[local] Existing Instance connecting_kernel_epoll.
#[local] Existing Instance connecting_kernel_sockets.
#[local] Existing Instance some_resolver_laws.

Definition test_ran (cs : list test_choice) (s : test_program (K := Z)) : test_program :=
  fold_left (fun s c => match test_step 2 4096 c s with Some (Ret s') => s' | _ => s end) cs s.

Definition test_started (locked : bool) : test_program := test_ran [MainStep] (test_new locked (process_at 0)).

(** The connection is established while main waits: main talks and closes it. *)
Definition woken_up : list test_choice := [MainStep; PollEvent 0 kSendEvent 0; MainStep; MainStep; MainStep].

Lemma test_client_safe_witness : exists s,
  (forall c r, c <> SpuriousWakeup -> test_step 2 4096 c s = Some r -> exists s', r = Ret s') /\
  (tp_main s = Ended -> exists t, os_trace (cw_os (tp_world s)) = os_trace (process_at 0) ++ t /\
    opened t ≡ₚ closed t ++ (fd_int <$> removelast (te_given (cw_env (tp_world s)))) /\
    tc_records (cw_connector (tp_world s)) = []).
Proof.
  exists (test_ran woken_up (test_started true)).
  apply (test_client_safe 2 connecting_kernel_ends 4096 ltac:(lia) (process_at 0) woken_up (test_started true)).
  - vm_compute. reflexivity.
  - unfold woken_up. rewrite !not_elem_of_cons. split_and!; try discriminate. apply not_elem_of_nil.
  - unfold woken_up. do 5 (eapply trun_cons; [vm_compute; reflexivity|]). apply trun_nil.
Defined.

Example woken_up_ends :
  let s := test_ran woken_up (test_started true) in
  tp_main s = Ended /\ closed (os_trace (cw_os (tp_world s))) = [5; 3] /\ length (te_given (cw_env (tp_world s))) = 1%nat.
Proof. vm_compute. done. Qed.

(** It is established before main waits: main waits for ever. *)
Example signal_lost :
  deserted (test_ran [PollEvent 0 kSendEvent 0; MainStep] (test_started true)).
Proof. split_and!; vm_compute; reflexivity. Qed.

(** As it is, without the lock, the wait is undefined. *)
Example wait_undefined : test_step 2 4096 MainStep (test_started false) = Some Undef.
Proof. vm_compute. reflexivity. Qed.
