(* ===== verification/Echo.v ===== *)
(** * The echo protocol and its server (example/echo_server.cc; example/echo_client.cc, lines 64-67 and 113-117)

    A packet is an 8-byte header, the size of the payload and the id of the request as
    32-bit little-endian numbers, and the payload.  The server answers a request with
    a packet of the same id whose payload starts with [Response:].  The handlers are
    run against the connection that cuts the stream (Connection.v) and the container
    that sends the answer (Container.v). *)

From S2P Require Import Prelude.
From S2P Require Import Slice.
From S2P Require Import SliceBuffer.
From S2P Require Import OS.
From S2P Require Import SockAddr.
From S2P Require Import Endpoint.
From S2P Require Import Status.
From S2P Require Import Connection.
From S2P Require Import SlotTable.
From S2P Require Import SocketSetting.
From S2P Require Import Container.
From S2P Require Import Surface.
From S2P Require Import ContainerSafety.
From S2P Require Import Races.

Local Open Scope Z_scope.

(** ** The header in memory *)

Fixpoint le_bytes (n : nat) (z : Z) : list byte :=
  match n with O => [] | S n => byte_of z :: le_bytes n (z / 256) end.

Fixpoint le_val (d : list byte) : Z :=
  match d with [] => 0 | b :: d => byte_val b + 256 * le_val d end.

Record echo_header : Type := {
  payload_size : Z;
  request_id : Z;
}.

Definition sizeof_echo_header : nat := 8.

Definition header_bytes (h : echo_header) : list byte :=
  le_bytes 4 (payload_size h) ++ le_bytes 4 (request_id h).

(** Reading through a pointer to a header: the eight bytes must be there, and written. *)
Definition load_header (d : list cell) : option echo_header :=
  if (length d <? sizeof_echo_header)%nat then None
  else
    bs ← mapM id (take sizeof_echo_header d);
    Some {| payload_size := le_val (take 4 bs); request_id := le_val (drop 4 bs) |}.

(** The sum is a [size_t]; the result is an [int].  All bytes of a receive buffer are
    written, so that the last case does not occur. *)
Definition echo_OnCheckPackageLength (_ : EndpointImpl) (data : list cell) : Z :=
  if (length data <? sizeof_echo_header)%nat then 0
  else match load_header data with
       | Some p => i32 (u64 (Z.of_nat sizeof_echo_header + payload_size p))
       | None => 0
       end.

(** ** The server *)

Definition RESPONSE : list byte := str "Response:".
Definition RESPONSE_LEN : nat := 9.

(** [memcpy] from [pos] of a storage. *)
Definition cells_read (pos n : nat) (d : list cell) : option (list cell) :=
  if (pos + n <=? length d)%nat then Some (take n (drop pos d)) else None.

(** The slice [OnMessage] makes: the header's fields, the word, the payload. *)
Definition make_response (msg : Slice) : option Slice :=
  request ← load_header (Slice_begin msg);
  let n := Z.to_nat (payload_size request) in
  let rsp_slice := MakeSliceByLength (n + sizeof_echo_header + RESPONSE_LEN) in
  rsp_slice ← Slice_write 0 (Some <$> le_bytes 4 (u32 (payload_size request + Z.of_nat RESPONSE_LEN))) rsp_slice;
  rsp_slice ← Slice_write 4 (Some <$> le_bytes 4 (request_id request)) rsp_slice;
  rsp_slice ← Slice_write sizeof_echo_header (Some <$> RESPONSE) rsp_slice;
  payload ← cells_read sizeof_echo_header n (Slice_begin msg);
  Slice_write (sizeof_echo_header + RESPONSE_LEN) payload rsp_slice.

Definition echo_OnMessage {K} `{Kernel K} `{LibC} (ep : nat) (msg : Slice) : M (world K) Z :=
  rsp_slice ← of_option (make_response msg);
  _ ← Handle_SendSlice ep rsp_slice;
  mret 0.

(** ** The packets of requests and answers *)

Definition request : Type := Z * list byte.

Definition frame (r : request) : list byte :=
  header_bytes {| payload_size := Z.of_nat (length r.2); request_id := r.1 |} ++ r.2.

Definition wire (rs : list request) : list cell := Some <$> mjoin (frame <$> rs).

Definition answer (r : request) : request := (r.1, RESPONSE ++ r.2).

(** The id is 32 bits wide and the length of the whole packet is an [int]. *)
Definition request_ok (r : request) : Prop :=
  is_u32 r.1 /\ Z.of_nat (length r.2) + 8 < 2 ^ 31.

Example frame_hi : frame (258, str "hi") = [x02; x00; x00; x00; x02; x01; x00; x00; x68; x69].
Proof. reflexivity. Qed.

(** ** Headers round-trip *)

Lemma length_le_bytes n z : length (le_bytes n z) = n.
Proof. revert z. induction n as [|n IH]; intros z; cbn; [done|]. by rewrite IH. Qed.

Lemma le_val_bytes n z : le_val (le_bytes n z) = z mod 256 ^ Z.of_nat n.
Proof.
  revert z. induction n as [|n IH]; intros z; cbn [le_bytes le_val].
  - change (256 ^ Z.of_nat 0) with 1. by rewrite Z.mod_1_r.
  - rewrite IH, byte_val_of, Nat2Z.inj_succ, Z.pow_succ_r by lia.
    rewrite Z.rem_mul_r by lia. done.
Qed.

Lemma le_val_u32 z : is_u32 z -> le_val (le_bytes 4 z) = z.
Proof. intros Hz. rewrite le_val_bytes. apply Z.mod_small. exact Hz. Qed.

Lemma length_header h : length (header_bytes h) = sizeof_echo_header.
Proof. unfold header_bytes. by rewrite length_app, !length_le_bytes. Qed.

Lemma mapM_written (d : list byte) : mapM id (Some <$> d) = Some d.
Proof. induction d as [|b d IH]; [done|]. cbn. by rewrite IH. Qed.

Lemma load_header_bytes h x :
  is_u32 (payload_size h) -> is_u32 (request_id h) ->
  load_header ((Some <$> header_bytes h) ++ x) = Some h.
Proof.
  intros Hp Hr. unfold load_header. pose proof (length_header h) as Hl.
  rewrite length_app, length_fmap, Hl.
  rewrite (proj2 (Nat.ltb_ge _ _)) by lia.
  rewrite take_app_length' by (by rewrite length_fmap). rewrite mapM_written. cbn [mbind option_bind].
  unfold header_bytes. rewrite take_app_length', drop_app_length' by (by rewrite length_le_bytes).
  rewrite !le_val_u32 by done. by destruct h.
Qed.

Lemma load_header_prefix d d' :
  d `prefix_of` d' -> (sizeof_echo_header <= length d)%nat -> load_header d' = load_header d.
Proof.
  intros [x ->] Hl. unfold load_header. rewrite length_app.
  rewrite !(proj2 (Nat.ltb_ge _ _)) by lia. by rewrite take_app_le by lia.
Qed.

(** ** The handler's answer *)

Section Check.
Variable ep : EndpointImpl.
Abbreviation check := (echo_OnCheckPackageLength ep).

Lemma check_long d h : load_header d = Some h -> is_u32 (payload_size h) -> check d = i32 (8 + payload_size h).
Proof.
  intros Hd Hp. unfold echo_OnCheckPackageLength. rewrite Hd. unfold load_header in Hd.
  destruct (length d <? sizeof_echo_header)%nat; [done|]. unfold u64. rewrite wrap_small; [done|].
  unfold is_u32, sizeof_echo_header in *. lia.
Qed.

Lemma check_prefix_stable : prefix_stable check.
Proof.
  intros d d' Hpre Hd. unfold echo_OnCheckPackageLength in *.
  destruct (Nat.ltb_spec (length d) sizeof_echo_header) as [|Hl]; [done|].
  assert (sizeof_echo_header <= length d')%nat as Hl' by (apply prefix_length in Hpre; lia).
  apply Nat.ltb_ge in Hl'. by rewrite Hl', (load_header_prefix d d').
Qed.

(** A header is seen whole through the window. *)
Lemma load_header_window q : (sizeof_echo_header <= length q)%nat -> load_header (window q) = load_header q.
Proof.
  intros Hq. unfold window. destruct (length q <=? header_size)%nat eqn:E; [done|].
  apply Nat.leb_gt in E. symmetry. apply load_header_prefix; [apply prefix_take|].
  rewrite length_take. unfold sizeof_echo_header, header_size in *. lia.
Qed.

(** What the parser does with a stream that starts with a header. *)
Lemma verdict_header h x :
  is_u32 (payload_size h) -> is_u32 (request_id h) ->
  check (window ((Some <$> header_bytes h) ++ x)) = i32 (8 + payload_size h).
Proof.
  intros Hp Hr. apply check_long; [|done]. rewrite load_header_window; [by apply load_header_bytes|].
  rewrite length_app, length_fmap, length_header. lia.
Qed.

Lemma frame_length r : length (frame r) = (8 + length r.2)%nat.
Proof. unfold frame. by rewrite length_app, length_header. Qed.

Lemma verdict_frame r x : request_ok r -> verdict check ((Some <$> frame r) ++ x) = VPacket (length (frame r)).
Proof.
  intros [Hid Hlen]. unfold verdict. rewrite length_app, length_fmap, frame_length.
  unfold frame. rewrite fmap_app, <- app_assoc, verdict_header by (unfold is_u32 in *; cbn; lia).
  cbn [payload_size]. unfold i32. rewrite swrap_small by lia.
  rewrite (proj2 (Z.ltb_ge _ _)), (proj2 (Z.eqb_neq _ _)) by lia. cbn [andb].
  rewrite (proj2 (Nat.ltb_ge _ _)) by lia. f_equal. lia.
Qed.

Lemma wire_cons r rs : wire (r :: rs) = (Some <$> frame r) ++ wire rs.
Proof. unfold wire. cbn. by rewrite fmap_app. Qed.

(** The parser cuts the requests of a stream apart. *)
Lemma split_wire rs x :
  Forall request_ok rs ->
  split_stream check (wire rs ++ x) =
    let r := split_stream check x in
    {| sp_packets := ((fun r => Some <$> frame r) <$> rs) ++ sp_packets r;
       sp_rest := sp_rest r; sp_error := sp_error r |}.
Proof.
  induction 1 as [|r rs Hr Hrs IH].
  { change (wire [] ++ x) with x. by destruct (split_stream check x). }
  rewrite wire_cons, <- app_assoc. pose proof (frame_length r) as Hl.
  rewrite split_stream_nonempty by (destruct (frame r); [cbn in Hl; lia|done]).
  rewrite verdict_frame by done.
  rewrite take_app_length', drop_app_length' by (by rewrite length_fmap). by rewrite IH.
Qed.

(** Less than a request is kept. *)
Lemma verdict_partial r q :
  request_ok r -> q `prefix_of` (Some <$> frame r) -> (length q < length (frame r))%nat ->
  verdict check q = VWait.
Proof.
  intros [Hid Hlen] Hpre Hq. rewrite frame_length in Hq. unfold verdict.
  destruct (decide (length q < sizeof_echo_header)%nat) as [Hs|Hs].
  - assert ((length q <=? header_size)%nat = true) as Hle
      by (apply Nat.leb_le; unfold header_size, sizeof_echo_header in *; lia).
    unfold window. rewrite Hle. unfold echo_OnCheckPackageLength. by rewrite (proj2 (Nat.ltb_lt _ _) Hs).
  - rewrite (check_long _ {| payload_size := Z.of_nat (length r.2); request_id := r.1 |}).
    + cbn [payload_size]. unfold i32. rewrite swrap_small by lia.
      rewrite (proj2 (Z.ltb_ge _ _)), (proj2 (Z.eqb_neq _ _)) by lia. cbn [andb].
      by rewrite (proj2 (Nat.ltb_lt _ _)) by lia.
    + rewrite load_header_window by lia. rewrite <- (load_header_prefix _ _ Hpre) by lia.
      unfold frame. rewrite fmap_app. apply load_header_bytes; [|done]. unfold is_u32. cbn. lia.
    + unfold is_u32. cbn. lia.
Qed.

(** So a buffer that holds a part of a stream of requests gives the whole ones. *)
Lemma split_partial rs r q :
  Forall request_ok rs -> request_ok r -> q `prefix_of` (Some <$> frame r) -> (length q < length (frame r))%nat ->
  split_stream check (wire rs ++ q) =
    {| sp_packets := (fun r => Some <$> frame r) <$> rs; sp_rest := q; sp_error := false |}.
Proof.
  intros Hrs Hr Hpre Hq. rewrite split_wire by done.
  assert (split_stream check q = {| sp_packets := []; sp_rest := q; sp_error := false |}) as ->.
  { destruct (decide (q = [])) as [->|Hne]; [done|].
    by rewrite split_stream_nonempty, (verdict_partial r). }
  cbn. by rewrite app_nil_r.
Qed.

(** A part of a stream of requests: whole requests and less than the next one. *)
Lemma wire_prefix rs q :
  q `prefix_of` wire rs -> q <> wire rs ->
  exists k r q', rs !! k = Some r /\ q = wire (take k rs) ++ q' /\
    q' `prefix_of` (Some <$> frame r) /\ (length q' < length (frame r))%nat.
Proof.
  revert q. induction rs as [|r rs IH]; intros q Hpre Hne.
  { apply prefix_nil_inv in Hpre. by subst. }
  rewrite wire_cons in *. destruct (decide (length q < length (frame r))%nat) as [Hl|Hl].
  - exists 0%nat, r, q. split; [done|]. split; [done|]. split; [|done].
    destruct Hpre as [x E]. exists (take (length (frame r) - length q) x).
    apply (f_equal (take (length (frame r)))) in E.
    rewrite take_app_length' in E by (by rewrite length_fmap). by rewrite E, take_app_ge by lia.
  - assert (q = (Some <$> frame r) ++ drop (length (frame r)) q) as Eq.
    { destruct Hpre as [x E]. rewrite <- (take_drop (length (frame r)) q) at 1. f_equal.
      apply (f_equal (take (length (frame r)))) in E.
      rewrite take_app_length' in E by (by rewrite length_fmap). by rewrite E, take_app_le by lia. }
    rewrite Eq in Hpre, Hne. apply prefix_app_inv in Hpre.
    destruct (IH (drop (length (frame r)) q)) as (k & r' & q' & Hk & Eq' & Hpre' & Hlen); [done|congruence|].
    exists (S k), r', q'. split; [done|]. split; [|done].
    change (take (S k) (r :: rs)) with (r :: take k rs). rewrite wire_cons, <- app_assoc, <- Eq'. exact Eq.
Qed.
End Check.

(** ** The response *)

(** A slice that is written from its start on. *)
Lemma write_fills s pos pre d :
  Slice_wf s -> take pos (Slice_bytes s) = pre -> (pos + length d <= Slice_size s)%nat ->
  exists s', Slice_write pos d s = Some s' /\ Slice_wf s' /\ Slice_size s' = Slice_size s /\
    take (pos + length d) (Slice_bytes s') = pre ++ d.
Proof.
  intros Hs Hpre Hl. destruct (Slice_write_spec pos d s Hs Hl) as (s' & E & Hwf & Hsz & Hb).
  exists s'. split; [done|]. split; [done|]. split; [done|].
  pose proof (Slice_length_bytes s Hs) as Hlen. rewrite Hb, Hpre, app_assoc.
  rewrite take_app_length'; [done|]. rewrite length_app, <- Hpre, length_take. lia.
Qed.

Lemma Slice_begin_bytes s : Slice_begin s = Slice_bytes s ++ drop (Slice_size s) (Slice_begin s).
Proof. unfold Slice_bytes. by rewrite take_drop. Qed.

Lemma make_response_frame msg r :
  request_ok r -> Slice_bytes msg = Some <$> frame r ->
  exists rsp, make_response msg = Some rsp /\ Slice_wf rsp /\ Slice_bytes rsp = Some <$> frame (answer r).
Proof.
  intros [Hid Hlen] Hmsg. unfold make_response. rewrite Slice_begin_bytes, Hmsg. set (x := drop _ _).
  unfold frame. rewrite fmap_app, <- app_assoc.
  rewrite load_header_bytes by (unfold is_u32 in *; cbn; lia). cbn [mbind option_bind payload_size request_id].
  rewrite Nat2Z.id. set (n := length r.2). set (s0 := MakeSliceByLength _).
  assert (Slice_size s0 = (n + sizeof_echo_header + RESPONSE_LEN)%nat) as Hsz by apply MakeSliceByLength_size.
  assert (Slice_wf s0) as Hwf by apply MakeSliceByLength_wf.
  unfold sizeof_echo_header, RESPONSE_LEN in *.
  destruct (write_fills s0 0 [] (Some <$> le_bytes 4 (u32 (Z.of_nat n + Z.of_nat 9)))) as (s1 & -> & Hw1 & Hz1 & Hb1);
    [done|done|cbn; lia|]. cbn [mbind option_bind].
  destruct (write_fills s1 4 _ (Some <$> le_bytes 4 r.1) Hw1 Hb1) as (s2 & -> & Hw2 & Hz2 & Hb2); [cbn; lia|].
  cbn [mbind option_bind].
  destruct (write_fills s2 8 _ (Some <$> RESPONSE) Hw2 Hb2) as (s3 & -> & Hw3 & Hz3 & Hb3); [cbn; lia|].
  cbn [mbind option_bind].
  unfold cells_read. rewrite !length_app, !length_fmap, length_header. fold n.
  rewrite (proj2 (Nat.leb_le _ _)) by (unfold sizeof_echo_header; lia).
  rewrite drop_app_length' by (by rewrite length_fmap, length_header).
  rewrite take_app_length' by (by rewrite length_fmap). cbn [mbind option_bind].
  destruct (write_fills s3 17 _ (Some <$> r.2) Hw3 Hb3) as (s4 & E4 & Hw4 & Hz4 & Hb4); [rewrite length_fmap; lia|].
  exists s4. split; [exact E4|]. split; [done|].
  rewrite take_ge in Hb4 by (rewrite Slice_length_bytes, length_fmap by done; lia).
  assert (u32 (Z.of_nat n + Z.of_nat 9) = Z.of_nat (length (RESPONSE ++ r.2))) as El.
  { rewrite length_app. change (length RESPONSE) with 9%nat. fold n. unfold u32. rewrite wrap_small; lia. }
  rewrite Hb4, El. unfold header_bytes. cbn [answer fst snd payload_size request_id].
  by rewrite !fmap_app, <- !app_assoc.
Qed.

(** A packet whose header announces more than there is: the copy leaves the message. *)
Lemma make_response_overrun msg h :
  load_header (Slice_begin msg) = Some h -> Z.of_nat (length (Slice_begin msg)) < 8 + payload_size h ->
  make_response msg = None.
Proof.
  intros Hh Hl. unfold make_response. rewrite Hh. cbn [mbind option_bind].
  destruct (Slice_write 0 _ _) as [s1|]; [|done]. cbn [mbind option_bind].
  destruct (Slice_write 4 _ _) as [s2|]; [|done]. cbn [mbind option_bind].
  destruct (Slice_write _ _ s2) as [s3|]; [|done]. cbn [mbind option_bind].
  unfold cells_read. rewrite (proj2 (Nat.leb_gt _ _)); [done|]. unfold sizeof_echo_header. lia.
Qed.

(** ** The exchange *)

Lemma answer_ok r : request_ok (answer r) -> request_ok r.
Proof. intros [Hid Hl]. split; [done|]. cbn [answer snd] in Hl. rewrite length_app in Hl. lia. Qed.

(** C17. Client and server understand each other.  From the requests a client sends, the
    server cuts exactly these requests; for every one [OnMessage] makes a response
    without leaving the message or the response; and from the responses, sent in order,
    the client cuts one packet per request, in order, with the request's id and its
    payload after [Response:]. *)
Theorem echo_exchange (server client : EndpointImpl) (rs : list request) :
  Forall request_ok (answer <$> rs) ->
  let received := split_stream (echo_OnCheckPackageLength server) (wire rs) in
  sp_rest received = [] /\ sp_error received = false /\
  (forall msgs, Slice_bytes <$> msgs = sp_packets received ->
    exists rsps, mapM make_response msgs = Some rsps /\
      split_stream (echo_OnCheckPackageLength client) (mjoin (Slice_bytes <$> rsps)) =
        {| sp_packets := (fun r => Some <$> frame (answer r)) <$> rs; sp_rest := []; sp_error := false |}).
Proof.
  intros Hok. assert (Forall request_ok rs) as Hrs.
  { eapply Forall_impl; [exact (proj1 (Forall_fmap _ _ _) Hok)|]. apply answer_ok. }
  pose proof (split_wire server rs [] Hrs) as Hsplit. rewrite app_nil_r in Hsplit. cbv zeta. rewrite Hsplit. cbn.
  rewrite app_nil_r. split; [done|]. split; [done|]. intros msgs Hmsgs.
  assert (exists rsps, mapM make_response msgs = Some rsps /\ mjoin (Slice_bytes <$> rsps) = wire (answer <$> rs))
    as (rsps & E & Hb).
  { clear Hsplit Hok. revert msgs Hmsgs. induction Hrs as [|r rs Hr Hrs IH]; intros [|m msgs] Hm; try done.
    - by exists [].
    - cbn in Hm. injection Hm as Hm Hms. destruct (make_response_frame m r Hr Hm) as (rsp & E & _ & Hb).
      destruct (IH msgs Hms) as (rsps & Es & Hbs). exists (rsp :: rsps). cbn [mapM mbind option_bind fmap list_fmap].
      rewrite E. cbn [mbind option_bind]. rewrite Es. split; [done|]. rewrite wire_cons, <- Hb, <- Hbs. done. }
  exists rsps. split; [exact E|]. rewrite Hb.
  pose proof (split_wire client (answer <$> rs) [] Hok) as Hc. rewrite app_nil_r in Hc. rewrite Hc. cbn.
  by rewrite app_nil_r, <- list_fmap_compose.
Qed.

(** ** The server's connection *)

(** What the parser makes of a part of a stream of requests. *)
Lemma split_wire_prefix ep rs q :
  Forall request_ok rs -> q `prefix_of` wire rs ->
  exists k q', split_stream (echo_OnCheckPackageLength ep) q =
      {| sp_packets := (fun r => Some <$> frame r) <$> take k rs; sp_rest := q'; sp_error := false |} /\
    q = wire (take k rs) ++ q' /\
    (q' = [] \/ exists r, rs !! k = Some r /\ q' `prefix_of` (Some <$> frame r) /\ (length q' < length (frame r))%nat).
Proof.
  intros Hrs Hpre. destruct (decide (q = wire rs)) as [->|Hne].
  - exists (length rs), []. rewrite take_ge by done. split; [|split; [by rewrite app_nil_r|by left]].
    pose proof (split_wire ep rs [] Hrs) as Hs. rewrite !app_nil_r in Hs. rewrite Hs. cbn. by rewrite app_nil_r.
  - destruct (wire_prefix rs q Hpre Hne) as (k & r & q' & Hk & -> & Hq' & Hl). exists k, q'.
    split; [|split; [done|right; by exists r]].
    apply (split_partial ep _ r); [by apply Forall_take|by eapply Forall_lookup_1|done|done].
Qed.

Lemma wire_not_spins ep rs q :
  Forall request_ok rs -> q `prefix_of` wire rs -> ~ spins (echo_OnCheckPackageLength ep) q.
Proof.
  intros Hrs Hpre. destruct (split_wire_prefix ep rs q Hrs Hpre) as (k & q' & E & _ & Hq'). unfold spins. rewrite E.
  cbn [sp_rest]. destruct Hq' as [->|(r & Hk & Hq' & Hl)]; [done|].
  by rewrite (verdict_partial ep r) by (try done; by eapply Forall_lookup_1).
Qed.

Section Server.
Context {K : Type} `{Kernel K} `{!KernelIO K} `{LibC}.
Abbreviation check := echo_OnCheckPackageLength.

(** C18. A receive event of the echo server.  While the peer sends requests, however the
    bytes arrive, a receive event returns; it delivers exactly the requests that are
    whole, in order, each once; and the buffer keeps the start of the next one. *)
Theorem echo_server_event (fuel : nat) (s : conn_state K) (rs : list request) :
  conn_wf s -> cn_proto (cs_cn s) = true -> waiting check s ->
  short_within fuel (fd_int (cs_ep s)) (os_kernel (cs_os s)) -> Forall request_ok rs ->
  rcv_bytes s ++ event_bytes fuel (fd_int (cs_ep s)) (os_kernel (cs_os s)) `prefix_of` wire rs ->
  exists x s' t k calls, OnRecv check fuel s = Ret (x, s') /\
    os_trace (cs_os s') = os_trace (cs_os s) ++ t /\ cs_out s' = cs_out s ++ calls /\
    Forall2 delivers calls ((fun r => Some <$> frame r) <$> take k rs) /\
    rcv_bytes s ++ bytes_received t = wire (take k rs) ++ rcv_bytes s' /\
    (rcv_bytes s' = [] \/ exists r, rs !! k = Some r /\ rcv_bytes s' `prefix_of` (Some <$> frame r) /\
      (length (rcv_bytes s') < length (frame r))%nat).
Proof.
  intros Hs Hp Hw Hk Hrs Hpre.
  pose proof (OnRecv_event check fuel s Hs Hp Hw (check_prefix_stable _) (wire_not_spins _ _ _ Hrs Hpre) Hk) as Hwp.
  unfold wp in Hwp. destruct (OnRecv check fuel s) as [[x s']| | |]; [|done..].
  destruct Hwp as ((t & calls & Ht & _ & _ & _ & Hout & Hc & Hr & _) & t' & Ht' & Hpre').
  rewrite Ht in Ht'. apply app_inv_head in Ht' as <-.
  destruct (split_wire_prefix (cs_ep s) rs (rcv_bytes s ++ bytes_received t) Hrs) as (k & q' & E & Eq & Hq').
  { etransitivity; [|exact Hpre]. by apply prefix_app. }
  rewrite E in Hc, Hr. cbn [sp_packets sp_rest] in Hc, Hr. subst q'.
  by exists x, s', t, k, calls.
Qed.

Lemma Slice_begin_PopBack n m : Slice_begin (Slice_PopBack n m) = Slice_begin m.
Proof. unfold Slice_PopBack. destruct (n =? 0)%nat; [done|]. by destruct m. Qed.

Lemma i32_wrapped z : 2 ^ 31 <= z < 2 ^ 32 + 2 ^ 31 -> i32 z = z - 2 ^ 32.
Proof using Type. intros Hz. unfold i32, swrap, wrap. change (32 - 1) with 31. Z.to_euclidean_division_equations. lia. Qed.

(** The message a header of more than 2^32 - 8 bytes leads to. *)
Lemma short_message_delivered (s : conn_state K) (h : echo_header) (x : list cell) (counter : Z) :
  conn_wf s -> rcv_bytes s = (Some <$> header_bytes h) ++ x -> is_u32 (request_id h) ->
  2 ^ 32 - 8 < payload_size h < 2 ^ 32 ->
  exists m s', parse_round check (length (rcv_bytes s)) counter s = Ret (None, s') /\
    cs_out s' = cs_out s ++ [CallDataReceived m] /\ (Slice_size m < sizeof_echo_header)%nat /\
    (Z.of_nat (length (Slice_begin m)) < 2 ^ 32 -> make_response m = None).
Proof using Type.
  intros Hs Hq Hid Hp. assert (is_u32 (payload_size h)) as Hp32 by (unfold is_u32; lia).
  pose proof (verdict_header (cs_ep s) h x Hp32 Hid) as Hv. rewrite <- Hq, i32_wrapped in Hv by lia.
  assert (length (rcv_bytes s) = 8 + length x)%nat as Hsize by (by rewrite Hq, length_app, length_fmap, length_header).
  cut (wp (parse_round check (length (rcv_bytes s)) counter) s (fun r s' => r = None /\ exists m,
    cs_out s' = cs_out s ++ [CallDataReceived m] /\ (Slice_size m < sizeof_echo_header)%nat /\
    (Z.of_nat (length (Slice_begin m)) < 2 ^ 32 -> make_response m = None))).
  { unfold wp. destruct (parse_round _ _ _ s) as [[r s']| | |]; [|done..]. intros [-> (m & Hm)]. by exists m, s'. }
  unfold parse_round. apply wp_bind, Read_spec; [done|]. intros m Hm Hb. fold (window (rcv_bytes s)) in Hb.
  apply wp_bind, wp_gets. rewrite Hb, Hv. set (n := 8 + payload_size h - 2 ^ 32). assert (0 < n < 8) as Hn by lia.
  rewrite (proj2 (Z.ltb_ge _ _)), (proj2 (Z.eqb_neq _ _)) by lia. cbn [andb negb].
  rewrite (proj2 (Nat.ltb_ge _ _)) by lia.
  assert (8 <= Slice_size m)%nat as Hsz.
  { rewrite <- Slice_length_bytes, Hb by done. unfold window, header_size. destruct (_ <=? _)%nat; rewrite ?length_take; lia. }
  rewrite (proj2 (Nat.ltb_ge _ _)) by lia. apply wp_bind, wp_ret. set (p := Slice_PopBack _ m).
  assert (Slice_wf p) as Hpw by (by apply Slice_PopBack_wf).
  assert (Slice_bytes p = take (Z.to_nat n) (rcv_bytes s)) as Hpb.
  { unfold p. rewrite Slice_PopBack_bytes, Hb by done. replace (Slice_size m - _)%nat with (Z.to_nat n) by lia.
    unfold window, header_size. destruct (_ <=? _)%nat; [done|]. rewrite take_take. f_equal. lia. }
  eapply wp_mono; [apply (hand_over_spec s p (Z.to_nat n)); [done..|lia]|]. intros r s' (Ho & -> & _).
  split; [done|]. exists p. split; [done|].
  split; [rewrite <- Slice_length_bytes, Hpb, length_take by done; unfold sizeof_echo_header; lia|].
  intros Hl. apply (make_response_overrun p h); [|lia]. unfold p. rewrite Slice_begin_PopBack, Slice_begin_bytes, Hb.
  pose proof (load_header_bytes h x Hp32 Hid) as Hh. rewrite <- Hq in Hh.
  rewrite <- Hh, <- (load_header_window (rcv_bytes s)) by (unfold sizeof_echo_header; lia).
  apply load_header_prefix; [by apply prefix_app_r|]. rewrite <- Hb, Slice_length_bytes by done.
  unfold sizeof_echo_header. lia.
Qed.

(** The length a peer announces is not checked.  A header whose size does not fit the
    [int] result is one of three things: a negative length, which closes the
    connection; the length 0, which makes the server's receiving thread spin for ever
    once 1025 bytes are there; or a length of 1 to 7, a message shorter than its own
    header, on which [OnMessage] copies four gigabytes from outside of the message. *)
Theorem echo_header_not_checked (s : conn_state K) (h : echo_header) (x : list cell) (counter : Z) :
  conn_wf s -> rcv_bytes s = (Some <$> header_bytes h) ++ x -> is_u32 (request_id h) ->
  2 ^ 31 - 8 <= payload_size h < 2 ^ 32 ->
  let size := length (rcv_bytes s) in
  (payload_size h < 2 ^ 32 - 8 -> parse_round check size counter s = Ret (Some (-1), s)) /\
  (payload_size h = 2 ^ 32 - 8 -> (1016 < length x)%nat ->
    forall fuel, ParsingProtocol_loop check fuel size counter s = NoFuel) /\
  (2 ^ 32 - 8 < payload_size h -> exists m s', parse_round check size counter s = Ret (None, s') /\
    cs_out s' = cs_out s ++ [CallDataReceived m] /\ (Slice_size m < sizeof_echo_header)%nat /\
    (Z.of_nat (length (Slice_begin m)) < 2 ^ 32 -> make_response m = None)).
Proof using Type.
  intros Hs Hq Hid Hp size.
  assert (is_u32 (payload_size h)) as Hp32 by (unfold is_u32; lia).
  pose proof (verdict_header (cs_ep s) h x Hp32 Hid) as Hv. rewrite <- Hq in Hv.
  assert (size = 8 + length x)%nat as Hsize by (unfold size; by rewrite Hq, length_app, length_fmap, length_header).
  assert (rcv_bytes s <> []) as Hne by (intros E; unfold size in *; rewrite E in Hsize; cbn in Hsize; lia).
  split_and!.
  - intros Hlt. pose proof (parse_round_spec check s counter Hs Hne) as Hround. unfold wp in Hround.
    assert (verdict (check (cs_ep s)) (rcv_bytes s) = VError) as E.
    { unfold verdict. rewrite Hv, i32_wrapped by lia. by rewrite (proj2 (Z.ltb_lt _ _)) by lia. }
    rewrite E in Hround. destruct (parse_round _ _ _ s) as [[r s']| | |]; [|done..]. by destruct Hround as [-> ->].
  - intros Hz Hx fuel. apply ParsingProtocol_loop_spins; [done|]. unfold spins.
    assert (verdict (check (cs_ep s)) (rcv_bytes s) = VSpin) as E.
    { unfold verdict. rewrite Hv, Hz. change (i32 _) with 0. cbn.
      by rewrite (proj2 (Nat.leb_gt _ header_size)) by (unfold header_size; lia). }
    rewrite split_stream_nonempty, E by done. done.
  - intros Hlt. apply (short_message_delivered s h x counter Hs Hq Hid). lia.
Qed.
End Server.

(** ** The server in its container *)

(** The server's part of an exchange: when the endpoint of a request is attached and its
    slot holds the connection [c], [OnMessage] appends to the connection's send buffer
    the response to the request, and nothing else. *)
Theorem echo_answers {K} `{Kernel K} `{LibC} (w : world K) (e n c : nat) (obj : EndpointImpl)
    (cn : Connection) (msg : Slice) (r : request) :
  winv [] None w -> w_eps w !! e = Some obj -> ei_attached obj = true ->
  CheckConnectionId (ei_connection_id obj) (w_ct w) = Some (Z.of_nat n) ->
  st_conn (w_slots w) n = Some c -> w_conns w !! c = Some cn ->
  request_ok r -> Slice_bytes msg = Some <$> frame r ->
  exists w' cn', echo_OnMessage e msg w = Ret (0, w') /\ w_conns w' !! c = Some cn' /\
    cn_endpoint cn' = cn_endpoint cn /\ cn_rcv_buffer cn' = cn_rcv_buffer cn /\
    sb_bytes (cn_snd_buffer cn') = sb_bytes (cn_snd_buffer cn) ++ (Some <$> frame (answer r)).
Proof.
  intros Hw He Ha Hcheck Hslot Hc Hr Hmsg. destruct (make_response_frame msg r Hr Hmsg) as (rsp & E & Hwf & Hb).
  pose proof (Endpoint_SendMsg_appends w e obj n c cn rsp Hw He Ha Hcheck Hslot Hc) as Hwp.
  assert (Slice_Empty rsp = false) as Hne.
  { pose proof (Slice_length_bytes rsp Hwf) as Hl. rewrite Hb, length_fmap, frame_length in Hl.
    apply Nat.eqb_neq. lia. }
  unfold echo_OnMessage, mbind, M_bind, of_option. rewrite E. cbn [mret M_ret]. unfold Handle_SendSlice. rewrite Hne.
  unfold wp in Hwp. destruct (Endpoint_SendMsg e rsp w) as [[b w']| | |]; [|done..]. destruct Hwp as [-> Hcn].
  exists w', (set_snd (AddSlice rsp (cn_snd_buffer cn)) cn). split; [done|]. split; [done|]. split; [done|].
  split; [done|]. cbn [set_snd cn_snd_buffer]. rewrite AddSlice_bytes. f_equal. exact Hb.
Qed.

(** ** Concrete exchanges *)

Example response_hi :
  (Slice_bytes <$> make_response (Slice_ctor (Some <$> frame (258, str "hi")))) =
  Some (Some <$> frame (258, str "Response:hi")).
Proof. vm_compute. reflexivity. Qed.

Definition two_requests : list request := [(7, str "hello"); (8, [])].

Lemma two_requests_ok : Forall request_ok (answer <$> two_requests).
Proof. repeat constructor; cbn; lia. Qed.

Lemma echo_exchange_witness :
  let received := split_stream (echo_OnCheckPackageLength (example_endpoint 5)) (wire two_requests) in
  sp_rest received = [] /\ sp_error received = false /\
  (forall msgs, Slice_bytes <$> msgs = sp_packets received ->
    exists rsps, mapM make_response msgs = Some rsps /\
      split_stream (echo_OnCheckPackageLength (example_endpoint 6)) (mjoin (Slice_bytes <$> rsps)) =
        {| sp_packets := (fun r => Some <$> frame (answer r)) <$> two_requests; sp_rest := []; sp_error := false |}).
Proof. exact (echo_exchange (example_endpoint 5) (example_endpoint 6) two_requests two_requests_ok). Defined.

(** A peer whose two requests arrive in reads of four bytes: one event reads the first four. *)
Definition echo_connection : conn_state (list byte) :=
  example_connection true (mjoin (frame <$> two_requests)) [].

Lemma echo_server_event_witness :
  exists x s' t k calls, @OnRecv (list byte) stream_kernel echo_OnCheckPackageLength 1 echo_connection = Ret (x, s') /\
    os_trace (cs_os s') = os_trace (cs_os echo_connection) ++ t /\ cs_out s' = cs_out echo_connection ++ calls /\
    Forall2 delivers calls ((fun r => Some <$> frame r) <$> take k two_requests) /\
    rcv_bytes echo_connection ++ bytes_received t = wire (take k two_requests) ++ rcv_bytes s' /\
    (rcv_bytes s' = [] \/ exists r, two_requests !! k = Some r /\ rcv_bytes s' `prefix_of` (Some <$> frame r) /\
      (length (rcv_bytes s') < length (frame r))%nat).
Proof.
  apply (@echo_server_event (list byte) stream_kernel stream_kernel_io 1 echo_connection two_requests).
  - apply example_connection_wf.
  - reflexivity.
  - reflexivity.
  - apply stream_kernel_short.
  - repeat constructor; cbn; lia.
  - exists (drop 4 (wire two_requests)). vm_compute. reflexivity.
Defined.

(** Eight bytes and 1017 more: the server's thread spins. *)
Definition hostile_header : echo_header := {| payload_size := 2 ^ 32 - 8; request_id := 0 |}.
Definition hostile_connection : conn_state (list byte) :=
  holding ((Some <$> header_bytes hostile_header) ++ replicate 1017 (Some x00)).

Lemma echo_header_not_checked_witness :
  let size := length (rcv_bytes hostile_connection) in
  (2 ^ 32 - 8 < 2 ^ 32 - 8 -> @parse_round (list byte) echo_OnCheckPackageLength size 0 hostile_connection = Ret (Some (-1), hostile_connection)) /\
  forall fuel, @ParsingProtocol_loop (list byte) echo_OnCheckPackageLength fuel size 0 hostile_connection = NoFuel.
Proof.
  destruct (@echo_header_not_checked (list byte) hostile_connection hostile_header (replicate 1017 (Some x00)) 0)
    as (H1 & H2 & _).
  - apply holding_wf.
  - apply holding_bytes.
  - split; reflexivity || discriminate.
  - split; reflexivity || discriminate.
  - split; [intros Hlt; by apply Z.lt_irrefl in Hlt|]. apply H2; [reflexivity|]. rewrite length_replicate. lia.
Defined.



#[local] Existing Instance server_kernel.
#[local] Existing Instance quiet_libc.

(** A request that arrives on the connection of endpoint 3. *)
Lemma echo_answers_witness :
  exists w' cn', echo_OnMessage 3 (Slice_ctor (Some <$> frame (7, str "hello"))) reused_world = Ret (0, w') /\
    w_conns w' !! 2%nat = Some cn' /\ cn_endpoint cn' = cn_endpoint (connection_of 2 reused_world) /\
    cn_rcv_buffer cn' = cn_rcv_buffer (connection_of 2 reused_world) /\
    sb_bytes (cn_snd_buffer cn') = sb_bytes (cn_snd_buffer (connection_of 2 reused_world)) ++
      (Some <$> frame (answer (7, str "hello"))).
Proof.
  apply (echo_answers reused_world 3 0 2 (endpoint_of 3 reused_world) (connection_of 2 reused_world)).
  - apply reused_winv.
  - vm_compute. reflexivity.
  - vm_compute. reflexivity.
  - vm_compute. reflexivity.
  - vm_compute. reflexivity.
  - vm_compute. reflexivity.
  - repeat constructor; cbn; lia.
  - apply Slice_ctor_bytes.
Defined.
