(* ===== verification/EchoClient.v ===== *)
(** * The echo client (example/echo_client.cc)

    The container's threads call the handlers, which count and queue messages; one
    worker thread takes them off and keeps, for every connection, a shared object with
    the requests it has sent.  The model has the global counters, the map of the
    connections, the objects with their reference counts (RefCounted.v), the queue, a
    FIFO as Mpscq.v shows, and records the calls on the container and the connector. *)

From stdpp Require Import functions.
From S2P Require Import Prelude.
From S2P Require Import OS.
From S2P Require Import Time.
From S2P Require Import Slice.
From S2P Require Import SockAddr.
From S2P Require Import Endpoint.
From S2P Require Import RefCounted.
From S2P Require Import Echo.

Local Open Scope Z_scope.

(** ** Data *)

Record connection_ext_info : Type := {
  request_counter : Z;
  current_index : Z;
  gen_id : Z;
  tbls : gmap Z Z;
}.

Definition connection_ext_info_new : connection_ext_info :=
  {| request_counter := 0; current_index := 0; gen_id := 0; tbls := ∅ |}.

(** [type] and the member it goes with. *)
Inductive client_message : Type :=
  | ENDPOINT_LEAVE (ep : EndpointImpl)
  | ENDPOINT_ENTER (ep : EndpointImpl)
  | ENDPOINT_MSG (ep : EndpointImpl) (msg : Slice).

Inductive client_call : Type :=
  | CallSendMsg (cid : Z) (req : Slice)
  | CallCloseEndpoint (ep : EndpointImpl) (notify : bool)
  | CallConnect (index : Z).

(** The global variables; a [bool] is 0 or 1. *)
Inductive global : Type :=
  | g_begin_time
  | g_end_time
  | g_max_request_time
  | g_min_request_time
  | g_send_request_count
  | g_recv_request_count
  | g_connect_connection
  | g_success_connection
  | g_fail_connection
  | g_finish_connection
  | g_can_finish
  | g_all_requests_taken_time.

#[export] Instance global_eq_dec : EqDecision global.
Proof. solve_decision. Defined.

Definition global_width (x : global) : Z :=
  match x with
  | g_connect_connection | g_success_connection | g_fail_connection | g_finish_connection | g_can_finish => 32
  | _ => 64
  end.

Definition global_init (x : global) : Z :=
  match x with g_max_request_time => - 2 ^ 63 | g_min_request_time => 2 ^ 63 - 1 | _ => 0 end.

(** [rand()]: the state of the generator and the numbers it gives. *)
Class Rand (R : Type) : Type := rand_next : R -> Z * R.
Class RandLaws (R : Type) `{Rand R} : Prop := rand_range r : 0 <= (rand_next r).1 < 2 ^ 31.

Record client (K R : Type) : Type := {
  cl_os : os K;
  cl_seed : R;
  cl_globals : global -> Z;
  cl_ptrs : ptr_store;
  cl_infos : gmap nat connection_ext_info;
  _conns : gmap Z (option nat);
  _request_per_connection : Z;
  _mpscq : list client_message;
  cl_calls : list client_call;
}.
Arguments Build_client {K R} _ _ _ _ _ _ _ _ _.
Arguments cl_os {K R} _.
Arguments cl_seed {K R} _.
Arguments cl_globals {K R} _.
Arguments cl_ptrs {K R} _.
Arguments cl_infos {K R} _.
Arguments _conns {K R} _.
Arguments _request_per_connection {K R} _.
Arguments _mpscq {K R} _.
Arguments cl_calls {K R} _.

Section Client.
Context {K R : Type} `{Kernel K} `{Rand R}.
Abbreviation state := (client K R).
Implicit Types s : state.

Definition cl_with_os (o : os K) s : state :=
  Build_client o (cl_seed s) (cl_globals s) (cl_ptrs s) (cl_infos s) (_conns s) (_request_per_connection s) (_mpscq s) (cl_calls s).
Definition cl_with_seed (r : R) s : state :=
  Build_client (cl_os s) r (cl_globals s) (cl_ptrs s) (cl_infos s) (_conns s) (_request_per_connection s) (_mpscq s) (cl_calls s).
Definition cl_with_globals (g : global -> Z) s : state :=
  Build_client (cl_os s) (cl_seed s) g (cl_ptrs s) (cl_infos s) (_conns s) (_request_per_connection s) (_mpscq s) (cl_calls s).
Definition cl_with_ptrs (p : ptr_store) s : state :=
  Build_client (cl_os s) (cl_seed s) (cl_globals s) p (cl_infos s) (_conns s) (_request_per_connection s) (_mpscq s) (cl_calls s).
Definition cl_with_infos (i : gmap nat connection_ext_info) s : state :=
  Build_client (cl_os s) (cl_seed s) (cl_globals s) (cl_ptrs s) i (_conns s) (_request_per_connection s) (_mpscq s) (cl_calls s).
Definition cl_with_conns (c : gmap Z (option nat)) s : state :=
  Build_client (cl_os s) (cl_seed s) (cl_globals s) (cl_ptrs s) (cl_infos s) c (_request_per_connection s) (_mpscq s) (cl_calls s).
Definition cl_with_requests (n : Z) s : state :=
  Build_client (cl_os s) (cl_seed s) (cl_globals s) (cl_ptrs s) (cl_infos s) (_conns s) n (_mpscq s) (cl_calls s).
Definition cl_with_queue (q : list client_message) s : state :=
  Build_client (cl_os s) (cl_seed s) (cl_globals s) (cl_ptrs s) (cl_infos s) (_conns s) (_request_per_connection s) q (cl_calls s).
Definition cl_with_calls (c : list client_call) s : state :=
  Build_client (cl_os s) (cl_seed s) (cl_globals s) (cl_ptrs s) (cl_infos s) (_conns s) (_request_per_connection s) (_mpscq s) c.

(** ** The parts of the state *)

Definition on_clock {A} (m : M (os K) A) : M state A := zoom cl_os cl_with_os m.
Definition on_ptrs {A} (m : M ptr_store A) : M state A := zoom cl_ptrs cl_with_ptrs m.

Definition load_global (x : global) : M state Z := gets (fun s => cl_globals s x).
Definition store_global (x : global) (v : Z) : M state unit :=
  modify (fun s => cl_with_globals (<[x := v]> (cl_globals s)) s).
Definition fetch_add (x : global) (d : Z) : M state unit :=
  modify (fun s => cl_with_globals (<[x := swrap (global_width x) (cl_globals s x + d)]> (cl_globals s)) s).

(** Arithmetic on [int] and [int64_t]: overflow is undefined. *)
Definition arith (w z : Z) : M state Z :=
  if (- 2 ^ (w - 1) <=? z) && (z <? 2 ^ (w - 1)) then mret z else undef.

Definition rand : M state Z :=
  s ← gets id; let '(x, r) := rand_next (cl_seed s) in _ ← modify (cl_with_seed r); mret x.

Definition container_call (c : client_call) : M state unit :=
  modify (fun s => cl_with_calls (cl_calls s ++ [c]) s).

(** A member of the object [o], which must be alive. *)
Definition get_info (o : nat) : M state connection_ext_info :=
  _ ← on_ptrs (load_value o);
  i ← gets (fun s => cl_infos s !! o); of_option i.
Definition set_info (o : nat) (i : connection_ext_info) : M state unit :=
  _ ← on_ptrs (load_value o);
  modify (fun s => cl_with_infos (<[o := i]> (cl_infos s)) s).

(** [_conns[cid]] inserts a null pointer for a key it does not have. *)
Definition conns_at (cid : Z) : M state (option nat) :=
  s ← gets id;
  match _conns s !! cid with
  | Some v => mret v
  | None => _ ← modify (cl_with_conns (<[cid := None]> (_conns s))); mret None
  end.

Definition conns_store (cid : Z) (v : option nat) : M state unit :=
  modify (fun s => cl_with_conns (<[cid := v]> (_conns s)) s).
Definition conns_erase (cid : Z) : M state unit :=
  modify (fun s => cl_with_conns (delete cid (_conns s)) s).

(** The local variable [cei] of a handler, built from a raw pointer without a reference. *)
Definition cei : nat := 0%nat.
Definition Ptr_from_raw (x : nat) (value : option nat) : M ptr_store unit :=
  _ ← raw_ptr x; modify (set_ptr x value).

(** ** The handlers the library calls *)

Definition push_client_message (m : client_message) : M state unit :=
  modify (fun s => cl_with_queue (_mpscq s ++ [m]) s).

(** The end of [OnErrorOccurred] and the middle of [OnNotify]. *)
Definition check_can_finish : M state unit :=
  fail ← load_global g_fail_connection;
  success ← load_global g_success_connection;
  n ← arith 32 (fail + success);
  connect ← load_global g_connect_connection;
  when (n =? connect) (store_global g_can_finish 1).

Definition OnErrorOccurred (ep : EndpointImpl) : M state unit :=
  _ ← fetch_add g_fail_connection 1;
  check_can_finish.

Definition OnNotify (ep : EndpointImpl) : M state unit :=
  _ ← fetch_add g_success_connection 1;
  _ ← check_can_finish;
  push_client_message (ENDPOINT_ENTER ep).

Definition client_OnMessage (ep : EndpointImpl) (msg : Slice) : M state Z :=
  _ ← fetch_add g_recv_request_count 1;
  _ ← push_client_message (ENDPOINT_MSG ep msg);
  mret 0.

Definition OnClosed (ep : EndpointImpl) : M state unit :=
  _ ← fetch_add g_finish_connection 1;
  push_client_message (ENDPOINT_LEAVE ep).

(** ** Requests *)

(** [payload[0]] is written for an empty payload too: in the inline storage of the slice. *)
Definition make_request (hdr : echo_header) : option Slice :=
  let n := Z.to_nat (payload_size hdr) in
  let req := MakeSliceByLength (n + sizeof_echo_header) in
  req ← Slice_write 0 (Some <$> header_bytes hdr) req;
  req ← Slice_write sizeof_echo_header (replicate n (Some x30)) req;
  req ← (if 1 <? payload_size hdr then Slice_write (sizeof_echo_header + (n - 1)) [Some x45] req else Some req);
  Slice_write sizeof_echo_header [Some x42] req.

(** What [EndpointEnter] and [EndpointMessage] both end with. *)
Definition send_request (cid : Z) (o : nat) : M state unit :=
  x ← rand;
  info ← get_info o;
  next ← arith 32 (gen_id info + 1);
  _ ← set_info o {| request_counter := request_counter info; current_index := current_index info;
                    gen_id := next; tbls := tbls info |};
  let hdr := {| payload_size := u32 (Z.rem x 256); request_id := u32 (gen_id info) |} in
  req ← of_option (make_request hdr);
  now ← on_clock GetCurrentMilliseconds;
  info ← get_info o;
  _ ← set_info o {| request_counter := request_counter info; current_index := current_index info;
                    gen_id := gen_id info; tbls := <[i32 (request_id hdr) := now]> (tbls info) |};
  _ ← container_call (CallSendMsg cid req);
  fetch_add g_send_request_count 1.

(** ** The worker thread *)

Definition EndpointLeave (ep : EndpointImpl) : M state unit :=
  let cid := ConnectionId ep in
  info ← conns_at cid;
  _ ← on_ptrs (Ptr_from_raw cei info);
  _ ← conns_erase cid;
  on_ptrs (Ptr_dtor cei).

Definition EndpointEnter (ep : EndpointImpl) : M state unit :=
  _ ← on_ptrs (MakeRefCounted cei);
  v ← on_ptrs (read_ptr cei);
  o ← of_option v;
  _ ← set_info o connection_ext_info_new;
  _ ← on_ptrs (RefIfNonZero o);
  info ← get_info o;
  _ ← set_info o {| request_counter := request_counter info; current_index := i32 (GetExtInfo ep);
                    gen_id := gen_id info; tbls := tbls info |};
  let cid := ConnectionId ep in
  _ ← raptor_assert (negb (cid =? 0));
  _ ← conns_store cid (Some o);
  _ ← send_request cid o;
  on_ptrs (Ptr_dtor cei).

(** The time of the request with the response's id, 0 when there is none. *)
Definition request_time (o : nat) (id : Z) : M state Z :=
  info ← get_info o;
  match tbls info !! id with
  | Some bt => mret bt
  | None =>
      _ ← set_info o {| request_counter := request_counter info; current_index := current_index info;
                        gen_id := gen_id info; tbls := <[id := 0]> (tbls info) |};
      mret 0
  end.

Definition record_interval (interval : Z) : M state unit :=
  _ ← fetch_add g_all_requests_taken_time interval;
  max ← load_global g_max_request_time;
  _ ← when (max <? interval) (store_global g_max_request_time interval);
  min ← load_global g_min_request_time;
  when (interval <? min) (store_global g_min_request_time interval).

(** The connection has had its last response. *)
Definition finish_connection (ep : EndpointImpl) (o : nat) : M state unit :=
  _ ← fetch_add g_finish_connection 1;
  _ ← on_ptrs (RefCounted_Unref o);
  _ ← conns_erase (ConnectionId ep);
  _ ← container_call (CallCloseEndpoint ep true);
  can ← load_global g_can_finish;
  when (negb (can =? 0))
    (finish ← load_global g_finish_connection;
     fail ← load_global g_fail_connection;
     n ← arith 32 (finish + fail);
     connect ← load_global g_connect_connection;
     when (n =? connect) (now ← on_clock GetCurrentMilliseconds; store_global g_end_time now)).

Definition EndpointMessage (ep : EndpointImpl) (msg : Slice) : M state unit :=
  let cid := ConnectionId ep in
  info ← conns_at cid;
  _ ← on_ptrs (Ptr_from_raw cei info);
  o ← of_option info;
  _ ← on_ptrs (RefIfNonZero o);
  i ← get_info o;
  _ ← set_info o {| request_counter := i32 (request_counter i + 1); current_index := current_index i;
                    gen_id := gen_id i; tbls := tbls i |};
  rsp_hdr ← of_option (load_header (Slice_begin msg));
  bt ← request_time o (i32 (request_id rsp_hdr));
  now ← on_clock GetCurrentMilliseconds;
  interval ← arith 64 (now - bt);
  _ ← record_interval interval;
  i ← get_info o;
  s ← gets id;
  _ ← (if request_counter i =? _request_per_connection s then finish_connection ep o else send_request cid o);
  on_ptrs (Ptr_dtor cei).

Definition client_Dispatch (m : client_message) : M state unit :=
  match m with
  | ENDPOINT_ENTER ep => EndpointEnter ep
  | ENDPOINT_MSG ep msg => EndpointMessage ep msg
  | ENDPOINT_LEAVE ep => EndpointLeave ep
  end.

(** One turn of [WorkThread]'s loop. *)
Definition WorkThread_turn : M state unit :=
  s ← gets id;
  match _mpscq s with
  | [] => mret tt
  | m :: q => _ ← modify (cl_with_queue q); client_Dispatch m
  end.

(** ** The test *)

Section BeginTest.
(** What the connector answers to [Connect(addr, i)]: no error or some. *)
Variable Connect : Z -> bool.

Fixpoint connect_all (n : nat) (i : Z) : M state unit :=
  match n with
  | O => mret tt
  | S n =>
      _ ← container_call (CallConnect i);
      if Connect i then connect_all n (i + 1) else mret tt
  end.

Definition begin_test (connections requests : Z) : M state unit :=
  n ← (if connections =? 0 then undef else arith 32 (Z.quot requests connections));
  _ ← modify (cl_with_requests n);
  _ ← store_global g_connect_connection connections;
  now ← on_clock GetCurrentMilliseconds;
  _ ← store_global g_begin_time now;
  connect_all (Z.to_nat connections) 1.
End BeginTest.

(** ** Runs *)

Fixpoint dispatch_all (ms : list client_message) : M state unit :=
  match ms with
  | [] => mret tt
  | m :: ms => _ ← client_Dispatch m; dispatch_all ms
  end.

Definition client_new (o : os K) (seed : R) : state :=
  Build_client o seed global_init empty_ptrs ∅ ∅ 0 [] [].
End Client.

(** ** The requests *)

(** The payload of a request of [n] bytes. *)
Definition request_payload (n : nat) : list byte :=
  match n with
  | O => []
  | S O => [x42]
  | S (S n) => x42 :: replicate n x30 ++ [x45]
  end.

Lemma length_request_payload n : length (request_payload n) = n.
Proof. destruct n as [|[|n]]; cbn; [done..|]. rewrite length_app, length_replicate. cbn. lia. Qed.

(** Overwriting a part of what was written. *)
Lemma write_over s pos d :
  Slice_wf s -> (pos + length d <= Slice_size s)%nat ->
  exists s', Slice_write pos d s = Some s' /\ Slice_wf s' /\ Slice_size s' = Slice_size s /\
    Slice_bytes s' = take pos (Slice_bytes s) ++ d ++ drop (pos + length d) (Slice_bytes s).
Proof. intros Hs Hl. destruct (Slice_write_spec pos d s Hs Hl) as (s' & ? & ? & ? & ?). by exists s'. Qed.

(** An empty payload: the byte goes to the inline storage, after the eight of the slice. *)
Lemma make_request_empty hdr :
  payload_size hdr = 0 ->
  exists req, make_request hdr = Some req /\ Slice_wf req /\ Slice_bytes req = Some <$> header_bytes hdr.
Proof.
  intros Hn. unfold make_request. rewrite Hn. change (Z.to_nat 0) with 0%nat. change (1 <? 0) with false.
  pose proof (length_header hdr) as Hl. unfold sizeof_echo_header in *. destruct (header_bytes hdr) as [|b0 d]; [done|].
  do 7 (destruct d as [|? d]; [done|]). destruct d; [|done].
  eexists. split; [reflexivity|]. split; [split; [vm_compute; lia|reflexivity]|reflexivity].
Qed.

(** A payload of [n] bytes, then the bytes written over it. *)
Lemma overwrite_payload (h : list cell) n :
  length h = 8%nat ->
  take (8 + S n) (h ++ replicate (S (S n)) (Some x30)) = h ++ replicate (S n) (Some x30) /\
  drop 9 (h ++ replicate (S n) (Some x30) ++ [Some x45]) = replicate n (Some x30) ++ [Some x45].
Proof.
  intros Hh. split.
  - rewrite take_app_ge by lia. rewrite take_replicate. do 2 f_equal. lia.
  - by rewrite drop_app_ge, Hh by lia.
Qed.

(** The client's request is a packet of the protocol. *)
Lemma make_request_frame hdr :
  0 <= payload_size hdr < 256 ->
  exists req, make_request hdr = Some req /\ Slice_wf req /\
    Slice_bytes req = Some <$> frame (request_id hdr, request_payload (Z.to_nat (payload_size hdr))).
Proof.
  intros Hn. unfold frame. cbn [fst snd]. rewrite length_request_payload, Z2Nat.id by lia.
  replace {| payload_size := _ |} with hdr by (by destruct hdr).
  destruct (decide (payload_size hdr = 0)) as [Hz|Hz].
  { rewrite Hz, app_nil_r. by apply make_request_empty. }
  unfold make_request. remember (Z.to_nat (payload_size hdr)) as n eqn:En. set (s0 := MakeSliceByLength _).
  assert (Slice_size s0 = (n + 8)%nat) as Hsz by apply MakeSliceByLength_size.
  assert (Slice_wf s0) as Hwf by apply MakeSliceByLength_wf.
  pose proof (length_header hdr) as Hlh. unfold sizeof_echo_header in *.
  destruct (write_fills s0 0 [] (Some <$> header_bytes hdr)) as (s1 & -> & Hw1 & Hz1 & Hb1);
    [done|done|rewrite length_fmap; lia|]. cbn [mbind option_bind].
  rewrite length_fmap, Hlh in Hb1.
  destruct (write_fills s1 8 _ (replicate n (Some x30)) Hw1 Hb1) as (s2 & -> & Hw2 & Hz2 & Hb2);
    [rewrite length_replicate; lia|]. cbn [mbind option_bind].
  rewrite take_ge in Hb2 by (rewrite Slice_length_bytes, length_replicate by done; lia). cbn [app] in Hb2.
  destruct (Z.ltb_spec 1 (payload_size hdr)) as [H1|H1].
  - destruct (write_over s2 (8 + (n - 1)) [Some x45] Hw2) as (s3 & -> & Hw3 & Hz3 & Hb3); [cbn; lia|]. cbn [mbind option_bind].
    destruct (write_over s3 8 [Some x42] Hw3) as (s4 & -> & Hw4 & Hz4 & Hb4); [cbn; lia|].
    exists s4. split; [done|]. split; [done|].
    assert (2 <= n)%nat as Hn2 by lia. destruct n as [|[|n]]; [lia..|]. replace (S (S n) - 1)%nat with (S n) in Hb3 by lia.
    destruct (overwrite_payload (Some <$> header_bytes hdr) n) as [Ht Hd]; [by rewrite length_fmap|].
    rewrite Hb2, Ht, drop_ge, app_nil_r in Hb3 by (rewrite length_app, length_fmap, length_replicate; cbn; lia).
    rewrite Hb4, Hb3, <- app_assoc. cbn [length]. change (8 + 1)%nat with 9%nat. rewrite Hd.
    rewrite take_app_length' by (by rewrite length_fmap). cbn [request_payload].
    by rewrite !fmap_app, fmap_cons, fmap_app, fmap_replicate.
  - cbn [mbind option_bind]. destruct (write_over s2 8 [Some x42] Hw2) as (s3 & -> & Hw3 & Hz3 & Hb3); [cbn; lia|].
    exists s3. split; [done|]. split; [done|]. assert (n = 1%nat) as -> by lia. rewrite Hb3, Hb2, fmap_app.
    rewrite take_app_length' by (by rewrite length_fmap). rewrite drop_ge; [done|].
    rewrite length_app, length_fmap, Hlh. cbn. lia.
Qed.

(** ** What the worker keeps *)

(** The clock's documented range, with room for the differences of its values. *)
Class KernelClock (K : Type) `{Kernel K} : Prop :=
  clock_range k : let tp := timeval_of (sys_call k SysGettimeofday).1 in
    0 <= tp.1 < 2 ^ 40 /\ 0 <= tp.2 < 1000000.

(** One reference less: the last one deletes the object. *)
Definition one_less (o : nat) (n : Z) (p : ptr_store) : ptr_store :=
  {| rp_counts := if n =? 1 then delete o (rp_counts p) else <[o := 1]> (rp_counts p); rp_vars := rp_vars p |}.

(** The state after the setters, field by field. *)
Ltac cl_simpl :=
  cbv beta delta [cl_with_ptrs cl_with_infos cl_with_conns cl_with_globals cl_with_os cl_with_seed cl_with_calls
                  cl_with_queue set_value set_ptr one_less];
  cbn [cl_os cl_seed cl_ptrs cl_infos _conns cl_globals cl_calls _request_per_connection _mpscq rp_counts rp_vars].

Section Worker.
Context {K R : Type} `{Kernel K} `{!KernelClock K} `{Rand R} `{!RandLaws R}.
Abbreviation state := (client K R).
Implicit Types s : state.

Lemma wp_on_ptrs {A} (m : M ptr_store A) s (Q : A -> state -> Prop) :
  wp m (cl_ptrs s) (fun a p => Q a (cl_with_ptrs p s)) -> wp (on_ptrs m) s Q.
Proof using Type. apply wp_zoom. Qed.

Lemma wp_clock s (Q : Z -> state -> Prop) :
  (forall now o, 0 <= now < 2 ^ 52 -> Q now (cl_with_os o s)) -> wp (on_clock GetCurrentMilliseconds) s Q.
Proof using KernelClock0.
  intros HQ. apply wp_zoom. unfold GetCurrentMilliseconds. apply wp_bind. unfold call, wp.
  pose proof (clock_range (os_kernel (cl_os s))) as Hr. cbv zeta in Hr.
  destruct (sys_call (os_kernel (cl_os s)) SysGettimeofday) as [r k]. cbn [fst] in Hr.
  apply HQ. rewrite Z.quot_div_nonneg by lia. pose proof (Z.div_pos (timeval_of r).2 1000).
  pose proof (Z.div_le_upper_bound (timeval_of r).2 1000 1000). lia.
Qed.

Lemma wp_rand s (Q : Z -> state -> Prop) :
  (forall x r, 0 <= x < 2 ^ 31 -> Q x (cl_with_seed r s)) -> wp rand s Q.
Proof using RandLaws0.
  intros HQ. unfold rand. apply wp_bind, wp_gets. unfold id. pose proof (rand_range (cl_seed s)) as Hr.
  destruct (rand_next (cl_seed s)) as [x r]. apply wp_bind, wp_modify, wp_ret. by apply HQ.
Qed.

Lemma wp_arith w z s (Q : Z -> state -> Prop) : - 2 ^ (w - 1) <= z < 2 ^ (w - 1) -> Q z s -> wp (arith w z) s Q.
Proof using Type.
  intros Hz HQ. unfold arith. rewrite (proj2 (Z.leb_le _ _)), (proj2 (Z.ltb_lt _ _)) by lia. by apply wp_ret.
Qed.

Lemma wp_load_alive o s n (Q : Z -> state -> Prop) :
  rp_counts (cl_ptrs s) !! o = Some n -> Q n s -> wp (on_ptrs (load_value o)) s Q.
Proof using Type.
  intros Ho HQ. apply wp_on_ptrs, wp_bind, wp_gets, wp_of_option. exists n. split; [done|]. by destruct s.
Qed.

Lemma wp_get_info o s n i (Q : connection_ext_info -> state -> Prop) :
  rp_counts (cl_ptrs s) !! o = Some n -> cl_infos s !! o = Some i -> Q i s -> wp (get_info o) s Q.
Proof using Type.
  intros Ho Hi HQ. unfold get_info. apply wp_bind. eapply wp_load_alive; [done|].
  apply wp_bind, wp_gets, wp_of_option. by exists i.
Qed.

Lemma wp_set_info o s n i (Q : unit -> state -> Prop) :
  rp_counts (cl_ptrs s) !! o = Some n -> Q tt (cl_with_infos (<[o := i]> (cl_infos s)) s) -> wp (set_info o i) s Q.
Proof using Type.
  intros Ho HQ. unfold set_info. apply wp_bind. eapply wp_load_alive; [done|]. by apply wp_modify.
Qed.

(** A request is the next one of its connection, and its time is noted. *)
Definition sent (cid : Z) (o : nat) (i : connection_ext_info) s s' : Prop :=
  exists req payload now,
    Slice_wf req /\ Slice_bytes req = Some <$> frame (gen_id i, payload) /\ (length payload < 256)%nat /\
    0 <= now < 2 ^ 52 /\
    cl_calls s' = cl_calls s ++ [CallSendMsg cid req] /\
    cl_infos s' = <[o := {| request_counter := request_counter i; current_index := current_index i;
      gen_id := gen_id i + 1; tbls := <[gen_id i := now]> (tbls i) |}]> (cl_infos s) /\
    cl_globals s' = <[g_send_request_count := i64 (cl_globals s g_send_request_count + 1)]> (cl_globals s) /\
    cl_ptrs s' = cl_ptrs s /\ _conns s' = _conns s /\
    _request_per_connection s' = _request_per_connection s /\ _mpscq s' = _mpscq s.

Lemma send_request_spec cid o s n i :
  rp_counts (cl_ptrs s) !! o = Some n -> cl_infos s !! o = Some i -> 0 <= gen_id i < 2 ^ 31 - 1 ->
  wp (send_request cid o) s (fun _ s' => sent cid o i s s').
Proof using KernelClock0 RandLaws0.
  intros Ho Hi Hg. unfold send_request. apply wp_bind, wp_rand. intros x r Hx.
  apply wp_bind. eapply wp_get_info; [done..|]. apply wp_bind, wp_arith; [lia|].
  apply wp_bind. eapply wp_set_info; [done|]. cbn [cl_with_seed cl_with_infos cl_infos cl_ptrs].
  rewrite Z.rem_mod_nonneg by lia. pose proof (Z.mod_pos_bound x 256 ltac:(lia)) as Hm.
  assert (u32 (gen_id i) = gen_id i) as Eid by (apply wrap_small; lia).
  assert (u32 (x mod 256) = x mod 256) as Em by (apply wrap_small; lia). rewrite Eid, Em.
  destruct (make_request_frame {| payload_size := x mod 256; request_id := gen_id i |}) as (req & E & Hwf & Hb); [cbn; lia|].
  apply wp_bind, wp_of_option. exists req. split; [done|]. apply wp_bind, wp_clock. intros now o' Hnow.
  apply wp_bind. eapply wp_get_info; [done|by cbn; rewrite lookup_insert_eq|].
  apply wp_bind. eapply wp_set_info; [done|]. apply wp_bind, wp_modify, wp_modify.
  assert (i32 (gen_id i) = gen_id i) as Ei by (apply swrap_small; lia). cbn [request_id]. rewrite Ei.
  eexists req, _, now. split; [done|]. split; [exact Hb|]. rewrite length_request_payload. cbn.
  rewrite insert_insert_eq. split_and!; try done; lia.
Qed.
(** *** The shared objects, step by step *)

Lemma wp_from_raw v s (Q : unit -> state -> Prop) :
  rp_vars (cl_ptrs s) = ∅ ->
  Q tt (cl_with_ptrs {| rp_counts := rp_counts (cl_ptrs s); rp_vars := {[cei := v]} |} s) ->
  wp (on_ptrs (Ptr_from_raw cei v)) s Q.
Proof using Type.
  intros Hv HQ. apply wp_on_ptrs, wp_bind, wp_bind, wp_gets. rewrite Hv. apply wp_ret, wp_modify.
  unfold set_ptr. by rewrite Hv.
Qed.

Lemma wp_make v s (Q : unit -> state -> Prop) :
  rp_vars (cl_ptrs s) = ∅ -> v = fresh (dom (rp_counts (cl_ptrs s))) ->
  Q tt (cl_with_ptrs {| rp_counts := <[v := 1]> (rp_counts (cl_ptrs s)); rp_vars := {[cei := Some v]} |} s) ->
  wp (on_ptrs (MakeRefCounted cei)) s Q.
Proof using Type.
  intros Hv -> HQ. apply wp_on_ptrs, wp_bind, wp_bind, wp_gets. rewrite Hv.
  apply wp_ret, wp_bind, wp_gets, wp_bind, wp_modify, wp_modify. unfold set_ptr, set_value. cbn. by rewrite Hv.
Qed.

Lemma wp_ref o s {B} (f : bool -> M state B) (Q : B -> state -> Prop) :
  rp_counts (cl_ptrs s) !! o = Some 1 ->
  wp (f true) (cl_with_ptrs (set_value o 2 (cl_ptrs s)) s) Q ->
  wp (b ← on_ptrs (RefIfNonZero o); f b) s Q.
Proof using Type.
  intros Ho HQ. apply wp_bind, wp_on_ptrs, wp_bind, wp_bind, wp_gets, wp_of_option.
  exists 1. split; [done|]. apply wp_bind, wp_modify, wp_ret. exact HQ.
Qed.

Lemma wp_one_less o p n (Q : unit -> ptr_store -> Prop) :
  rp_counts p !! o = Some n -> 1 <= n <= 2 -> Q tt (one_less o n p) -> wp (RefCounted_Unref o) p Q.
Proof using Type.
  intros Ho Hn HQ. apply wp_bind, wp_bind, wp_bind, wp_gets, wp_of_option.
  exists n. split; [done|]. unfold one_less in HQ. apply wp_bind, wp_modify, wp_ret, wp_when; intros E; rewrite E in HQ.
  - apply wp_modify. unfold delete_object, set_value. cbn. by rewrite delete_insert_eq.
  - unfold set_value. apply Z.eqb_neq in E. replace n with 2 by lia. exact HQ.
Qed.

Lemma wp_unref o s n (Q : unit -> state -> Prop) :
  rp_counts (cl_ptrs s) !! o = Some n -> 1 <= n <= 2 ->
  Q tt (cl_with_ptrs (one_less o n (cl_ptrs s)) s) -> wp (on_ptrs (RefCounted_Unref o)) s Q.
Proof using Type. intros Ho Hn HQ. by eapply wp_on_ptrs, wp_one_less. Qed.

Lemma wp_dtor o s n (Q : unit -> state -> Prop) :
  rp_vars (cl_ptrs s) = {[cei := Some o]} -> rp_counts (cl_ptrs s) !! o = Some n -> 1 <= n <= 2 ->
  Q tt (cl_with_ptrs {| rp_counts := rp_counts (one_less o n (cl_ptrs s)); rp_vars := ∅ |} s) ->
  wp (on_ptrs (Ptr_dtor cei)) s Q.
Proof using Type.
  intros Hv Ho Hn HQ. apply wp_on_ptrs, wp_bind, wp_bind, wp_gets, wp_of_option. rewrite Hv.
  exists (Some o). split; [by rewrite lookup_singleton_eq|]. apply wp_bind.
  eapply wp_one_less; [done..|]. apply wp_modify. unfold drop_ptr. cbn [one_less rp_vars]. by rewrite Hv, delete_singleton_eq.
Qed.

(** ** The invariant between two messages *)

(** [live] gives for every open connection the number of responses it has had.  Its
    object has one reference, the map's; there are no other objects. *)
Record cinv (live : gmap Z Z) s : Prop := {
  ci_vars : rp_vars (cl_ptrs s) = ∅;
  ci_dom cid : _conns s !! cid = None <-> live !! cid = None;
  ci_conn cid v : _conns s !! cid = Some v -> exists o i, v = Some o /\
    rp_counts (cl_ptrs s) !! o = Some 1 /\ cl_infos s !! o = Some i /\
    live !! cid = Some (request_counter i) /\ gen_id i = request_counter i + 1 /\ 0 <= request_counter i /\
    map_Forall (fun _ t => 0 <= t < 2 ^ 52) (tbls i);
  ci_inj c1 c2 o : _conns s !! c1 = Some (Some o) -> _conns s !! c2 = Some (Some o) -> c1 = c2;
  ci_owned o n : rp_counts (cl_ptrs s) !! o = Some n -> exists cid, _conns s !! cid = Some (Some o);
}.

Lemma cinv_update live s s' cid o i :
  cinv live s -> _conns s !! cid = Some (Some o) ->
  rp_vars (cl_ptrs s') = ∅ -> (forall x, rp_counts (cl_ptrs s') !! x = rp_counts (cl_ptrs s) !! x) ->
  _conns s' = _conns s -> cl_infos s' !! o = Some i -> (forall x, x <> o -> cl_infos s' !! x = cl_infos s !! x) ->
  gen_id i = request_counter i + 1 -> 0 <= request_counter i -> map_Forall (fun _ t => 0 <= t < 2 ^ 52) (tbls i) ->
  cinv (<[cid := request_counter i]> live) s'.
Proof using Type.
  intros Hc Ho Hv Hct Hconns Hi Hother Hg Hk Ht.
  split; [done| | |intros c1 c2 x; rewrite Hconns; apply (ci_inj _ _ Hc)|intros x n; rewrite Hconns, Hct; apply (ci_owned _ _ Hc)].
  - intros c. rewrite Hconns. destruct (decide (c = cid)) as [->|Hne]; [by rewrite Ho, lookup_insert_eq|].
    rewrite lookup_insert_ne by done. apply (ci_dom _ _ Hc).
  - intros c v. rewrite Hconns. intros Hl. destruct (ci_conn _ _ Hc c v Hl) as (o' & i' & -> & Hrest).
    destruct (decide (c = cid)) as [->|Hne].
    + assert (o' = o) as -> by congruence. exists o, i. rewrite lookup_insert_eq, Hct. by destruct Hrest as (? & _).
    + assert (o' <> o) as Hno by (intros ->; by eapply Hne, (ci_inj _ _ Hc)).
      exists o', i'. rewrite lookup_insert_ne, Hct, Hother by done. done.
Qed.

Lemma cinv_close live s s' cid o :
  cinv live s -> _conns s !! cid = Some (Some o) ->
  rp_vars (cl_ptrs s') = ∅ -> rp_counts (cl_ptrs s') = delete o (rp_counts (cl_ptrs s)) ->
  _conns s' = delete cid (_conns s) -> (forall x, x <> o -> cl_infos s' !! x = cl_infos s !! x) ->
  cinv (delete cid live) s'.
Proof using Type.
  intros Hc Ho Hv Hct Hconns Hother. split; [done|..].
  - intros c. rewrite Hconns, !lookup_delete_None, (ci_dom _ _ Hc). done.
  - intros c v. rewrite Hconns. intros [Hne Hl]%lookup_delete_Some.
    destruct (ci_conn _ _ Hc c v Hl) as (o' & i' & -> & Hrest).
    assert (o' <> o) as Hno by (intros ->; by eapply Hne, (ci_inj _ _ Hc)).
    exists o', i'. rewrite Hct, !lookup_delete_ne, Hother by done. done.
  - intros c1 c2 x. rewrite Hconns. intros [_ H1]%lookup_delete_Some [_ H2]%lookup_delete_Some. by eapply (ci_inj _ _ Hc).
  - intros x n. rewrite Hct. intros [Hx Hl]%lookup_delete_Some. destruct (ci_owned _ _ Hc x n Hl) as [c Hcx].
    exists c. rewrite Hconns, lookup_delete_ne; [done|]. intros <-. congruence.
Qed.

Lemma cinv_open live s s' cid o i :
  cinv live s -> live !! cid = None -> rp_counts (cl_ptrs s) !! o = None ->
  rp_vars (cl_ptrs s') = ∅ -> (forall x, rp_counts (cl_ptrs s') !! x = <[o := 1]> (rp_counts (cl_ptrs s)) !! x) ->
  _conns s' = <[cid := Some o]> (_conns s) -> cl_infos s' !! o = Some i ->
  (forall x, x <> o -> cl_infos s' !! x = cl_infos s !! x) ->
  request_counter i = 0 -> gen_id i = 1 -> map_Forall (fun _ t => 0 <= t < 2 ^ 52) (tbls i) ->
  cinv (<[cid := 0]> live) s'.
Proof using Type.
  intros Hc Hnew Hfresh Hv Hct Hconns Hi Hother Hk Hg Ht.
  assert (forall c, _conns s !! c <> Some (Some o)) as Hno.
  { intros c Hl. destruct (ci_conn _ _ Hc _ _ Hl) as (o' & i' & [= <-] & Hl' & _). congruence. }
  split; [done|..].
  - intros c. rewrite Hconns, !lookup_insert_None, (ci_dom _ _ Hc). done.
  - intros c v. rewrite Hconns. intros [[<- <-]|[Hne Hl]]%lookup_insert_Some.
    + exists o, i. rewrite Hct, !lookup_insert_eq, Hk, Hg. split_and!; done.
    + destruct (ci_conn _ _ Hc c v Hl) as (o' & i' & -> & Hrest). assert (o' <> o) as Hoo by (intros ->; by eapply Hno).
      exists o', i'. rewrite Hct, !lookup_insert_ne, Hother by done. done.
  - intros c1 c2 x. rewrite Hconns.
    intros [[<- [= <-]]|[H1 H1']]%lookup_insert_Some [[<- Hx]|[H2 H2']]%lookup_insert_Some; [done|by destruct (Hno c2)| |].
    + injection Hx as ->. by destruct (Hno c1).
    + by eapply (ci_inj _ _ Hc).
  - intros x n. rewrite Hct, Hconns. intros [[<- _]|[Hne Hl]]%lookup_insert_Some; [exists cid; apply lookup_insert_eq|].
    destruct (ci_owned _ _ Hc x n Hl) as [c Hcx]. exists c. rewrite lookup_insert_ne; [done|]. intros <-.
    apply (proj2 (ci_dom _ _ Hc cid)) in Hnew. congruence.
Qed.
(** ** One message *)

(** The call that sends the request [id] on a connection. *)
Definition sends (cid id : Z) (c : client_call) : Prop :=
  exists req payload, c = CallSendMsg cid req /\ Slice_wf req /\
    Slice_bytes req = Some <$> frame (id, payload) /\ (length payload < 256)%nat.

(** What a message does not change, apart from [finished] more finished connections. *)
Definition same_test (finished : Z) s s' : Prop :=
  _request_per_connection s' = _request_per_connection s /\ _mpscq s' = _mpscq s /\
  cl_globals s' g_fail_connection = cl_globals s g_fail_connection /\
  cl_globals s' g_finish_connection = cl_globals s g_finish_connection + finished.

Lemma sent_effect cid o i s s' :
  sent cid o i s s' -> (exists c, cl_calls s' = cl_calls s ++ [c] /\ sends cid (gen_id i) c) /\ same_test 0 s s'.
Proof using Type.
  intros (req & p & now & Hwf & Hb & Hl & _ & Hcalls & _ & Hg & _ & _ & Hr & Hq). split.
  - eexists. split; [exact Hcalls|]. by exists req, p.
  - split_and!; [done|done|..]; rewrite Hg, fn_lookup_insert_ne by done; lia.
Qed.

Lemma EndpointEnter_spec live ep s :
  cinv live s -> ConnectionId ep <> 0 -> live !! ConnectionId ep = None ->
  wp (EndpointEnter ep) s (fun _ s' => cinv (<[ConnectionId ep := 0]> live) s' /\
    (exists c, cl_calls s' = cl_calls s ++ [c] /\ sends (ConnectionId ep) 0 c) /\ same_test 0 s s').
Proof using KernelClock0 RandLaws0.
  intros Hc Hid Hnew. pose proof (ci_vars _ _ Hc) as Hv. unfold EndpointEnter.
  remember (fresh (dom (rp_counts (cl_ptrs s)))) as o eqn:Eo.
  assert (rp_counts (cl_ptrs s) !! o = None) as Ho by (apply not_elem_of_dom; rewrite Eo; apply is_fresh).
  apply wp_bind. eapply wp_make; [done|exact Eo|].
  apply wp_bind, wp_on_ptrs, wp_bind, wp_gets, wp_of_option. exists (Some o). split; [apply lookup_singleton_eq|].
  apply wp_bind, wp_of_option. exists o. split; [done|]. cl_simpl.
  apply wp_bind. eapply wp_set_info; [apply lookup_insert_eq|]. cl_simpl.
  apply wp_ref; [apply lookup_insert_eq|]. cl_simpl. rewrite insert_insert_eq.
  apply wp_bind. eapply wp_get_info; [apply lookup_insert_eq|apply lookup_insert_eq|].
  apply wp_bind. eapply wp_set_info; [apply lookup_insert_eq|]. cl_simpl. rewrite insert_insert_eq.
  apply wp_bind, wp_assert; [by apply negb_true_iff, Z.eqb_neq|]. apply wp_bind, wp_modify. cl_simpl.
  apply wp_bind. eapply wp_mono.
  { eapply send_request_spec; [apply lookup_insert_eq|apply lookup_insert_eq|cbn; lia]. }
  intros [] s1 Hsent. pose proof (sent_effect _ _ _ _ _ Hsent) as [Hcalls Hsame].
  destruct Hsent as (req & p & now & _ & _ & _ & Hnow & _ & Hinfos & _ & Hptrs & Hconns & _). revert Hinfos Hptrs Hconns. cl_simpl. intros Hinfos Hptrs Hconns.
  eapply wp_dtor; rewrite ?Hptrs; [done|apply lookup_insert_eq|done|]. cl_simpl.
  split; [|split; [exact Hcalls|exact Hsame]].
  eapply (cinv_open live s _ (ConnectionId ep) o); cl_simpl; try done.
  - intros x. by rewrite insert_insert_eq.
  - rewrite Hinfos. apply lookup_insert_eq.
  - intros x Hx. by rewrite Hinfos, !lookup_insert_ne by done.
  - reflexivity.
  - reflexivity.
  - apply map_Forall_insert_2; [lia|]. apply map_Forall_empty.
Qed.

Lemma EndpointLeave_spec live ep s :
  cinv live s ->
  wp (EndpointLeave ep) s (fun _ s' => cinv (delete (ConnectionId ep) live) s' /\
    cl_calls s' = cl_calls s /\ same_test 0 s s').
Proof using Type.
  intros Hc. pose proof (ci_vars _ _ Hc) as Hv. unfold EndpointLeave, conns_at.
  apply wp_bind, wp_bind, wp_gets. unfold id. destruct (_conns s !! ConnectionId ep) as [v|] eqn:Ec.
  - destruct (ci_conn _ _ Hc _ _ Ec) as (o & i & -> & Hcount & _).
    apply wp_ret, wp_bind, wp_from_raw; [done|]. apply wp_bind, wp_modify. cl_simpl.
    eapply wp_dtor; [done|exact Hcount|done|]. cl_simpl.
    split; [|split; [done|split_and!; cl_simpl; [done..|lia]]]. by eapply (cinv_close live s _ _ o).
  - apply wp_bind, wp_modify, wp_ret, wp_bind, wp_from_raw; [done|]. apply wp_bind, wp_modify. cl_simpl.
    apply wp_on_ptrs, wp_bind, wp_bind, wp_gets, wp_of_option. exists None. split; [apply lookup_singleton_eq|].
    apply wp_bind, wp_ret, wp_modify. cl_simpl. unfold drop_ptr. cl_simpl.
    split; [|split; [done|split_and!; cl_simpl; [done..|lia]]].
    rewrite delete_insert_id by done. rewrite delete_id by (by apply (ci_dom _ _ Hc)).
    destruct Hc as [_ H1 H2 H3 H4]. split; cl_simpl; [apply delete_singleton_eq|done..].
Qed.

(** A conditional store changes at most its variable. *)
Lemma wp_may_store b x v s :
  wp (when b (store_global x v)) s (fun _ s' => exists g, s' = cl_with_globals g s /\ forall y, y <> x -> g y = cl_globals s y).
Proof using Type.
  apply wp_when; intros _.
  - apply wp_modify. eexists. split; [done|]. intros y Hy. by rewrite fn_lookup_insert_ne.
  - exists (cl_globals s). split; [by destruct s|done].
Qed.

Lemma record_interval_spec interval s :
  wp (record_interval interval) s (fun _ s' => exists g, s' = cl_with_globals g s /\
    g g_fail_connection = cl_globals s g_fail_connection /\ g g_finish_connection = cl_globals s g_finish_connection).
Proof using Type.
  unfold record_interval. apply wp_bind, wp_modify, wp_bind, wp_gets, wp_bind.
  eapply wp_mono; [apply wp_may_store|]. intros [] s1 (g1 & -> & H1). apply wp_bind, wp_gets.
  eapply wp_mono; [apply wp_may_store|]. intros [] s2 (g2 & -> & H2).
  exists g2. split; [done|]. rewrite !H2 by done. cl_simpl. rewrite !H1 by done. cl_simpl.
  by rewrite !fn_lookup_insert_ne by done.
Qed.

Lemma request_time_spec o id s n i (Q : Z -> state -> Prop) :
  rp_counts (cl_ptrs s) !! o = Some n -> cl_infos s !! o = Some i -> map_Forall (fun _ t => 0 <= t < 2 ^ 52) (tbls i) ->
  (forall bt i', 0 <= bt < 2 ^ 52 -> request_counter i' = request_counter i -> gen_id i' = gen_id i ->
    map_Forall (fun _ t => 0 <= t < 2 ^ 52) (tbls i') -> Q bt (cl_with_infos (<[o := i']> (cl_infos s)) s)) ->
  wp (request_time o id) s Q.
Proof using Type.
  intros Ho Hi Ht HQ. unfold request_time. apply wp_bind. eapply wp_get_info; [done..|].
  destruct (tbls i !! id) as [bt|] eqn:E.
  - apply wp_ret. specialize (HQ bt i (map_Forall_lookup_1 _ _ _ _ Ht E) eq_refl eq_refl Ht).
    rewrite insert_id in HQ by done. by destruct s.
  - apply wp_bind. eapply wp_set_info; [done|]. apply wp_ret, HQ; [lia|done|done|].
    by apply map_Forall_insert_2; [lia|].
Qed.

(** The end of a connection: its object loses the map's reference, its entry goes, and the
    container is asked to close it. *)
Lemma finish_connection_spec ep o s :
  rp_counts (cl_ptrs s) !! o = Some 2 ->
  - 2 ^ 31 <= cl_globals s g_finish_connection + 1 + cl_globals s g_fail_connection < 2 ^ 31 ->
  - 2 ^ 31 <= cl_globals s g_finish_connection + 1 < 2 ^ 31 ->
  wp (finish_connection ep o) s (fun _ s' => same_test 1 s s' /\
    cl_calls s' = cl_calls s ++ [CallCloseEndpoint ep true] /\
    cl_ptrs s' = one_less o 2 (cl_ptrs s) /\ cl_infos s' = cl_infos s /\ _conns s' = delete (ConnectionId ep) (_conns s)).
Proof using KernelClock0.
  intros Ho Hsum Hfin. unfold finish_connection. apply wp_bind, wp_modify, wp_bind.
  eapply wp_unref; [exact Ho|done|]. apply wp_bind, wp_modify, wp_bind, wp_modify, wp_bind, wp_gets. cl_simpl.
  cbn [global_width]. rewrite swrap_small by lia. set (g := <[_ := _]> _).
  assert (g g_finish_connection = cl_globals s g_finish_connection + 1) as E1 by apply fn_lookup_insert.
  assert (g g_fail_connection = cl_globals s g_fail_connection) as E2 by by apply fn_lookup_insert_ne.
  apply wp_when; intros _; [|split_and!; try done; cl_simpl; lia].
  apply wp_bind, wp_gets, wp_bind, wp_gets. cl_simpl. rewrite E1, E2. apply wp_bind, wp_arith; [cbn; lia|].
  apply wp_bind, wp_gets, wp_when; intros _; [|split_and!; try done; cl_simpl; lia].
  apply wp_bind, wp_clock. intros now o' _. apply wp_modify. cl_simpl.
  split_and!; try done; cl_simpl; by rewrite fn_lookup_insert_ne by done.
Qed.
(** What a response leads to, on a connection that has had [k] before it. *)
Definition message_post (live : gmap Z Z) (ep : EndpointImpl) (k : Z) s s' : Prop :=
  let cid := ConnectionId ep in
  if k + 1 =? _request_per_connection s
  then cinv (delete cid live) s' /\ cl_calls s' = cl_calls s ++ [CallCloseEndpoint ep true] /\ same_test 1 s s'
  else cinv (<[cid := k + 1]> live) s' /\
    (exists c, cl_calls s' = cl_calls s ++ [c] /\ sends cid (k + 1) c) /\ same_test 0 s s'.

(** The second half of [EndpointMessage], from the state [s1] in which the object has been updated. *)
Lemma EndpointMessage_rest live ep s s1 o i k :
  cinv live s -> _conns s !! ConnectionId ep = Some (Some o) -> rp_counts (cl_ptrs s) !! o = Some 1 ->
  cl_ptrs s1 = {| rp_counts := <[o := 2]> (rp_counts (cl_ptrs s)); rp_vars := {[cei := Some o]} |} ->
  cl_infos s1 !! o = Some i -> (forall x, x <> o -> cl_infos s1 !! x = cl_infos s !! x) ->
  request_counter i = k + 1 -> gen_id i = k + 1 -> 0 <= k < 2 ^ 31 - 2 ->
  map_Forall (fun _ t => 0 <= t < 2 ^ 52) (tbls i) ->
  _conns s1 = _conns s -> cl_calls s1 = cl_calls s -> same_test 0 s s1 ->
  0 <= cl_globals s g_finish_connection -> 0 <= cl_globals s g_fail_connection ->
  cl_globals s g_finish_connection + 1 + cl_globals s g_fail_connection < 2 ^ 31 ->
  wp (_ ← (if request_counter i =? _request_per_connection s1
           then finish_connection ep o else send_request (ConnectionId ep) o);
      on_ptrs (Ptr_dtor cei)) s1 (fun _ s' => message_post live ep k s s').
Proof using KernelClock0 RandLaws0.
  intros Hc Ho Hcount Hp Hi Hother Hk Hg Hkr Ht Hconns Hcalls (Hrpc & Hq & Hfail & Hfin) Hf1 Hf2 Hf3.
  assert (rp_counts (cl_ptrs s1) !! o = Some 2) as Hc2 by (rewrite Hp; apply lookup_insert_eq).
  unfold message_post. rewrite Hk, Hrpc. apply wp_bind. destruct (k + 1 =? _request_per_connection s).
  - eapply wp_mono; [apply finish_connection_spec; [done|lia..]|]. intros [] s2 ((R2 & Q2 & F2 & N2) & C2 & P2 & I2 & D2).
    eapply (wp_dtor o _ 1); rewrite ?P2; cl_simpl; [by rewrite Hp|apply lookup_insert_eq|done|].
    split; [|split; [by rewrite <- Hcalls|split_and!; cl_simpl; congruence || lia]].
    eapply (cinv_close live s _ _ o); cl_simpl; try done.
    + rewrite Hp. cl_simpl. cbn [Z.eqb Pos.eqb]. by rewrite !delete_insert_eq.
    + by rewrite D2, Hconns.
    + intros x Hx. rewrite I2. by apply Hother.
  - eapply wp_mono; [eapply send_request_spec; [done..|lia]|]. intros [] s2 Hsent.
    pose proof (sent_effect _ _ _ _ _ Hsent) as [Hc' (R2 & Q2 & F2 & N2)].
    destruct Hsent as (req & p & now & _ & _ & _ & Hnow & _ & Hinfos & _ & Hptrs & Hconns2 & _).
    eapply (wp_dtor o _ 2); rewrite ?Hptrs; [by rewrite Hp|done|done|]. cl_simpl.
    split; [|split; [by rewrite <- Hcalls, <- Hg|split_and!; cl_simpl; congruence || lia]].
    rewrite <- Hk.
    apply (cinv_update live s _ _ o {| request_counter := request_counter i; current_index := current_index i;
      gen_id := gen_id i + 1; tbls := <[gen_id i := now]> (tbls i) |}); cl_simpl; try done.
    + intros x. rewrite Hp. cl_simpl. change (2 =? 1) with false.
      by rewrite insert_insert_eq, insert_id.
    + by rewrite Hconns2.
    + rewrite Hinfos. apply lookup_insert_eq.
    + intros x Hx. rewrite Hinfos, lookup_insert_ne by done. by apply Hother.
    + cbn. lia.
    + cbn. lia.
    + by apply map_Forall_insert_2; [lia|].
Qed.
Lemma EndpointMessage_spec live ep msg h s k :
  cinv live s -> live !! ConnectionId ep = Some k -> load_header (Slice_begin msg) = Some h -> k < 2 ^ 31 - 2 ->
  0 <= cl_globals s g_finish_connection -> 0 <= cl_globals s g_fail_connection ->
  cl_globals s g_finish_connection + 1 + cl_globals s g_fail_connection < 2 ^ 31 ->
  wp (EndpointMessage ep msg) s (fun _ s' => message_post live ep k s s').
Proof using KernelClock0 RandLaws0.
  intros Hc Hlive Hh Hk Hf1 Hf2 Hf3. pose proof (ci_vars _ _ Hc) as Hv.
  destruct (_conns s !! ConnectionId ep) as [v|] eqn:Ec.
  2:{ apply (ci_dom _ _ Hc) in Ec. congruence. }
  destruct (ci_conn _ _ Hc _ _ Ec) as (o & i & -> & Hcount & Hi & Hl & Hg & Hpos & Ht).
  assert (request_counter i = k) as Ek by congruence.
  unfold EndpointMessage, conns_at. apply wp_bind, wp_bind, wp_gets. unfold id. rewrite Ec.
  apply wp_ret, wp_bind, wp_from_raw; [done|]. cl_simpl. apply wp_bind, wp_of_option. exists o. split; [done|].
  apply wp_ref; [exact Hcount|]. cl_simpl.
  apply wp_bind. eapply wp_get_info; [apply lookup_insert_eq|exact Hi|].
  apply wp_bind. eapply wp_set_info; [apply lookup_insert_eq|]. cl_simpl.
  assert (i32 (request_counter i + 1) = request_counter i + 1) as -> by (apply swrap_small; lia).
  apply wp_bind, wp_of_option. exists h. split; [done|]. apply wp_bind.
  eapply request_time_spec; [apply lookup_insert_eq|apply lookup_insert_eq|exact Ht|].
  intros bt i' Hbt Hk' Hg' Ht'. cl_simpl. rewrite insert_insert_eq. cbn in Hk', Hg'.
  apply wp_bind, wp_clock. intros now o' Hnow. apply wp_bind, wp_arith; [change (64 - 1) with 63; lia|].
  apply wp_bind. eapply wp_mono; [apply record_interval_spec|]. intros [] s1 (g & -> & Eg1 & Eg2). cl_simpl.
  apply wp_bind. eapply wp_get_info; [apply lookup_insert_eq|apply lookup_insert_eq|].
  apply wp_bind, wp_gets. unfold id.
  apply (EndpointMessage_rest live ep s _ o i' k); cl_simpl; try done; try lia.
  - apply lookup_insert_eq.
  - intros x Hx. by rewrite lookup_insert_ne.
  - split_and!; cl_simpl; [done|done|done|]. rewrite Eg2. cl_simpl. lia.
Qed.

(** ** Runs of messages *)

(** The messages the library and an echo server give rise to, seen from the open
    connections and their responses: a connection is entered once, with an id of its
    own that is not 0; a response comes on a connection that waits for one, and has a
    header; [n] is the number of requests per connection. *)
Definition polite_step (n : Z) (live : gmap Z Z) (m : client_message) : option (gmap Z Z) :=
  match m with
  | ENDPOINT_ENTER ep =>
      if (ConnectionId ep =? 0) || bool_decide (is_Some (live !! ConnectionId ep)) then None
      else Some (<[ConnectionId ep := 0]> live)
  | ENDPOINT_MSG ep msg =>
      match live !! ConnectionId ep, load_header (Slice_begin msg) with
      | Some k, Some _ => Some (if k + 1 =? n then delete (ConnectionId ep) live else <[ConnectionId ep := k + 1]> live)
      | _, _ => None
      end
  | ENDPOINT_LEAVE ep => Some (delete (ConnectionId ep) live)
  end.

Fixpoint polite (n : Z) (live : gmap Z Z) (ms : list client_message) : option (gmap Z Z) :=
  match ms with
  | [] => Some live
  | m :: ms => live ← polite_step n live m; polite n live ms
  end.

(** No counter can overflow within [b] more messages. *)
Definition room (b : Z) (live : gmap Z Z) s : Prop :=
  map_Forall (fun _ k => 0 <= k /\ k + b < 2 ^ 31 - 1) live /\
  0 <= cl_globals s g_finish_connection /\ 0 <= cl_globals s g_fail_connection /\
  cl_globals s g_finish_connection + cl_globals s g_fail_connection + b < 2 ^ 31 /\ b < 2 ^ 31 - 1.

Lemma room_step b live live' s s' f :
  room b live s -> same_test f s s' -> 0 <= f <= 1 ->
  (forall c k, live' !! c = Some k -> k = 0 \/ exists k0, live !! c = Some k0 /\ k0 <= k <= k0 + 1) ->
  1 <= b -> room (b - 1) live' s'.
Proof using Type.
  intros (Hl & H1 & H2 & H3 & H4) (_ & _ & Ef & En) Hf Hlive Hb. unfold room. rewrite Ef, En. split; [|lia].
  intros c k Hck. destruct (Hlive c k Hck) as [->|(k0 & Hk0 & Hk)]; [lia|]. specialize (Hl c k0 Hk0). cbn in Hl. lia.
Qed.

Lemma Dispatch_spec m live live' s b :
  cinv live s -> polite_step (_request_per_connection s) live m = Some live' -> room b live s -> 1 <= b ->
  wp (client_Dispatch m) s (fun _ s' => cinv live' s' /\ room (b - 1) live' s' /\
    _request_per_connection s' = _request_per_connection s).
Proof using KernelClock0 RandLaws0.
  intros Hc Hm Hroom Hb. destruct m as [ep|ep|ep msg]; cbn [polite_step client_Dispatch] in *.
  - injection Hm as <-. eapply wp_mono; [by apply EndpointLeave_spec|]. intros [] s' (Hc' & _ & Hsame).
    split; [done|]. split; [|apply Hsame]. eapply room_step; [done..|lia| |done].
    intros c k [_ Hk]%lookup_delete_Some. right. exists k. split; [done|lia].
  - destruct (Z.eqb_spec (ConnectionId ep) 0) as [|Hid]; [done|]. cbn [orb] in Hm. case_bool_decide as Hnew; [done|].
    injection Hm as <-. apply eq_None_not_Some in Hnew.
    eapply wp_mono; [by apply EndpointEnter_spec|]. intros [] s' (Hc' & _ & Hsame).
    split; [done|]. split; [|apply Hsame]. eapply room_step; [done..|lia| |done].
    intros c k [[_ <-]|[_ Hk]]%lookup_insert_Some; [by left|]. right. exists k. split; [done|lia].
  - destruct (live !! ConnectionId ep) as [k|] eqn:El; [|done].
    destruct (load_header (Slice_begin msg)) as [h|] eqn:Eh; [|done]. injection Hm as <-.
    pose proof Hroom as (Hl & H1 & H2 & H3 & H4). pose proof (Hl _ _ El) as Hk. cbn in Hk.
    eapply wp_mono; [eapply EndpointMessage_spec; [done..|lia|done|done|lia]|].
    intros [] s' Hpost. unfold message_post in Hpost. destruct (k + 1 =? _request_per_connection s);
      destruct Hpost as (Hc' & _ & Hsame); (split; [done|]); (split; [|apply Hsame]);
      (eapply room_step; [done..|lia| |done]); intros c k'.
    + intros [_ Hk']%lookup_delete_Some. right. exists k'. split; [done|lia].
    + intros [[<- <-]|[_ Hk']]%lookup_insert_Some; right; [exists k|exists k']; (split; [done|lia]).
Qed.

Lemma dispatch_all_spec ms : forall live live' s,
  cinv live s -> polite (_request_per_connection s) live ms = Some live' -> room (Z.of_nat (length ms)) live s ->
  wp (dispatch_all ms) s (fun _ s' => cinv live' s').
Proof using KernelClock0 RandLaws0.
  induction ms as [|m ms IH]; intros live live' s Hc Hp Hroom; cbn [dispatch_all polite] in *.
  { injection Hp as <-. by apply wp_ret. }
  destruct (polite_step _ live m) as [live1|] eqn:Em; [|done]. cbn in Hp. apply wp_bind.
  eapply wp_mono; [eapply Dispatch_spec; [done..|cbn [length]; lia]|]. intros [] s1 (Hc1 & Hroom1 & Hr).
  apply (IH live1); [done|by rewrite Hr|]. by replace (Z.of_nat (length ms)) with (Z.of_nat (length (m :: ms)) - 1) by (cbn [length]; lia).
Qed.
End Worker.

Section ClientTheorems.
Context {K R : Type} `{Kernel K} `{!KernelClock K} `{Rand R} `{!RandLaws R}.
Implicit Types s : client K R.

Lemma cinv_start s : cl_ptrs s = empty_ptrs -> _conns s = ∅ -> cinv ∅ s.
Proof using Type.
  intros Hp Hc. split; rewrite ?Hp, ?Hc; [done| |intros ? ?|intros ? ? ?|intros ? ?]; by rewrite ?lookup_empty.
Qed.

(** A response on a connection that is not open: the map gives a null pointer. *)
Lemma response_not_open live ep msg s :
  cinv live s -> live !! ConnectionId ep = None -> client_Dispatch (ENDPOINT_MSG ep msg) s = Undef.
Proof using Type.
  intros Hc Hl. apply (ci_dom _ _ Hc) in Hl. cbn [client_Dispatch].
  unfold EndpointMessage, conns_at, on_ptrs, zoom, Ptr_from_raw, raw_ptr, gets, modify, of_option, mbind, M_bind, mret, M_ret, undef, id.
  rewrite Hl. cbn [cl_ptrs cl_with_conns]. by rewrite (ci_vars _ _ Hc), lookup_empty.
Qed.

(** C36. The worker keeps exactly one object per open connection, as long as the messages it
    takes are [polite]: a connection is entered once, with an id that is not 0, and every
    response has a header and is on a connection that was entered and did not leave or
    finish.  In any order such messages come, handling them touches no deleted object and
    no null pointer; afterwards the map has the open connections and no other, each with
    an object of its own that counts one reference, its responses and one request more
    than these; and no other object is alive: none leaked.  A response on any other
    connection, at any such point, is undefined: the worker follows the null pointer that
    [_conns[cid]] gives it. *)
Theorem client_objects_exact (ms : list client_message) (live : gmap Z Z) (s : client K R) :
  cl_ptrs s = empty_ptrs -> _conns s = ∅ ->
  polite (_request_per_connection s) ∅ ms = Some live -> Z.of_nat (length ms) < 2 ^ 31 - 1 ->
  0 <= cl_globals s g_finish_connection -> 0 <= cl_globals s g_fail_connection ->
  cl_globals s g_finish_connection + cl_globals s g_fail_connection + Z.of_nat (length ms) < 2 ^ 31 ->
  exists s', dispatch_all ms s = Ret (tt, s') /\
    (forall cid, _conns s' !! cid = None <-> live !! cid = None) /\
    (forall cid k, live !! cid = Some k -> exists o i, _conns s' !! cid = Some (Some o) /\
      rp_counts (cl_ptrs s') !! o = Some 1 /\ cl_infos s' !! o = Some i /\ request_counter i = k /\ gen_id i = k + 1) /\
    (forall o n, rp_counts (cl_ptrs s') !! o = Some n -> exists! cid, _conns s' !! cid = Some (Some o)) /\
    (forall ep msg, live !! ConnectionId ep = None -> client_Dispatch (ENDPOINT_MSG ep msg) s' = Undef).
Proof using KernelClock0 RandLaws0.
  intros Hp Hc Hpol Hl H1 H2 H3.
  assert (room (Z.of_nat (length ms)) ∅ s) as Hroom by (split; [apply map_Forall_empty|lia]).
  pose proof (dispatch_all_spec ms ∅ live s (cinv_start s Hp Hc) Hpol Hroom) as Hwp. unfold wp in Hwp.
  destruct (dispatch_all ms s) as [[[] s']| | |]; [|done..]. exists s'. split; [done|].
  split; [apply (ci_dom _ _ Hwp)|]. split; [|split; [|intros ep msg; by apply response_not_open]].
  - intros cid k Hk. destruct (_conns s' !! cid) as [v|] eqn:Ec.
    2:{ apply (ci_dom _ _ Hwp) in Ec. congruence. }
    destruct (ci_conn _ _ Hwp _ _ Ec) as (o & i & -> & Ho & Hi & Hk' & Hg & _).
    exists o, i. split; [done|]. split; [done|]. split; [done|]. split; [congruence|]. rewrite Hg. congruence.
  - intros o n Ho. destruct (ci_owned _ _ Hwp o n Ho) as [cid Hcid]. exists cid. split; [done|].
    intros c Hcc. by eapply (ci_inj _ _ Hwp).
Qed.

(** One response that does not end its connection. *)
Lemma response_spec live ep msg s k b :
  cinv live s -> live !! ConnectionId ep = Some k -> room b live s -> 1 <= b ->
  is_Some (load_header (Slice_begin msg)) ->
  wp (client_Dispatch (ENDPOINT_MSG ep msg)) s (fun _ s' =>
    room (b - 1) (<[ConnectionId ep := k + 1]> live) s' /\ message_post live ep k s s').
Proof using KernelClock0 RandLaws0.
  intros Hc Hk Hroom Hb [h Hh]. pose proof Hroom as (Hl & H1 & H2 & H3 & H4). pose proof (Hl _ _ Hk) as Hkb. cbn in Hkb.
  cbn [client_Dispatch]. eapply wp_mono; [eapply EndpointMessage_spec; [done..|lia|done|done|lia]|].
  intros [] s' Hpost. split; [|done]. unfold message_post in Hpost.
  assert (exists f, same_test f s s' /\ 0 <= f <= 1) as (f & Hsame & Hf).
  { destruct (_ =? _); destruct Hpost as (_ & _ & Hsame); by eexists. }
  eapply room_step; [done..| |done]. intros c k'.
  intros [[<- <-]|[_ Hk']]%lookup_insert_Some; right; [exists k|exists k']; (split; [done|lia]).
Qed.

Lemma messages_spec ep msgs : forall live s k b,
  cinv live s -> live !! ConnectionId ep = Some k -> room b live s -> Z.of_nat (length msgs) <= b ->
  Forall (fun m => is_Some (load_header (Slice_begin m))) msgs ->
  _request_per_connection s <= k \/ k + Z.of_nat (length msgs) < _request_per_connection s ->
  wp (dispatch_all (ENDPOINT_MSG ep <$> msgs)) s (fun _ s' => exists calls,
    cinv (<[ConnectionId ep := k + Z.of_nat (length msgs)]> live) s' /\
    room (b - Z.of_nat (length msgs)) (<[ConnectionId ep := k + Z.of_nat (length msgs)]> live) s' /\
    _request_per_connection s' = _request_per_connection s /\ cl_calls s' = cl_calls s ++ calls /\
    Forall2 (sends (ConnectionId ep)) (seqZ (k + 1) (Z.of_nat (length msgs))) calls).
Proof using KernelClock0 RandLaws0.
  induction msgs as [|m msgs IH]; intros live s k b Hc Hk Hroom Hb Hms Hr.
  - apply wp_ret. exists []. cbn [length] in *. change (Z.of_nat 0) with 0 in *. rewrite Z.add_0_r, Z.sub_0_r, insert_id by done.
    rewrite app_nil_r. split_and!; [done..|constructor].
  - apply Forall_cons_1 in Hms as [Hm Hms]. cbn [length fmap list_fmap dispatch_all] in *. rewrite Nat2Z.inj_succ in *.
    apply wp_bind. eapply wp_mono; [eapply response_spec; [done..|lia|done]|].
    intros [] s1 (Hroom1 & Hpost). unfold message_post in Hpost. rewrite (proj2 (Z.eqb_neq _ _)) in Hpost by lia.
    destruct Hpost as (Hc1 & (c & Ec & Hsend) & (Hr1 & _)).
    eapply wp_mono; [apply (IH (<[ConnectionId ep := k + 1]> live) s1 (k + 1) (b - 1)); [done|apply lookup_insert_eq|done|lia|done|rewrite Hr1; lia]|].
    intros [] s2 (calls & Hc2 & Hroom2 & Hr2 & Ec2 & Hcalls). rewrite insert_insert_eq in *. exists (c :: calls).
    replace (k + Z.succ (Z.of_nat (length msgs))) with (k + 1 + Z.of_nat (length msgs)) by lia.
    replace (b - Z.succ (Z.of_nat (length msgs))) with (b - 1 - Z.of_nat (length msgs)) by lia.
    split_and!; [done|done|congruence|by rewrite Ec2, Ec, <- app_assoc|].
    rewrite seqZ_cons by lia. rewrite Z.pred_succ. by constructor.
Qed.

Lemma dispatch_all_app ms ms' s (Q : unit -> client K R -> Prop) :
  wp (dispatch_all ms) s (fun _ s' => wp (dispatch_all ms') s' Q) -> wp (dispatch_all (ms ++ ms')) s Q.
Proof using Type.
  revert s. induction ms as [|m ms IH]; intros s Hwp; [done|]. cbn [dispatch_all app] in *.
  unfold wp, mbind, M_bind in *. destruct (client_Dispatch m s) as [[[] s1]| | |]; [|done..]. by apply IH.
Qed.

(** A connection from its start, while it lacks a response. *)
Lemma conversation_open ep msgs live s b :
  cinv live s -> ConnectionId ep <> 0 -> live !! ConnectionId ep = None ->
  Forall (fun m => is_Some (load_header (Slice_begin m))) msgs -> room (b + 1) live s -> Z.of_nat (length msgs) <= b ->
  let cid := ConnectionId ep in
  let n := Z.of_nat (length msgs) in
  _request_per_connection s <= 0 \/ n < _request_per_connection s ->
  wp (dispatch_all (ENDPOINT_ENTER ep :: (ENDPOINT_MSG ep <$> msgs))) s (fun _ s' => exists calls,
    cinv (<[cid := n]> live) s' /\ room (b - n) (<[cid := n]> live) s' /\
    _request_per_connection s' = _request_per_connection s /\ cl_calls s' = cl_calls s ++ calls /\
    Forall2 (sends cid) (seqZ 0 (n + 1)) calls).
Proof using KernelClock0 RandLaws0.
  intros Hc Hid Hnew Hms Hroom Hb cid n Hr. cbn [dispatch_all client_Dispatch]. apply wp_bind.
  eapply wp_mono; [by apply EndpointEnter_spec|]. intros [] s1 (Hc1 & (c & Ec & Hsend) & Hsame).
  assert (room b (<[cid := 0]> live) s1) as Hroom1.
  { replace b with (b + 1 - 1) by lia. eapply room_step; [done..|lia| |lia].
    intros c' k [[_ <-]|[_ Hk]]%lookup_insert_Some; [by left|]. right. exists k. split; [done|lia]. }
  destruct Hsame as (Hr1 & _).
  eapply wp_mono; [apply (messages_spec ep msgs (<[cid := 0]> live) s1 0 b);
    [done|apply lookup_insert_eq|done|lia|done|rewrite Hr1; lia]|].
  intros [] s2 (calls & Hc2 & Hroom2 & Hr2 & Ec2 & Hcalls). rewrite insert_insert_eq in *. cbn [Z.add] in *.
  exists (c :: calls). split_and!; [done|done|congruence|by rewrite Ec2, Ec, <- app_assoc|].
  rewrite seqZ_cons by lia. replace (Z.pred _) with n by lia. by constructor.
Qed.

(** C32. A connection from its start to its [n]-th response, at whatever state the others are.
    The client sends the requests 0, 1, 2 and so on, each as a packet of the protocol and
    each after the response to the one before.  With [r] requests per connection it
    sends exactly [r], and on the last response it asks the container, once, to close the
    connection.  But when [r] is 0, as it is when there are more connections than
    requests, the connection is never closed: every response leads to another request. *)
Theorem client_conversation (ep : EndpointImpl) (msgs : list Slice) (live : gmap Z Z) (s : client K R) :
  cinv live s -> ConnectionId ep <> 0 -> live !! ConnectionId ep = None ->
  Forall (fun m => is_Some (load_header (Slice_begin m))) msgs -> room (Z.of_nat (length msgs) + 1) live s ->
  let cid := ConnectionId ep in
  let n := Z.of_nat (length msgs) in
  let r := _request_per_connection s in
  (r <= 0 \/ n < r -> exists s' calls, dispatch_all (ENDPOINT_ENTER ep :: (ENDPOINT_MSG ep <$> msgs)) s = Ret (tt, s') /\
    cl_calls s' = cl_calls s ++ calls /\ Forall2 (sends cid) (seqZ 0 (n + 1)) calls /\
    cinv (<[cid := n]> live) s') /\
  (0 < r -> n = r -> exists s' calls, dispatch_all (ENDPOINT_ENTER ep :: (ENDPOINT_MSG ep <$> msgs)) s = Ret (tt, s') /\
    cl_calls s' = cl_calls s ++ calls ++ [CallCloseEndpoint ep true] /\ Forall2 (sends cid) (seqZ 0 r) calls /\
    cinv live s').
Proof using KernelClock0 RandLaws0.
  intros Hc Hid Hnew Hms Hroom cid n r.
  assert (n <= n) as Hnn by lia. split.
  - intros Hr. pose proof (conversation_open ep msgs live s n Hc Hid Hnew Hms Hroom Hnn Hr) as Hopen.
    unfold wp in Hopen. destruct (dispatch_all _ s) as [[[] s']| | |]; [|done..].
    destruct Hopen as (calls & Hc' & _ & _ & Ec & Hcalls). by exists s', calls.
  - intros Hr Hn. destruct msgs as [|m msgs _] using rev_ind; [cbn in n; lia|].
    apply Forall_app in Hms as [Hms Hm]. apply (proj1 (Forall_singleton _ _)) in Hm. unfold n in *. clear n. rewrite length_app in *. cbn [length] in *.
    pose proof (conversation_open ep msgs live s (Z.of_nat (length msgs + 1)) Hc Hid Hnew Hms Hroom ltac:(lia) ltac:(lia)) as Hopen.
    assert (wp (dispatch_all ((ENDPOINT_ENTER ep :: (ENDPOINT_MSG ep <$> msgs)) ++ [ENDPOINT_MSG ep m])) s (fun _ s' =>
      exists calls, cl_calls s' = cl_calls s ++ calls ++ [CallCloseEndpoint ep true] /\
        Forall2 (sends cid) (seqZ 0 r) calls /\ cinv live s')) as Hwp.
    { apply dispatch_all_app. eapply wp_mono; [exact Hopen|]. intros [] s1 (calls & Hc1 & Hroom1 & Hr1 & Ec1 & Hcalls).
      apply wp_bind. eapply wp_mono; [eapply response_spec; [done|apply lookup_insert_eq|done|lia|exact Hm]|].
      intros [] s2 (_ & Hpost). unfold message_post in Hpost. rewrite Hr1, (proj2 (Z.eqb_eq _ _)) in Hpost by (fold r; lia).
      destruct Hpost as (Hc2 & Ec2 & _). apply wp_ret. exists calls. rewrite delete_insert_id in Hc2 by done.
      split_and!; [by rewrite Ec2, Ec1, <- app_assoc| |done]. by replace r with (Z.of_nat (length msgs) + 1) by lia. }
    rewrite fmap_app. cbn [fmap list_fmap]. rewrite app_comm_cons. unfold wp in Hwp.
    destruct (dispatch_all _ s) as [[[] s']| | |]; [|done..]. destruct Hwp as (calls & Hpost). by exists s', calls.
Qed.
End ClientTheorems.

(** The server answers every request of the client, and the answer has the id under which
    the client noted the time. *)
Lemma sends_answered cid id c :
  sends cid id c -> is_u32 id ->
  exists req rsp h, c = CallSendMsg cid req /\ make_response req = Some rsp /\
    load_header (Slice_begin rsp) = Some h /\ request_id h = id.
Proof.
  intros (req & p & -> & Hwf & Hb & Hl) Hid. assert (request_ok (id, p)) as Hok by (split; [done|cbn; lia]).
  destruct (make_response_frame req (id, p) Hok Hb) as (rsp & E & _ & Hr).
  exists req, rsp, {| payload_size := Z.of_nat (length (RESPONSE ++ p)); request_id := id |}.
  split; [done|]. split; [done|]. split; [|done]. rewrite Slice_begin_bytes, Hr. unfold answer, frame. cbn [fst snd].
  rewrite fmap_app, <- app_assoc. apply load_header_bytes; [|done]. unfold is_u32. cbn [payload_size].
  rewrite length_app. change (length RESPONSE) with 9%nat. lia.
Qed.

(** ** The command line *)

Section CommandLine.
(** [atoi] of a string. *)
Variable atoi : list byte -> Z.

Inductive main_result : Type :=
  | MainUsage
  | MainInvalid
  | MainRun (target_server : list byte) (connections requests : Z).

Record main_args : Type := {
  arg_target : option (list byte);
  arg_connections : option (list byte);
  arg_requests : option (list byte);
}.

(** The byte at [i] of a C string that ends after [p]. *)
Definition char_at (p : list byte) (i : nat) : byte := default x00 (p !! i).

(** [None]: an argument that does not start with a dash. *)
Fixpoint parse_args (args : list (list byte)) (a : main_args) : option main_args :=
  match args with
  | [] => Some a
  | p :: args =>
      if negb (bool_decide (char_at p 0 = x2d)) then None
      else
        let v := Some (drop 2 p) in
        parse_args args
          (if bool_decide (char_at p 1 = x61) then
             {| arg_target := v; arg_connections := arg_connections a; arg_requests := arg_requests a |}
           else if bool_decide (char_at p 1 = x63) then
             {| arg_target := arg_target a; arg_connections := v; arg_requests := arg_requests a |}
           else if bool_decide (char_at p 1 = x72) then
             {| arg_target := arg_target a; arg_connections := arg_connections a; arg_requests := v |}
           else a)
  end.

(** [args] are the arguments after the program's name; [atoi(nullptr)] is undefined. *)
Definition main_parse (args : list (list byte)) : outcome main_result :=
  if negb (length args =? 3)%nat then Ret MainUsage
  else
    match parse_args args {| arg_target := None; arg_connections := None; arg_requests := None |} with
    | None => Ret MainUsage
    | Some a =>
        match arg_connections a, arg_requests a with
        | Some c, Some r =>
            let number_of_connections := atoi c in
            let number_of_requests := atoi r in
            match arg_target a with
            | Some t =>
                if (number_of_connections <=? 0) || (number_of_requests <=? 0) then Ret MainInvalid
                else Ret (MainRun t number_of_connections number_of_requests)
            | None => Ret MainInvalid
            end
        | _, _ => Undef
        end
    end.

(** What starts has an address and positive numbers; a missing number is not noticed
    before [atoi] reads it. *)
Lemma main_parse_run args t c r :
  main_parse args = Ret (MainRun t c r) -> 0 < c /\ 0 < r.
Proof using Type.
  unfold main_parse. intros Hm. repeat case_match; simplify_eq.
  match goal with Hb : (_ || _)%bool = false |- _ => apply orb_false_iff in Hb as [?%Z.leb_gt ?%Z.leb_gt] end. done.
Qed.

Lemma main_parse_missing_number :
  main_parse [str "-ahost:50051"; str "-c4"; str "-x"] = Undef.
Proof using Type. reflexivity. Qed.
End CommandLine.

(** ** The test's numbers *)

(** With fewer requests than connections every connection has 0 of them to make. *)
Lemma begin_test_requests {K R} `{Kernel K} `{!KernelClock K} Connect connections requests (s : client K R) :
  0 < connections -> 0 <= requests < 2 ^ 31 ->
  wp (begin_test Connect connections requests) s (fun _ s' => _request_per_connection s' = requests / connections).
Proof.
  intros Hc Hr. unfold begin_test. rewrite (proj2 (Z.eqb_neq _ _)) by lia.
  rewrite Z.quot_div_nonneg by lia. pose proof (Z.div_pos requests connections).
  pose proof (Z.div_le_upper_bound requests connections requests).
  apply wp_bind, wp_arith; [change (32 - 1) with 31; nia|]. apply wp_bind, wp_modify, wp_bind, wp_modify, wp_bind, wp_clock.
  intros now o _. apply wp_bind, wp_modify. cl_simpl.
  generalize (Z.to_nat connections). intros n. set (s1 := Build_client _ _ _ _ _ _ _ _ _).
  assert (_request_per_connection s1 = requests / connections) as Hs1 by done. clearbody s1.
  generalize 1. revert s1 Hs1. induction n as [|n IH]; intros s1 Hs1 i; [done|]. cbn [connect_all].
  apply wp_bind, wp_modify. destruct (Connect i); [|by apply wp_ret]. by apply IH.
Qed.

(** ** Concrete runs *)

Definition echo_clock : Kernel unit := fun k _ =>
  ({| r_ret := 0; r_errno := 0; r_data := []; r_int := 0; r_events := [(1000, 0)] |}, k).

#[local] Existing Instance echo_clock.

Lemma echo_clock_ok : KernelClock unit.
Proof. intros k. cbn. lia. Qed.

#[local] Existing Instance echo_clock_ok.

Definition counting_rand : Rand Z := fun r => (r mod 2 ^ 31, r + 1).

#[local] Existing Instance counting_rand.

Lemma counting_rand_ok : RandLaws Z.
Proof. intros r. apply Z.mod_pos_bound. lia. Qed.

#[local] Existing Instance counting_rand_ok.

(** A client at its start, with [n] requests per connection. *)
Definition example_client (n : Z) : client unit Z :=
  cl_with_requests n (client_new {| os_kernel := tt; os_errno := 0; os_trace := [] |} 5).

Definition client_endpoint (cid : Z) : EndpointImpl :=
  SetConnection cid (EndpointImpl_new 9 (loopback4 80) (loopback4 81)).

Definition response_to (id : Z) : Slice := Slice_ctor (Some <$> frame (answer (id, str "B0E"))).

Definition example_messages : list client_message :=
  [ENDPOINT_ENTER (client_endpoint 17); ENDPOINT_ENTER (client_endpoint 18); ENDPOINT_MSG (client_endpoint 18) (response_to 0);
   ENDPOINT_MSG (client_endpoint 17) (response_to 0); ENDPOINT_MSG (client_endpoint 18) (response_to 1);
   ENDPOINT_LEAVE (client_endpoint 18)].

Lemma client_objects_exact_witness :
  exists s', dispatch_all example_messages (example_client 2) = Ret (tt, s') /\
    (forall cid, _conns s' !! cid = None <-> ({[17 := 1]} : gmap Z Z) !! cid = None) /\
    (forall cid k, ({[17 := 1]} : gmap Z Z) !! cid = Some k -> exists o i, _conns s' !! cid = Some (Some o) /\
      rp_counts (cl_ptrs s') !! o = Some 1 /\ cl_infos s' !! o = Some i /\ request_counter i = k /\ gen_id i = k + 1) /\
    (forall o n, rp_counts (cl_ptrs s') !! o = Some n -> exists! cid, _conns s' !! cid = Some (Some o)) /\
    (forall ep msg, ({[17 := 1]} : gmap Z Z) !! ConnectionId ep = None -> client_Dispatch (ENDPOINT_MSG ep msg) s' = Undef).
Proof.
  apply (client_objects_exact example_messages {[17 := 1]} (example_client 2)).
  - reflexivity.
  - reflexivity.
  - vm_compute. reflexivity.
  - reflexivity.
  - discriminate.
  - discriminate.
  - reflexivity.
Defined.

(** Two requests on a connection, then the close; and with 0 requests, a third one. *)
Lemma client_conversation_witness :
  (exists s' calls, dispatch_all (ENDPOINT_ENTER (client_endpoint 17) :: (ENDPOINT_MSG (client_endpoint 17) <$> [response_to 0; response_to 1]))
      (example_client 2) = Ret (tt, s') /\
    cl_calls s' = calls ++ [CallCloseEndpoint (client_endpoint 17) true] /\ Forall2 (sends 17) [0; 1] calls) /\
  (exists s' calls, dispatch_all (ENDPOINT_ENTER (client_endpoint 17) :: (ENDPOINT_MSG (client_endpoint 17) <$> [response_to 0; response_to 1]))
      (example_client 0) = Ret (tt, s') /\
    cl_calls s' = calls /\ Forall2 (sends 17) [0; 1; 2] calls).
Proof.
  assert (forall n, cinv ∅ (example_client n)) as Hc by (intros n; by apply cinv_start).
  assert (forall n, room 3 ∅ (example_client n)) as Hroom by (intros n; split; [apply map_Forall_empty|cbn; lia]).
  assert (Forall (fun m => is_Some (load_header (Slice_begin m))) [response_to 0; response_to 1]) as Hm.
  { repeat constructor; eexists; vm_compute; reflexivity. }
  split.
  - destruct (client_conversation (client_endpoint 17) [response_to 0; response_to 1] ∅ (example_client 2) (Hc 2)
      ltac:(discriminate) (lookup_empty _) Hm (Hroom 2)) as [_ H2].
    destruct (H2 ltac:(reflexivity) ltac:(reflexivity)) as (s' & calls & E & Ec & Hcalls & _).
    exists s', calls. split; [exact E|]. split; [exact Ec|exact Hcalls].
  - destruct (client_conversation (client_endpoint 17) [response_to 0; response_to 1] ∅ (example_client 0) (Hc 0)
      ltac:(discriminate) (lookup_empty _) Hm (Hroom 0)) as [H1 _].
    destruct (H1 ltac:(left; discriminate)) as (s' & calls & E & Ec & Hcalls & _).
    exists s', calls. split; [exact E|]. split; [exact Ec|exact Hcalls].
Defined.

(** Two connections with a request each; the first is closed before the second is answered.
    [OnClosed] counts the first one again, the sum is 3 and not 2, and the end of the
    test is not noticed. *)
Example finish_counted_twice :
  let a := client_endpoint 17 in
  let b := client_endpoint 18 in
  let run : M (client unit Z) unit :=
    _ ← begin_test (fun _ => true) 2 2;
    _ ← OnNotify a; _ ← OnNotify b; _ ← WorkThread_turn; _ ← WorkThread_turn;
    _ ← client_OnMessage a (response_to 0); _ ← WorkThread_turn;
    _ ← OnClosed a; _ ← WorkThread_turn;
    _ ← client_OnMessage b (response_to 0); WorkThread_turn in
  match run (example_client 0) with
  | Ret (_, s') => (cl_globals s' g_can_finish, cl_globals s' g_finish_connection, cl_globals s' g_connect_connection,
                    cl_globals s' g_begin_time, cl_globals s' g_end_time, size (_conns s')) = (1, 3, 2, 1000000, 0, 0%nat)
  | _ => False
  end.
Proof. vm_compute. reflexivity. Qed.
