(* ===== verification/EchoStats.v ===== *)
(** * The statistics of the echo client (the loop of main in example/echo_client.cc)

    Once the test is started main reads characters until it is given a q, and prints the
    counters for every other.  Its floating-point numbers are those of IEEE 754, [float]
    and [double], without excess precision; how [<<] writes a number is not modelled. *)

From Stdlib Require Import Floats.SpecFloat.
From stdpp Require Import functions.
From S2P Require Import Prelude.
From S2P Require Import OS.
From S2P Require Import Time.
From S2P Require Import EchoClient.

Local Open Scope Z_scope.

(** ** Numbers *)

Definition float_of_int (z : Z) : spec_float := binary_normalize 24 128 z 0 false.
Definition double_of_int (z : Z) : spec_float := binary_normalize 53 1024 z 0 false.
Definition double_of_float (x : spec_float) : spec_float :=
  match x with
  | S754_finite s m e => binary_normalize 53 1024 (if s then Z.neg m else Z.pos m) e s
  | x => x
  end.
Definition float_mul : spec_float -> spec_float -> spec_float := SFmul 24 128.
Definition float_div : spec_float -> spec_float -> spec_float := SFdiv 24 128.
Definition double_div : spec_float -> spec_float -> spec_float := SFdiv 53 1024.

(** [ms * 1.0f / 1000], stored in a [double]. *)
Definition seconds (ms : Z) : spec_float :=
  double_of_float (float_div (float_mul (float_of_int ms) (float_of_int 1)) (float_of_int 1000)).

(** ** A report *)

Inductive stat : Type :=
  | StatInt (z : Z)
  | StatDouble (x : spec_float).

Section Stats.
Context {K R : Type} `{Kernel K} `{Rand R}.
Abbreviation state := (client K R).
Variable number_of_connections number_of_requests : Z.

(** The lines, by what stands before the number. *)
Definition print_stats : M state (list (string * stat)) :=
  end_time ← load_global g_end_time;
  begin_time ← load_global g_begin_time;
  ms ← arith 64 (end_time - begin_time);
  let token_times_seconds := seconds ms in
  complete_requests ← load_global g_recv_request_count;
  sent ← load_global g_send_request_count;
  failed_requests ← arith 64 (sent - complete_requests);
  taken ← load_global g_all_requests_taken_time;
  let all_request_taken_seconds := seconds taken in
  max_time ← load_global g_max_request_time;
  min_time ← load_global g_min_request_time;
  success ← load_global g_success_connection;
  fail ← load_global g_fail_connection;
  finish ← load_global g_finish_connection;
  let requests_per_second := double_div (double_of_int complete_requests) all_request_taken_seconds in
  taken' ← load_global g_all_requests_taken_time;
  let ms_per_requests :=
    double_of_float (float_div (float_mul (float_of_int taken') (float_of_int 1)) (float_of_int complete_requests)) in
  mret [("Concurrency Level:      "%string, StatInt number_of_connections);
        ("Total requests:         "%string, StatInt number_of_requests);
        ("Time taken for tests:   "%string, StatDouble token_times_seconds);
        ("Complete requests:      "%string, StatInt complete_requests);
        ("Failed requests:        "%string, StatInt failed_requests);
        ("All requests take time: "%string, StatDouble all_request_taken_seconds);
        ("Request max taken time: "%string, StatInt max_time);
        ("Request min taken time: "%string, StatInt min_time);
        ("Success connections:    "%string, StatInt success);
        ("Fail connections:       "%string, StatInt fail);
        ("Finish connections:     "%string, StatInt finish);
        ("Requests per second:    "%string, StatDouble requests_per_second);
        ("Time per request:       "%string, StatDouble ms_per_requests)].

(** The first report of a test that is not over sets its end. *)
Definition report : M state (list (string * stat)) :=
  end_time ← load_global g_end_time;
  _ ← when (end_time =? 0) (now ← on_clock GetCurrentMilliseconds; store_global g_end_time now);
  print_stats.

(** ** The loop *)

Definition EOF : Z := -1.

(** The next character, and those after it. *)
Definition getchar (input : list Z) : Z * list Z :=
  match input with [] => (EOF, []) | c :: input => (c, input) end.

Definition quits (cb : Z) : bool := (cb =? 81) || (cb =? 113).

(** What the other threads do while main waits for its [n]th character. *)
Variable others : nat -> M state unit.

Fixpoint main_loop (fuel n : nat) (input : list Z) : M state (list (list (string * stat))) :=
  match fuel with
  | O => no_fuel
  | S fuel =>
      _ ← others n;
      let '(cb, input) := getchar input in
      if quits cb then mret []
      else r ← report; rs ← main_loop fuel (S n) input; mret (r :: rs)
  end.

(** ** Reports are defined *)

(** The times come from the clock, and the counts are not negative. *)
Definition stats_ok (s : state) : Prop :=
  0 <= cl_globals s g_end_time < 2 ^ 63 /\ 0 <= cl_globals s g_begin_time < 2 ^ 63 /\
  0 <= cl_globals s g_recv_request_count < 2 ^ 63 /\ 0 <= cl_globals s g_send_request_count < 2 ^ 63.

Context `{!KernelClock K}.

(** What a report says of the counters: requests that are still under way count as
    failed, and the rate is that of one connection, the time of a request counted for
    each connection that makes one. *)
Definition reports (g : global -> Z) (r : list (string * stat)) : Prop :=
  r !! 2%nat = Some ("Time taken for tests:   "%string, StatDouble (seconds (g g_end_time - g g_begin_time))) /\
  r !! 3%nat = Some ("Complete requests:      "%string, StatInt (g g_recv_request_count)) /\
  r !! 4%nat = Some ("Failed requests:        "%string, StatInt (g g_send_request_count - g g_recv_request_count)) /\
  r !! 11%nat = Some ("Requests per second:    "%string,
    StatDouble (double_div (double_of_int (g g_recv_request_count)) (seconds (g g_all_requests_taken_time)))).

Lemma print_stats_spec (s : state) :
  stats_ok s -> wp print_stats s (fun r s' => s' = s /\ reports (cl_globals s) r).
Proof using Type.
  intros (? & ? & ? & ?). unfold print_stats, load_global. do 2 apply wp_bind, wp_gets.
  apply wp_bind, wp_arith; [change (64 - 1) with 63; lia|]. do 2 apply wp_bind, wp_gets.
  apply wp_bind, wp_arith; [change (64 - 1) with 63; lia|]. do 7 apply wp_bind, wp_gets. apply wp_ret.
  unfold reports. split; [done|]. by split_and!.
Qed.

(** The globals after a report: the first one sets the end of a test that is not over. *)
Definition reported (g g' : global -> Z) : Prop :=
  (forall x, x <> g_end_time -> g' x = g x) /\ (g g_end_time <> 0 -> g' g_end_time = g g_end_time).

Lemma report_spec (s : state) :
  stats_ok s ->
  wp report s (fun r s' => stats_ok s' /\ reported (cl_globals s) (cl_globals s') /\ reports (cl_globals s') r).
Proof using KernelClock0.
  intros Hs. unfold report, load_global. apply wp_bind, wp_gets. destruct (Z.eqb_spec (cl_globals s g_end_time) 0) as [He|He].
  - cbn [when]. do 2 apply wp_bind. apply wp_clock. intros now o Hnow. apply wp_modify.
    set (s1 := cl_with_globals _ _).
    assert (cl_globals s1 = <[g_end_time := now]> (cl_globals s)) as E by done. clearbody s1.
    assert (stats_ok s1) as Hs1.
    { unfold stats_ok. rewrite E, fn_lookup_insert, !fn_lookup_insert_ne by done.
      destruct Hs as (_ & Hs). split; [lia|exact Hs]. }
    eapply wp_mono; [by apply print_stats_spec|]. intros r s' [-> Hr]. split; [done|]. split; [|done].
    rewrite E. split; [|done]. intros x Hx. by rewrite fn_lookup_insert_ne.
  - cbn [when]. apply wp_bind, wp_ret. eapply wp_mono; [by apply print_stats_spec|]. intros r s' [-> Hr]. done.
Qed.

(** ** When the loop ends *)

Hypothesis others_ok : forall n s, stats_ok s -> wp (others n) s (fun _ => stats_ok).

(** It ends at the first q, with a report for each character before it. *)
Lemma main_loop_quits (before after : list Z) (q : Z) (fuel n : nat) (s : state) :
  Forall (fun c => quits c = false) before -> quits q = true -> stats_ok s -> (length before < fuel)%nat ->
  wp (main_loop fuel n (before ++ q :: after)) s (fun rs _ => length rs = length before).
Proof using KernelClock0 others_ok.
  intros Hb Hq. revert fuel n s. induction Hb as [|c before Hc Hb IH]; intros fuel n s Hs Hf;
    (destruct fuel as [|fuel]; [cbn in Hf; lia|]); cbn [main_loop app getchar];
    apply wp_bind; (eapply wp_mono; [by apply others_ok|]); intros [] s1 Hs1; cbn beta in Hs1.
  - rewrite Hq. by apply wp_ret.
  - rewrite Hc. apply wp_bind. eapply wp_mono; [by apply report_spec|]. intros r s2 (Hs2 & _).
    apply wp_bind. eapply wp_mono; [apply IH; [done|cbn in Hf; lia]|]. intros rs s3 Hl. apply wp_ret. cbn. by rewrite Hl.
Qed.

(** At the end of the input there is no q to come, and it reports for ever. *)
Lemma main_loop_endless (input : list Z) (fuel n : nat) (s : state) :
  Forall (fun c => quits c = false) input -> stats_ok s -> main_loop fuel n input s = NoFuel.
Proof using KernelClock0 others_ok.
  revert input n s. induction fuel as [|fuel IH]; intros input n s Hi Hs; [done|]. cbn [main_loop].
  assert (quits (getchar input).1 = false /\ Forall (fun c => quits c = false) (getchar input).2) as [Hc Hi'].
  { destruct Hi; by split. }
  destruct (getchar input) as [cb input']. cbn [fst snd] in Hc, Hi'.
  unfold mbind, M_bind. pose proof (others_ok n s Hs) as Ho. unfold wp in Ho. destruct (others n s) as [[[] s1]| | |]; [|done..].
  rewrite Hc. pose proof (report_spec s1 Ho) as Hr. unfold wp in Hr. destruct (report s1) as [[r s2]| | |]; [|done..].
  by rewrite (IH input' (S n) s2 Hi' (proj1 Hr)).
Qed.
End Stats.

(** ** What the numbers are worth *)

(** Before the first response the rate is not a number. *)
Example no_rate_yet : double_div (double_of_int 0) (seconds 0) = S754_nan.
Proof. vm_compute. reflexivity. Qed.

(** Times pass through [float]: from [2^24] milliseconds on they are rounded. *)
Example seconds_rounded : seconds 16777217 = seconds 16777216 /\ seconds 16777216 <> seconds 16777215.
Proof. split; vm_compute; [reflexivity|discriminate]. Qed.

(** Two connections that each wait a second for their one response, at the same time:
    one request per second is reported, while two are made. *)
Example rate_of_one_connection : double_div (double_of_int 2) (seconds (1000 + 1000)) = double_of_int 1.
Proof. vm_compute. reflexivity. Qed.

#[local] Existing Instance echo_clock.
#[local] Existing Instance counting_rand.

(** One report for the x, none for the q. *)
Example one_report :
  let others := fun _ : nat => mret tt : M (client unit Z) unit in
  match main_loop 10 10 others 2 0 [120; 113] (example_client 1) with
  | Ret ([r], s) => r !! 4%nat = Some ("Failed requests:        "%string, StatInt 0) /\ cl_globals s g_end_time = 1000000
  | _ => False
  end.
Proof. vm_compute. by split. Qed.
