(* ===== verification/EchoMain.v ===== *)
(** * The echo programs from start to end (example/echo_server.cc, example/echo_client.cc)

    What the two programs ask the library for, and in which order they start and stop it:
    the server is an acceptor and a container, as in TestServer.v; the client a connector
    and a container, whose connections its [OnConnect] attaches.  What they do with
    messages is in Echo.v and EchoClient.v. *)

From S2P Require Import Prelude.
From S2P Require Import Cid.
From S2P Require Import Slice.
From S2P Require Import SockAddr.
From S2P Require Import Status.
From S2P Require Import Property.
From S2P Require Import OS.
From S2P Require Import Resolve.
From S2P Require Import Endpoint.
From S2P Require Import Connection.
From S2P Require Import Sync.
From S2P Require Import Thread.
From S2P Require Import Ledger.
From S2P Require Import TcpListener.
From S2P Require Import TcpConnector.
From S2P Require Import SlotTable.
From S2P Require Import Container.
From S2P Require Import Surface.
From S2P Require Import ContainerSafety.
From S2P Require Import TestServer.
From S2P Require Import Echo.
From S2P Require Import EchoClient.

Local Open Scope Z_scope.

Definition timeout_settings : list PropertyEntry :=
  [PropertyEntry_int "SocketRecvTimeoutMs" 5000; PropertyEntry_int "SocketSendTimeoutMs" 5000].

(** ** The server *)

(** The container's world and [g_endpoint_counter]. *)
Record echo_env (K : Type) : Type := {
  ee_world : world K;
  ee_counter : Z;
}.
Arguments Build_echo_env {K} _ _.
Arguments ee_world {K} _.
Arguments ee_counter {K} _.

Section Server.
Context {K : Type} `{Kernel K} `{LibC} `{Resolver K}.

Definition ee_with_world (w : world K) (e : echo_env K) : echo_env K := {| ee_world := w; ee_counter := ee_counter e |}.
Definition ee_count (e : echo_env K) : echo_env K := {| ee_world := ee_world e; ee_counter := i32 (ee_counter e + 1) |}.

#[export] Instance echo_in_process : InProcess (echo_env K) K := {
  env_os e := w_os (ee_world e);
  env_with_os o e := ee_with_world (w_with_os o (ee_world e)) e;
  env_os_with o e := eq_refl;
}.
#[export] Instance echo_container : HasContainer (echo_env K) K :=
  { env_world := ee_world; env_with_world := ee_with_world }.

(** The result of [AttachEndpoint] is not looked at. *)
#[export] Instance echo_OnAccept : AcceptorHandler (echo_env K) := fun obj settings =>
  let settings := Property_set_list timeout_settings settings in
  _ ← modify ee_count;
  ep ← on_world (new_endpoint obj);
  _ ← on_world (AttachEndpoint ep false);
  w ← gets ee_world;
  obj ← of_option (w_eps w !! ep);
  mret (obj, settings).

(** Where the four handlers are in the object. *)
Variable this : nat -> Z.

Definition echo_server_properties (cpus : Z) : Property := Property_list
  [PropertyEntry_ptr "AcceptorHandler" (this 0); PropertyEntry_ptr "MessageHandler" (this 1);
   PropertyEntry_ptr "ProtocolHandler" (this 2); PropertyEntry_ptr "EndpointClosedHandler" (this 3);
   PropertyEntry_bool "NotCheckConnectionTimeout" true; PropertyEntry_int "RecvSendThreads" cpus;
   PropertyEntry_int "MQConsumerThreads" 1].

(** No [HeartbeatHandler]: no interval is asked for. *)
Definition no_interval (_ : Z) : Z := 0.

(** [cell]: the number of processors, once it was asked for. *)
Definition echo_server_init (cell : option Z) : M (listener_world (echo_env K)) (option Z) :=
  '(cpus, cell) ← listener_os (raptor_get_number_of_cpu_cores cell);
  let p := echo_server_properties cpus in
  '(err, container) ← in_container (CreateContainer no_interval p);
  match err with
  | Some _ => abort
  | None =>
      '(err, acceptor) ← CreateAcceptor p;
      match err with Some _ => abort | None => mret cell end
  end.

Variable somaxconn_file : option (option (list byte)).

Definition echo_start_and_listening : list byte -> M (listener_world (echo_env K)) unit :=
  start_and_listening somaxconn_file.
Definition echo_server_stop : M (listener_world (echo_env K)) unit := server_stop.
Definition echo_server_dtor : M (listener_world (echo_env K)) unit := server_dtor.

(** From [init] to the end of [main]; [events] is what happens between. *)
Definition echo_server_main (cell : option Z) (events : M (listener_world (echo_env K)) unit) :
    M (listener_world (echo_env K)) (option Z) :=
  cell ← echo_server_init cell;
  _ ← echo_start_and_listening (str "0.0.0.0:50051");
  _ ← events;
  _ ← echo_server_stop;
  _ ← echo_server_dtor;
  mret cell.

(** What the container is told: a thread for each processor, one thread for the messages,
    connections that are never timed out, the default sizes. *)
Lemma echo_server_options (cpus : Z) :
  (forall n, (n < 4)%nat -> 0 < this n < 2 ^ 63) -> 1 <= cpus < 2 ^ 31 ->
  option_of no_interval (echo_server_properties cpus) = {|
    op_msg_handler := true; op_proto_handler := true; op_heartbeat_handler := None;
    op_closed_handler := true; op_notify_handler := false;
    op_recv_send_threads := cpus; op_default_container_size := 256; op_max_container_size := 1048576;
    op_not_check_connection_timeout := true; op_connection_timeoutms := 60000; op_mq_consumer_threads := 1 |}.
Proof using Type.
  intros Hthis Hcpus. set (p := echo_server_properties cpus).
  assert (forall key k, (k < 4)%nat -> p !! key = Some (u64 (this k)) -> present key p = true) as Hptr
    by (intros key k Hk E; eapply pointer_present; [exact E|by apply Hthis]).
  assert (p !! "RecvSendThreads"%string = Some (u64 cpus)) as Ht by reflexivity.
  unfold option_of. rewrite (Hptr "MessageHandler"%string 1%nat ltac:(lia) eq_refl), (Hptr "ProtocolHandler"%string 2%nat ltac:(lia) eq_refl), (Hptr "EndpointClosedHandler"%string 3%nat ltac:(lia) eq_refl).
  rewrite (size_value_int _ _ _ _ Ht) by lia. reflexivity.
Qed.
End Server.

(** ** The client *)

(** The container's world, and the worker thread with its flag. *)
Record echo_client_env (K : Type) : Type := {
  ec_world : world K;
  ec_thd : Thread;
  ec_shutdown : bool;
}.
Arguments Build_echo_client_env {K} _ _ _.
Arguments ec_world {K} _.
Arguments ec_thd {K} _.
Arguments ec_shutdown {K} _.

Section Client.
Context {K : Type} `{Kernel K} `{LibC} `{Resolver K}.

Definition ec_with_world (w : world K) (e : echo_client_env K) : echo_client_env K :=
  {| ec_world := w; ec_thd := ec_thd e; ec_shutdown := ec_shutdown e |}.
Definition ec_with_thread (t : Thread) (e : echo_client_env K) : echo_client_env K :=
  {| ec_world := ec_world e; ec_thd := t; ec_shutdown := ec_shutdown e |}.
Definition ec_with_shutdown (b : bool) (e : echo_client_env K) : echo_client_env K :=
  {| ec_world := ec_world e; ec_thd := ec_thd e; ec_shutdown := b |}.

#[export] Instance echo_client_in_process : InProcess (echo_client_env K) K := {
  env_os e := w_os (ec_world e);
  env_with_os o e := ec_with_world (w_with_os o (ec_world e)) e;
  env_os_with o e := eq_refl;
}.
#[export] Instance echo_client_container : HasContainer (echo_client_env K) K :=
  { env_world := ec_world; env_with_world := ec_with_world }.

(** The number given to [Connect] becomes the endpoint's [ExtInfo]; what the container
    refuses ends the program. *)
Definition client_OnConnect (obj : EndpointImpl) (settings : Property) : M (echo_client_env K) (EndpointImpl * Property) :=
  let settings := Property_set_list timeout_settings settings in
  let current_index := GetValue u64 "UserCustomValue" 0 settings in
  ep ← on_world (new_endpoint obj);
  _ ← on_world (Handle_SetExtInfo ep current_index);
  e ← on_world (AttachEndpoint ep true);
  match e with
  | Some _ => abort
  | None =>
      w ← gets ec_world;
      obj ← of_option (w_eps w !! ep);
      mret (obj, settings)
  end.

(** The counters of [OnErrorOccurred] are in EchoClient.v. *)
#[export] Instance echo_connect_handler : ConnectorHandler (echo_client_env K) := {
  TcpConnector.OnConnect := client_OnConnect;
  TcpConnector.OnErrorOccurred ep desc := mret ep;
}.

Abbreviation echo_client := (connector_world (echo_client_env K)).

Definition client_container {A} (m : M (world K) A) : M echo_client A := connector_env (on_world m).

(** Where the five handlers are in the object. *)
Variable this : nat -> Z.

Definition echo_client_properties : Property := Property_list
  [PropertyEntry_ptr "ConnectorHandler" (this 0); PropertyEntry_ptr "MessageHandler" (this 1);
   PropertyEntry_ptr "ProtocolHandler" (this 2); PropertyEntry_ptr "EndpointClosedHandler" (this 3);
   PropertyEntry_ptr "EndpointNotifyHandler" (this 4); PropertyEntry_bool "NotCheckConnectionTimeout" true;
   PropertyEntry_int "TcpUserTimeoutMs" 5000; PropertyEntry_int "RecvSendThreads" 1;
   PropertyEntry_int "MQConsumerThreads" 1].

(** [EchoClient::EchoClient]: the thread is created here, and waits to be started. *)
Definition echo_client_ctor : M echo_client unit :=
  '(t, ok) ← connector_os Thread_new;
  connector_env (modify (ec_with_thread (Thread_move t).2)).

(** [init] asks for the number of processors and does not use it. *)
Definition echo_client_init (cell : option Z) : M echo_client (option Z) :=
  '(cpus, cell) ← connector_os (raptor_get_number_of_cpu_cores cell);
  '(err, container) ← client_container (CreateContainer no_interval echo_client_properties);
  match err with
  | Some _ => abort
  | None =>
      '(err, connector) ← CreateConnector echo_client_properties;
      match err with Some _ => abort | None => mret cell end
  end.

Definition echo_client_start : M echo_client unit :=
  _ ← connector_env (modify (ec_with_shutdown false));
  e ← gets cw_env;
  t ← connector_os (Thread_Start (ec_thd e));
  _ ← connector_env (modify (ec_with_thread t));
  err ← TcpConnector_Start;
  match err with
  | Some _ => mret tt
  | None => err ← client_container Container_Start; mret tt
  end.

(** The worker is joined before the connector and the container are shut down. *)
Definition echo_client_stop : M echo_client unit :=
  _ ← connector_env (modify (ec_with_shutdown true));
  e ← gets cw_env;
  t ← connector_os (Thread_Join (ec_thd e));
  _ ← connector_env (modify (ec_with_thread t));
  _ ← TcpConnector_Shutdown;
  client_container Container_Shutdown.

(** The body of [~EchoClient]; its members are in [client_exit]. *)
Definition echo_client_dtor : M echo_client unit :=
  _ ← DestroyConnector true;
  client_container (DestroyContainer true).

Lemma echo_client_options :
  (forall n, (n < 5)%nat -> 0 < this n < 2 ^ 63) ->
  option_of no_interval echo_client_properties = {|
    op_msg_handler := true; op_proto_handler := true; op_heartbeat_handler := None;
    op_closed_handler := true; op_notify_handler := true;
    op_recv_send_threads := 1; op_default_container_size := 256; op_max_container_size := 1048576;
    op_not_check_connection_timeout := true; op_connection_timeoutms := 60000; op_mq_consumer_threads := 1 |}.
Proof using Type.
  intros Hthis. set (p := echo_client_properties).
  assert (forall key k, (k < 5)%nat -> p !! key = Some (u64 (this k)) -> present key p = true) as Hptr
    by (intros key k Hk E; eapply pointer_present; [exact E|by apply Hthis]).
  unfold option_of. rewrite (Hptr "MessageHandler"%string 1%nat ltac:(lia) eq_refl), (Hptr "ProtocolHandler"%string 2%nat ltac:(lia) eq_refl),
    (Hptr "EndpointClosedHandler"%string 3%nat ltac:(lia) eq_refl), (Hptr "EndpointNotifyHandler"%string 4%nat ltac:(lia) eq_refl). reflexivity.
Qed.
End Client.

(** ** Connecting *)

Section Connecting.
Context {K : Type} `{Kernel K} `{!KernelIO K} `{LibC}.

Lemma user_value_read (i : Z) :
  GetValue u64 "UserCustomValue" 0
    (Property_set_list timeout_settings (Property_entry (PropertyEntry_ptr "UserCustomValue" i))) = u64 i.
Proof using Type.
  unfold GetValue. set (p := Property_set_list _ _).
  assert (p !! "UserCustomValue"%string = Some (u64 i)) as -> by reflexivity.
  unfold u64. apply wrap_small, wrap_range. lia.
Qed.

(** A connection that is established goes to the container with its number as [ExtInfo]:
    the handler returns with the descriptor in the container's hands, or the container
    refuses it and the program is aborted; nothing else happens. *)
Lemma client_OnConnect_attaches (fd i : Z) (local remote : raptor_resolved_address) (e : echo_client_env K) :
  0 < fd < 2 ^ 31 -> winv [] None (ec_world e) ->
  exists ep w1, w_eps w1 !! ep = Some (SetExtInfo (u64 i) (EndpointImpl_new fd local remote)) /\
    match client_OnConnect (EndpointImpl_new fd local remote)
            (Property_entry (PropertyEntry_ptr "UserCustomValue" i)) e with
    | Ret (_, e') => AttachEndpoint ep true w1 = Ret (None, ec_world e') /\
        winv [] None (ec_world e') /\ effect [fd] (ec_world e) (ec_world e')
    | Abort => exists err w', AttachEndpoint ep true w1 = Ret (Some err, w')
    | _ => False
    end.
Proof.
  intros Hfd Hw. set (obj := EndpointImpl_new fd local remote). set (w := ec_world e).
  set (ep := fresh (dom (w_eps w))). set (obj1 := SetExtInfo (u64 i) obj).
  set (w1 := w_with_eps (<[ep := obj1]> (w_eps w)) w).
  assert (w_eps w !! ep = None) as Hep by (apply not_elem_of_dom, is_fresh).
  assert (holds_fd obj1) as Hh by (unfold holds_fd, obj1; cbn; unfold u64; by rewrite wrap_small by lia).
  assert (fd_int obj1 = fd) as Efd by (apply (fd_int_new fd local remote); lia).
  destruct (winv_new_endpoint [] None ep obj1 w Hw Hep Hh eq_refl (conj (Z.le_refl 0) eq_refl)) as [Hw1 He1].
  assert (w_eps w1 !! ep = Some obj1) as Hobj1 by (cbn; apply lookup_insert_eq).
  exists ep, w1. split; [exact Hobj1|].
  pose proof (steps_AttachEndpoint ep obj1 true w1 Hw1 Hobj1 eq_refl Hh) as Ha. rewrite Efd in Ha. unfold wp in Ha.
  unfold client_OnConnect. cbn zeta. rewrite user_value_read.
  unfold new_endpoint, Handle_SetExtInfo, modify_endpoint, on_world, zoom, mbind, M_bind, gets, modify, mret, M_ret, id.
  cbn [env_world env_with_world echo_client_container ec_world ec_with_world w_eps w_with_eps].
  fold w ep. match goal with |- context [AttachEndpoint ep true ?v] => assert (v = w1) as -> end.
  { unfold w1, w_with_eps. cbn. by rewrite alter_insert_eq. }
  destruct (AttachEndpoint ep true w1) as [[[err|] w2]| | |] eqn:E; [by exists err, w2| |done..].
  destruct Ha as [Hw2 He2]. cbn [ec_world]. destruct (ef_eps _ _ _ He2 ep) as [obj2 Hobj2]; [by exists obj1|].
  cbn [env_world env_with_world echo_client_container ec_world ec_with_world]. rewrite Hobj2. cbn. split; [done|]. split; [done|]. rewrite <- (app_nil_l [fd]). by eapply effect_trans.
Qed.
End Connecting.

(** ** The end of the client *)

Section Exit.
Context {K R : Type} `{Kernel K} `{Rand R}.

(** The container's threads go on calling the handlers until it is shut down. *)
Inductive late_call : Type :=
  | LateMessage (ep : EndpointImpl) (msg : Slice)
  | LateClosed (ep : EndpointImpl).

Definition run_late (c : late_call) : M (client K R) unit :=
  match c with
  | LateMessage ep msg => _ ← client_OnMessage ep msg; mret tt
  | LateClosed ep => EchoClient.OnClosed ep
  end.

Fixpoint run_lates (cs : list late_call) : M (client K R) unit :=
  match cs with
  | [] => mret tt
  | c :: cs => _ ← run_late c; run_lates cs
  end.

(** What [~MultiProducerSingleConsumerQueue] asserts, on the queue as a FIFO
    ([mpscq_quiescent_pop], [mpscq_delete_aborts]). *)
Definition queue_dtor : M (client K R) unit :=
  s ← gets id; raptor_assert (bool_decide (_mpscq s = [])).

(** From the moment the worker was joined: the calls that still come, the members'
    destructors. *)
Definition client_exit (late : list late_call) : M (client K R) unit :=
  _ ← run_lates late;
  queue_dtor.

Definition late_message (c : late_call) : client_message :=
  match c with LateMessage ep msg => ENDPOINT_MSG ep msg | LateClosed ep => ENDPOINT_LEAVE ep end.

Lemma run_lates_queue late s :
  exists s', run_lates late s = Ret (tt, s') /\ _mpscq s' = _mpscq s ++ (late_message <$> late).
Proof using Type.
  revert s. induction late as [|c late IH]; intros s; [exists s; by rewrite app_nil_r|]. cbn [run_lates].
  assert (exists s1, run_late c s = Ret (tt, s1) /\ _mpscq s1 = _mpscq s ++ [late_message c]) as (s1 & E1 & Hq1)
    by (by destruct c; eexists).
  destruct (IH s1) as (s2 & E2 & Hq2). exists s2. unfold mbind, M_bind. rewrite E1, E2. split; [done|].
  by rewrite Hq2, Hq1, <- app_assoc.
Qed.

(** The client ends by aborting unless, when the worker was joined, all messages had been
    taken off the queue and no handler is called any more: the worker is joined before
    the connector and the container are shut down, and nobody drains the queue. *)
Lemma client_exit_aborts (late : list late_call) (s : client K R) :
  (_mpscq s = [] /\ late = [] -> client_exit late s = Ret (tt, s)) /\
  (_mpscq s <> [] \/ late <> [] -> client_exit late s = Abort).
Proof using Type.
  unfold client_exit, mbind, M_bind. split.
  - intros [Hq ->]. cbn. unfold queue_dtor, mbind, M_bind, gets, id. by rewrite bool_decide_eq_true_2.
  - intros Hne. destruct (run_lates_queue late s) as (s' & -> & Hq). unfold queue_dtor, mbind, M_bind, gets, id.
    rewrite bool_decide_eq_false_2; [done|]. rewrite Hq. intros [Hq1 Hq2]%app_eq_nil. destruct Hne as [Hne|Hne]; [done|].
    by destruct late.
Qed.
End Exit.
